(* ===== verification/_CoqProject ===== *)
-Q . S2P
Prelude.v
Pb.v
LinkTable.v
MultiHashTable.v
ForceSet.v
ObjPool.v
MemPool.v
Crypt.v
Packet.v
Traffic.v
Keys.v
KnvHeap.v
KnvHt.v
KnvNode.v
KnvSize.v
KnvExpand.v
KnvOwn.v
Storage.v
KnvFields.v
KnvFloat.v
ResultSet.v
KnvFaults.v
KnvTree.v
Protocol.v
KnvPacket.v
KnvEncode.v
KnvParts.v
Server.v
Client.v
AttrApi.v
InitOnce.v
Cfg.v
LogFile.v
ShmAdapter.v
ShmTables.v
Net.v
Fork.v
Startup.v
KnvShow.v
KnvInput.v
KnvPrint.v
