(* ===== verification/Prelude.v ===== *)
(** * Verification of mysql_proxy

    mysql_proxy is a server that answers SELECT, SHOW and DESC statements for its clients, from a database or
    from a cache in shared memory, and a client library that looks like the MySQL one.  This library models both in
    Rocq and proves what they do.  The definitions carry the names of the functions they translate; the comment
    before each names the file and the lines.

    ** The program

    A client (src/mysql_proxy_api.cpp) encrypts a statement with the key of its application, puts it into a tree of
    tagged fields, writes the tree as a protobuf message, puts a packet header before it and sends it.  The server
    (src/mysql_proxy_server.cpp) reads its configuration and its key file, makes the cache, forks its workers, and
    accepts connections while the traffic limit allows it.  A worker cuts the bytes of a connection into packets,
    decrypts the statement, looks for the answer in the cache (src/storage.cc), asks the database when it is not
    there, packs the result into a tree, writes the tree to the cache and sends it back.  The cache is a hash
    table of several rows (src/ht/multi_hash_table.cc) whose data is kept in chains of blocks (src/ht/link_table.cc).
    The trees are the library under src/knv: nodes that are expanded from a message when they are looked
    into and written back when they are sent, with nodes and buffers from memory pools.

    ** Files

    From the ground up; a file requires only files before it.

    - Prelude.v: machine integers, byte strings, blocks of memory, lemmas and tactics all files share.
    - Pb.v: the wire format (src/knv/pb.h, pb.c), decoder and encoder cursors.
    - LinkTable.v: chains of blocks (src/ht/link_table.h, link_table.cc).  The abstract store is a map from handles
      to strings.
    - MultiHashTable.v: the hash table (src/ht/multi_hash_table.h, multi_hash_table.cc), over LinkTable.v.  The
      abstract table is a map from keys to strings.  ForceSet.v: insertion with eviction.
    - ObjPool.v, MemPool.v: pools of objects and of buffers (src/knv/obj_base.h, obj_pool.h, mem_pool.h, mem_pool.cc).
    - Crypt.v: encryption and hex dumps in both programs.  The DES routines are the class [Des].
    - Packet.v: both ParsePacket functions and the loop of a worker.
    - Traffic.v: the byte counters (src/comm/atomic_counter_array.c) and TrafficCtl.
    - Keys.v: LoadKeyFile.
    - KnvHeap.v: the memory of the tree library: nodes, buffers, keys, and the hash table KnvHt of a node's
      children.  A computation is a state monad with two more outcomes, a crash and a lack of fuel.
    - KnvHt.v: KnvHt is a set of nodes.
    - KnvNode.v: the operations of KnvNode on a node and its children (src/knv/knv_node.h, knv_node.cc).
    - KnvSize.v, KnvExpand.v, KnvOwn.v: writing trees, reading trees, trees made from a buffer of the caller.
    - KnvFields.v: insertion, the walk over children, and fields by tag.  KnvFloat.v: floating-point fields and the order of keys.
      KnvTree.v: operations between two trees.
    - KnvFaults.v: concrete executions in which the tree library fails.
    - Storage.v: UcStorage (src/storage.h, storage.cc), on the heap of KnvHeap.v and the tables of MultiHashTable.v.
    - ResultSet.v: PackResult of the server, and the client's functions that walk a result, on the same heap.
    - Server.v: the handling of a request, with the pool of database connections.
    - Client.v: the client's handle, requests and responses.
    - AttrApi.v: the monitoring counters (src/comm/Attr_API.c) under interleaving.  InitOnce.v: threads that attach them.
    - Cfg.v: configuration files (src/comm/oi_cfg.c).  LogFile.v: log files and their rotation (src/comm/oi_log.c).
    - ShmAdapter.v: shared memory segments (src/ht/shm_adapter.cc).  ShmTables.v: the hash table on them.
      Net.v: addresses and sockets (src/knv/net.cc).
    - Fork.v: the workers and their supervision (src/comm/fork_children.c).
    - Startup.v: ProxyInit, the listening socket and the loop of main.
    - KnvShow.v, KnvInput.v: the tool src/knv/knv_show.cpp: .proto files as enumerations, and the input of packets.
    - KnvPrint.v: Print of trees and packets (src/knv/knv_node.cc, protocol.cc, commands.h) and the tool's showing of packets.
    - Protocol.v: request and response objects over trees (src/knv/protocol.h, protocol.cc).  KnvPacket.v: reading packets.
      KnvEncode.v: writing them.  KnvParts.v: executions, with packets in parts and in the other format.

    ** State, effects and errors

    A structure is a [Record], an enumeration an [Inductive] type, and every function a [Definition] or [Fixpoint] that
    can be evaluated.  A C integer is a [Z] with its wrap-around written out ([u32], [s32] and so on in Prelude.v).  Memory
    is a byte list with offsets or a map from numbers to records.  [None], or [Crash] in the files on trees, is undefined
    behaviour of the C++ code: an access outside a block, a copy past an array, a use of a freed buffer, a division by
    zero.  Return codes are values.  Where threads or processes interleave, the model is a step relation with
    one step for each access to shared memory: the free list in ObjPool.v, the counters in AttrApi.v, their spin lock in
    InitOnce.v, and the parent
    with its signal handler in Fork.v.  Everything else runs in one thread; the hash table is used under the lock
    that the server takes.

    ** Interfaces

    Code that is not in the repository is the instance of a class, or an argument, with the documented behaviour as
    laws: [Des] and [DesLaws] (the DES routines of the C library), [MySQL] and [MySQLLaws] (the MySQL client library),
    [shm_calls] and [ShmOS] (System V shared memory), [net_calls] (sockets), [env] (time and locks), the results of [fork].  Every
    theorem with such a law has a witness with a concrete instance.  Within the program, [Knv] (trees) and [Cache]
    are the classes that Server.v and Client.v are written against; [flat_knv] is an instance of the first in which a tree
    is its list of fields.  ResultSet.v and Storage.v work on the heap itself.

    ** What the theorems show

    - The whole path: a query comes back with the text the server sent, however the network cuts the packets
      ([query_round_trip]); serving any bytes is safe and runs only reading statements ([serve_safe]); every request of
      a registered application is answered once ([process_request_answers]).
    - Results: a client reads the rows the message holds ([result_rows]), and gets from the cache the tree
      that was put into it ([cache_roundtrip], [cache_read]).
    - Start-up: settings are well typed ([settings_type], [last_line_decides], [load_key_file_spec]), a worker starts ready
      ([proxy_init_ready]), workers are not lost ([supervision]), and the loop of main closes or serves what it accepts
      ([accept_turn], [traffic_refines]).
    - The hash table refines a map ([mht_set_refines], [force_set_refines], [mht_get_refines], [mht_erase_refines]),
      over a store of strings that the blocks refine ([set_data_refines], [get_data_reads],
      [erase_data_refines]).
    - Trees: reading and writing a message ([expand_message], [rebuild_message], [serialize_exact]), the table of
      children ([table_put], [table_get], [table_remove]).
    - The wire format: round trip, bounds and termination ([message_roundtrip], [pb_fields_total],
      [skip_field_in_step]).  Framing and encryption: [worker_framing], [crypt_roundtrip].
    - Pools and counters: [pool_accounting], [attr_conserved], [attr_wait_free]; and, without a number, [shm_adapter_no_leak],
      [init_exclusive], [Log_message], [Log_bounded], [messages_printed],
      [hex_input] and [PrintLeaf_shows].
    - Faults, each shown on the definitions: [short_length_throws], [small_buffer_wraps], [fold_lookup_hangs],
      [concurrent_new_shares], and those stated by lemmas and examples without a number.
    - Packets of the KNV protocol: an object made from a packet has the packet's header and first body ([decode_packet]), and a
      packet written from a header and a body is read with both ([packet_roundtrip]).

    ** Fuel

    Loops over lists recurse on the list.  The others have fuel, and a theorem says how much is enough: decoding a message
    takes one turn for each byte at most and one more; [ParsePacket] one for each byte of the buffer and one more;
    the parser of .proto files one for each character and one more
    ([parse_more_fuel]); [query_loop] eleven, since at most ten calls are tried again; walks over the chains of [KnvHt] as many as
    there are nodes; an erased or overwritten string of the link table as many as there are blocks.  The functions
    on trees take the height of the tree; their theorems have it as the parameter that the fuel must reach.  A call
    of the monitoring counters ends after 15560 steps.

    ** Assumptions

    The kernel does not give a new process a number that is still in the parent's array (Fork.v); a compare-and-swap is
    one atomic step; [malloc] and the pools may fail at any call, as the lists of results given to the models say.

    ** Not modelled

    - the models leave out the calls of Log and Attr_API in the other files, and the texts of error messages except for those that
      are sent to a client.
    - src/crypt_test.cpp, src/mysql_proxy_test.cpp, src/mysql_proxy_test_raw.cpp, src/knv/knv_node_test.cpp,
      src/knv/mempool_test.cpp: test programs.
    - src/knv/knv_codec.h and knv_codec_default.c: renamings of the functions of pb.c.
    - the percentages of MultiHashTable that are only reported. *)

From stdpp Require Export base tactics option list gmap strings.
From Stdlib Require Export ZArith Lia.

#[export] Set Default Goal Selector "!".

Declare Scope proxy_scope.
Delimit Scope proxy_scope with proxy.
#[global] Open Scope Z_scope.

(** ** Machine integers

    A [w]-bit unsigned integer is a [Z] kept in range by its wrap-around. *)

Definition u8 (z : Z) : Z := z mod 2 ^ 8.
Definition u16 (z : Z) : Z := z mod 2 ^ 16.
Definition u32 (z : Z) : Z := z mod 2 ^ 32.
Definition u48 (z : Z) : Z := z mod 2 ^ 48.
Definition u64 (z : Z) : Z := z mod 2 ^ 64.

(** Conversion to a signed 32-bit [int], two's complement. *)
Definition s32 (z : Z) : Z := (z + 2 ^ 31) mod 2 ^ 32 - 2 ^ 31.
Definition s64 (z : Z) : Z := (z + 2 ^ 63) mod 2 ^ 64 - 2 ^ 63.

Lemma u8_small z : 0 <= z < 2 ^ 8 -> u8 z = z.
Proof. apply Z.mod_small. Qed.
Lemma u16_small z : 0 <= z < 2 ^ 16 -> u16 z = z.
Proof. apply Z.mod_small. Qed.
Lemma u32_small z : 0 <= z < 2 ^ 32 -> u32 z = z.
Proof. apply Z.mod_small. Qed.
Lemma u48_small z : 0 <= z < 2 ^ 48 -> u48 z = z.
Proof. apply Z.mod_small. Qed.
Lemma u64_small z : 0 <= z < 2 ^ 64 -> u64 z = z.
Proof. apply Z.mod_small. Qed.
Lemma s32_small z : - 2 ^ 31 <= z < 2 ^ 31 -> s32 z = z.
Proof. intros H. unfold s32. rewrite Z.mod_small; lia. Qed.
Lemma s64_small z : - 2 ^ 63 <= z < 2 ^ 63 -> s64 z = z.
Proof. intros H. unfold s64. rewrite Z.mod_small; lia. Qed.

Lemma u8_range z : 0 <= u8 z < 2 ^ 8.
Proof. apply Z.mod_pos_bound; lia. Qed.
Lemma u32_range z : 0 <= u32 z < 2 ^ 32.
Proof. apply Z.mod_pos_bound; lia. Qed.
Lemma u64_range z : 0 <= u64 z < 2 ^ 64.
Proof. apply Z.mod_pos_bound; lia. Qed.
Lemma s32_range z : - 2 ^ 31 <= s32 z < 2 ^ 31.
Proof. unfold s32. pose proof (Z.mod_pos_bound (z + 2 ^ 31) (2 ^ 32)). lia. Qed.

Lemma s32_sub z a : s32 (s32 z - a) = s32 (z - a).
Proof.
  unfold s32. f_equal.
  replace ((z + 2 ^ 31) mod 2 ^ 32 - 2 ^ 31 - a + 2 ^ 31)
    with ((z + 2 ^ 31) mod 2 ^ 32 - a) by lia.
  rewrite Zminus_mod_idemp_l. f_equal. lia.
Qed.

Lemma lor_range a b n :
  0 < n -> 0 <= a < 2 ^ n -> 0 <= b < 2 ^ n -> 0 <= Z.lor a b < 2 ^ n.
Proof.
  intros Hn Ha Hb. assert (0 <= Z.lor a b) by (apply Z.lor_nonneg; lia).
  split; [done|]. destruct (Z.eq_dec (Z.lor a b) 0) as [->|]; [lia|].
  apply Z.log2_lt_pow2; [lia|]. rewrite Z.log2_lor by lia.
  destruct (Z.eq_dec a 0) as [->|], (Z.eq_dec b 0) as [->|];
    apply Z.max_lub_lt; first [apply Z.log2_lt_pow2; lia | cbn; lia].
Qed.

Create Rewrite HintDb mint.
#[export] Hint Rewrite u8_small u16_small u32_small u48_small u64_small
  s32_small s64_small using lia : mint.
Ltac mint := autorewrite with mint in *.

(** ** Bytes and memory

    A byte is a [Z] in [0, 256); a memory block is the list of its bytes. *)

Abbreviation bytes := (list Z).

Definition is_byte (b : Z) : Prop := 0 <= b < 256.
Definition is_bytes (l : bytes) : Prop := Forall is_byte l.

Definition len {A} (l : list A) : Z := Z.of_nat (length l).

Lemma len_nonneg {A} (l : list A) : 0 <= len l.
Proof. unfold len; lia. Qed.
Lemma len_nil {A} : len (@nil A) = 0.
Proof. reflexivity. Qed.
Lemma len_cons {A} (x : A) l : len (x :: l) = 1 + len l.
Proof. unfold len; cbn [length]; lia. Qed.
Lemma len_app {A} (l k : list A) : len (l ++ k) = len l + len k.
Proof. unfold len; rewrite length_app; lia. Qed.
#[export] Hint Rewrite @len_nil @len_cons @len_app : mint.

(** [mem_read m off n] reads [n] bytes at offset [off]; [None] is an access
    outside the block, which the C code must never perform. *)
Definition mem_read (m : bytes) (off n : Z) : option bytes :=
  if decide (0 <= off /\ 0 <= n /\ off + n <= len m)
  then Some (take (Z.to_nat n) (drop (Z.to_nat off) m)) else None.

Definition mem_write (m : bytes) (off : Z) (src : bytes) : option bytes :=
  if decide (0 <= off /\ off + len src <= len m)
  then Some (take (Z.to_nat off) m ++ src
             ++ drop (Z.to_nat (off + len src)) m)
  else None.

(** Little-endian integers of [n] bytes. *)
Fixpoint le_split (n : nat) (z : Z) : bytes :=
  match n with
  | O => []
  | S n' => z mod 256 :: le_split n' (z / 256)
  end.

Fixpoint le_combine (l : bytes) : Z :=
  match l with
  | [] => 0
  | b :: l' => b + 256 * le_combine l'
  end.

Lemma length_le_split n z : length (le_split n z) = n.
Proof. revert z; induction n; cbn; auto. Qed.

Lemma len_le_split n z : len (le_split n z) = Z.of_nat n.
Proof. unfold len; now rewrite length_le_split. Qed.

Lemma le_combine_split n z :
  0 <= z < 256 ^ Z.of_nat n -> le_combine (le_split n z) = z.
Proof.
  revert z; induction n as [|n IH]; intros z Hz; cbn [le_split le_combine].
  - cbn in Hz; lia.
  - rewrite IH.
    + pose proof (Z.div_mod z 256); lia.
    + split; [apply Z.div_pos; lia|].
      apply Z.div_lt_upper_bound; [lia|].
      rewrite Nat2Z.inj_succ, Z.pow_succ_r in Hz by lia; lia.
Qed.

Lemma le_split_bytes n z : is_bytes (le_split n z).
Proof.
  revert z; induction n as [|n IH]; intros z; cbn; [constructor|].
  constructor; [apply Z.mod_pos_bound; lia|apply IH].
Qed.

Lemma le_combine_range l :
  is_bytes l -> 0 <= le_combine l < 256 ^ len l.
Proof.
  induction 1 as [|b l Hb Hl IH].
  - change (0 <= 0 < 256 ^ 0). lia.
  - cbn [le_combine]. rewrite len_cons, Z.pow_add_r by (pose proof (len_nonneg l); lia).
    unfold is_byte in Hb; lia.
Qed.

(** ** Reading and writing back *)

Lemma mem_read_app pre mid post off n :
  off = len pre -> n = len mid ->
  mem_read (pre ++ mid ++ post) off n = Some mid.
Proof.
  intros -> ->. unfold mem_read.
  pose proof (len_nonneg pre). pose proof (len_nonneg mid).
  pose proof (len_nonneg post).
  rewrite decide_True by (rewrite !len_app; lia).
  unfold len. rewrite !Nat2Z.id, drop_app_length, take_app_length. done.
Qed.

Lemma mem_write_app pre old post off src :
  off = len pre -> len old = len src ->
  mem_write (pre ++ old ++ post) off src = Some (pre ++ src ++ post).
Proof.
  intros -> Hlen. unfold mem_write.
  pose proof (len_nonneg pre). pose proof (len_nonneg post).
  rewrite decide_True by (rewrite !len_app; lia).
  unfold len in *. rewrite Nat2Z.id, take_app_length.
  replace (Z.to_nat _) with (length (pre ++ old)) by (rewrite length_app; lia).
  rewrite (app_assoc pre old post), drop_app_length. done.
Qed.

Lemma mem_read_len m off n l : mem_read m off n = Some l -> len l = n.
Proof.
  unfold mem_read. case_decide as H; [|done]. intros [= <-].
  unfold len in *. rewrite length_take, length_drop. lia.
Qed.

Lemma mem_write_len m off src m' :
  mem_write m off src = Some m' -> len m' = len m.
Proof.
  unfold mem_write. case_decide as H; [|done]. intros [= <-].
  unfold len in *. rewrite !length_app, length_take, length_drop. lia.
Qed.

Lemma mem_read_is_Some m off n :
  0 <= off -> 0 <= n -> off + n <= len m -> is_Some (mem_read m off n).
Proof. intros. unfold mem_read. rewrite decide_True by lia. eauto. Qed.

(** The bytes of a string literal. *)
Definition txt (s : string) : bytes :=
  (fun a => Z.of_N (Ascii.N_of_ascii a)) <$> String.list_ascii_of_string s.

(** The text of a number, as [%d] prints it. *)
Fixpoint dec_loop (fuel : nat) (n : Z) (acc : bytes) : bytes :=
  match fuel with
  | O => acc
  | S fuel' => if Z.ltb n 10 then 48 + n :: acc else dec_loop fuel' (n / 10) (48 + n mod 10 :: acc)
  end.
Definition dec (n : Z) : bytes := if Z.ltb n 0 then 45 :: dec_loop 20 (- n) [] else dec_loop 20 n [].

(** The number a text stands for; the text of a number gives it back. *)
Definition undec (s : bytes) : Z := foldl (fun a d => a * 10 + (d - 48)) 0 s.

Lemma undec_loop fuel : forall n acc, 0 <= n < 10 ^ Z.of_nat fuel ->
  undec (dec_loop fuel n acc) = foldl (fun a d => a * 10 + (d - 48)) n acc.
Proof.
  unfold undec. induction fuel as [|f IH]; intros n acc Hn; cbn [dec_loop]; [by assert (n = 0) as -> by (cbn in Hn; lia)|].
  rewrite Nat2Z.inj_succ, Z.pow_succ_r in Hn by lia. destruct (Z.ltb_spec n 10); cbn [foldl].
  - f_equal. lia.
  - rewrite IH by (split; [apply Z.div_pos; lia|apply Z.div_lt_upper_bound; lia]). cbn [foldl]. f_equal.
    pose proof (Z.div_mod n 10). lia.
Qed.

Lemma dec_inj i j : 0 <= i < 10 ^ 20 -> 0 <= j < 10 ^ 20 -> dec i = dec j -> i = j.
Proof.
  unfold dec. intros Hi Hj. rewrite !(proj2 (Z.ltb_ge _ _)) by lia. intros E%(f_equal undec).
  by rewrite !undec_loop in E by (change (Z.of_nat 20) with 20; lia).
Qed.

Lemma dec_loop_long fuel : forall n acc, (length acc <= length (dec_loop fuel n acc))%nat.
Proof.
  induction fuel as [|f IH]; intros n acc; cbn [dec_loop]; [lia|]. destruct (Z.ltb n 10); cbn [length]; [lia|].
  specialize (IH (n / 10) (48 + n mod 10 :: acc)). cbn [length] in IH. lia.
Qed.

Lemma dec_loop_nonempty f n acc : dec_loop (S f) n acc <> [].
Proof.
  cbn [dec_loop]. destruct (Z.ltb n 10); [done|]. intros E.
  pose proof (dec_loop_long f (n / 10) (48 + n mod 10 :: acc)) as Hl. rewrite E in Hl. cbn in Hl. lia.
Qed.

Lemma dec_nonempty n : dec n <> [].
Proof. unfold dec. destruct (Z.ltb n 0); [done|]. apply dec_loop_nonempty. Qed.

(** A C call that returns a code: [0] is success. *)
Definition ok (r : Z) : bool := Z.eqb r 0.

(** Splits every boolean test of the goal and of the hypotheses into an
    arithmetic fact. *)
Ltac zbool :=
  repeat match goal with
  | H : (_ =? _)%Z = true |- _ => apply Z.eqb_eq in H
  | H : (_ =? _)%Z = false |- _ => apply Z.eqb_neq in H
  | H : (_ <? _)%Z = true |- _ => apply Z.ltb_lt in H
  | H : (_ <? _)%Z = false |- _ => apply Z.ltb_ge in H
  | H : (_ <=? _)%Z = true |- _ => apply Z.leb_le in H
  | H : (_ <=? _)%Z = false |- _ => apply Z.leb_gt in H
  | H : (_ >? _)%Z = true |- _ => rewrite Z.gtb_ltb in H
  | H : (_ >? _)%Z = false |- _ => rewrite Z.gtb_ltb in H
  | H : (_ || _)%bool = true |- _ => apply orb_true_iff in H
  | H : (_ || _)%bool = false |- _ => apply orb_false_iff in H; destruct H
  | H : (_ && _)%bool = true |- _ => apply andb_true_iff in H; destruct H
  | H : (_ && _)%bool = false |- _ => apply andb_false_iff in H
  | H : negb _ = true |- _ => apply negb_true_iff in H
  | H : negb _ = false |- _ => apply negb_false_iff in H
  end.

(** Case analysis on the next boolean test, with its arithmetic content. *)
Ltac zif :=
  match goal with
  | |- context [if ?b then _ else _] =>
      lazymatch type of b with
      | bool => let E := fresh "Hif" in destruct b eqn:E; zbool
      end
  end.

Ltac zif_in H :=
  match type of H with
  | context [if ?b then _ else _] =>
      lazymatch type of b with
      | bool => let E := fresh "Hif" in destruct b eqn:E; zbool
      end
  end.

(** Runs the option monad without unfolding arithmetic. *)
Ltac msimp := cbn [mbind option_bind fmap option_fmap option_map mret option_ret fst snd].
Ltac msimp_in H :=
  cbn [mbind option_bind fmap option_fmap option_map mret option_ret fst snd] in H.

(** Adds the non-negativity of every length in sight, then [lia]. *)
Ltac len_pos :=
  repeat match goal with
  | |- context [len ?l] =>
      lazymatch goal with
      | H : 0 <= len l |- _ => fail
      | _ => pose proof (len_nonneg l)
      end
  | H0 : context [len ?l] |- _ =>
      lazymatch goal with
      | H : 0 <= len l |- _ => fail
      | _ => pose proof (len_nonneg l)
      end
  end.
Ltac len_lia := rewrite ?len_app, ?len_cons, ?len_nil in *; len_pos; lia.
