(* ===== verification/Pb.v ===== *)
(** * The protobuf wire codec (src/knv/pb.h, src/knv/pb.c)

    The decoder cursor [pb_field_t] and the encoder cursor [pb_buff_t] are
    records whose [start] field is the content of the memory block and whose
    [ptr] is an offset into it.  Every C function is a function to [option]:
    [None] is an access outside the block (undefined behaviour in C), [Some]
    carries the return code and the new cursor. *)

From S2P Require Import Prelude.

(** ** Data *)

(** Wire types (an [int] in C: the decoder stores any of 0..7 in it). *)
(** Models [pb_wire_type_t] (src/knv/pb.h:37-42). *)
Definition pb_wire_type_t : Type := Z.
Definition PB_WT_VARINT : Z := 0.
Definition PB_WT_FIXED64 : Z := 1.
Definition PB_WT_STRING : Z := 2.
Definition PB_WT_FIXED32 : Z := 5.

(** The union: [v_word] is the 64-bit word at offset 0, which [i64] names in
    full and [i32] and [str.len] by its low half; [v_data] is the string
    [str.data] (offset 8) points to. *)
(** Models [pb_field_val_t] (src/knv/pb.h:45-53). *)
Record pb_field_val_t := mk_val { v_word : Z; v_data : bytes }.

Definition i64 (v : pb_field_val_t) : Z := v_word v.
Definition i32 (v : pb_field_val_t) : Z := u32 (v_word v).
Definition str_len (v : pb_field_val_t) : Z := u32 (v_word v).
Definition set_i64 (x : Z) (v : pb_field_val_t) : pb_field_val_t :=
  mk_val x (v_data v).
Definition set_i32 (x : Z) (v : pb_field_val_t) : pb_field_val_t :=
  mk_val (v_word v / 2 ^ 32 * 2 ^ 32 + x) (v_data v).
Definition set_str (l : Z) (d : bytes) (v : pb_field_val_t) : pb_field_val_t :=
  mk_val (v_word v / 2 ^ 32 * 2 ^ 32 + l) d.

(** Models [pb_field_t] (src/knv/pb.h:55-70). *)
Record pb_field_t := mk_field {
  f_tag : Z;
  f_eom : Z;
  f_type : pb_wire_type_t;
  f_val : pb_field_val_t;
  f_start : bytes;
  f_size : Z;
  f_ptr : Z;
  f_left : Z;
  f_errmsg : option string
}.

Definition f_advance (n : Z) (f : pb_field_t) : pb_field_t :=
  mk_field (f_tag f) (f_eom f) (f_type f) (f_val f) (f_start f) (f_size f)
    (f_ptr f + n) (s32 (f_left f - n)) (f_errmsg f).
Definition f_set_val (v : pb_field_val_t) (f : pb_field_t) : pb_field_t :=
  mk_field (f_tag f) (f_eom f) (f_type f) v (f_start f) (f_size f)
    (f_ptr f) (f_left f) (f_errmsg f).
Definition f_set_eom (f : pb_field_t) : pb_field_t :=
  mk_field (f_tag f) 1 (f_type f) (f_val f) (f_start f) (f_size f)
    (f_ptr f) (f_left f) (f_errmsg f).
Definition f_set_tag (t ty : Z) (f : pb_field_t) : pb_field_t :=
  mk_field t (f_eom f) ty (f_val f) (f_start f) (f_size f)
    (f_ptr f) (f_left f) (f_errmsg f).
Definition f_set_left (n : Z) (f : pb_field_t) : pb_field_t :=
  mk_field (f_tag f) (f_eom f) (f_type f) (f_val f) (f_start f) (f_size f)
    (f_ptr f) n (f_errmsg f).
(** Models [PB_RETURN_ERROR] (src/knv/pb.c:20-24). *)
Definition f_set_err (m : string) (f : pb_field_t) : pb_field_t :=
  mk_field (f_tag f) (f_eom f) (f_type f) (f_val f) (f_start f) (f_size f)
    (f_ptr f) (f_left f) (Some m).

Definition f_init (data : bytes) (dlen : Z) (f : pb_field_t) : pb_field_t :=
  mk_field (f_tag f) 0 (f_type f) (f_val f) data (u32 dlen) 0 (s32 dlen)
    (f_errmsg f).

(** A cursor on the stack before [pb_begin]: indeterminate content. *)
Definition f_undef : pb_field_t :=
  mk_field 0 0 0 (mk_val 0 []) [] 0 0 0 None.

(** ** Zig-zag integers *)

(** Models [pb_int2uint] (src/knv/pb.h:19-26). *)
Definition pb_int2uint (s : Z) : Z :=
  if s <? 0 then u64 (Z.lnot (s64 (Z.shiftl s 1)))
  else u64 (s64 (Z.shiftl s 1)).

(** Models [pb_uint2int] (src/knv/pb.h:28-32). *)
Definition pb_uint2int (u : Z) : Z :=
  if Z.eqb (Z.land u 1) 0 then s64 (Z.shiftr u 1)
  else s64 (u64 (Z.lnot (Z.shiftr u 1))).

(** ** Decoder

    The readers take an optional output buffer: [buf = false] is the [NULL]
    of the skipping functions, which moves the cursor without a memory read. *)

(** Models [pb_get] (src/knv/pb.c:35-45). *)
Definition pb_get (f : pb_field_t) (buf : bool) (count : Z) : option (Z * bytes * pb_field_t) :=
  if u64 (f_left f) <? count then Some (-1, [], f_set_err "end-of-buffer" f)
  else
    b ← (if buf then mem_read (f_start f) (f_ptr f) count else Some []);
    Some (0, b, f_advance count f).

(** Models [pb_get_byte] (src/knv/pb.c:47-56). *)
Definition pb_get_byte (f : pb_field_t) (buf : bool) : option (Z * Z * pb_field_t) :=
  if f_left f <? 1 then Some (-1, 0, f_set_err "end-of-buffer" f)
  else
    b ← (if buf then mem_read (f_start f) (f_ptr f) 1 else Some []);
    Some (0, le_combine b, f_advance 1 f).

(** Models [pb_get_dword] (src/knv/pb.c:58-67). *)
Definition pb_get_dword (f : pb_field_t) (buf : bool) : option (Z * Z * pb_field_t) :=
  if f_left f <? 4 then Some (-1, 0, f_set_err "end-of-buffer" f)
  else
    b ← (if buf then mem_read (f_start f) (f_ptr f) 4 else Some []);
    Some (0, le_combine b, f_advance 4 f).

(** Models [pb_get_ddword] (src/knv/pb.c:69-78). *)
Definition pb_get_ddword (f : pb_field_t) (buf : bool) : option (Z * Z * pb_field_t) :=
  if f_left f <? 8 then Some (-1, 0, f_set_err "end-of-buffer" f)
  else
    b ← (if buf then mem_read (f_start f) (f_ptr f) 8 else Some []);
    Some (0, le_combine b, f_advance 8 f).

(** The [do ... while] of [pb_decode_varint]; [bitpos] is a [uint8_t].  The
    tenth byte is read at [bitpos = 63], so the eleventh turn always returns:
    [None] for lack of fuel is ruled out by [pb_decode_varint_total]. *)
(** Models [pb_decode_varint] (src/knv/pb.c:86-97). *)
Fixpoint pb_decode_varint_loop (fuel : nat) (bitpos result : Z)
    (f : pb_field_t) : option (Z * pb_field_t) :=
  match fuel with
  | O => None
  | S fuel' =>
      if 64 <=? bitpos then Some (-1, f_set_err "varint overflow" f)
      else
        '(r, byte, f1) ← pb_get_byte f true;
        if negb (ok r) then Some (-2, f1)
        else
          let result' :=
            Z.lor result (u64 (Z.shiftl (Z.land byte 127) bitpos)) in
          if Z.eqb (Z.land byte 128) 0
          then Some (0, f_set_val (set_i64 result' (f_val f1)) f1)
          else pb_decode_varint_loop fuel' (u8 (bitpos + 7)) result' f1
  end.

(** Models [pb_decode_varint] (src/knv/pb.c:80-100). *)
Definition pb_decode_varint (f : pb_field_t) : option (Z * pb_field_t) :=
  pb_decode_varint_loop 11 0 0 f.

(** Models [pb_decode_fixed32] (src/knv/pb.c:102-105). *)
Definition pb_decode_fixed32 (f : pb_field_t) : option (Z * pb_field_t) :=
  '(r, x, f1) ← pb_get_dword f true;
  Some (r, if ok r then f_set_val (set_i32 x (f_val f1)) f1 else f1).

(** Models [pb_decode_fixed64] (src/knv/pb.c:107-110). *)
Definition pb_decode_fixed64 (f : pb_field_t) : option (Z * pb_field_t) :=
  '(r, x, f1) ← pb_get_ddword f true;
  Some (r, if ok r then f_set_val (set_i64 x (f_val f1)) f1 else f1).

(** Models [pb_decode_string] (src/knv/pb.c:112-127). *)
Definition pb_decode_string (f : pb_field_t) : option (Z * pb_field_t) :=
  '(r, f1) ← pb_decode_varint f;
  if negb (ok r) then Some (-1, f1)
  else if u64 (f_left f1) <? i64 (f_val f1)
  then Some (-2, f_set_err "string overflow" f1)
  else
    let sz := u32 (i64 (f_val f1)) in
    d ← mem_read (f_start f1) (f_ptr f1) sz;
    Some (0, f_advance sz (f_set_val (set_str sz d (f_val f1)) f1)).

(** The loop of [pb_skip_varint] stops at the last byte of the varint or at
    the end of the buffer, and returns 0 either way. *)
(** Models [pb_skip_varint] (src/knv/pb.c:133-137). *)
Fixpoint pb_skip_varint_loop (fuel : nat) (f : pb_field_t)
    : option (Z * pb_field_t) :=
  match fuel with
  | O => None
  | S fuel' =>
      '(r, byte, f1) ← pb_get_byte f true;
      if negb (ok r) then Some (0, f1)
      else if Z.eqb (Z.land byte 128) 0 then Some (0, f1)
      else pb_skip_varint_loop fuel' f1
  end.
(** Models [pb_skip_varint] (src/knv/pb.c:130-139). *)
Definition pb_skip_varint (f : pb_field_t) : option (Z * pb_field_t) :=
  pb_skip_varint_loop (S (Z.to_nat (f_left f))) f.

(** Models [pb_skip_string] (src/knv/pb.c:141-147). *)
Definition pb_skip_string (f : pb_field_t) : option (Z * pb_field_t) :=
  '(r, f1) ← pb_decode_varint f;
  if negb (ok r) then Some (-1, f1)
  else
    '(r2, _, f2) ← pb_get f1 false (i32 (f_val f1));
    Some (r2, f2).

(** Models [pb_decode_tag] (src/knv/pb.c:149-178). *)
Definition pb_decode_tag (f : pb_field_t) : option (Z * pb_field_t) :=
  '(r, f1) ← pb_decode_varint f;
  if negb (ok r) then
    Some (-1, if Z.eqb (f_left f1) 0 then f_set_eom f1 else f1)
  else if Z.eqb (i64 (f_val f1)) 0 then
    Some (-2, f_set_err "0-terminated msg" (f_set_eom f1))
  else
    let f2 := f_set_tag (u32 (Z.shiftr (i64 (f_val f1)) 3))
                        (Z.land (i32 (f_val f1)) 7) f1 in
    if Z.eqb (f_type f2) PB_WT_VARINT then pb_decode_varint f2
    else if Z.eqb (f_type f2) PB_WT_FIXED64 then pb_decode_fixed64 f2
    else if Z.eqb (f_type f2) PB_WT_STRING then pb_decode_string f2
    else if Z.eqb (f_type f2) PB_WT_FIXED32 then pb_decode_fixed32 f2
    else Some (-3, f_set_err "invalid wire_type" f2).

(** Models [pb_skip_field] (src/knv/pb.c:180-190). *)
Definition pb_skip_field (f : pb_field_t) (wire_type : Z)
    : option (Z * pb_field_t) :=
  if Z.eqb wire_type PB_WT_VARINT then pb_skip_varint f
  else if Z.eqb wire_type PB_WT_FIXED64
  then '(r, _, f1) ← pb_get_ddword f false; Some (r, f1)
  else if Z.eqb wire_type PB_WT_STRING then pb_skip_string f
  else if Z.eqb wire_type PB_WT_FIXED32
  then '(r, _, f1) ← pb_get_dword f false; Some (r, f1)
  else Some (-1, f_set_err "invalid wire_type" f).

(** The iterators return the cursor or [NULL]; the flag tells which, since
    the caller goes on reading [eom] and [errmsg] through its own pointer. *)
(** Models [pb_begin] (src/knv/pb.c:192-202). *)
Definition pb_begin (f : pb_field_t) (data : bytes) (dlen : Z)
    : option (bool * pb_field_t) :=
  let f0 := f_init data dlen f in
  let f0 := mk_field (f_tag f0) (f_eom f0) (f_type f0) (f_val f0)
              (f_start f0) (f_size f0) (f_ptr f0) (f_left f0) None in
  '(r, f1) ← pb_decode_tag f0;
  Some (ok r, f1).

(** Models [pb_begin_delimited] (src/knv/pb.c:206-221). *)
Definition pb_begin_delimited (f : pb_field_t) (data : bytes) (dlen : Z)
    : option (bool * pb_field_t) :=
  '(r, f1) ← pb_decode_varint (f_init data dlen f);
  if negb (ok r) then Some (false, f1)
  else if u64 (f_left f1) <? i64 (f_val f1)
  then Some (false, f_set_err "delimited overflow" f1)
  else
    '(r2, f2) ← pb_decode_tag (f_set_left (s32 (i64 (f_val f1))) f1);
    Some (ok r2, f2).

(** Models [pb_next] (src/knv/pb.c:223-228). *)
Definition pb_next (f : pb_field_t) : option (bool * pb_field_t) :=
  '(r, f1) ← pb_decode_tag f;
  Some (ok r, f1).

(** ** Encoder *)

(** Models [pb_buff_t] (src/knv/pb.h:81-90). *)
Record pb_buff_t := mk_buff {
  b_start : bytes;
  b_size : Z;
  b_ptr : Z;
  b_left : Z;
  b_errmsg : option string
}.

Definition b_set_err (m : string) (b : pb_buff_t) : pb_buff_t :=
  mk_buff (b_start b) (b_size b) (b_ptr b) (b_left b) (Some m).

(** [memcpy(b->ptr, src, |src|)] followed by the update of [ptr] and [left]. *)
Definition b_put (src : bytes) (b : pb_buff_t) : option pb_buff_t :=
  m ← mem_write (b_start b) (b_ptr b) src;
  Some (mk_buff m (b_size b) (b_ptr b + len src)
          (s32 (b_left b - len src)) (b_errmsg b)).

(** [b->size = b->left = sz] goes through the [int] [left]; [errmsg] keeps
    its indeterminate value. *)
(** Models [pb_init_buff] (src/knv/pb.h:92-97). *)
Definition pb_init_buff (b : pb_buff_t) (buf : bytes) (sz : Z) : Z * pb_buff_t :=
  (0, mk_buff buf (u64 (s32 sz)) 0 (s32 sz) (b_errmsg b)).

(** Models [pb_get_encoded_length] (src/knv/pb.h:106-106). *)
Definition pb_get_encoded_length (b : pb_buff_t) : Z :=
  s32 (u64 (b_size b - b_left b)).

(** Models [pb_add] (src/knv/pb.c:230-244). *)
Definition pb_add (b : pb_buff_t) (buf : bytes) (count : Z)
    : option (Z * pb_buff_t) :=
  if u64 (b_left b) <? count then Some (-1, b_set_err "buf overflow" b)
  else
    src ← mem_read buf 0 count;
    b1 ← b_put src b;
    Some (0, b1).

(** Models [pb_add_user] (src/knv/pb.c:246-250). *)
Definition pb_add_user (b : pb_buff_t) (buf : bytes) (count : Z)
    : option (Z * pb_buff_t) :=
  pb_add b buf count.

(** Models [pb_add_dword] (src/knv/pb.c:265-276). *)
Definition pb_add_dword (b : pb_buff_t) (val : Z) : option (Z * pb_buff_t) :=
  if b_left b <? 4 then Some (-1, b_set_err "buf overflow" b)
  else b1 ← b_put (le_split 4 val) b; Some (0, b1).

(** Models [pb_add_ddword] (src/knv/pb.c:278-289). *)
Definition pb_add_ddword (b : pb_buff_t) (val : Z) : option (Z * pb_buff_t) :=
  if b_left b <? 8 then Some (-1, b_set_err "buf overflow" b)
  else b1 ← b_put (le_split 8 val) b; Some (0, b1).

(** The [while(value)] loop filling [buffer]: [fuel] is the room left in the
    array, and [None] a write past [buffer[10]]. *)
(** Models [pb_add_vint] (src/knv/pb.c:300-305). *)
Fixpoint vint_loop (fuel : nat) (value : Z) : option bytes :=
  if Z.eqb value 0 then Some []
  else match fuel with
       | O => None
       | S fuel' =>
           l ← vint_loop fuel' (Z.shiftr value 7);
           Some (Z.lor (Z.land value 127) 128 :: l)
       end.

(** [buffer[i-1] &= 0x7F] *)
Fixpoint clear_last (l : bytes) : bytes :=
  match l with
  | [] => []
  | [b] => [Z.land b 127]
  | b :: l' => b :: clear_last l'
  end.

(** Models [pb_add_vint] (src/knv/pb.c:291-309). *)
Definition pb_add_vint (b : pb_buff_t) (value : Z) : option (Z * pb_buff_t) :=
  if Z.eqb value 0 then pb_add b (le_split 8 value) 1
  else
    l ← vint_loop 10 value;
    pb_add b (clear_last l) (len l).

(** [wiretype | (field_number << 3)], computed on 32 bits. *)
(** Models [pb_add_tag] (src/knv/pb.c:314-314). *)
Definition tag_word (wiretype field_number : Z) : Z :=
  Z.lor wiretype (u32 (Z.shiftl field_number 3)).

(** Models [pb_add_tag] (src/knv/pb.c:312-317). *)
Definition pb_add_tag (b : pb_buff_t) (wiretype field_number : Z)
    : option (Z * pb_buff_t) :=
  pb_add_vint b (tag_word wiretype field_number).

(** Models [pb_add_field_val] (src/knv/pb.c:319-333). *)
Definition pb_add_field_val (b : pb_buff_t) (tag type : Z) (val : pb_field_val_t)
    : option (Z * pb_buff_t) :=
  '(r, b1) ← pb_add_tag b type tag;
  if negb (ok r) then Some (-1, b1)
  else if Z.eqb type PB_WT_VARINT then pb_add_vint b1 (i64 val)
  else if Z.eqb type PB_WT_FIXED64 then pb_add_ddword b1 (i64 val)
  else if Z.eqb type PB_WT_STRING then
    '(r2, b2) ← pb_add_vint b1 (str_len val);
    if negb (ok r2) then Some (-2, b2)
    else pb_add b2 (v_data val) (str_len val)
  else if Z.eqb type PB_WT_FIXED32 then pb_add_dword b1 (i32 val)
  else Some (-2, b_set_err "invalid wire_type" b1).

(** Models [pb_add_field] (src/knv/pb.c:335-339). *)
Definition pb_add_field (b : pb_buff_t) (f : pb_field_t) : option (Z * pb_buff_t) :=
  pb_add_field_val b (f_tag f) (f_type f) (f_val f).

(** Models [pb_add_varint] (src/knv/pb.c:341-348). *)
Definition pb_add_varint (b : pb_buff_t) (tag value : Z) : option (Z * pb_buff_t) :=
  '(r, b1) ← pb_add_tag b PB_WT_VARINT tag;
  if negb (ok r) then Some (-1, b1) else pb_add_vint b1 value.

(** Models [pb_add_string] (src/knv/pb.c:350-360). *)
Definition pb_add_string (b : pb_buff_t) (tag : Z) (buffer : bytes) (size : Z)
    : option (Z * pb_buff_t) :=
  '(r, b1) ← pb_add_tag b PB_WT_STRING tag;
  if negb (ok r) then Some (-1, b1)
  else
    '(r2, b2) ← pb_add_vint b1 size;
    if negb (ok r2) then Some (-2, b2) else pb_add b2 buffer size.

(** Models [pb_add_string_head] (src/knv/pb.c:362-369). *)
Definition pb_add_string_head (b : pb_buff_t) (tag size : Z)
    : option (Z * pb_buff_t) :=
  '(r, b1) ← pb_add_tag b PB_WT_STRING tag;
  if negb (ok r) then Some (-1, b1) else pb_add_vint b1 size.

(** Models [pb_add_fixed32] (src/knv/pb.c:372-379). *)
Definition pb_add_fixed32 (b : pb_buff_t) (tag value : Z) : option (Z * pb_buff_t) :=
  '(r, b1) ← pb_add_tag b PB_WT_FIXED32 tag;
  if negb (ok r) then Some (-1, b1) else pb_add_dword b1 value.

(** Models [pb_add_fixed64] (src/knv/pb.c:381-388). *)
Definition pb_add_fixed64 (b : pb_buff_t) (tag value : Z) : option (Z * pb_buff_t) :=
  '(r, b1) ← pb_add_tag b PB_WT_FIXED64 tag;
  if negb (ok r) then Some (-1, b1) else pb_add_ddword b1 value.

(** ** Sizes *)

(** The [while(value)] loop shifts a 64-bit value to 0 in at most 10 turns. *)
(** Models [pb_eval_vint_length] (src/knv/pb.h:116-119). *)
Fixpoint eval_vint_loop (fuel : nat) (value n : Z) : Z :=
  if Z.eqb value 0 then n
  else match fuel with
       | O => n
       | S fuel' => eval_vint_loop fuel' (Z.shiftr value 7) (n + 1)
       end.
(** Models [pb_eval_vint_length] (src/knv/pb.h:112-121). *)
Definition pb_eval_vint_length (value : Z) : Z :=
  if Z.eqb value 0 then 1 else eval_vint_loop 10 value 0.

(** Models [pb_eval_tag_length] (src/knv/pb.h:123-126). *)
Definition pb_eval_tag_length (wiretype field_number : Z) : Z :=
  pb_eval_vint_length (tag_word wiretype field_number).

(** The string case adds the [uint32_t] length: 32-bit unsigned arithmetic,
    then conversion to [int]. *)
(** Models [pb_eval_field_length] (src/knv/pb.h:129-139). *)
Definition pb_eval_field_length (tag type : Z) (val : pb_field_val_t) : Z :=
  if Z.eqb type PB_WT_VARINT then
    pb_eval_tag_length type tag + pb_eval_vint_length (i64 val)
  else if Z.eqb type PB_WT_FIXED64 then pb_eval_tag_length type tag + 8
  else if Z.eqb type PB_WT_FIXED32 then pb_eval_tag_length type tag + 4
  else s32 (u32 (pb_eval_tag_length type tag
                 + pb_eval_vint_length (str_len val) + str_len val)).

(** ** Reference encoding

    What the encoder is meant to emit, independently of any buffer. *)

Inductive pb_value :=
  | VInt (z : Z)
  | VFix64 (z : Z)
  | VStr (s : bytes)
  | VFix32 (z : Z).

Definition type_of (x : pb_value) : Z :=
  match x with
  | VInt _ => PB_WT_VARINT
  | VFix64 _ => PB_WT_FIXED64
  | VStr _ => PB_WT_STRING
  | VFix32 _ => PB_WT_FIXED32
  end.

(** The union a caller fills in for a value. *)
Definition val_of (x : pb_value) : pb_field_val_t :=
  match x with
  | VInt z | VFix64 z | VFix32 z => mk_val z []
  | VStr s => mk_val (len s) s
  end.

(** What a union holds, read at a wire type. *)
Definition view (type : Z) (v : pb_field_val_t) : option pb_value :=
  if Z.eqb type PB_WT_VARINT then Some (VInt (i64 v))
  else if Z.eqb type PB_WT_FIXED64 then Some (VFix64 (i64 v))
  else if Z.eqb type PB_WT_STRING then
    Some (VStr (take (Z.to_nat (str_len v)) (v_data v)))
  else if Z.eqb type PB_WT_FIXED32 then Some (VFix32 (i32 v))
  else None.

Definition value_ok (x : pb_value) : Prop :=
  match x with
  | VInt z | VFix64 z => 0 <= z < 2 ^ 64
  | VStr s => len s < 2 ^ 30
  | VFix32 z => 0 <= z < 2 ^ 32
  end.

(** Base-128 groups, least significant first, the top bit set on all but the
    last. *)
Fixpoint venc (n : nat) (v : Z) : bytes :=
  match n with
  | O => []
  | S n' => if v <? 128 then [v]
            else Z.lor (Z.land v 127) 128 :: venc n' (Z.shiftr v 7)
  end.
Definition enc_vint (v : Z) : bytes := venc 10 v.

Definition enc_value (x : pb_value) : bytes :=
  match x with
  | VInt z => enc_vint z
  | VFix64 z => le_split 8 z
  | VStr s => enc_vint (len s) ++ s
  | VFix32 z => le_split 4 z
  end.

Definition pb_pair : Type := Z * pb_value.
Definition enc_field (p : pb_pair) : bytes :=
  enc_vint (tag_word (type_of p.2) p.1) ++ enc_value p.2.
Definition enc_fields (l : list pb_pair) : bytes := l ≫= enc_field.

Definition field_ok (p : pb_pair) : Prop :=
  1 <= p.1 < 2 ^ 29 /\ value_ok p.2.

(** ** Bit-level lemmas *)

Lemma land_127 v : 0 <= v -> Z.land v 127 = v mod 128.
Proof. intros. change 127 with (Z.ones 7). rewrite Z.land_ones by lia. done. Qed.

Lemma land_127_small v : 0 <= v < 128 -> Z.land v 127 = v.
Proof. intros. rewrite land_127 by lia. apply Z.mod_small; lia. Qed.

Lemma shiftr_7 v : Z.shiftr v 7 = v / 128.
Proof. rewrite Z.shiftr_div_pow2 by lia. done. Qed.

Lemma land_128_small v : 0 <= v < 128 -> Z.land v 128 = 0.
Proof.
  intros. apply Z.bits_inj'. intros n Hn. rewrite Z.land_spec, Z.bits_0.
  change 128 with (2 ^ 7). rewrite Z.pow2_bits_eqb by lia.
  destruct (Z.eqb_spec 7 n) as [<-|]; [|apply andb_false_r].
  rewrite andb_true_r. apply Z.bits_above_log2; [lia|].
  destruct (Z.eq_dec v 0) as [->|]; [cbn; lia|].
  apply Z.log2_lt_pow2; lia.
Qed.

Lemma cont_byte_top v : 0 <= v -> Z.land (Z.lor (Z.land v 127) 128) 128 = 128.
Proof.
  intros. rewrite Z.land_lor_distr_l, <- Z.land_assoc, Z.land_0_r. done.
Qed.

Lemma cont_byte_low v : 0 <= v -> Z.land (Z.lor (Z.land v 127) 128) 127 = Z.land v 127.
Proof.
  intros. rewrite Z.land_lor_distr_l, <- Z.land_assoc, Z.land_diag, Z.lor_0_r.
  done.
Qed.

(** One 7-bit group and the rest of the number. *)
Lemma lor_group v k :
  0 <= k -> Z.lor (Z.shiftl (Z.land v 127) k) (Z.shiftl (Z.shiftr v 7) (k + 7))
            = Z.shiftl v k.
Proof.
  intros Hk. apply Z.bits_inj'. intros n Hn.
  rewrite Z.lor_spec, !Z.shiftl_spec by lia.
  destruct (Z.lt_ge_cases n k) as [Hlt|Hge].
  - rewrite !(Z.testbit_neg_r _ (n - _)) by lia. done.
  - rewrite Z.land_spec. change 127 with (Z.ones 7).
    rewrite Z.testbit_ones_nonneg by lia.
    destruct (Z.ltb_spec (n - k) 7).
    + rewrite (Z.testbit_neg_r _ (n - (k + 7))) by lia.
      rewrite andb_true_r, orb_false_r. done.
    + rewrite Z.shiftr_spec by lia.
      replace (n - (k + 7) + 7) with (n - k) by lia.
      rewrite andb_false_r. done.
Qed.

Lemma group_range v k b :
  0 <= v -> 0 <= k -> v * 2 ^ k < b ->
  0 <= Z.shiftl (Z.land v 127) k < b.
Proof.
  intros Hv Hk Hb. rewrite Z.shiftl_mul_pow2, land_127 by lia.
  assert (0 < 2 ^ k) by lia.
  pose proof (Z.mod_le v 128). pose proof (Z.mod_pos_bound v 128). nia.
Qed.

(** ** The varint encoder computes [enc_vint] *)

Lemma vint_loop_0 n : vint_loop n 0 = Some [].
Proof. destruct n; done. Qed.

Lemma shiftr7_bound (n : nat) v :
  0 <= v < 2 ^ (7 * Z.of_nat (S n)) -> 0 <= Z.shiftr v 7 < 2 ^ (7 * Z.of_nat n).
Proof.
  intros Hv. rewrite shiftr_7. split; [apply Z.div_pos; lia|].
  apply Z.div_lt_upper_bound; [lia|].
  replace (7 * Z.of_nat (S n)) with (7 + 7 * Z.of_nat n) in Hv by lia.
  rewrite Z.pow_add_r in Hv by lia. lia.
Qed.

Lemma vint_loop_venc (n : nat) v :
  0 < v < 2 ^ (7 * Z.of_nat n) ->
  exists l, vint_loop n v = Some l /\ l <> [] /\
            clear_last l = venc n v /\ length l = length (venc n v).
Proof.
  revert v; induction n as [|n IH]; intros v Hv; [cbn in Hv; lia|].
  cbn [vint_loop venc]. rewrite (proj2 (Z.eqb_neq v 0)) by lia.
  destruct (Z.ltb_spec v 128) as [Hs|Hb].
  - assert (Z.shiftr v 7 = 0) as -> by (rewrite shiftr_7, Z.div_small; lia).
    rewrite vint_loop_0. msimp. eexists; split; [done|]. cbn [clear_last].
    rewrite cont_byte_low, land_127_small by lia. done.
  - pose proof (shiftr7_bound n v ltac:(lia)) as Hr.
    assert (1 <= Z.shiftr v 7).
    { rewrite shiftr_7. apply Z.div_le_lower_bound; lia. }
    destruct (IH (Z.shiftr v 7)) as (l & -> & Hne & Hc & Hl); [lia|].
    msimp. eexists; split; [done|]. destruct l; [done|].
    split; [done|]. cbn [length]. rewrite <- Hl, <- Hc. done.
Qed.

Lemma enc_vint_pos v : 0 < len (enc_vint v).
Proof. unfold enc_vint; cbn [venc]. destruct (v <? 128); len_lia. Qed.

Lemma venc_len (n : nat) v : len (venc n v) <= Z.of_nat n.
Proof.
  revert v; induction n as [|n IH]; intros v; cbn [venc]; [len_lia|].
  specialize (IH (Z.shiftr v 7)). destruct (v <? 128); len_lia.
Qed.

(** ** The decoder cursor

    [cursor f pre data post]: the unread window of [f] is [data], lying after
    [pre] and before [post] in the block. *)

Definition cursor (f : pb_field_t) (pre data post : bytes) : Prop :=
  f_start f = pre ++ data ++ post /\ f_ptr f = len pre /\
  f_left f = len data /\ len data < 2 ^ 31.

(** The cursor invariant the iteration functions maintain. *)
Definition wf_field (f : pb_field_t) : Prop :=
  0 <= f_ptr f /\ 0 <= f_left f < 2 ^ 31 /\ f_ptr f + f_left f <= len (f_start f).

Lemma cursor_wf f pre data post : cursor f pre data post -> wf_field f.
Proof. intros (Hs & Hp & Hl & Hd). unfold wf_field. rewrite Hs, Hp, Hl. len_lia. Qed.

Lemma cursor_advance f pre x data post :
  cursor f pre (x ++ data) post -> cursor (f_advance (len x) f) (pre ++ x) data post.
Proof.
  intros (Hs & Hp & Hl & Hd). unfold cursor, f_advance; cbn.
  rewrite <- !app_assoc in *. rewrite Hs, Hp, Hl. repeat split.
  - len_lia.
  - rewrite s32_small; len_lia.
  - len_lia.
Qed.

Lemma f_advance_advance a b f : f_advance a (f_advance b f) = f_advance (b + a) f.
Proof. unfold f_advance; cbn. rewrite s32_sub. f_equal; [lia|f_equal; lia]. Qed.

Lemma cursor_set_val f pre data post v :
  cursor f pre data post -> cursor (f_set_val v f) pre data post.
Proof. done. Qed.
Lemma cursor_set_tag f pre data post t ty :
  cursor f pre data post -> cursor (f_set_tag t ty f) pre data post.
Proof. done. Qed.
Create HintDb pb.
#[export] Hint Resolve cursor_advance cursor_set_val cursor_set_tag cursor_wf : pb.

Lemma cursor_read f pre x data post :
  cursor f pre (x ++ data) post -> mem_read (f_start f) (f_ptr f) (len x) = Some x.
Proof.
  intros (Hs & Hp & Hl & Hd). rewrite Hs, <- app_assoc. by apply mem_read_app.
Qed.

Lemma pb_get_byte_spec f pre b data post :
  cursor f pre (b :: data) post ->
  pb_get_byte f true = Some (0, b, f_advance 1 f) /\
  cursor (f_advance 1 f) (pre ++ [b]) data post.
Proof.
  intros Hc. split.
  - unfold pb_get_byte. pose proof Hc as (_ & _ & Hl & _).
    rewrite (proj2 (Z.ltb_ge _ 1)) by len_lia.
    pose proof (cursor_read f pre [b] data post Hc) as Hr.
    change (len [b]) with 1 in Hr. rewrite Hr.
    msimp. cbn [le_combine].
    rewrite Z.mul_0_r, Z.add_0_r. done.
  - by apply (cursor_advance f pre [b]).
Qed.

Lemma pb_decode_varint_loop_venc (n : nat) v fuel bitpos acc f pre data post :
  (n <= fuel)%nat -> 0 <= v < 2 ^ (7 * Z.of_nat n) -> (0 < n)%nat ->
  bitpos = 7 * (10 - Z.of_nat n) -> (n <= 10)%nat -> v * 2 ^ bitpos < 2 ^ 64 ->
  cursor f pre (venc n v ++ data) post ->
  pb_decode_varint_loop fuel bitpos acc f =
    Some (0, f_set_val (set_i64 (Z.lor acc (Z.shiftl v bitpos)) (f_val f))
               (f_advance (len (venc n v)) f)).
Proof.
  revert v fuel bitpos acc f pre.
  induction n as [|n IH]; intros v fuel bitpos acc f pre Hf Hv Hn Hb H10 Hm Hc; [lia|].
  destruct fuel as [|fuel]; [lia|]. cbn [pb_decode_varint_loop venc] in *.
  rewrite (proj2 (Z.leb_gt 64 bitpos)) by lia.
  destruct (Z.ltb_spec v 128) as [Hs|Hbig].
  - destruct (pb_get_byte_spec f pre v data post Hc) as [-> _]. msimp.
    cbn [ok negb]. rewrite land_128_small, land_127_small by lia. cbn [Z.eqb ok negb].
    rewrite u64_small; [done|]. rewrite Z.shiftl_mul_pow2 by lia. lia.
  - set (c := Z.lor (Z.land v 127) 128) in *.
    destruct (pb_get_byte_spec f pre c (venc n (Z.shiftr v 7) ++ data) post Hc) as [-> Hc'].
    msimp. cbn [ok negb Z.eqb]. subst c.
    rewrite cont_byte_top, cont_byte_low by lia. cbn [Z.eqb ok negb].
    pose proof (group_range v bitpos (2 ^ 64)).
    rewrite u64_small by lia. rewrite u8_small by lia.
    destruct n as [|n]; [cbn in Hv; lia|].
    assert (0 <= Z.shiftr v 7 < 2 ^ (7 * Z.of_nat (S n))) by (apply shiftr7_bound; lia).
    erewrite IH; [|lia|done|lia|lia|lia| |exact Hc'].
    + rewrite <- Z.lor_assoc, lor_group, f_advance_advance, len_cons by lia. done.
    + rewrite Z.pow_add_r, shiftr_7 by lia.
      pose proof (Z.mul_div_le v 128). change (2 ^ 7) with 128. nia.
Qed.

Lemma pb_decode_varint_enc v f pre data post :
  0 <= v < 2 ^ 64 -> cursor f pre (enc_vint v ++ data) post ->
  pb_decode_varint f =
    Some (0, f_set_val (set_i64 v (f_val f)) (f_advance (len (enc_vint v)) f)).
Proof.
  intros Hv Hc. unfold pb_decode_varint, enc_vint in *.
  erewrite (pb_decode_varint_loop_venc 10 v); [| | | | | | |exact Hc]; try lia.
  rewrite Z.shiftl_0_r, Z.lor_0_l. done.
Qed.

(** ** Decoding one encoded field *)

Lemma tag_word_val ty t : 0 <= ty < 8 -> 0 <= t < 2 ^ 29 -> tag_word ty t = 8 * t + ty.
Proof.
  intros Hy Ht. unfold tag_word. rewrite Z.shiftl_mul_pow2 by lia.
  rewrite u32_small by lia.
  transitivity (t * 2 ^ 3 + ty); [|lia].
  rewrite Z.lor_comm, <- Z.add_lor_land.
  replace (Z.land (t * 2 ^ 3) ty) with 0; [lia|].
  symmetry. apply Z.bits_inj'. intros n Hn.
  rewrite Z.land_spec, Z.bits_0, <- Z.shiftl_mul_pow2, Z.shiftl_spec by lia.
  destruct (Z.lt_ge_cases n 3).
  - rewrite (Z.testbit_neg_r t (n - 3)) by lia. done.
  - destruct (Z.eq_dec ty 0) as [->|]; [rewrite Z.bits_0; apply andb_false_r|].
    rewrite (Z.bits_above_log2 ty n); [apply andb_false_r|lia|].
    assert (Z.log2 ty < 3) by (apply Z.log2_lt_pow2; lia). lia.
Qed.

Lemma type_of_range x : 0 <= type_of x < 8.
Proof. destruct x; cbn; unfold PB_WT_VARINT, PB_WT_FIXED64, PB_WT_STRING, PB_WT_FIXED32; lia. Qed.

Lemma tag_word_range p : field_ok p -> 8 <= tag_word (type_of p.2) p.1 < 2 ^ 32.
Proof.
  intros [Ht _]. pose proof (type_of_range p.2). rewrite tag_word_val; lia.
Qed.

Lemma tag_word_tag ty t :
  0 <= ty < 8 -> 0 <= t < 2 ^ 29 -> u32 (Z.shiftr (tag_word ty t) 3) = t.
Proof.
  intros. rewrite tag_word_val, Z.shiftr_div_pow2 by lia.
  replace (8 * t + ty) with (ty + t * 2 ^ 3) by lia.
  rewrite Z.div_add, Z.div_small by lia. rewrite u32_small; lia.
Qed.

Lemma tag_word_type ty t :
  0 <= ty < 8 -> 0 <= t < 2 ^ 29 -> Z.land (u32 (tag_word ty t)) 7 = ty.
Proof.
  intros. rewrite tag_word_val by lia. rewrite u32_small by lia.
  change 7 with (Z.ones 3). rewrite Z.land_ones by lia.
  replace (8 * t + ty) with (ty + t * 2 ^ 3) by lia.
  rewrite Z.mod_add, Z.mod_small by lia. done.
Qed.

Lemma low_word_set w x : 0 <= x < 2 ^ 32 -> u32 (w / 2 ^ 32 * 2 ^ 32 + x) = x.
Proof.
  intros. unfold u32. rewrite Z.add_comm, Z.mod_add by lia. apply Z.mod_small; lia.
Qed.

Lemma view_set_str s v :
  len s < 2 ^ 30 -> view PB_WT_STRING (set_str (len s) s v) = Some (VStr s).
Proof.
  intros. unfold view, str_len; cbn -[Z.pow Z.div Z.mul].
  rewrite low_word_set by len_lia. unfold len. rewrite Nat2Z.id, take_ge by lia. done.
Qed.

(** [decoded f f' x n]: one value was read, [n] bytes of input consumed. *)
Definition decoded (f f' : pb_field_t) (x : pb_value) (n : Z) : Prop :=
  exists v, f' = f_set_val v (f_advance n f) /\ view (type_of x) v = Some x.

Lemma pb_get_dword_enc z f pre data post :
  0 <= z < 2 ^ 32 -> cursor f pre (le_split 4 z ++ data) post ->
  pb_get_dword f true = Some (0, z, f_advance 4 f).
Proof.
  intros Hz Hc. unfold pb_get_dword. pose proof Hc as (_ & _ & Hl & _).
  rewrite (proj2 (Z.ltb_ge _ 4)) by (rewrite len_app, len_le_split in *; len_lia).
  pose proof (cursor_read _ _ _ _ _ Hc) as Hr. rewrite len_le_split in Hr.
  change (Z.of_nat 4) with 4 in Hr. rewrite Hr. msimp. rewrite le_combine_split by done. done.
Qed.

Lemma pb_get_ddword_enc z f pre data post :
  0 <= z < 2 ^ 64 -> cursor f pre (le_split 8 z ++ data) post ->
  pb_get_ddword f true = Some (0, z, f_advance 8 f).
Proof.
  intros Hz Hc. unfold pb_get_ddword. pose proof Hc as (_ & _ & Hl & _).
  rewrite (proj2 (Z.ltb_ge _ 8)) by (rewrite len_app, len_le_split in *; len_lia).
  pose proof (cursor_read _ _ _ _ _ Hc) as Hr. rewrite len_le_split in Hr.
  change (Z.of_nat 8) with 8 in Hr. rewrite Hr. msimp. rewrite le_combine_split by done. done.
Qed.

Lemma pb_decode_string_enc s f pre data post :
  len s < 2 ^ 30 -> cursor f pre (enc_vint (len s) ++ s ++ data) post ->
  exists v, pb_decode_string f =
    Some (0, f_set_val v (f_advance (len (enc_vint (len s)) + len s) f)) /\
    view PB_WT_STRING v = Some (VStr s).
Proof.
  intros Hs Hc. unfold pb_decode_string.
  rewrite (pb_decode_varint_enc (len s) f pre (s ++ data) post) by (done || len_lia).
  msimp. cbn [ok Z.eqb negb].
  apply cursor_advance in Hc. set (g := f_advance _ f) in *.
  pose proof Hc as (_ & _ & Hl & ?). rewrite len_app in *.
  cbn [f_val f_set_val set_i64 i64 v_word f_left].
  change (f_left (f_set_val _ g)) with (f_left g). rewrite Hl.
  rewrite (proj2 (Z.ltb_ge _ (len s))) by (rewrite u64_small; len_lia).
  rewrite u32_small by len_lia.
  change (f_start (f_set_val _ g)) with (f_start g).
  change (f_ptr (f_set_val _ g)) with (f_ptr g).
  rewrite (cursor_read _ _ _ _ _ Hc). msimp. eexists. split; [|by apply view_set_str].
  change (f_advance (len s) (f_set_val ?v (f_set_val _ g)))
    with (f_set_val v (f_advance (len s) g)).
  subst g. rewrite f_advance_advance. done.
Qed.

Lemma pb_decode_value_enc x f pre data post :
  value_ok x -> cursor f pre (enc_value x ++ data) post -> f_type f = type_of x ->
  exists f', decoded f f' x (len (enc_value x)) /\
    (if Z.eqb (f_type f) PB_WT_VARINT then pb_decode_varint f
     else if Z.eqb (f_type f) PB_WT_FIXED64 then pb_decode_fixed64 f
     else if Z.eqb (f_type f) PB_WT_STRING then pb_decode_string f
     else if Z.eqb (f_type f) PB_WT_FIXED32 then pb_decode_fixed32 f
     else Some (-3, f_set_err "invalid wire_type" f)) = Some (0, f').
Proof.
  intros Hok Hc ->. destruct x as [z|z|s|z]; cbn [type_of enc_value value_ok] in *.
  - rewrite (pb_decode_varint_enc z f pre data post) by done.
    eexists; split; [|done]. eexists; split; [done|]. done.
  - cbn [Z.eqb PB_WT_VARINT PB_WT_FIXED64]. unfold pb_decode_fixed64.
    rewrite (pb_get_ddword_enc z f pre data post) by done. msimp.
    eexists; split; [|done]. eexists; split; [done|]. done.
  - rewrite <- app_assoc in Hc.
    destruct (pb_decode_string_enc s f pre data post Hok Hc) as (v & Hd & Hv).
    cbn [Z.eqb PB_WT_VARINT PB_WT_FIXED64 PB_WT_STRING]. rewrite Hd, len_app.
    eexists; split; [|done]. eexists; split; [done|]. done.
  - cbn [Z.eqb PB_WT_VARINT PB_WT_FIXED64 PB_WT_STRING PB_WT_FIXED32].
    unfold pb_decode_fixed32.
    rewrite (pb_get_dword_enc z f pre data post) by done. msimp.
    eexists; split; [|done]. eexists; split; [done|].
    unfold view, i32; cbn -[Z.pow Z.div Z.mul]. rewrite low_word_set by lia. done.
Qed.

(** What a caller observes after a successful [pb_begin] or [pb_next]. *)
Definition got_field (f' : pb_field_t) (p : pb_pair) : Prop :=
  f_tag f' = p.1 /\ f_type f' = type_of p.2 /\ view (f_type f') (f_val f') = Some p.2.

Lemma pb_decode_tag_enc p f pre data post :
  field_ok p -> cursor f pre (enc_field p ++ data) post ->
  exists f', pb_decode_tag f = Some (0, f') /\ got_field f' p /\
             f_eom f' = f_eom f /\ cursor f' (pre ++ enc_field p) data post.
Proof.
  intros Hok Hc. pose proof (tag_word_range p Hok) as Hw.
  pose proof (type_of_range p.2) as Hy. pose proof Hok as [Ht Hv].
  unfold pb_decode_tag, enc_field in *. rewrite <- !app_assoc in Hc.
  set (w := tag_word (type_of p.2) p.1) in *.
  rewrite (pb_decode_varint_enc w f pre (enc_value p.2 ++ data) post) by (done || lia).
  msimp. cbn [ok Z.eqb negb]. apply cursor_advance in Hc.
  set (g := f_advance _ f) in *.
  change (i64 (f_val (f_set_val _ _))) with w.
  rewrite (proj2 (Z.eqb_neq w 0)) by lia.
  change (i32 (f_val (f_set_val _ _))) with (u32 w).
  subst w. rewrite tag_word_tag, tag_word_type by lia.
  set (h := f_set_tag _ _ _).
  assert (cursor h (pre ++ enc_vint (tag_word (type_of p.2) p.1))
            (enc_value p.2 ++ data) post) as Hch by exact Hc.
  destruct (pb_decode_value_enc p.2 h _ _ _ Hv Hch eq_refl) as (f' & (v & Hf' & Hview) & Hd).
  rewrite Hd. exists f'. split; [done|]. subst f'.
  split; [by repeat split|]. split; [done|]. apply cursor_set_val. rewrite app_assoc. by apply cursor_advance.
Qed.

(** ** The encoder cursor *)

Definition bcursor (b : pb_buff_t) (pre room post : bytes) : Prop :=
  b_start b = pre ++ room ++ post /\ b_ptr b = len pre /\
  b_left b = len room /\ len room < 2 ^ 31.

Lemma b_put_spec b pre room post src :
  bcursor b pre room post -> len src <= len room ->
  exists b', b_put src b = Some b' /\ b_size b' = b_size b /\
    bcursor b' (pre ++ src) (drop (length src) room) post.
Proof.
  intros (Hs & Hp & Hl & Hr) Hlen. unfold b_put. rewrite Hs, Hp.
  assert (pre ++ room ++ post =
    pre ++ take (length src) room ++ drop (length src) room ++ post) as ->.
  { by rewrite (app_assoc (take _ _)), take_drop. }
  unfold len in Hlen. rewrite mem_write_app; [|done|].
  2: { unfold len. rewrite length_take. lia. }
  msimp. eexists; split; [done|]. split; [done|]. unfold bcursor; cbn.
  rewrite Hl, <- app_assoc. repeat split.
  - len_lia.
  - unfold len in *. rewrite length_drop, s32_small; lia.
  - unfold len in *. rewrite length_drop; lia.
Qed.

Lemma pb_add_spec b pre room post src :
  bcursor b pre room post ->
  if decide (len src <= len room) then
    exists b', pb_add b src (len src) = Some (0, b') /\ b_size b' = b_size b /\
      bcursor b' (pre ++ src) (drop (length src) room) post
  else pb_add b src (len src) = Some (-1, b_set_err "buf overflow" b).
Proof.
  intros Hb. pose proof Hb as (_ & _ & Hl & Hr). unfold pb_add. rewrite Hl.
  rewrite u64_small by len_lia. case_decide as Hd.
  - rewrite (proj2 (Z.ltb_ge _ _)) by lia.
    pose proof (mem_read_app [] src [] 0 (len src)) as Hm.
    rewrite app_nil_l, app_nil_r in Hm. rewrite Hm by done. msimp.
    destruct (b_put_spec b pre room post src Hb Hd) as (b' & -> & Hsz & Hb').
    msimp. eauto.
  - rewrite (proj2 (Z.ltb_lt _ _)) by lia. done.
Qed.

Lemma pb_add_vint_enc b v :
  0 <= v < 2 ^ 64 -> pb_add_vint b v = pb_add b (enc_vint v) (len (enc_vint v)).
Proof.
  intros Hv. unfold pb_add_vint. destruct (Z.eqb_spec v 0) as [->|Hne]; [done|].
  destruct (vint_loop_venc 10 v) as (l & -> & _ & Hc & Hl); [cbn; lia|].
  msimp. rewrite Hc. unfold enc_vint, len. rewrite Hl. done.
Qed.

Lemma bcursor_set_err b pre room post m :
  bcursor b pre room post -> bcursor (b_set_err m b) pre room post.
Proof. done. Qed.
#[export] Hint Resolve bcursor_set_err : pb.

(** [writes b pre room post x r]: the call emitted [x] if it fits in the room,
    and otherwise failed without touching anything outside the room. *)
Definition writes (b : pb_buff_t) (pre room post x : bytes)
    (r : option (Z * pb_buff_t)) : Prop :=
  if decide (len x <= len room) then
    exists b', r = Some (0, b') /\ b_size b' = b_size b /\
      bcursor b' (pre ++ x) (drop (length x) room) post
  else
    exists c b' y room', r = Some (c, b') /\ c < 0 /\ b_size b' = b_size b /\
      len y + len room' = len room /\ bcursor b' (pre ++ y) room' post.

Lemma writes_add b pre room post src :
  bcursor b pre room post -> writes b pre room post src (pb_add b src (len src)).
Proof.
  intros Hb. pose proof (pb_add_spec b pre room post src Hb) as Hs.
  unfold writes. case_decide; [exact Hs|]. rewrite Hs.
  exists (-1), (b_set_err "buf overflow" b), [], room.
  rewrite app_nil_r. split_and!; try done; lia.
Qed.

Lemma writes_put b pre room post src n :
  bcursor b pre room post -> n = len src ->
  writes b pre room post src
    (if b_left b <? n then Some (-1, b_set_err "buf overflow" b)
     else b1 ← b_put src b; Some (0, b1)).
Proof.
  intros Hb ->. pose proof Hb as (_ & _ & Hl & Hr). rewrite Hl. unfold writes.
  case_decide as Hd.
  - rewrite (proj2 (Z.ltb_ge _ _)) by lia.
    destruct (b_put_spec b pre room post src Hb Hd) as (b' & -> & Hsz & Hb').
    msimp. eauto.
  - rewrite (proj2 (Z.ltb_lt _ _)) by lia.
    exists (-1), (b_set_err "buf overflow" b), [], room.
    rewrite app_nil_r. split_and!; try done; lia.
Qed.

(** Sequencing: a call that emits [x], then on success one that emits [y]. *)
Lemma writes_seq b pre room post x y c e (k : pb_buff_t -> option (Z * pb_buff_t)) :
  writes b pre room post x c -> e < 0 ->
  (forall b1, bcursor b1 (pre ++ x) (drop (length x) room) post ->
     writes b1 (pre ++ x) (drop (length x) room) post y (k b1)) ->
  writes b pre room post (x ++ y)
    ('(r, b1) ← c; if negb (ok r) then Some (e, b1) else k b1).
Proof.
  intros Hx He Hk. unfold writes in *. rewrite len_app.
  destruct (decide (len x <= len room)) as [Hd|Hd].
  - destruct Hx as (b1 & -> & Hsz & Hb1). msimp. cbn [ok Z.eqb negb].
    specialize (Hk b1 Hb1).
    assert (len (drop (length x) room) = len room - len x) as Hdl.
    { unfold len in *. rewrite length_drop. lia. }
    rewrite Hdl in Hk. destruct (decide (len y <= len room - len x)) as [Hy|Hy].
    + rewrite decide_True by lia. destruct Hk as (b2 & -> & Hsz2 & Hb2).
      eexists; split; [done|]. split; [congruence|].
      rewrite length_app, app_assoc, <- drop_drop. done.
    + rewrite decide_False by lia.
      destruct Hk as (r & b2 & z & room' & -> & Hr & Hsz2 & Hz & Hb2).
      exists r, b2, (x ++ z), room'. rewrite app_assoc, len_app.
      split_and!; try done; [congruence|lia].
  - rewrite decide_False by len_lia.
    destruct Hx as (r & b1 & z & room' & -> & Hr & Hsz & Hz & Hb1). msimp.
    unfold ok. rewrite (proj2 (Z.eqb_neq r 0)) by lia. cbn [negb].
    exists e, b1, z, room'. by split_and!.
Qed.

Lemma writes_vint b pre room post v :
  0 <= v < 2 ^ 64 -> bcursor b pre room post ->
  writes b pre room post (enc_vint v) (pb_add_vint b v).
Proof. intros. rewrite pb_add_vint_enc by done. by apply writes_add. Qed.

Lemma writes_tag b pre room post p :
  field_ok p -> bcursor b pre room post ->
  writes b pre room post (enc_vint (tag_word (type_of p.2) p.1))
    (pb_add_tag b (type_of p.2) p.1).
Proof.
  intros Hok Hb. pose proof (tag_word_range p Hok).
  apply writes_vint; [lia|done].
Qed.

Lemma str_len_val_of s : len s < 2 ^ 30 -> str_len (val_of (VStr s)) = len s.
Proof. intros. cbn. apply u32_small. len_lia. Qed.

Lemma pb_add_field_val_writes b pre room post p :
  field_ok p -> bcursor b pre room post ->
  writes b pre room post (enc_field p)
    (pb_add_field_val b p.1 (type_of p.2) (val_of p.2)).
Proof.
  intros Hok Hb. pose proof Hok as [Ht Hv]. unfold pb_add_field_val, enc_field.
  apply writes_seq; [by apply writes_tag|lia|]. clear Hb. intros b1 Hb1.
  destruct p as [t [z|z|s|z]]; cbn [fst snd type_of value_ok] in *.
  - by apply writes_vint.
  - by apply writes_put.
  - change (Z.eqb PB_WT_STRING PB_WT_VARINT) with false.
    change (Z.eqb PB_WT_STRING PB_WT_FIXED64) with false.
    change (Z.eqb PB_WT_STRING PB_WT_STRING) with true. cbv iota.
    rewrite str_len_val_of by done. cbn [enc_value val_of v_data].
    apply writes_seq; [apply writes_vint; [len_lia|done]|lia|].
    intros b2 Hb2. by apply writes_add.
  - unfold val_of, i32; cbn [v_word]. rewrite u32_small by lia.
    by apply writes_put.
Qed.

(** ** Evaluated sizes *)

Lemma eval_vint_loop_venc (n : nat) v k :
  0 < v < 2 ^ (7 * Z.of_nat n) -> eval_vint_loop n v k = k + len (venc n v).
Proof.
  revert v k; induction n as [|n IH]; intros v k Hv; [cbn in Hv; lia|].
  cbn [eval_vint_loop venc]. rewrite (proj2 (Z.eqb_neq v 0)) by lia.
  destruct (Z.ltb_spec v 128).
  - assert (Z.shiftr v 7 = 0) as -> by (rewrite shiftr_7, Z.div_small; lia).
    destruct n; cbn; done.
  - pose proof (shiftr7_bound n v ltac:(lia)).
    assert (1 <= Z.shiftr v 7) by (rewrite shiftr_7; apply Z.div_le_lower_bound; lia).
    rewrite IH, len_cons by lia. lia.
Qed.

Lemma pb_eval_vint_length_enc v :
  0 <= v < 2 ^ 64 -> pb_eval_vint_length v = len (enc_vint v).
Proof.
  intros. unfold pb_eval_vint_length. destruct (Z.eqb_spec v 0) as [->|]; [done|].
  rewrite eval_vint_loop_venc by (cbn; lia). done.
Qed.

Lemma enc_vint_len v : 1 <= len (enc_vint v) <= 10.
Proof. pose proof (enc_vint_pos v). pose proof (venc_len 10 v). unfold enc_vint in *. lia. Qed.

Lemma pb_eval_field_length_enc p :
  field_ok p -> pb_eval_field_length p.1 (type_of p.2) (val_of p.2) = len (enc_field p).
Proof.
  intros Hok. pose proof (tag_word_range p Hok). pose proof Hok as [Ht Hv].
  unfold pb_eval_field_length, enc_field, pb_eval_tag_length.
  rewrite pb_eval_vint_length_enc, len_app by lia.
  destruct p as [t [z|z|s|z]]; cbn [fst snd type_of value_ok enc_value] in *.
  - cbn [Z.eqb PB_WT_VARINT]. rewrite pb_eval_vint_length_enc by done. done.
  - rewrite len_le_split. done.
  - cbn [Z.eqb PB_WT_STRING PB_WT_VARINT PB_WT_FIXED64 PB_WT_FIXED32].
    rewrite str_len_val_of, pb_eval_vint_length_enc, len_app by len_lia.
    pose proof (enc_vint_len (len s)). pose proof (enc_vint_len (tag_word PB_WT_STRING t)).
    pose proof (len_nonneg s). unfold PB_WT_STRING in *. cbn [Pos.eqb].
    rewrite u32_small, s32_small; lia.
  - rewrite len_le_split. done.
Qed.

(** ** Whole messages *)

(** The caller's loop over the encoder. *)
Fixpoint pb_add_fields (b : pb_buff_t) (l : list pb_pair) : option (Z * pb_buff_t) :=
  match l with
  | [] => Some (0, b)
  | p :: l' =>
      '(r, b1) ← pb_add_field_val b p.1 (type_of p.2) (val_of p.2);
      if negb (ok r) then Some (-1, b1) else pb_add_fields b1 l'
  end.

(** The caller's loop over the decoder:
    [for(pf = pb_begin(..); pf; pf = pb_next(pf))], collecting the fields and
    returning the cursor at the end.  Each turn consumes at least one byte. *)
Fixpoint pb_iterate (fuel : nat) (more : bool) (f : pb_field_t)
    : option (list (Z * option pb_value) * pb_field_t) :=
  if more then
    match fuel with
    | O => None
    | S fuel' =>
        '(m, f1) ← pb_next f;
        '(l, f2) ← pb_iterate fuel' m f1;
        Some ((f_tag f, view (f_type f) (f_val f)) :: l, f2)
    end
  else Some ([], f).

Definition pb_fields (data : bytes) (dlen : Z)
    : option (list (Z * option pb_value) * pb_field_t) :=
  '(m, f) ← pb_begin f_undef data dlen;
  pb_iterate (S (Z.to_nat dlen)) m f.

Lemma pb_add_fields_writes b pre room post l :
  Forall field_ok l -> bcursor b pre room post ->
  writes b pre room post (enc_fields l) (pb_add_fields b l).
Proof.
  revert b pre room. induction l as [|p l IH]; intros b pre room Hl Hb.
  - cbn. unfold writes. rewrite decide_True by len_lia.
    eexists; split; [done|]. split; [done|]. by rewrite app_nil_r.
  - apply Forall_cons in Hl as [Hp Hl]. cbn [pb_add_fields].
    change (enc_fields (p :: l)) with (enc_field p ++ enc_fields l).
    apply writes_seq; [by apply pb_add_field_val_writes|lia|].
    intros b1 Hb1. by apply IH.
Qed.

(** At the end of the window the tag decoder reports end-of-message. *)
Lemma pb_decode_tag_end f pre post :
  cursor f pre [] post ->
  pb_decode_tag f = Some (-1, f_set_eom (f_set_err "end-of-buffer" f)).
Proof.
  intros (_ & _ & Hl & _).
  assert (pb_decode_varint f = Some (-2, f_set_err "end-of-buffer" f)) as Hd.
  { unfold pb_decode_varint. cbn [pb_decode_varint_loop]. unfold pb_get_byte.
    rewrite Hl. reflexivity. }
  unfold pb_decode_tag. rewrite Hd. msimp. cbn [f_left f_set_err].
  rewrite Hl. reflexivity.
Qed.

Lemma len_enc_field p : len (enc_field p) <= 28 + match p.2 with VStr s => len s | _ => 0 end.
Proof.
  unfold enc_field. rewrite len_app. pose proof (enc_vint_len (tag_word (type_of p.2) p.1)).
  destruct (p.2) as [z|z|s|z]; cbn [enc_value].
  - pose proof (enc_vint_len z). lia.
  - rewrite len_le_split. lia.
  - rewrite len_app. pose proof (enc_vint_len (len s)). lia.
  - rewrite len_le_split. lia.
Qed.

Lemma enc_field_len_pos p : 1 <= len (enc_field p).
Proof.
  unfold enc_field. pose proof (enc_vint_pos (tag_word (type_of p.2) p.1)). len_lia.
Qed.

Lemma pb_iterate_enc l : forall fuel f pre post,
  Forall field_ok l -> cursor f pre (enc_fields l) post ->
  (length (enc_fields l) < fuel)%nat ->
  exists f', pb_iterate fuel true f =
    Some ((f_tag f, view (f_type f) (f_val f)) :: (prod_map id Some <$> l), f') /\
    f_eom f' = 1.
Proof.
  induction l as [|p l IH]; intros fuel f pre post Hl Hc Hf.
  - destruct fuel as [|fuel]; [lia|]. cbn [pb_iterate]. unfold pb_next.
    rewrite (pb_decode_tag_end f pre post Hc). msimp. cbn [ok Z.eqb].
    destruct fuel; cbn [pb_iterate]; msimp; eauto.
  - apply Forall_cons in Hl as [Hp Hl].
    change (enc_fields (p :: l)) with (enc_field p ++ enc_fields l) in *.
    destruct fuel as [|fuel]; [lia|]. cbn [pb_iterate]. unfold pb_next.
    destruct (pb_decode_tag_enc p f pre (enc_fields l) post Hp Hc)
      as (f1 & -> & (Ht & Hy & Hv) & _ & Hc1). msimp. cbn [ok Z.eqb].
    pose proof (enc_field_len_pos p) as Hpos. unfold len in Hpos. rewrite length_app in Hf.
    destruct (IH fuel f1 _ post Hl Hc1 ltac:(lia)) as (f' & -> & He). msimp.
    exists f'. split; [|done]. rewrite Hv, Ht. destruct p; done.
Qed.

(** ** Memory safety of the decoder *)

(** [moved f f']: the cursor advanced inside the same window. *)
Definition moved (f f' : pb_field_t) : Prop :=
  wf_field f' /\ f_start f' = f_start f /\ f_left f' <= f_left f /\
  f_ptr f' + f_left f' = f_ptr f + f_left f.

Lemma moved_refl f : wf_field f -> moved f f.
Proof. intros H. by split_and!. Qed.
Lemma moved_trans f g h : moved f g -> moved g h -> moved f h.
Proof.
  intros (? & ? & ? & ?) (? & ? & ? & ?). split_and!; [done|congruence|lia|lia].
Qed.
Lemma moved_set_val v f g : moved f g -> moved f (f_set_val v g).
Proof. done. Qed.
Lemma moved_set_err m f g : moved f g -> moved f (f_set_err m g).
Proof. done. Qed.
Lemma moved_set_eom f g : moved f g -> moved f (f_set_eom g).
Proof. done. Qed.
Lemma moved_set_tag t y f g : moved f g -> moved f (f_set_tag t y g).
Proof. done. Qed.
Lemma moved_wf f g : moved f g -> wf_field g.
Proof. by intros []. Qed.
Lemma moved_advance n f : wf_field f -> 0 <= n <= f_left f -> moved f (f_advance n f).
Proof.
  intros (H1 & H2 & H3) Hn.
  assert (s32 (f_left f - n) = f_left f - n) as Hs by (apply s32_small; lia).
  unfold moved, wf_field, f_advance; cbn. rewrite Hs. split_and!; try done; lia.
Qed.
#[export] Hint Resolve moved_refl moved_set_val moved_set_err moved_set_eom
  moved_set_tag moved_wf : pb.

Lemma wf_read f n :
  wf_field f -> 0 <= n <= f_left f -> is_Some (mem_read (f_start f) (f_ptr f) n).
Proof. intros (? & ? & ?) ?. apply mem_read_is_Some; lia. Qed.

(** [safe f r]: the call did not leave the block, and made progress when it
    returned 0. *)
Definition safe (f : pb_field_t) (r : option (Z * pb_field_t)) : Prop :=
  exists c f', r = Some (c, f') /\ moved f f' /\ (c = 0 -> f_left f' < f_left f).

Lemma pb_get_byte_safe f :
  wf_field f -> exists c b f', pb_get_byte f true = Some (c, b, f') /\ moved f f' /\
    (c = 0 -> f_left f' = f_left f - 1).
Proof.
  intros Hw. unfold pb_get_byte. destruct (Z.ltb_spec (f_left f) 1).
  - do 3 eexists. split; [done|]. split; [auto with pb|lia].
  - destruct (wf_read f 1 Hw ltac:(lia)) as [b ->]. msimp.
    exists 0, (le_combine b), (f_advance 1 f). split; [done|].
    split; [apply moved_advance; [done|lia]|]. intros _.
    destruct Hw as (_ & ? & _). cbn. apply s32_small; lia.
Qed.

Lemma pb_decode_varint_loop_safe fuel : forall bitpos acc f,
  wf_field f -> 0 <= bitpos -> bitpos + 7 * Z.of_nat fuel >= 71 -> bitpos <= 70 ->
  safe f (pb_decode_varint_loop fuel bitpos acc f).
Proof.
  induction fuel as [|fuel IH]; intros bitpos acc f Hw H0 Hb H70; [lia|].
  cbn [pb_decode_varint_loop]. destruct (Z.leb_spec 64 bitpos).
  - do 2 eexists. split; [done|]. split; [auto with pb|lia].
  - destruct (pb_get_byte_safe f Hw) as (c & b & f1 & -> & Hm & Hc). msimp.
    unfold ok. destruct (Z.eqb_spec c 0) as [->|Hne]; cbn [negb].
    + specialize (Hc eq_refl). destruct (Z.eqb (Z.land b 128) 0).
      * do 2 eexists. split; [done|]. split; [by apply moved_set_val|cbn; lia].
      * rewrite u8_small by lia.
        edestruct (IH (bitpos + 7)) as (c2 & f2 & -> & Hm2 & Hc2);
          [eauto with pb|lia|lia|lia|].
        do 2 eexists. split; [done|]. split; [by eapply moved_trans|].
        intros Hz. specialize (Hc2 Hz). lia.
    + do 2 eexists. split; [done|]. split; [done|lia].
Qed.

Lemma pb_decode_varint_safe f : wf_field f -> safe f (pb_decode_varint f).
Proof. intros. by apply pb_decode_varint_loop_safe. Qed.

Lemma pb_decode_varint_loop_range fuel : forall bitpos acc f f',
  0 <= acc < 2 ^ 64 -> pb_decode_varint_loop fuel bitpos acc f = Some (0, f') ->
  0 <= i64 (f_val f') < 2 ^ 64.
Proof.
  induction fuel as [|fuel IH]; intros bitpos acc f f' Ha; cbn [pb_decode_varint_loop];
    [done|].
  destruct (64 <=? bitpos); [done|].
  destruct (pb_get_byte f true) as [[[c b] f1]|]; msimp; [|done].
  destruct (negb (ok c)); [done|].
  pose proof (u64_range (Z.shiftl (Z.land b 127) bitpos)).
  destruct (Z.eqb (Z.land b 128) 0).
  - intros [= <-]. cbn. by apply lor_range.
  - apply IH. by apply lor_range.
Qed.

Lemma pb_decode_varint_range f f' :
  pb_decode_varint f = Some (0, f') -> 0 <= i64 (f_val f') < 2 ^ 64.
Proof. by apply pb_decode_varint_loop_range. Qed.

(** A step that is safe after a move is safe from the start. *)
Lemma safe_moved f g r : moved f g -> safe g r -> safe f r.
Proof.
  intros Hm (c & f' & -> & Hm' & Hc). do 2 eexists. split; [done|].
  split; [by eapply moved_trans|]. intros Hz. specialize (Hc Hz).
  destruct Hm as (_ & _ & ? & _). lia.
Qed.

Lemma pb_decode_fixed32_safe f : wf_field f -> safe f (pb_decode_fixed32 f).
Proof.
  intros Hw. unfold pb_decode_fixed32, pb_get_dword.
  destruct (Z.ltb_spec (f_left f) 4); msimp.
  - do 2 eexists. split; [done|]. split; [cbn; auto with pb|lia].
  - destruct (wf_read f 4 Hw ltac:(lia)) as [b ->]. msimp.
    do 2 eexists. split; [done|]. split; [apply moved_set_val, moved_advance; [done|lia]|].
    intros _. cbn. destruct Hw as (_ & ? & _). rewrite s32_small; lia.
Qed.

Lemma pb_decode_fixed64_safe f : wf_field f -> safe f (pb_decode_fixed64 f).
Proof.
  intros Hw. unfold pb_decode_fixed64, pb_get_ddword.
  destruct (Z.ltb_spec (f_left f) 8); msimp.
  - do 2 eexists. split; [done|]. split; [cbn; auto with pb|lia].
  - destruct (wf_read f 8 Hw ltac:(lia)) as [b ->]. msimp.
    do 2 eexists. split; [done|]. split; [apply moved_set_val, moved_advance; [done|lia]|].
    intros _. cbn. destruct Hw as (_ & ? & _). rewrite s32_small; lia.
Qed.

Lemma pb_decode_string_safe f : wf_field f -> safe f (pb_decode_string f).
Proof.
  intros Hw. unfold pb_decode_string.
  destruct (pb_decode_varint_safe f Hw) as (c & f1 & Hd & Hm & Hc).
  rewrite Hd. msimp. unfold ok. destruct (Z.eqb_spec c 0) as [->|Hne]; cbn [negb];
    [|do 2 eexists; split; [done|]; split; [done|lia]].
  pose proof (pb_decode_varint_range f f1 Hd) as Hi.
  specialize (Hc eq_refl). pose proof Hm as (Hw1 & _). pose proof Hw1 as (? & Hl & ?).
  rewrite u64_small by lia. destruct (Z.ltb_spec (f_left f1) (i64 (f_val f1))).
  - do 2 eexists. split; [done|]. split; [by apply moved_set_err|lia].
  - assert (0 <= u32 (i64 (f_val f1)) <= f_left f1) as Hsz.
    { unfold u32. pose proof (Z.mod_le (i64 (f_val f1)) (2 ^ 32)).
      pose proof (Z.mod_pos_bound (i64 (f_val f1)) (2 ^ 32)). lia. }
    destruct (wf_read f1 _ Hw1 Hsz) as [d ->]. msimp.
    do 2 eexists. split; [done|].
    change (f_advance ?n (f_set_val ?v f1)) with (f_set_val v (f_advance n f1)).
    split; [apply moved_set_val; eapply moved_trans; [done|by apply moved_advance]|].
    intros _. cbn. rewrite s32_small; lia.
Qed.

Lemma pb_decode_tag_safe f : wf_field f -> safe f (pb_decode_tag f).
Proof.
  intros Hw. unfold pb_decode_tag.
  destruct (pb_decode_varint_safe f Hw) as (c & f1 & -> & Hm & Hc). msimp. unfold ok.
  destruct (Z.eqb_spec c 0) as [->|Hne]; cbn [negb].
  2: { destruct (Z.eqb (f_left f1) 0); do 2 eexists; (split; [done|]);
       (split; [auto with pb|lia]). }
  destruct (Z.eqb (i64 (f_val f1)) 0).
  { do 2 eexists. split; [done|]. split; [auto with pb|lia]. }
  set (g := f_set_tag _ _ f1). assert (moved f g) as Hg by by apply moved_set_tag.
  pose proof (moved_wf _ _ Hg).
  repeat match goal with |- context [if ?b then _ else _] => destruct b end;
    first [eapply safe_moved; [exact Hg|];
           solve [eauto using pb_decode_varint_safe, pb_decode_fixed64_safe,
             pb_decode_string_safe, pb_decode_fixed32_safe]
          | do 2 eexists; split; [done|]; split; [auto with pb|lia]].
Qed.

Lemma pb_skip_varint_loop_safe fuel : forall f,
  wf_field f -> f_left f < Z.of_nat fuel ->
  exists f', pb_skip_varint_loop fuel f = Some (0, f') /\ moved f f'.
Proof.
  induction fuel as [|fuel IH]; intros f Hw Hf.
  - destruct Hw as (_ & ? & _). lia.
  - cbn [pb_skip_varint_loop].
    destruct (pb_get_byte_safe f Hw) as (c & b & f1 & -> & Hm & Hc). msimp. unfold ok.
    destruct (Z.eqb_spec c 0) as [->|Hne]; cbn [negb]; [|eauto].
    specialize (Hc eq_refl). destruct (Z.eqb (Z.land b 128) 0); [eauto|].
    destruct (IH f1 ltac:(eauto with pb) ltac:(lia)) as (f2 & -> & Hm2).
    eauto using moved_trans.
Qed.

Lemma pb_get_safe f n :
  wf_field f -> 0 <= n ->
  exists c b f', pb_get f false n = Some (c, b, f') /\ moved f f'.
Proof.
  intros Hw Hn. unfold pb_get. pose proof Hw as (_ & ? & _).
  rewrite u64_small by lia. destruct (Z.ltb_spec (f_left f) n); msimp.
  - do 3 eexists. split; [done|]. auto with pb.
  - do 3 eexists. split; [done|]. apply moved_advance; [done|lia].
Qed.

Lemma pb_skip_field_safe f ty :
  wf_field f -> exists c f', pb_skip_field f ty = Some (c, f') /\ moved f f'.
Proof.
  intros Hw. unfold pb_skip_field. pose proof Hw as (_ & Hl & _).
  destruct (Z.eqb ty PB_WT_VARINT).
  { edestruct (pb_skip_varint_loop_safe (S (Z.to_nat (f_left f))) f Hw)
      as (f' & Hs & Hm); [lia|]. eauto. }
  destruct (Z.eqb ty PB_WT_FIXED64).
  { unfold pb_get_ddword. destruct (Z.ltb_spec (f_left f) 8); msimp;
      do 2 eexists; (split; [done|]); [auto with pb|apply moved_advance; [done|lia]]. }
  destruct (Z.eqb ty PB_WT_STRING).
  { unfold pb_skip_string.
    destruct (pb_decode_varint_safe f Hw) as (c & f1 & -> & Hm & Hc). msimp.
    destruct (negb (ok c)); [eauto|].
    destruct (pb_get_safe f1 (i32 (f_val f1))) as (c2 & b & f2 & -> & Hm2);
      [eauto with pb|apply u32_range|]. msimp. eauto using moved_trans. }
  destruct (Z.eqb ty PB_WT_FIXED32);
    [|do 2 eexists; split; [done|]; auto with pb].
  unfold pb_get_dword. destruct (Z.ltb_spec (f_left f) 4); msimp;
    do 2 eexists; (split; [done|]); [auto with pb|apply moved_advance; [done|lia]].
Qed.

Lemma f_init_wf f data dlen :
  0 <= dlen < 2 ^ 31 -> dlen <= len data -> wf_field (f_init data dlen f).
Proof.
  intros. unfold wf_field, f_init; cbn. rewrite s32_small by lia. lia.
Qed.

Lemma pb_fields_enc (l : list pb_pair) :
  Forall field_ok l -> len (enc_fields l) < 2 ^ 31 ->
  exists f, pb_fields (enc_fields l) (len (enc_fields l)) = Some (prod_map id Some <$> l, f) /\ f_eom f = 1.
Proof.
  intros Hl Hmax. unfold pb_fields, pb_begin. set (f0 := mk_field _ _ _ _ _ _ _ _ _).
  assert (cursor f0 [] (enc_fields l) []) as Hc.
  { unfold cursor, f0; cbn. rewrite app_nil_r, s32_small by len_lia.
    repeat split; try done; lia. }
  destruct l as [|p l].
  - rewrite (pb_decode_tag_end f0 [] [] Hc). msimp. eexists. split; [reflexivity|done].
  - apply Forall_cons in Hl as [Hp Hl].
    change (enc_fields (p :: l)) with (enc_field p ++ enc_fields l) in *.
    destruct (pb_decode_tag_enc p f0 [] (enc_fields l) [] Hp Hc)
      as (f1 & -> & (Ht & Hy & Hv) & _ & Hc1). msimp.
    destruct (pb_iterate_enc l (S (Z.to_nat (len (enc_field p ++ enc_fields l)))) f1 _ []
      Hl Hc1) as (f' & Hi & He).
    { unfold len. rewrite length_app. lia. }
    cbn [ok Z.eqb]. rewrite Hi. exists f'. split; [|done]. rewrite Ht, Hv. destruct p; done.
Qed.

Lemma message_rt (l : list pb_pair) (buf : bytes) (b0 : pb_buff_t) :
  Forall field_ok l ->
  len buf = foldr Z.add 0
    ((fun p => pb_eval_field_length p.1 (type_of p.2) (val_of p.2)) <$> l) ->
  len buf < 2 ^ 31 ->
  exists b f, pb_add_fields (pb_init_buff b0 buf (len buf)).2 l = Some (0, b) /\
    pb_get_encoded_length b = len buf /\
    pb_fields (b_start b) (len buf) = Some (prod_map id Some <$> l, f) /\
    f_eom f = 1.
Proof.
  intros Hl Hlen Hmax.
  assert (len buf = len (enc_fields l)) as Henc.
  { rewrite Hlen. clear Hlen Hmax. induction Hl as [|p l Hp Hl IH]; [done|].
    change (enc_fields (p :: l)) with (enc_field p ++ enc_fields l). cbn.
    rewrite IH, len_app, pb_eval_field_length_enc by done. done. }
  assert (bcursor (pb_init_buff b0 buf (len buf)).2 [] buf []) as Hb.
  { unfold bcursor; cbn. rewrite app_nil_r, s32_small by len_lia. done. }
  pose proof (pb_add_fields_writes _ _ _ _ l Hl Hb) as Hw. unfold writes in Hw.
  rewrite decide_True in Hw by lia.
  destruct Hw as (b & Hadd & Hsz & (Hst & _ & Hleft & _)).
  rewrite drop_ge in Hst, Hleft by (unfold len in Henc; lia).
  rewrite !app_nil_r, app_nil_l in Hst. change (b_size _) with (u64 (s32 (len buf))) in Hsz at 2.
  assert (pb_get_encoded_length b = len buf) as Hel.
  { unfold pb_get_encoded_length. rewrite Hsz, Hleft, len_nil, Z.sub_0_r.
    pose proof (len_nonneg buf). by rewrite (s32_small (len buf)), !u64_small, s32_small
      by (rewrite ?u64_small; lia). }
  destruct (pb_fields_enc l Hl) as (f & Hf & He); [lia|].
  exists b, f. rewrite Hst. rewrite Henc in Hadd, Hel |- *. done.
Qed.

(** ** Properties *)

(** C38: encoding any sequence of well-formed fields with the codec into a buffer of the
    evaluated size succeeds and fills it exactly, and iterating over the result with
    [pb_begin]/[pb_next] yields the same tags and values and ends with the
    end-of-message mark set. *)
Theorem message_roundtrip (l : list pb_pair) (buf : bytes) (b0 : pb_buff_t) :
  Forall field_ok l ->
  len buf = foldr Z.add 0
    ((fun p => pb_eval_field_length p.1 (type_of p.2) (val_of p.2)) <$> l) ->
  len buf < 2 ^ 31 ->
  exists b f, pb_add_fields (pb_init_buff b0 buf (len buf)).2 l = Some (0, b) /\
    pb_get_encoded_length b = len buf /\
    pb_fields (b_start b) (len buf) = Some (prod_map id Some <$> l, f) /\
    f_eom f = 1.
Proof. apply message_rt. Qed.

Definition sample_fields : list pb_pair :=
  [(1, VStr [115; 113; 108]); (2, VInt 300); (3, VFix32 7); (11, VFix64 (2 ^ 63))].

Lemma message_roundtrip_witness :
  exists b f, pb_add_fields (pb_init_buff (mk_buff [] 0 0 0 None) (replicate 22 0) 22).2
                sample_fields = Some (0, b) /\
    pb_get_encoded_length b = 22 /\
    pb_fields (b_start b) 22 = Some (prod_map id Some <$> sample_fields, f) /\ f_eom f = 1.
Proof.
  apply (message_roundtrip sample_fields (replicate 22 0) (mk_buff [] 0 0 0 None)).
  - repeat constructor; cbn; lia.
  - vm_compute. reflexivity.
  - vm_compute. reflexivity.
Defined.

(** [pb_add_field_val] writes a field exactly when its evaluated size fits in the room
    left; it then emits the reference encoding and advances by that size.  Otherwise it
    returns a negative code.  In both cases the bytes before the cursor and after the room
    are untouched, and no access leaves the block. *)
Theorem add_field_val_exact (b : pb_buff_t) (pre room post : bytes) (p : pb_pair) :
  field_ok p -> bcursor b pre room post ->
  let n := pb_eval_field_length p.1 (type_of p.2) (val_of p.2) in
  let r := pb_add_field_val b p.1 (type_of p.2) (val_of p.2) in
  if decide (n <= b_left b) then
    exists b', r = Some (0, b') /\ b_start b' = pre ++ enc_field p ++ drop (Z.to_nat n) room ++ post /\
      b_ptr b' = b_ptr b + n /\ b_left b' = b_left b - n
  else
    exists c b' room', r = Some (c, b') /\ c < 0 /\
      b_start b' = pre ++ room' ++ post /\ len room' = len room.
Proof.
  intros Hok Hb. cbv zeta. pose proof (pb_add_field_val_writes b pre room post p Hok Hb) as Hw.
  rewrite pb_eval_field_length_enc by done.
  pose proof Hb as (Hs & Hp & Hl & Hr). rewrite Hl. unfold writes in Hw. case_decide as Hd.
  - destruct Hw as (b' & -> & _ & (Hs' & Hp' & Hl' & _)). exists b'. unfold len in Hd |- *.
    rewrite Nat2Z.id. rewrite <- app_assoc in Hs'. split_and!; [done|done| |].
    + rewrite Hp', Hp, len_app. done.
    + rewrite Hl'. unfold len. rewrite length_drop. lia.
  - destruct Hw as (c & b' & y & room' & -> & Hc & _ & Hy & (Hs' & _)).
    exists c, b', (y ++ room'). rewrite <- !app_assoc in *. split_and!; try done. len_lia.
Qed.

Lemma add_field_val_exact_witness :
  let b := mk_buff [9; 0; 0; 0; 8] 3 1 3 None in
  (exists b', pb_add_field_val b 1 PB_WT_VARINT (mk_val 300 []) = Some (0, b') /\
     b_start b' = [9] ++ [8; 172; 2] ++ [] ++ [8] /\ b_ptr b' = 1 + 3 /\ b_left b' = 3 - 3).
Proof.
  pose proof (add_field_val_exact (mk_buff [9; 0; 0; 0; 8] 3 1 3 None) [9] [0; 0; 0] [8]
    (1, VInt 300)) as H.
  rewrite decide_True in H by (vm_compute; done). apply H; vm_compute; intuition congruence.
Defined.

(** [pb_iterate] stays inside the block and stops. *)
Lemma pb_iterate_total fuel : forall m f,
  wf_field f -> f_left f < Z.of_nat fuel ->
  exists l f', pb_iterate fuel m f = Some (l, f') /\ moved f f' /\
    len l <= f_left f - f_left f' + 1.
Proof.
  induction fuel as [|fuel IH]; intros m f Hw Hf; [destruct Hw as (_ & ? & _); lia|].
  destruct m; cbn [pb_iterate].
  2: { exists [], f. split_and!; [done|auto with pb|len_lia]. }
  unfold pb_next. destruct (pb_decode_tag_safe f Hw) as (c & f1 & -> & Hm & Hc). msimp.
  unfold ok. destruct (Z.eqb_spec c 0) as [->|Hne].
  - specialize (Hc eq_refl).
    destruct (IH true f1 ltac:(eauto with pb) ltac:(lia)) as (l & f2 & -> & Hm2 & Hl). msimp.
    do 2 eexists. split; [done|]. split; [by eapply moved_trans|len_lia].
  - destruct fuel as [|fuel]; cbn [pb_iterate]; msimp; do 2 eexists;
      (split; [done|]); destruct Hm as (? & ? & ? & ?); (split; [by split_and!|len_lia]).
Qed.

(** C39: iterating over an arbitrary block of bytes never reads outside the [dlen] bytes it was
    given, always terminates, and yields at most [dlen + 1] fields: hostile input cannot make
    the decoder read out of bounds or loop. *)
Theorem pb_fields_total (data : bytes) (dlen : Z) :
  0 <= dlen < 2 ^ 31 -> dlen <= len data ->
  exists l f, pb_fields data dlen = Some (l, f) /\ len l <= dlen + 1 /\
    f_start f = data /\ 0 <= f_ptr f <= dlen /\ f_ptr f + f_left f = dlen.
Proof.
  intros Hd Hl. unfold pb_fields, pb_begin. set (f0 := mk_field _ _ _ _ _ _ _ _ _).
  assert (wf_field f0) as Hw.
  { unfold f0, wf_field; cbn. rewrite s32_small by lia. lia. }
  assert (f_left f0 = dlen) as Hl0 by (cbn; apply s32_small; lia).
  destruct (pb_decode_tag_safe f0 Hw) as (c & f1 & -> & Hm & Hc). msimp.
  destruct (pb_iterate_total (S (Z.to_nat dlen)) (ok c) f1) as (l & f & -> & Hm2 & Hlen);
    [eauto with pb|destruct Hm; lia|].
  pose proof (moved_trans _ _ _ Hm Hm2) as ((Hp & Hle & _) & Hst & Hlf & Hsum).
  change (f_ptr f0) with 0 in Hsum. exists l, f. destruct Hm as (_ & _ & ? & _).
  split_and!; try done; lia.
Qed.

Lemma pb_fields_total_witness :
  exists l f, pb_fields [8; 255; 255] 3 = Some (l, f) /\ len l <= 3 + 1 /\
    f_start f = [8; 255; 255] /\ 0 <= f_ptr f <= 3 /\ f_ptr f + f_left f = 3.
Proof. apply (pb_fields_total [8; 255; 255] 3); vm_compute; intuition congruence. Defined.

(** ** Zig-zag *)

Lemma u64_s64 z : u64 (s64 z) = u64 z.
Proof.
  unfold u64, s64. rewrite Zminus_mod, Zmod_mod, <- Zminus_mod. f_equal. lia.
Qed.
Lemma u64_lnot z : u64 (Z.lnot (s64 z)) = u64 (- z - 1).
Proof.
  unfold Z.lnot, u64. rewrite <- Z.sub_1_r, <- !Z.sub_0_l.
  rewrite Zminus_mod, (Zminus_mod 0 (s64 z)).
  change (s64 z mod 2 ^ 64) with (u64 (s64 z)). rewrite u64_s64. unfold u64.
  rewrite <- (Zminus_mod 0 z), <- Zminus_mod. done.
Qed.

(** The mathematical zig-zag numbering 0, -1, 1, -2, ... *)
Definition zigzag (s : Z) : Z := if s <? 0 then - 2 * s - 1 else 2 * s.

Lemma pb_int2uint_zigzag s : - 2 ^ 63 <= s < 2 ^ 63 -> pb_int2uint s = zigzag s.
Proof.
  intros Hs. unfold pb_int2uint, zigzag. rewrite Z.shiftl_mul_pow2 by lia.
  destruct (Z.ltb_spec s 0).
  - rewrite u64_lnot, u64_small; lia.
  - rewrite u64_s64, u64_small; lia.
Qed.

Lemma pb_uint2int_even k : 0 <= k < 2 ^ 63 -> pb_uint2int (2 * k) = k.
Proof.
  intros Hk. unfold pb_uint2int. change 1 with (Z.ones 1) at 1.
  rewrite Z.land_ones, Z.shiftr_div_pow2 by lia. change (2 ^ 1) with 2.
  rewrite (Z.mul_comm 2 k), Z.mod_mul, Z.div_mul by lia.
  apply s64_small. lia.
Qed.
Lemma pb_uint2int_odd k : 0 <= k < 2 ^ 63 -> pb_uint2int (2 * k + 1) = - k - 1.
Proof.
  intros Hk. unfold pb_uint2int. change 1 with (Z.ones 1) at 2.
  rewrite Z.land_ones, Z.shiftr_div_pow2 by lia. change (2 ^ 1) with 2.
  replace ((2 * k + 1) mod 2) with 1 by (apply (Z.mod_unique _ _ k); lia).
  replace ((2 * k + 1) / 2) with k by (apply (Z.div_unique _ _ _ 1); lia).
  change (Z.eqb 1 0) with false. cbv iota.
  unfold Z.lnot. unfold s64, u64. rewrite Zplus_mod_idemp_l.
  rewrite <- (Z.mod_unique _ (2 ^ 64) 0 (- k - 1 + 2 ^ 63)); lia.
Qed.

(** The zig-zag conversions are inverse bijections between the signed and the unsigned
    64-bit integers, the two ends of the range included. *)
Theorem zigzag_roundtrip (s u : Z) :
  - 2 ^ 63 <= s < 2 ^ 63 -> 0 <= u < 2 ^ 64 ->
  pb_uint2int (pb_int2uint s) = s /\ pb_int2uint (pb_uint2int u) = u /\
  0 <= pb_int2uint s < 2 ^ 64.
Proof.
  intros Hs Hu. rewrite (pb_int2uint_zigzag s) by done. unfold zigzag. split_and!.
  - destruct (Z.ltb_spec s 0).
    + replace (- 2 * s - 1) with (2 * (- s - 1) + 1) by lia. rewrite pb_uint2int_odd; lia.
    + apply pb_uint2int_even. lia.
  - destruct (Z.Even_or_Odd u) as [[k ->]|[k ->]].
    + rewrite pb_uint2int_even, pb_int2uint_zigzag by lia. unfold zigzag.
      rewrite (proj2 (Z.ltb_ge _ _)); lia.
    + rewrite pb_uint2int_odd, pb_int2uint_zigzag by lia. unfold zigzag.
      rewrite (proj2 (Z.ltb_lt _ _)); lia.
  - destruct (Z.ltb_spec s 0); lia.
  - destruct (Z.ltb_spec s 0); lia.
Qed.

Lemma zigzag_roundtrip_witness :
  pb_uint2int (pb_int2uint (- 2 ^ 63)) = - 2 ^ 63 /\
  pb_int2uint (pb_uint2int (2 ^ 64 - 1)) = 2 ^ 64 - 1 /\
  0 <= pb_int2uint (- 2 ^ 63) < 2 ^ 64.
Proof. apply (zigzag_roundtrip (- 2 ^ 63) (2 ^ 64 - 1)); lia. Defined.

(** ** Skipping *)

Lemma pb_get_byte_left f f' c b :
  pb_get_byte f true = Some (c, b, f') -> c = 0 -> 0 <= f_left f < 2 ^ 31 ->
  0 <= f_left f' < f_left f.
Proof.
  unfold pb_get_byte. destruct (Z.ltb_spec (f_left f) 1); [intros [= <- <- <-]; lia|].
  destruct (mem_read _ _ _); msimp; [|done]. intros [= <- <- <-] _ ?. cbn.
  rewrite s32_small; lia.
Qed.

(** The cursor after reading the same bytes, whatever was stored in [val]. *)
Definition same_place (f g : pb_field_t) : Prop :=
  f_start f = f_start g /\ f_ptr f = f_ptr g /\ f_left f = f_left g.

Lemma pb_skip_varint_loop_same fuel : forall fuel' bitpos acc f f',
  pb_decode_varint_loop fuel bitpos acc f = Some (0, f') ->
  0 <= f_left f < 2 ^ 31 -> f_left f < Z.of_nat fuel' ->
  exists g, pb_skip_varint_loop fuel' f = Some (0, g) /\ same_place g f'.
Proof.
  induction fuel as [|fuel IH]; intros [|fuel'] bitpos acc f f' Hd Hw Hf; try done; [lia|].
  cbn [pb_decode_varint_loop pb_skip_varint_loop] in *.
  destruct (64 <=? bitpos); [done|].
  destruct (pb_get_byte f true) as [[[c b] f1]|] eqn:Hg; [|done]. msimp. msimp_in Hd.
  destruct (ok c) eqn:Hc; cbn [negb] in *; [|done]. apply Z.eqb_eq in Hc.
  pose proof (pb_get_byte_left _ _ _ _ Hg Hc Hw) as Hl.
  destruct (Z.eqb (Z.land b 128) 0).
  - injection Hd as <-. eexists; split; [done|]. done.
  - eapply IH; [exact Hd|lia|lia].
Qed.

(** C40: on a field that decodes, [pb_skip_field] applied after the tag moves the cursor to
    where decoding the value leaves it: a reader that ignores unknown fields stays in step
    with one that decodes them. *)
Theorem skip_field_in_step (f f' : pb_field_t) (x : pb_value) :
  0 <= f_left f < 2 ^ 31 ->
  match x with
  | VInt _ => pb_decode_varint f | VFix64 _ => pb_decode_fixed64 f
  | VStr _ => pb_decode_string f | VFix32 _ => pb_decode_fixed32 f
  end = Some (0, f') ->
  exists g, pb_skip_field f (type_of x) = Some (0, g) /\ same_place g f'.
Proof.
  intros Hw Hd. destruct x; unfold pb_skip_field; cbn [type_of].
  - eapply pb_skip_varint_loop_same; [exact Hd|done|lia].
  - cbn -[pb_get_ddword]. unfold pb_decode_fixed64, pb_get_ddword in *. destruct (f_left f <? 8); [done|].
    destruct (mem_read _ _ _); [|done]. msimp_in Hd. msimp. injection Hd as <-. by eexists.
  - unfold pb_skip_string, pb_decode_string in *. cbn -[pb_decode_varint pb_get Z.pow].
    destruct (pb_decode_varint f) as [[r f1]|] eqn:Hv; [|done]. msimp. msimp_in Hd.
    destruct (ok r) eqn:Hr; cbn [negb] in *; [|done]. apply Z.eqb_eq in Hr as ->.
    apply pb_decode_varint_range in Hv. destruct (Z.ltb_spec (u64 (f_left f1)) (i64 (f_val f1))).
    { done. }
    destruct (mem_read _ _ _); [|done]. msimp_in Hd. injection Hd as <-.
    unfold pb_get, i32, i64 in *.
    assert (u32 (v_word (f_val f1)) <= u64 (f_left f1)).
    { unfold u32. pose proof (Z.mod_le (v_word (f_val f1)) (2 ^ 32)). lia. }
    rewrite (proj2 (Z.ltb_ge _ _)) by lia. msimp. by eexists.
  - cbn -[pb_get_dword]. unfold pb_decode_fixed32, pb_get_dword in *.
    destruct (f_left f <? 4); [done|].
    destruct (mem_read _ _ _); [|done]. msimp_in Hd. msimp. injection Hd as <-. by eexists.
Qed.

Lemma skip_field_in_step_witness :
  let f := f_init [3; 97; 98; 99; 7] 5 f_undef in
  exists g, pb_skip_field f PB_WT_STRING = Some (0, g) /\ same_place g (f_advance 3 (f_set_val (mk_val 3 [97; 98; 99]) (f_advance 1 f))).
Proof.
  apply (skip_field_in_step (f_init [3; 97; 98; 99; 7] 5 f_undef) _ (VStr [97; 98; 99])).
  - vm_compute; intuition congruence.
  - vm_compute. reflexivity.
Defined.

(** ** Malformed varints *)

(** A run of bytes that all announce a successor. *)
Lemma pb_decode_varint_loop_cont l : forall fuel bitpos acc f pre data post,
  Forall (fun b => 128 <= b < 256) l -> cursor f pre (l ++ data) post ->
  0 <= bitpos -> bitpos + 7 * len l <= 70 -> (length l < fuel)%nat ->
  exists acc',
    pb_decode_varint_loop fuel bitpos acc f =
    pb_decode_varint_loop (fuel - length l) (bitpos + 7 * len l) acc' (f_advance (len l) f).
Proof.
  induction l as [|b l IH]; intros fuel bitpos acc f pre data post Hl Hc H0 H70 Hf.
  - exists acc. rewrite Nat.sub_0_r. cbn. rewrite Z.add_0_r. f_equal.
    destruct Hc as (_ & _ & Hlf & ?), f. unfold f_advance; cbn in *.
    rewrite Z.add_0_r, Z.sub_0_r, s32_small; [done|len_lia].
  - apply Forall_cons in Hl as [Hb Hl]. destruct fuel as [|fuel]; [cbn in Hf; lia|].
    cbn [pb_decode_varint_loop length Nat.sub]. rewrite len_cons in *.
    rewrite (proj2 (Z.leb_gt _ _)) by len_lia.
    pose proof (cursor_advance f pre [b] (l ++ data) post Hc) as Hc1.
    destruct (pb_get_byte_spec f pre b (l ++ data) post Hc) as [-> _]. msimp.
    cbn [ok Z.eqb negb].
    assert (Z.eqb (Z.land b 128) 0 = false) as ->.
    { apply Z.eqb_neq. intros E. assert (Z.testbit b 7 = false) as Ht.
      { pose proof (f_equal (fun z => Z.testbit z 7) E) as E7. cbv beta in E7.
        rewrite Z.land_spec, Z.bits_0, andb_true_r in E7. done. }
      rewrite Z.testbit_false in Ht by lia. change (2 ^ 7) with 128 in Ht.
      rewrite <- (Z.div_unique b 128 1 (b - 128)) in Ht by lia. done. }
    rewrite u8_small by len_lia.
    destruct (IH fuel (bitpos + 7) (Z.lor acc (u64 (Z.shiftl (Z.land b 127) bitpos)))
      (f_advance 1 f) (pre ++ [b]) data post) as (acc' & ->);
      [done|done|lia|len_lia|cbn in Hf; lia|].
    exists acc'. rewrite f_advance_advance. f_equal; lia.
Qed.

(** A varint of more than ten bytes is rejected with "varint overflow" after ten bytes,
    and a varint cut by the end of the block is rejected with "end-of-buffer" after its last
    byte; in neither case is [val] changed. *)
Theorem decode_varint_malformed (f : pb_field_t) (pre l data post : bytes) :
  Forall (fun b => 128 <= b < 256) l -> cursor f pre (l ++ data) post ->
  (len l = 10 ->
   pb_decode_varint f = Some (-1, f_set_err "varint overflow" (f_advance 10 f))) /\
  (len l < 10 -> data = [] ->
   pb_decode_varint f = Some (-2, f_set_err "end-of-buffer" (f_advance (len l) f))).
Proof.
  intros Hl Hc. unfold pb_decode_varint. split.
  - intros H10. destruct (pb_decode_varint_loop_cont l 11 0 0 f pre data post) as (acc & ->);
      try done; [lia|unfold len in H10; lia|].
    rewrite H10. unfold len in H10. by replace (length l) with 10%nat by lia.
  - intros H10 ->. destruct (pb_decode_varint_loop_cont l 11 0 0 f pre [] post) as (acc & ->);
      try done; [lia|unfold len in H10; lia|].
    destruct (11 - length l)%nat eqn:E; [unfold len in H10; lia|].
    cbn [pb_decode_varint_loop]. rewrite (proj2 (Z.leb_gt _ _)) by lia.
    pose proof (cursor_advance _ _ _ _ _ Hc) as (_ & _ & Hlf & _).
    unfold pb_get_byte. by rewrite Hlf.
Qed.

Lemma decode_varint_malformed_witness :
  pb_decode_varint (f_init (replicate 11 255) 11 f_undef) =
    Some (-1, f_set_err "varint overflow" (f_advance 10 (f_init (replicate 11 255) 11 f_undef))).
Proof.
  pose proof (decode_varint_malformed (f_init (replicate 11 255) 11 f_undef) []
    (replicate 10 255) [255] []) as H.
  apply H; [|vm_compute; intuition congruence|reflexivity].
  repeat constructor; lia.
Defined.

(** A block that ends in the middle of a tag is reported as a proper end of message: the
    iterator returns [NULL] with [eom] set, exactly as after the last complete field, so a
    caller that only tests [eom] takes the truncated message for a complete one. *)
Theorem truncated_tag_is_eom (f : pb_field_t) (pre l post : bytes) :
  Forall (fun b => 128 <= b < 256) l -> len l <= 10 -> cursor f pre l post ->
  exists f', pb_next f = Some (false, f') /\ f_eom f' = 1 /\ is_Some (f_errmsg f').
Proof.
  intros Hl H10 Hc. rewrite <- (app_nil_r l) in Hc.
  pose proof (cursor_advance _ _ _ _ _ Hc) as (_ & _ & Hlf & _).
  unfold pb_next, pb_decode_tag, pb_decode_varint.
  destruct (pb_decode_varint_loop_cont l 11 0 0 f pre [] post) as (acc & ->);
    try done; [lia|unfold len in H10; lia|].
  destruct (11 - length l)%nat eqn:E; [unfold len in H10; lia|].
  cbn [pb_decode_varint_loop]. unfold pb_get_byte. rewrite Hlf.
  set (g := f_advance _ _) in *. change (len [] <? 1) with true.
  destruct (64 <=? 0 + 7 * len l); cbn -[g]; rewrite Hlf; cbn -[g]; eauto.
Qed.

Lemma truncated_tag_is_eom_witness :
  exists f', pb_next (f_advance 2 (f_init [8; 1; 144] 3 f_undef)) = Some (false, f') /\
    f_eom f' = 1 /\ is_Some (f_errmsg f').
Proof.
  apply (truncated_tag_is_eom (f_advance 2 (f_init [8; 1; 144] 3 f_undef)) [8; 1] [144] []).
  - repeat constructor; lia.
  - vm_compute; congruence.
  - vm_compute; intuition congruence.
Defined.
