(* ===== verification/LinkTable.v ===== *)
(** * The block storage of the hash table (src/ht/link_table.h, src/ht/link_table.cc)

    A [LinkTable] keeps byte strings in chains of fixed-size blocks.  Its
    memory is the header record and the blocks, a map from the block number to
    the block; a number outside the map is outside the buffer, and an access
    there is [None], as is any other undefined behaviour (a division by zero,
    a copy past the end of an array).  The texts put in [errmsg] and the
    monitoring counters are not part of the state.

    The second half relates the blocks to the abstract store they implement, a
    finite map from handles (the position of the first block) to byte strings. *)

From S2P Require Import Prelude.

(** ** Data *)

Definition MAX_BLOCK_COUNT : Z := 25 * 1024.
Definition LT_MAX_RECYCLE_POOL_SIZE : Z := 256 * 1024 / 8.
Definition LT_DEF_RECYCLE_POOL_SIZE : Z := 100.
Definition LT_MAX_RESERVE_LEN : Z := 256 * 1024.
Definition LT_MAX_USRDATA_LEN : Z := 512 * 1024 - 4.

(** [ddwNext] has 48 bits and [ddwLengthInBlock] 16. *)
(** Models [LtBlock] (src/ht/link_table.h:40-45). *)
Record LtBlock := mk_block {
  ddwNext : Z;
  ddwLengthInBlock : Z;
  bufData : bytes
}.

(** [addwRecyclePool] is an array of [LT_MAX_RECYCLE_POOL_SIZE] words, 0 where
    the map has no entry; [sUserData] is written out up to its last non-zero
    byte. *)
(** Models [LinkTableHead] (src/ht/link_table.h:48-61). *)
Record LinkTableHead := mk_head {
  ddwAllBlockCount : Z;
  ddwFreeBlockCount : Z;
  ddwBlockSize : Z;
  ddwLastEmpty : Z;
  ddwFirstFreePos : Z;
  ddwRecycleIndex : Z;
  dwRecyclePoolSize : Z;
  addwRecyclePool : gmap Z Z;
  dwUserDataLen : Z;
  sUserData : bytes
}.

(** The buffer a table lives in: what a process that maps it finds there. *)
Record LtBuffer := mk_buffer { lb_head : LinkTableHead; lb_blocks : gmap Z LtBlock }.

(** [header == NULL] is [None]; [blocks] is set together with [header]. *)
(** Models [LinkTable] (src/ht/link_table.h:64-73). *)
Definition LinkTable : Type := option LtBuffer.
Definition new_LinkTable : LinkTable := None.

(** [sizeof(LinkTableHead)], the padding before the pool included. *)
Definition sizeof_LinkTableHead : Z :=
  6 * 8 + 8 + LT_MAX_RECYCLE_POOL_SIZE * 8 + LT_MAX_RESERVE_LEN + 4 + LT_MAX_USRDATA_LEN.

Definition set_next (n : Z) (b : LtBlock) : LtBlock :=
  mk_block (u48 n) (ddwLengthInBlock b) (bufData b).
Definition set_length (n : Z) (b : LtBlock) : LtBlock :=
  mk_block (ddwNext b) (u16 n) (bufData b).
Definition set_data (d : bytes) (b : LtBlock) : LtBlock :=
  mk_block (ddwNext b) (ddwLengthInBlock b) d.

Definition hd_set_free_count (n : Z) (h : LinkTableHead) : LinkTableHead :=
  mk_head (ddwAllBlockCount h) (u64 n) (ddwBlockSize h) (ddwLastEmpty h) (ddwFirstFreePos h)
    (ddwRecycleIndex h) (dwRecyclePoolSize h) (addwRecyclePool h) (dwUserDataLen h) (sUserData h).
Definition hd_set_last_empty (n : Z) (h : LinkTableHead) : LinkTableHead :=
  mk_head (ddwAllBlockCount h) (ddwFreeBlockCount h) (ddwBlockSize h) n (ddwFirstFreePos h)
    (ddwRecycleIndex h) (dwRecyclePoolSize h) (addwRecyclePool h) (dwUserDataLen h) (sUserData h).
Definition hd_set_first_free (n : Z) (h : LinkTableHead) : LinkTableHead :=
  mk_head (ddwAllBlockCount h) (ddwFreeBlockCount h) (ddwBlockSize h) (ddwLastEmpty h) n
    (ddwRecycleIndex h) (dwRecyclePoolSize h) (addwRecyclePool h) (dwUserDataLen h) (sUserData h).
Definition hd_set_pool (i : Z) (p : gmap Z Z) (h : LinkTableHead) : LinkTableHead :=
  mk_head (ddwAllBlockCount h) (ddwFreeBlockCount h) (ddwBlockSize h) (ddwLastEmpty h)
    (ddwFirstFreePos h) i (dwRecyclePoolSize h) p (dwUserDataLen h) (sUserData h).
Definition hd_set_pool_size (n : Z) (h : LinkTableHead) : LinkTableHead :=
  mk_head (ddwAllBlockCount h) (ddwFreeBlockCount h) (ddwBlockSize h) (ddwLastEmpty h)
    (ddwFirstFreePos h) (ddwRecycleIndex h) n (addwRecyclePool h) (dwUserDataLen h) (sUserData h).
Definition hd_set_user (n : Z) (d : bytes) (h : LinkTableHead) : LinkTableHead :=
  mk_head (ddwAllBlockCount h) (ddwFreeBlockCount h) (ddwBlockSize h) (ddwLastEmpty h)
    (ddwFirstFreePos h) (ddwRecycleIndex h) (dwRecyclePoolSize h) (addwRecyclePool h) n d.

Definition on_head (f : LinkTableHead -> LinkTableHead) (t : LtBuffer) : LtBuffer :=
  mk_buffer (f (lb_head t)) (lb_blocks t).

(** [LT_ELE_AT(idx)] read and written as a whole. *)
(** Models [LT_ELE_AT] (src/ht/link_table.cc:81-84). *)
Definition LT_ELE_AT (t : LtBuffer) (idx : Z) : option LtBlock := lb_blocks t !! idx.
Definition put_block (idx : Z) (b : LtBlock) (t : LtBuffer) : LtBuffer :=
  mk_buffer (lb_head t) (<[idx := b]> (lb_blocks t)).

(** Models [BLOCK_DATA_LEN] (src/ht/link_table.cc:327-327). *)
Definition BLOCK_DATA_LEN (t : LtBuffer) : Z := u64 (ddwBlockSize (lb_head t) - 8).

(** ** Construction *)

(** Models [LinkTable::EvalBufferSize] (src/ht/link_table.h:76-76). *)
Definition EvalBufferSize (uBlockCount uBlockSize : Z) : Z :=
  u64 (sizeof_LinkTableHead + u64 (uBlockCount * uBlockSize)).

(** Models [LinkTable::EvalBlockCount] (src/ht/link_table.h:77-77). *)
Definition EvalBlockCount (uBuffSize uBlockSize : Z) : option Z :=
  if Z.eqb uBlockSize 0 then None
  else Some (u64 (uBuffSize - sizeof_LinkTableHead) / uBlockSize).

(** [pBuffer] is [None] for [NULL], otherwise what the buffer holds; [Init]
    clears the header and leaves the blocks as they are. *)
(** Models [LinkTable::Init] (src/ht/link_table.cc:32-51). *)
Definition Init (lt : LinkTable) (pBuffer : option LtBuffer)
    (ddwBufferSize ddwBlockCount ddwBlockSize : Z) : Z * LinkTable :=
  match pBuffer with
  | None => (-1, lt)
  | Some buf =>
      if ddwBufferSize <? EvalBufferSize ddwBlockCount ddwBlockSize then (-1, lt)
      else
        (0, Some (mk_buffer
                    (mk_head (u64 (ddwBlockCount - 1)) (u64 (ddwBlockCount - 1)) ddwBlockSize 1 0 0
                       LT_DEF_RECYCLE_POOL_SIZE ∅ 0 [])
                    (lb_blocks buf)))
  end.

(** Models [LinkTable::InitExisting] (src/ht/link_table.cc:53-78). *)
Definition InitExisting (lt : LinkTable) (pBuffer : option LtBuffer)
    (ddwBufferSize ddwBlockCount ddwBlockSize' : Z) : Z * LinkTable :=
  match pBuffer with
  | None => (-1, lt)
  | Some buf =>
      if ddwBufferSize <? EvalBufferSize ddwBlockCount ddwBlockSize' then (-1, lt)
      else
        let lt' := Some buf in
        if negb (Z.eqb (ddwAllBlockCount (lb_head buf)) (u64 (ddwBlockCount - 1))) then (-2, lt')
        else if negb (Z.eqb (ddwBlockSize (lb_head buf)) ddwBlockSize') then (-3, lt')
        else (0, lt')
  end.

(** ** Releasing blocks *)

(** [memset(pBlock, 0, ddwBlockSize)] *)
Definition zero_block (b : LtBlock) : LtBlock :=
  mk_block 0 0 (replicate (length (bufData b)) 0).

(** The loop of [FreeBlock] runs at most [MAX_BLOCK_COUNT + 1] times, the fuel
    of its caller: it never ends for lack of fuel. *)
(** Models [LinkTable::FreeBlock] (src/ht/link_table.cc:107-134). *)
Fixpoint FreeBlock_loop (fuel : nat) (ddwNextPos : Z) (t : LtBuffer) : option (Z * LtBuffer) :=
  match fuel with
  | O => Some (if negb (Z.eqb ddwNextPos 0) then -4 else 0, t)
  | S fuel' =>
      if Z.eqb ddwNextPos 0 then Some (0, t)
      else
        let ddwCurPos := ddwNextPos in
        if ddwAllBlockCount (lb_head t) <=? ddwCurPos then Some (-3, t)
        else
          pBlock ← LT_ELE_AT t ddwCurPos;
          let ddwNextPos := ddwNext pBlock in
          let b := set_next (ddwFirstFreePos (lb_head t)) (zero_block pBlock) in
          let t1 := on_head (hd_set_first_free ddwCurPos) (put_block ddwCurPos b t) in
          let t2 := on_head (hd_set_free_count (ddwFreeBlockCount (lb_head t1) + 1)) t1 in
          FreeBlock_loop fuel' ddwNextPos t2
  end.

(** Models [LinkTable::FreeBlock] (src/ht/link_table.cc:87-137). *)
Definition FreeBlock (t : LtBuffer) (ddwStartPos : Z) : option (Z * LtBuffer) :=
  if Z.eqb ddwStartPos 0 || (ddwAllBlockCount (lb_head t) <=? ddwStartPos) then Some (-2, t)
  else FreeBlock_loop (Z.to_nat (MAX_BLOCK_COUNT + 1)) ddwStartPos t.

(** The recycle pool as an array: an index outside it is a trap. *)
Definition pool_get (t : LtBuffer) (i : Z) : option Z :=
  if (0 <=? i) && (i <? LT_MAX_RECYCLE_POOL_SIZE)
  then Some (default 0 (addwRecyclePool (lb_head t) !! i)) else None.
Definition pool_set (t : LtBuffer) (i v : Z) : gmap Z Z :=
  <[i := v]> (addwRecyclePool (lb_head t)).

(** Models [LinkTable::RecycleBlock] (src/ht/link_table.cc:143-178). *)
Definition RecycleBlock (t : LtBuffer) (ddwStartPos : Z) : option (Z * LtBuffer) :=
  let h := lb_head t in
  let ddwIdx := if dwRecyclePoolSize h <=? ddwRecycleIndex h then 0 else ddwRecycleIndex h in
  ddwOldPos ← pool_get t ddwIdx;
  if Z.eqb (dwRecyclePoolSize h) 0 then None
  else
    let t1 := on_head (hd_set_pool ((ddwIdx + 1) mod dwRecyclePoolSize h)
                         (pool_set t ddwIdx ddwStartPos)) t in
    if negb (Z.eqb ddwOldPos 0) then
      '(_, t2) ← FreeBlock t1 ddwOldPos;
      Some (0, t2)
    else Some (0, t1).

(** Models [LinkTable::EmptyRecyclePool] (src/ht/link_table.cc:188-203). *)
Fixpoint EmptyRecyclePool_loop (n : nat) (i : Z) (t : LtBuffer) : option LtBuffer :=
  match n with
  | O => Some t
  | S n' =>
      p ← pool_get t i;
      t2 ← (if negb (Z.eqb p 0) then
              '(_, t1) ← FreeBlock t p;
              Some (on_head (hd_set_pool (ddwRecycleIndex (lb_head t1)) (pool_set t1 i 0)) t1)
            else Some t);
      EmptyRecyclePool_loop n' (i + 1) t2
  end.

(** Models [LinkTable::EmptyRecyclePool] (src/ht/link_table.cc:181-206). *)
Definition EmptyRecyclePool (t : LtBuffer) : option LtBuffer :=
  t1 ← EmptyRecyclePool_loop (Z.to_nat (s32 (dwRecyclePoolSize (lb_head t)))) 0 t;
  Some (on_head (hd_set_pool 0 (addwRecyclePool (lb_head t1))) t1).

(** ** Allocation *)

(** The walk along the free list: [n] is [iCount - i], so the last turn is the
    one with [n = 1].  Returns what is left of [iCount], the position reached
    and the table. *)
(** Models [LinkTable::GetEmptyBlock] (src/ht/link_table.cc:262-272). *)
Fixpoint free_walk (n : nat) (ddwCurPos : Z) (t : LtBuffer) : option (nat * Z * LtBuffer) :=
  match n with
  | O => Some (O, ddwCurPos, t)
  | S n' =>
      if (0 <? ddwCurPos) && (ddwCurPos <? ddwAllBlockCount (lb_head t)) then
        pBlock ← LT_ELE_AT t ddwCurPos;
        if Z.eqb (ddwLengthInBlock pBlock) 0 then
          free_walk n' (ddwNext pBlock)
            (match n' with O => put_block ddwCurPos (set_next 0 pBlock) t | S _ => t end)
        else Some (n, ddwCurPos, t)
      else Some (n, ddwCurPos, t)
  end.

(** The scan from [ddwLastEmpty]: [n] is [iCount - i], [turns] is
    [ddwAllBlockCount - j]. *)
(** Models [LinkTable::GetEmptyBlock] (src/ht/link_table.cc:289-304). *)
Fixpoint seq_scan (turns n : nat) (ddwStartPos ddwCurPos : Z) (t : LtBuffer)
    : option (nat * Z * Z * LtBuffer) :=
  match turns, n with
  | O, _ | _, O => Some (n, ddwStartPos, ddwCurPos, t)
  | S turns', S n' =>
      pBlock ← LT_ELE_AT t ddwCurPos;
      let next := if ddwAllBlockCount (lb_head t) <=? ddwCurPos + 1 then 1 else ddwCurPos + 1 in
      if Z.eqb (ddwLengthInBlock pBlock) 0 then
        seq_scan turns' n' ddwCurPos next (put_block ddwCurPos (set_next ddwStartPos pBlock) t)
      else seq_scan turns' n ddwStartPos next t
  end.

(** The position returned is meaningful when the code is 0. *)
(** Models [LinkTable::GetEmptyBlock] (src/ht/link_table.cc:212-325). *)
Definition GetEmptyBlock (t : LtBuffer) (iCount : Z) : option (Z * Z * LtBuffer) :=
  if (iCount <? 0) || (MAX_BLOCK_COUNT <? iCount)
     || (s32 (ddwFreeBlockCount (lb_head t)) <? iCount)
  then Some (-100, 0, t)
  else
    '(n, ddwCurPos, t1) ← free_walk (Z.to_nat iCount) (ddwFirstFreePos (lb_head t)) t;
    match n with
    | O => Some (0, ddwFirstFreePos (lb_head t), on_head (hd_set_first_free ddwCurPos) t1)
    | S _ =>
        '(n2, ddwStartPos, ddwCurPos2, t2) ←
          seq_scan (Z.to_nat (s32 (ddwAllBlockCount (lb_head t1)))) (Z.to_nat iCount) 0
            (ddwLastEmpty (lb_head t1)) t1;
        match n2 with
        | S _ => Some (-100, 0, t2)
        | O => Some (0, ddwStartPos, on_head (hd_set_last_empty ddwCurPos2) t2)
        end
    end.

(** ** Reading *)

(** [while(ddwNextPos)]: every turn but the last adds a full block to
    [iDataLen], which is bounded by [iBufLen]. *)
(** Models [LinkTable::GetData] (src/ht/link_table.cc:352-384). *)
Fixpoint GetData_loop (fuel : nat) (t : LtBuffer) (ddwNextPos : Z) (sDataBuf : bytes)
    (iDataLen iBufLen : Z) : option (Z * bytes * Z) :=
  match fuel with
  | O => None
  | S fuel' =>
      if Z.eqb ddwNextPos 0 then Some (0, sDataBuf, iDataLen)
      else if ddwAllBlockCount (lb_head t) <=? ddwNextPos then Some (-21, sDataBuf, iBufLen)
      else if iBufLen <? s32 (iDataLen + s32 (BLOCK_DATA_LEN t)) then Some (-22, sDataBuf, iBufLen)
      else
        pBlock ← LT_ELE_AT t ddwNextPos;
        let wBlockLen :=
          if negb (Z.eqb (ddwNext pBlock) 0) then u16 (BLOCK_DATA_LEN t)
          else if BLOCK_DATA_LEN t <? ddwLengthInBlock pBlock then u16 (BLOCK_DATA_LEN t)
          else ddwLengthInBlock pBlock in
        chunk ← mem_read (bufData pBlock) 0 wBlockLen;
        buf ← mem_write sDataBuf iDataLen chunk;
        GetData_loop fuel' t (ddwNext pBlock) buf (s32 (iDataLen + wBlockLen)) iBufLen
  end.

(** Returns the code, the content of the buffer and [iOutDataLen], which an
    error leaves as it was.  [BLOCK_DATA_LEN] reads the header before the test
    for [NULL]. *)
(** Models [LinkTable::GetData] (src/ht/link_table.cc:330-385). *)
Definition GetData (lt : LinkTable) (ddwPos : Z) (sDataBuf : option bytes) (iOutDataLen : Z)
    : option (Z * bytes * Z) :=
  match sDataBuf with
  | None => Some (-1, [], iOutDataLen)
  | Some buf =>
      t ← lt;
      if iOutDataLen <? s32 (BLOCK_DATA_LEN t) then Some (-1, buf, iOutDataLen)
      else GetData_loop (S (S (Z.to_nat iOutDataLen))) t ddwPos buf 0 iOutDataLen
  end.

(** ** Writing *)

(** The copy loop: every turn takes at least one byte off [iLeftLen].  Returns
    [iLeftLen], [ddwCurPos], [ddwNextPos] and the table; the first component is
    -8 when a position is out of range. *)
(** Models [LinkTable::SetData] (src/ht/link_table.cc:429-458). *)
Fixpoint fill_loop (fuel : nat) (t : LtBuffer) (sDataBuf : bytes) (iDataLen iCopyLen : Z)
    (ddwCurPos ddwNextPos : Z) : option (Z * Z * Z * Z * LtBuffer) :=
  match fuel with
  | O => None
  | S fuel' =>
      let iLeftLen := iDataLen - iCopyLen in
      if Z.eqb ddwNextPos 0 || (iLeftLen <=? 0) then
        Some (0, iLeftLen, ddwCurPos, ddwNextPos, t)
      else
        let ddwCurPos := ddwNextPos in
        if ddwAllBlockCount (lb_head t) <=? ddwCurPos then
          Some (-8, iLeftLen, ddwCurPos, ddwNextPos, t)
        else
          pBlock ← LT_ELE_AT t ddwCurPos;
          let n := if s32 (BLOCK_DATA_LEN t) <? iLeftLen then BLOCK_DATA_LEN t else iLeftLen in
          chunk ← mem_read sDataBuf iCopyLen n;
          d ← mem_write (bufData pBlock) 0 chunk;
          let t1 := put_block ddwCurPos (set_length n (set_data d pBlock)) t in
          let t2 := on_head (hd_set_free_count (ddwFreeBlockCount (lb_head t1) - 1)) t1 in
          fill_loop fuel' t2 sDataBuf iDataLen (s32 (iCopyLen + n)) ddwCurPos (ddwNext pBlock)
  end.

(** [LT_ELE_AT(idx)->ddwNext = v] *)
Definition link_block (idx v : Z) (t : LtBuffer) : option LtBuffer :=
  b ← LT_ELE_AT t idx; Some (put_block idx (set_next v b) t).

(** Number of blocks for [iDataLen] bytes, computed on 64 bits and converted
    to [int]; [None] for a block size of 8. *)
(** Models [LinkTable::SetData] (src/ht/link_table.cc:410-410). *)
Definition block_count (t : LtBuffer) (iDataLen : Z) : option Z :=
  if Z.eqb (BLOCK_DATA_LEN t) 0 then None
  else Some (s32 (u64 (iDataLen + BLOCK_DATA_LEN t - 1) / BLOCK_DATA_LEN t)).

(** Returns the code, [ddwPos] and the table. *)
(** Models [LinkTable::SetData] (src/ht/link_table.cc:391-486). *)
Definition SetData (lt : LinkTable) (ddwPos : Z) (sDataBuf : option bytes) (iDataLen : Z)
    : option (Z * Z * LinkTable) :=
  match sDataBuf with
  | None => Some (-1, ddwPos, lt)
  | Some buf =>
      if iDataLen <? 0 then Some (-1, ddwPos, lt)
      else match lt with
      | None => Some (-1, ddwPos, lt)
      | Some t =>
          iCount ← block_count t iDataLen;
          if MAX_BLOCK_COUNT <? iCount then Some (-2, ddwPos, lt)
          else
            '(iRet, ddwStartPos, t1) ← GetEmptyBlock t iCount;
            if iRet <? 0 then Some (if Z.eqb iRet (-100) then iRet else -7, ddwPos, Some t1)
            else
              '(r, iLeftLen, ddwCurPos, ddwNextPos, t2) ←
                fill_loop (S (Z.to_nat iDataLen)) t1 buf iDataLen 0 0 ddwStartPos;
              if negb (Z.eqb r 0) then Some (r, ddwPos, Some t2)
              else if negb (Z.eqb iLeftLen 0) then Some (-9, ddwPos, Some t2)
              else
                t3 ← link_block ddwCurPos 0 t2;
                t4 ← link_block 0 ddwNextPos t3;
                if negb (Z.eqb ddwPos 0) then
                  '(_, t5) ← RecycleBlock t4 ddwPos;
                  Some (0, ddwStartPos, Some t5)
                else Some (0, ddwStartPos, Some t4)
      end
  end.

(** Models [LinkTable::EraseData] (src/ht/link_table.cc:489-498). *)
Definition EraseData (lt : LinkTable) (ddwPos : Z) : option (Z * LinkTable) :=
  match lt with
  | None => Some (-1, lt)
  | Some t => '(r, t1) ← RecycleBlock t ddwPos; Some (r, Some t1)
  end.

(** ** Configuration and user data *)

(** Models [LinkTable::SetRecyclePoolSize] (src/ht/link_table.cc:501-518). *)
Definition SetRecyclePoolSize (lt : LinkTable) (sz : Z) : option (Z * LinkTable) :=
  if (sz <? 1) || (LT_MAX_RECYCLE_POOL_SIZE <? sz) then Some (-1, lt)
  else match lt with
  | None => Some (-2, lt)
  | Some t =>
      t1 ← EmptyRecyclePool t;
      Some (0, Some (on_head (hd_set_pool_size sz) t1))
  end.

(** Models [LinkTable::GetHeaderData] (src/ht/link_table.cc:521-539). *)
Definition GetHeaderData (lt : LinkTable) (pBuff : option bytes) (iSize : Z)
    : option (Z * bytes) :=
  match pBuff with
  | None => Some (-1, [])
  | Some buf =>
      if iSize <=? 0 then Some (-1, buf)
      else match lt with
      | None => Some (-2, buf)
      | Some t =>
          let ulen := s32 (dwUserDataLen (lb_head t)) in
          let n := if ulen <? iSize then ulen else iSize in
          src ← mem_read (sUserData (lb_head t)
                          ++ replicate (Z.to_nat LT_MAX_USRDATA_LEN
                                        - length (sUserData (lb_head t))) 0) 0 n;
          b ← mem_write buf 0 src;
          Some (n, b)
      end
  end.

(** Models [LinkTable::SetHeaderData] (src/ht/link_table.cc:541-561). *)
Definition SetHeaderData (lt : LinkTable) (pData : option bytes) (iLen : Z)
    : option (Z * LinkTable) :=
  if (iLen <? 0) || (negb (Z.eqb iLen 0) && negb (bool_decide (is_Some pData)))
  then Some (-1, lt)
  else match lt with
  | None => Some (-2, lt)
  | Some t =>
      let n := if LT_MAX_USRDATA_LEN <? iLen then LT_MAX_USRDATA_LEN else iLen in
      let old := sUserData (lb_head t) in
      d ← (if 0 <? n then
             src ← pData ≫= (fun p => mem_read p 0 n);
             Some (src ++ drop (Z.to_nat n) old)
           else Some old);
      Some (n, Some (on_head (hd_set_user n d) t))
  end.

(** ** Reports *)

(** Models [LinkTable::GetUsage] (src/ht/link_table.h:108-108). *)
Definition GetUsage (lt : LinkTable) : option Z :=
  match lt with
  | None => Some 0
  | Some t =>
      let h := lb_head t in
      if Z.eqb (ddwAllBlockCount h) 0 then None
      else Some (s32 (u64 (100 - u64 (ddwFreeBlockCount h * 100) / ddwAllBlockCount h)))
  end.

(** The non-empty slots of the recycle pool. *)
(** Models [LinkTable::ReportInfo] (src/ht/link_table.cc:604-608). *)
Fixpoint recycled_count (n : nat) (i : Z) (t : LtBuffer) : option Z :=
  match n with
  | O => Some 0
  | S n' =>
      p ← pool_get t i;
      k ← recycled_count n' (i + 1) t;
      Some (if Z.eqb p 0 then k else k + 1)
  end.

(** The values printed, in order. *)
(** Models [LinkTable::PrintInfo] (src/ht/link_table.cc:564-590). *)
Definition PrintInfo (lt : LinkTable) : option (Z * list (string * Z)) :=
  match lt with
  | None => Some (-1, [])
  | Some t =>
      let h := lb_head t in
      total ← recycled_count (Z.to_nat (dwRecyclePoolSize h)) 0 t;
      usage ← GetUsage lt;
      Some (0, [("ddwAllBlockCount", ddwAllBlockCount h);
                ("ddwFreeBlockCount", ddwFreeBlockCount h);
                ("ddwBlockSize", ddwBlockSize h);
                ("ddwFirstFreePos", ddwFirstFreePos h);
                ("ddwRecycleIndex", ddwRecycleIndex h);
                ("dwRecycledCount", total);
                ("dwTableUsage", usage)]%string)
  end.

(** The counters set through [Attr_API_Set], in order. *)
(** Models [LinkTable::ReportInfo] (src/ht/link_table.cc:592-613). *)
Definition ReportInfo (lt : LinkTable) : option (Z * list (Z * Z)) :=
  match lt with
  | None => Some (-1, [])
  | Some t =>
      let h := lb_head t in
      total ← recycled_count (Z.to_nat (dwRecyclePoolSize h)) 0 t;
      usage ← GetUsage lt;
      Some (0, [(389162, ddwAllBlockCount h); (389163, ddwFreeBlockCount h);
                (389164, ddwBlockSize h); (389165, ddwFirstFreePos h);
                (389166, ddwRecycleIndex h); (389167, total); (389168, usage)])
  end.

(** A table of [n + 1] zeroed blocks of [bs] bytes, as a fresh buffer. *)
Definition zero_blocks (n : Z) (bs : Z) : gmap Z LtBlock :=
  list_to_map ((fun i => (i, mk_block 0 0 (replicate (Z.to_nat (bs - 8)) 0))) <$> seqZ 0 n).

(** ** Chains of blocks *)

Abbreviation blockmap := (gmap Z LtBlock).

(** [linked bl p l]: starting at [p], the [ddwNext] links go through exactly
    the blocks [l] and end in 0. *)
Fixpoint linked (bl : blockmap) (p : Z) (l : list Z) : Prop :=
  match l with
  | [] => p = 0
  | q :: l' => p = q /\ q <> 0 /\ exists b, bl !! q = Some b /\ linked bl (ddwNext b) l'
  end.

(** The bytes a chain stands for: full blocks, then the used part of the last. *)
Fixpoint chain_data (bl : blockmap) (l : list Z) : bytes :=
  match l with
  | [] => []
  | q :: l' =>
      match bl !! q with
      | None => []
      | Some b =>
          (match l' with [] => take (Z.to_nat (ddwLengthInBlock b)) (bufData b) | _ => bufData b end)
          ++ chain_data bl l'
      end
  end.

Definition same_on (l : list Z) (bl bl' : blockmap) : Prop :=
  forall q, q ∈ l -> bl' !! q = bl !! q.

Lemma linked_same bl bl' p l : linked bl p l -> same_on l bl bl' -> linked bl' p l.
Proof.
  revert p; induction l as [|q l IH]; intros p; [done|].
  intros (-> & Hq & b & Hb & Hl) Hs. split; [done|]. split; [done|]. exists b.
  rewrite Hs by set_solver. split; [done|]. apply IH; [done|]. intros x Hx. apply Hs. set_solver.
Qed.

Lemma chain_data_same bl bl' l : same_on l bl bl' -> chain_data bl' l = chain_data bl l.
Proof.
  induction l as [|q l IH]; intros Hs; [done|]. cbn. rewrite Hs by set_solver.
  destruct (bl !! q); [|done]. rewrite IH; [done|]. intros x Hx. apply Hs. set_solver.
Qed.

Lemma linked_det bl p l l' : linked bl p l -> linked bl p l' -> l = l'.
Proof.
  revert p l'; induction l as [|q l IH]; intros p [|q' l']; cbn; [done|lia|lia|].
  intros (-> & _ & b & Hb & Hl) (-> & _ & b' & Hb' & Hl'). simplify_eq. f_equal. eauto.
Qed.

Lemma linked_suffix bl p l1 q l2 :
  linked bl p (l1 ++ q :: l2) -> linked bl q (q :: l2).
Proof.
  revert p; induction l1 as [|x l1 IH]; intros p; [by intros (-> & ?)|].
  intros (-> & _ & b & _ & H). eauto.
Qed.

Lemma linked_NoDup bl p l : linked bl p l -> NoDup l.
Proof.
  revert p; induction l as [|q l IH]; intros p; [constructor|].
  intros (-> & Hq & b & Hb & Hl). constructor; [|eauto]. intros Hin.
  apply list_elem_of_split in Hin as (l1 & l2 & ->).
  pose proof (linked_suffix _ _ _ _ _ Hl) as Hs.
  assert (q :: l2 = q :: l1 ++ q :: l2) as E; [|apply (f_equal length) in E; cbn in E; rewrite length_app in E; cbn in E; lia].
  eapply linked_det; [exact Hs|]. cbn. eauto 10.
Qed.

Lemma linked_no0 bl p l : linked bl p l -> 0 ∉ l.
Proof.
  revert p; induction l as [|q l IH]; intros p; [set_solver|].
  intros (-> & Hq & b & Hb & Hl). apply IH in Hl. set_solver.
Qed.

(** Changing one block outside a chain. *)
Lemma same_on_insert l q b bl : q ∉ l -> same_on l bl (<[q := b]> bl).
Proof. intros Hq x Hx. apply lookup_insert_ne. set_solver. Qed.
Lemma same_on_trans l b1 b2 b3 : same_on l b1 b2 -> same_on l b2 b3 -> same_on l b1 b3.
Proof. intros Ha Hb q Hq. by rewrite (Hb q Hq), (Ha q Hq). Qed.
Lemma same_on_subset l k b1 b2 : l ⊆ k -> same_on k b1 b2 -> same_on l b1 b2.
Proof. intros Hs H q Hq. apply H. set_solver. Qed.
Lemma same_on_refl l b : same_on l b b.
Proof. done. Qed.
Create HintDb lt.
#[export] Hint Resolve same_on_refl same_on_insert : lt.

(** ** Counting empty blocks *)

Definition is_empty (bl : blockmap) (q : Z) : Prop :=
  exists b, bl !! q = Some b /\ ddwLengthInBlock b = 0.
Definition is_used (bl : blockmap) (q : Z) : Prop :=
  exists b, bl !! q = Some b /\ ddwLengthInBlock b <> 0.

Definition emp (b : LtBlock) : Z := if Z.eqb (ddwLengthInBlock b) 0 then 1 else 0.

Fixpoint count_empty (bl : blockmap) (l : list Z) : Z :=
  match l with
  | [] => 0
  | q :: l' => (match bl !! q with Some b => emp b | None => 0 end) + count_empty bl l'
  end.

Lemma emp_range b : 0 <= emp b <= 1.
Proof. unfold emp. destruct (Z.eqb _ _); lia. Qed.

Lemma count_empty_same bl bl' l : same_on l bl bl' -> count_empty bl' l = count_empty bl l.
Proof.
  induction l as [|q l IH]; intros Hs; [done|]. cbn. rewrite Hs by set_solver.
  rewrite IH; [done|]. intros x Hx. apply Hs. set_solver.
Qed.

Lemma count_empty_perm bl l l' : l ≡ₚ l' -> count_empty bl l = count_empty bl l'.
Proof. induction 1; cbn; lia. Qed.

Lemma count_empty_bounds bl l : 0 <= count_empty bl l <= len l.
Proof.
  induction l as [|q l IH]; cbn; [done|]. rewrite len_cons.
  destruct (bl !! q) as [b|]; [pose proof (emp_range b)|]; lia.
Qed.

Lemma count_empty_put bl l q b b' :
  NoDup l -> q ∈ l -> bl !! q = Some b ->
  count_empty (<[q := b']> bl) l = count_empty bl l - emp b + emp b'.
Proof.
  induction 1 as [|x l Hx Hl IH]; intros Hq Hb; [set_solver|].
  cbn. apply elem_of_cons in Hq as [->|Hq].
  - rewrite lookup_insert, decide_True, Hb by done.
    rewrite (count_empty_same bl (<[x := b']> bl)) by auto with lt. lia.
  - rewrite lookup_insert_ne by set_solver. rewrite IH by done. lia.
Qed.

(** ** The table invariant *)

Definition BDL (t : LtBuffer) : Z := ddwBlockSize (lb_head t) - 8.
Definition positions (t : LtBuffer) : list Z := seqZ 1 (ddwAllBlockCount (lb_head t) - 1).
Definition in_range (t : LtBuffer) (q : Z) : Prop := 0 < q < ddwAllBlockCount (lb_head t).

Record head_ok (h : LinkTableHead) : Prop := {
  ho_all : 2 <= ddwAllBlockCount h < 2 ^ 31 - 1;
  ho_bs : 9 <= ddwBlockSize h < 8 + 2 ^ 16;
  ho_last : 1 <= ddwLastEmpty h < ddwAllBlockCount h;
  ho_first : 0 <= ddwFirstFreePos h < 2 ^ 48;
  ho_pool : 0 < dwRecyclePoolSize h <= LT_MAX_RECYCLE_POOL_SIZE;
  ho_idx : 0 <= ddwRecycleIndex h
}.

Record block_ok (bs : Z) (b : LtBlock) : Prop := {
  bo_next : 0 <= ddwNext b < 2 ^ 48;
  bo_len : 0 <= ddwLengthInBlock b < 2 ^ 16;
  bo_data : len (bufData b) = bs - 8
}.

(** The blocks 0 to [ddwAllBlockCount] exist, and [ddwFreeBlockCount] is one
    more than the number of empty blocks among 1 .. [ddwAllBlockCount - 1]. *)
Record table_ok (t : LtBuffer) : Prop := {
  to_head : head_ok (lb_head t);
  to_block : forall q, 0 <= q <= ddwAllBlockCount (lb_head t) ->
    exists b, lb_blocks t !! q = Some b /\ block_ok (ddwBlockSize (lb_head t)) b;
  to_free : ddwFreeBlockCount (lb_head t) = 1 + count_empty (lb_blocks t) (positions t)
}.

Lemma elem_positions t q : q ∈ positions t <-> in_range t q.
Proof. unfold positions, in_range. rewrite elem_of_seqZ. lia. Qed.
Lemma positions_NoDup t : NoDup (positions t).
Proof. apply NoDup_seqZ. Qed.

Lemma table_ok_bdl t : table_ok t -> BLOCK_DATA_LEN t = BDL t /\ 1 <= BDL t < 2 ^ 16.
Proof.
  intros [[] _ _]. unfold BLOCK_DATA_LEN, BDL. rewrite u64_small; lia.
Qed.

Lemma free_count_range t : table_ok t -> 1 <= ddwFreeBlockCount (lb_head t) <= ddwAllBlockCount (lb_head t).
Proof.
  intros [[] _ ->]. pose proof (count_empty_bounds (lb_blocks t) (positions t)) as H.
  unfold len, positions in H. rewrite length_seqZ in H. unfold positions. lia.
Qed.

(** Replacing one block, with the free count adjusted. *)
Lemma table_ok_put t q b b' h' :
  table_ok t -> 0 <= q <= ddwAllBlockCount (lb_head t) -> lb_blocks t !! q = Some b ->
  block_ok (ddwBlockSize (lb_head t)) b' -> head_ok h' ->
  ddwAllBlockCount h' = ddwAllBlockCount (lb_head t) ->
  ddwBlockSize h' = ddwBlockSize (lb_head t) ->
  ddwFreeBlockCount h' = ddwFreeBlockCount (lb_head t) +
    (if decide (in_range t q) then emp b' - emp b else 0) ->
  table_ok (mk_buffer h' (<[q := b']> (lb_blocks t))).
Proof.
  intros [Hh Hbl Hf] Hq Hb Hb' Hh' Ha Hs Hfree. split; cbn [lb_head lb_blocks].
  - done.
  - intros x Hx. rewrite Ha in Hx. rewrite Hs. destruct (decide (x = q)) as [->|Hne].
    + exists b'. rewrite lookup_insert, decide_True by done. done.
    + rewrite lookup_insert_ne by done. auto.
  - rewrite Hfree, Hf. unfold positions; cbn [lb_head]. rewrite Ha. fold (positions t).
    case_decide as Hd.
    + rewrite (count_empty_put _ _ q b b');
        [lia|apply positions_NoDup|by apply elem_positions|done].
    + rewrite (count_empty_same (lb_blocks t) (<[q := b']> _)); [lia|].
      apply same_on_insert. by rewrite elem_positions.
Qed.

(** A change of the header that keeps the dimensions and the free count. *)
Lemma table_ok_head t f :
  table_ok t -> head_ok (f (lb_head t)) ->
  ddwAllBlockCount (f (lb_head t)) = ddwAllBlockCount (lb_head t) ->
  ddwBlockSize (f (lb_head t)) = ddwBlockSize (lb_head t) ->
  ddwFreeBlockCount (f (lb_head t)) = ddwFreeBlockCount (lb_head t) ->
  table_ok (on_head f t).
Proof.
  intros [Hh Hbl Hf] Hh' Ha Hs Hc. split; cbn [on_head lb_head lb_blocks]; [done| |].
  - rewrite Ha, Hs. done.
  - unfold positions; cbn. by rewrite Hc, Ha, Hf.
Qed.

(** What allocation and release leave alone in the header. *)
Record kept (t t' : LtBuffer) : Prop := {
  k_all : ddwAllBlockCount (lb_head t') = ddwAllBlockCount (lb_head t);
  k_bs : ddwBlockSize (lb_head t') = ddwBlockSize (lb_head t);
  k_idx : ddwRecycleIndex (lb_head t') = ddwRecycleIndex (lb_head t);
  k_psz : dwRecyclePoolSize (lb_head t') = dwRecyclePoolSize (lb_head t);
  k_pool : addwRecyclePool (lb_head t') = addwRecyclePool (lb_head t)
}.

#[export] Instance kept_refl : Reflexive kept.
Proof. by split. Qed.
#[export] Instance kept_trans : Transitive kept.
Proof. intros x y z [] []. split; congruence. Qed.

(** Only the blocks in [l] changed. *)
Definition changed_in (l : list Z) (t t' : LtBuffer) : Prop :=
  forall q, q ∉ l -> lb_blocks t' !! q = lb_blocks t !! q.

Lemma changed_in_trans l k t1 t2 t3 :
  changed_in l t1 t2 -> changed_in k t2 t3 -> changed_in (l ++ k) t1 t3.
Proof. intros H1 H2 q Hq. rewrite H2, H1; [done|set_solver|set_solver]. Qed.
Lemma changed_in_same_on l k t t' :
  changed_in l t t' -> (forall q, q ∈ k -> q ∉ l) -> same_on k (lb_blocks t) (lb_blocks t').
Proof. intros H Hd q Hq. apply H. auto. Qed.

Lemma in_range_kept t t' q : kept t t' -> in_range t q -> in_range t' q.
Proof. intros [E _ _ _ _]. unfold in_range. by rewrite E. Qed.

Lemma is_used_same bl bl' q : bl' !! q = bl !! q -> is_used bl q -> is_used bl' q.
Proof. unfold is_used. by intros ->. Qed.

Lemma Forall_used_same bl bl' l : same_on l bl bl' -> Forall (is_used bl) l -> Forall (is_used bl') l.
Proof.
  intros Hs Hl. apply Forall_forall. intros q Hq. eapply is_used_same; [by apply Hs|].
  rewrite Forall_forall in Hl. auto.
Qed.

Lemma emp_used b : ddwLengthInBlock b <> 0 -> emp b = 0.
Proof. intros. unfold emp. by rewrite (proj2 (Z.eqb_neq _ _)). Qed.
Lemma emp_empty b : ddwLengthInBlock b = 0 -> emp b = 1.
Proof. intros H. unfold emp. by rewrite H. Qed.

(** One turn of [FreeBlock]: block [q] goes to the front of the free list. *)
Definition free_one (q : Z) (b : LtBlock) (t : LtBuffer) : LtBuffer :=
  on_head (hd_set_free_count (ddwFreeBlockCount (lb_head t) + 1))
    (on_head (hd_set_first_free q)
       (put_block q (set_next (ddwFirstFreePos (lb_head t)) (zero_block b)) t)).

Lemma free_one_ok t q b :
  table_ok t -> in_range t q -> lb_blocks t !! q = Some b -> ddwLengthInBlock b <> 0 ->
  table_ok (free_one q b t) /\ kept t (free_one q b t) /\
  changed_in [q] t (free_one q b t) /\ is_empty (lb_blocks (free_one q b t)) q.
Proof.
  intros Ht Hq Hb Hu. pose proof (free_count_range t Ht) as Hfc. pose proof (to_head _ Ht) as [].
  unfold in_range in Hq. split_and!.
  - apply (table_ok_put t q b _ (hd_set_free_count _ (hd_set_first_free q (lb_head t))));
      try done; [lia| | |].
    + destruct (to_block t Ht q) as (b0 & Hb0 & [? ? ?]); [lia|]. simplify_eq.
      split; cbn; [apply Z.mod_pos_bound; lia|lia|].
      unfold len in *. by rewrite length_replicate.
    + split; try done; cbn; lia.
    + cbn. rewrite decide_True by done. rewrite (emp_used b) by done.
      rewrite u64_small; lia.
  - by split.
  - intros x Hx. cbn. apply lookup_insert_ne. set_solver.
  - eexists. cbn. rewrite lookup_insert, decide_True by done. done.
Qed.

Lemma FreeBlock_loop_spec fuel : forall p l t,
  table_ok t -> linked (lb_blocks t) p l -> Forall (in_range t) l ->
  Forall (is_used (lb_blocks t)) l -> (length l <= fuel)%nat ->
  exists t', FreeBlock_loop fuel p t = Some (0, t') /\ table_ok t' /\ kept t t' /\
    changed_in l t t' /\ Forall (is_empty (lb_blocks t')) l.
Proof.
  induction fuel as [|fuel IH]; intros p [|q l] t Ht Hl Hr Hu Hf; cbn [length] in Hf; try lia.
  - cbn in Hl. subst p. exists t. by split_and!.
  - cbn in Hl. subst p. exists t. by split_and!.
  - pose proof (linked_NoDup _ _ _ Hl) as Hnd. apply NoDup_cons in Hnd as [Hq Hnd].
    destruct Hl as (-> & Hq0 & b & Hb & Hl).
    apply Forall_cons in Hr as [Hqr Hr]. apply Forall_cons in Hu as [(b' & Hb' & Hu') Hu].
    simplify_eq. cbn [FreeBlock_loop]. rewrite (proj2 (Z.eqb_neq q 0)) by done.
    rewrite (proj2 (Z.leb_gt _ _)) by (destruct Hqr; lia). unfold LT_ELE_AT. rewrite Hb. msimp.
    change (on_head (hd_set_free_count _) _) with (free_one q b t).
    destruct (free_one_ok t q b Ht Hqr Hb Hu') as (Ht1 & Hk1 & Hc1 & He1).
    pose proof (changed_in_same_on [q] l _ _ Hc1 ltac:(set_solver)) as Hs.
    destruct (IH (ddwNext b) l (free_one q b t)) as (t' & -> & Ht' & Hk' & Hc' & He');
      [done|by eapply linked_same|eapply Forall_impl; [exact Hr|]; eauto using in_range_kept
      |by eapply Forall_used_same|lia|].
    exists t'. split; [done|]. split; [done|]. split; [by etrans|]. split.
    + apply (changed_in_trans [q] l _ _ _ Hc1 Hc').
    + constructor; [|done]. destruct He1 as (b1 & Hb1 & ?). exists b1. by rewrite Hc'.
Qed.

Lemma FreeBlock_spec p l t :
  table_ok t -> linked (lb_blocks t) p l -> l <> [] -> Forall (in_range t) l ->
  Forall (is_used (lb_blocks t)) l -> len l <= MAX_BLOCK_COUNT ->
  exists t', FreeBlock t p = Some (0, t') /\ table_ok t' /\ kept t t' /\
    changed_in l t t' /\ Forall (is_empty (lb_blocks t')) l.
Proof.
  intros Ht Hl Hne Hr Hu Hm. unfold FreeBlock. destruct l as [|q l]; [done|].
  pose proof Hl as (-> & Hq0 & _). pose proof (Forall_inv Hr) as [? ?].
  rewrite (proj2 (Z.eqb_neq q 0)), (proj2 (Z.leb_gt _ _)) by lia. cbn [orb].
  apply FreeBlock_loop_spec; try done. unfold len, MAX_BLOCK_COUNT in *. lia.
Qed.

(** ** Ownership

    Every block in use belongs to one chain: the chain of a live handle
    ([inl h], starting at [h]) or of a slot of the recycle pool ([inr i]). *)

Abbreviation owners := (gmap (Z + Z) (list Z)).

Definition chain_head (t : LtBuffer) (k : Z + Z) : Z :=
  match k with
  | inl h => h
  | inr i => default 0 (addwRecyclePool (lb_head t) !! i)
  end.

Record chain_ok (t : LtBuffer) (p : Z) (l : list Z) : Prop := {
  co_linked : linked (lb_blocks t) p l;
  co_ne : l <> [];
  co_range : Forall (in_range t) l;
  co_used : Forall (is_used (lb_blocks t)) l;
  co_max : len l <= MAX_BLOCK_COUNT
}.

Definition disjoint_owners (cm : owners) : Prop :=
  forall k1 k2 l1 l2 q, cm !! k1 = Some l1 -> cm !! k2 = Some l2 -> q ∈ l1 -> q ∈ l2 -> k1 = k2.

Record inv (t : LtBuffer) (cm : owners) : Prop := {
  i_table : table_ok t;
  i_chain : forall k l, cm !! k = Some l -> chain_ok t (chain_head t k) l;
  i_pool : forall i p, addwRecyclePool (lb_head t) !! i = Some p -> p <> 0 -> is_Some (cm !! inr i);
  i_disj : disjoint_owners cm
}.

Lemma chain_ok_same t t' p l :
  chain_ok t p l -> ddwAllBlockCount (lb_head t') = ddwAllBlockCount (lb_head t) ->
  same_on l (lb_blocks t) (lb_blocks t') -> chain_ok t' p l.
Proof.
  intros [Hl Hn Hr Hu Hm] Hk Hs. split; [by eapply linked_same|done| |by eapply Forall_used_same|done].
  eapply Forall_impl; [exact Hr|]. intros q. unfold in_range. by rewrite Hk.
Qed.

Lemma chain_ok_head t p l : chain_ok t p l -> p ∈ l /\ in_range t p.
Proof.
  intros [Hl Hn Hr _ _]. destruct l as [|q l]; [done|]. destruct Hl as (-> & _).
  split; [set_solver|]. by apply Forall_inv in Hr.
Qed.

(** Blocks outside every chain may change freely. *)
Lemma inv_frame t t' cm :
  inv t cm -> table_ok t' -> kept t t' ->
  (forall k l, cm !! k = Some l -> same_on l (lb_blocks t) (lb_blocks t')) -> inv t' cm.
Proof.
  intros [Ht Hc Hp Hd] Ht' Hk Hs. split; [done| | |done].
  - intros k l Hkl. replace (chain_head t' k) with (chain_head t k).
    + eapply chain_ok_same; eauto using k_all.
    + destruct k; [done|]. cbn. by rewrite (k_pool _ _ Hk).
  - intros i p. rewrite (k_pool _ _ Hk). apply Hp.
Qed.

Lemma inv_add t cm h l :
  inv t cm -> chain_ok t h l ->
  (forall k lk q, cm !! k = Some lk -> q ∈ lk -> q ∉ l) ->
  cm !! inl h = None /\ inv t (<[inl h := l]> cm).
Proof.
  intros [Ht Hc Hp Hd] Hl Hdis. split.
  - destruct (cm !! inl h) as [lk|] eqn:E; [|done]. exfalso.
    apply (Hdis _ _ h E); [apply (chain_ok_head t _ _ (Hc _ _ E))|by apply (chain_ok_head t)].
  - split; [done| | |].
    + intros k lk. rewrite lookup_insert. case_decide as E; [|apply Hc].
      intros [= <-]. by subst k.
    + intros i p Hip Hp0. rewrite lookup_insert_ne by done. eauto.
    + intros k1 k2 l1 l2 q. rewrite !lookup_insert.
      do 2 case_decide; intros; simplify_eq; try done; first [exfalso; by eapply Hdis|by eapply Hd].
Qed.

(** A live chain moves into slot [i] of the pool, whose old chain is released. *)
Lemma inv_move t t' cm h l i :
  inv t cm -> cm !! inl h = Some l -> table_ok t' ->
  ddwAllBlockCount (lb_head t') = ddwAllBlockCount (lb_head t) ->
  addwRecyclePool (lb_head t') = <[i := h]> (addwRecyclePool (lb_head t)) ->
  changed_in (default [] (cm !! inr i)) t t' ->
  inv t' (<[inr i := l]> (delete (inl h) cm)).
Proof.
  intros [Ht Hc Hp Hd] Hh Ht' Hall Hpool Hch.
  assert (forall k lk, cm !! k = Some lk -> k <> inr i -> same_on lk (lb_blocks t) (lb_blocks t')) as Hs.
  { intros k lk Hk Hne. eapply changed_in_same_on; [exact Hch|]. intros q Hq Hq'.
    destruct (cm !! inr i) as [lo|] eqn:E; cbn in Hq'; [|set_solver].
    apply Hne. by eapply Hd. }
  assert (forall k lk, <[inr i := l]> (delete (inl h) cm) !! k = Some lk ->
    (k = inr i /\ lk = l) \/ (k <> inr i /\ k <> inl h /\ cm !! k = Some lk)) as Hk.
  { intros k lk. rewrite lookup_insert, lookup_delete. repeat case_decide; naive_solver. }
  split; [done| | |].
  - intros k lk Hlk. destruct (Hk _ _ Hlk) as [[-> ->]|(Hn1 & Hn2 & Hcm)].
    + cbn. rewrite Hpool, lookup_insert, decide_True by done.
      apply (chain_ok_same t); [by apply (Hc (inl h))|done|]. by apply (Hs (inl h)).
    + replace (chain_head t' k) with (chain_head t k).
      * apply (chain_ok_same t); [by apply Hc|done|by eapply Hs].
      * destruct k as [|j]; [done|]. cbn. rewrite Hpool, lookup_insert_ne; [done|congruence].
  - intros j p. rewrite Hpool, !lookup_insert. case_decide as E.
    + intros _ _. subst j. rewrite decide_True by done. eauto.
    + intros Hj Hp0. rewrite decide_False by congruence. rewrite lookup_delete_ne by done. eauto.
  - intros k1 k2 l1 l2 q H1 H2 Hq1 Hq2.
    destruct (Hk _ _ H1) as [[-> ->]|(? & ? & ?)], (Hk _ _ H2) as [[-> ->]|(? & ? & ?)];
      [done| | |by eapply Hd].
    + exfalso. by assert (inl h = k2) by by eapply Hd.
    + exfalso. by assert (k1 = inl h) by by eapply Hd.
Qed.

Lemma pool_empty_slot t cm i :
  inv t cm -> default 0 (addwRecyclePool (lb_head t) !! i) = 0 -> cm !! inr i = None.
Proof.
  intros Hi H0. destruct (cm !! inr i) as [l|] eqn:E; [|done].
  apply (i_chain _ _ Hi) in E. cbn in E. rewrite H0 in E.
  destruct (chain_ok_head _ _ _ E) as [_ [? ?]]. lia.
Qed.

Lemma RecycleBlock_spec t cm h l :
  inv t cm -> cm !! inl h = Some l ->
  exists t' i, RecycleBlock t h = Some (0, t') /\
    inv t' (<[inr i := l]> (delete (inl h) cm)) /\
    changed_in (default [] (cm !! inr i)) t t'.
Proof.
  intros Hi Hh. pose proof (i_table _ _ Hi) as Ht. pose proof (to_head _ Ht) as [].
  unfold RecycleBlock.
  set (i := if dwRecyclePoolSize (lb_head t) <=? ddwRecycleIndex (lb_head t) then 0
            else ddwRecycleIndex (lb_head t)).
  assert (0 <= i < dwRecyclePoolSize (lb_head t)) as Hir.
  { unfold i. destruct (Z.leb_spec (dwRecyclePoolSize (lb_head t)) (ddwRecycleIndex (lb_head t))); lia. }
  unfold pool_get. rewrite (proj2 (Z.leb_le 0 i)), (proj2 (Z.ltb_lt i _)) by lia. cbn [andb]. msimp.
  rewrite (proj2 (Z.eqb_neq (dwRecyclePoolSize (lb_head t)) 0)) by lia.
  set (t1 := on_head _ t).
  assert (table_ok t1) as Ht1.
  { apply table_ok_head; try done. split; try done. cbn.
    apply Z.mod_pos_bound. lia. }
  destruct (Z.eqb_spec (default 0 (addwRecyclePool (lb_head t) !! i)) 0) as [H0|Hne]; cbn [negb]; msimp.
  - exists t1, i. split; [done|]. rewrite (pool_empty_slot t cm i) by done.
    split; [|done]. by apply (inv_move t).
  - destruct (addwRecyclePool (lb_head t) !! i) as [p|] eqn:Ep; [|done]. cbn [default] in *.
    destruct (i_pool _ _ Hi i p Ep Hne) as [lo Hlo].
    pose proof (i_chain _ _ Hi _ _ Hlo) as Hco. cbn in Hco. rewrite Ep in Hco. cbn in Hco.
    pose proof (chain_ok_same t t1 p lo Hco eq_refl ltac:(done)) as [].
    destruct (FreeBlock_spec p lo t1) as (t2 & Hf & Ht2 & Hk2 & Hc2 & _); [done..|].
    change (id p) with p. rewrite Hf. msimp.
    exists t2, i. split; [done|]. rewrite Hlo. cbn. split; [|done].
    apply (inv_move t); [done..| | |by rewrite Hlo].
    + by rewrite (k_all _ _ Hk2).
    + by rewrite (k_pool _ _ Hk2).
Qed.

(** ** Allocation *)

(** A block the allocator may take. *)
Definition spare (t : LtBuffer) (q : Z) : Prop := in_range t q /\ is_empty (lb_blocks t) q.

(** The links from [p] go through [v] and reach [e]; [v] may repeat. *)
Fixpoint path (bl : blockmap) (p : Z) (v : list Z) (e : Z) : Prop :=
  match v with
  | [] => p = e
  | q :: v' => p = q /\ exists b, bl !! q = Some b /\ path bl (ddwNext b) v' e
  end.

(** The free list is a list: walking it from [ddwFirstFreePos] meets distinct
    spare blocks until it leaves them. *)
Definition free_ok (t : LtBuffer) : Prop :=
  exists v e, path (lb_blocks t) (ddwFirstFreePos (lb_head t)) v e /\ NoDup v /\
    Forall (spare t) v /\ ~ spare t e.

(** Only links of spare blocks change. *)
Definition relinked (t t' : LtBuffer) : Prop :=
  forall q, lb_blocks t' !! q = lb_blocks t !! q \/
    (spare t q /\ exists b n, lb_blocks t !! q = Some b /\ lb_blocks t' !! q = Some (set_next n b)).

#[export] Instance relinked_refl : Reflexive relinked.
Proof. by left. Qed.

Lemma u48_idem z : u48 (u48 z) = u48 z.
Proof. unfold u48. apply Z.mod_mod. lia. Qed.

Lemma relinked_put t q b n :
  spare t q -> lb_blocks t !! q = Some b -> relinked t (put_block q (set_next n b) t).
Proof.
  intros Hs Hb x. cbn. rewrite lookup_insert. case_decide as E; [|by left].
  subst x. right. eauto.
Qed.

Lemma spare_relinked t t' q : kept t t' -> relinked t t' -> spare t' q <-> spare t q.
Proof.
  intros [E _ _ _ _] Hr. unfold spare, in_range, is_empty. rewrite E.
  destruct (Hr q) as [->|(_ & b & n & Hb & Hb')]; [done|]. rewrite Hb, Hb'. naive_solver.
Qed.

Lemma relinked_trans t1 t2 t3 :
  kept t1 t2 -> relinked t1 t2 -> relinked t2 t3 -> relinked t1 t3.
Proof.
  intros Hk H1 H2 q. destruct (H2 q) as [->|(Hs & b & n & Hb & ->)]; [apply H1|].
  right. rewrite (spare_relinked t1 t2) in Hs by done. split; [done|].
  destruct (H1 q) as [E|(_ & b1 & n1 & E1 & E2)].
  - exists b, n. by rewrite <- E.
  - exists b1, n. simplify_eq. done.
Qed.

Lemma table_ok_relink t q b n :
  table_ok t -> spare t q -> lb_blocks t !! q = Some b ->
  table_ok (put_block q (set_next n b) t) /\ kept t (put_block q (set_next n b) t) /\
  relinked t (put_block q (set_next n b) t).
Proof.
  intros Ht Hs Hb. pose proof Hs as [Hr _]. unfold in_range in Hr. split_and!.
  - apply (table_ok_put t q b _ (lb_head t)); try done; [lia| |apply Ht|].
    + destruct (to_block t Ht q) as (b0 & Hb0 & [? ? ?]); [lia|]. simplify_eq.
      split; cbn; [apply Z.mod_pos_bound; lia|done|done].
    + rewrite decide_True by done. change (emp (set_next n b)) with (emp b). lia.
  - by split.
  - by apply relinked_put.
Qed.

Lemma free_walk_S n cur t :
  free_walk (S n) cur t =
  if (0 <? cur) && (cur <? ddwAllBlockCount (lb_head t)) then
    b ← lb_blocks t !! cur;
    if Z.eqb (ddwLengthInBlock b) 0 then
      free_walk n (ddwNext b) (match n with O => put_block cur (set_next 0 b) t | S _ => t end)
    else Some (S n, cur, t)
  else Some (S n, cur, t).
Proof. done. Qed.

Lemma free_walk_spec n : forall cur t,
  table_ok t ->
  (exists n' cur', free_walk (S n) cur t = Some (S n', cur', t)) \/
  (exists v z b cur', free_walk (S n) cur t = Some (O, cur', put_block z (set_next 0 b) t) /\
     length v = n /\ path (lb_blocks t) cur (v ++ [z]) cur' /\ Forall (spare t) (v ++ [z]) /\
     lb_blocks t !! z = Some b /\ 0 <= cur' < 2 ^ 48).
Proof.
  induction n as [|n IH]; intros cur t Ht; rewrite free_walk_S.
  all: destruct ((0 <? cur) && (cur <? ddwAllBlockCount (lb_head t))) eqn:Hc; [|eauto]; zbool.
  all: destruct (to_block t Ht cur) as (b & Hb & [? ? ?]); [lia|]; rewrite Hb; msimp.
  all: destruct (Z.eqb_spec (ddwLengthInBlock b) 0) as [He|]; [|eauto].
  - right. exists [], cur, b, (ddwNext b). cbn. split_and!; eauto; try lia.
    constructor; [|constructor]. split; [done|by exists b].
  - destruct (IH (ddwNext b) t Ht) as [(n' & cur' & ->)|(v & z & bz & cur' & -> & Hv & Hp & Hs & Hz & Hr)];
      [eauto|].
    right. exists (cur :: v), z, bz, cur'. cbn [app path length]. split_and!; eauto; try lia.
    constructor; [|done]. split; [done|by exists b].
Qed.

(** Cutting a path at its last block leaves a chain, shorter if it repeats. *)
Lemma path_linked bl v : forall p z b e,
  path bl p (v ++ [z]) e -> bl !! z = Some b -> Forall (fun q => q <> 0) (v ++ [z]) ->
  exists l, linked (<[z := set_next 0 b]> bl) p l /\ l <> [] /\ l ⊆ v ++ [z] /\
    (length l <= length (v ++ [z]))%nat /\ (NoDup (v ++ [z]) -> l = v ++ [z]).
Proof.
  induction v as [|x v IH]; intros p z b e Hp Hb H0; cbn [app] in *.
  - destruct Hp as (-> & _). exists [z]. apply Forall_cons in H0 as [H0 _]. split_and!; try done.
    cbn. split; [done|]. split; [done|]. eexists. rewrite lookup_insert, decide_True by done.
    by split.
  - destruct Hp as (-> & bx & Hbx & Hp). apply Forall_cons in H0 as [Hx H0].
    destruct (decide (x = z)) as [->|Hne].
    + exists [z]. split_and!; [|done|set_solver|cbn; lia|].
      * cbn. split; [done|]. split; [done|]. eexists. rewrite lookup_insert, decide_True by done.
        by split.
      * intros Hnd. apply NoDup_cons in Hnd as [Hnd _]. exfalso. apply Hnd. set_solver.
    + destruct (IH _ _ _ _ Hp Hb H0) as (l & Hl & Hn & Hsub & Hlen & Hnd).
      exists (x :: l). split_and!; [|done|set_solver|cbn; lia|].
      * cbn. split; [done|]. split; [done|]. exists bx. rewrite lookup_insert_ne by done. done.
      * intros Hn'. apply NoDup_cons in Hn' as [_ Hn']. by rewrite Hnd.
Qed.

Lemma path_prefix bl (P : Z -> Prop) v : forall p e w f,
  path bl p v e -> Forall P v -> path bl p w f -> ~ P f -> exists w', w = v ++ w'.
Proof.
  induction v as [|q v IH]; intros p e w f Hv HP Hw Hf; [by exists w|].
  apply Forall_cons in HP as [Hq HP]. destruct Hv as (-> & b & Hb & Hv).
  destruct w as [|q' w]; [cbn in Hw; congruence|].
  destruct Hw as (-> & b' & Hb' & Hw). simplify_eq.
  destruct (IH _ _ _ _ Hv HP Hw Hf) as [w' ->]. by exists w'.
Qed.

(** ** The sequential scan *)

(** [todo] lists the positions of the next turns of the scan. *)
Fixpoint follows (all cur : Z) (todo : list Z) : Prop :=
  match todo with
  | [] => True
  | q :: r => cur = q /\ follows all (if all <=? q + 1 then 1 else q + 1) r
  end.

Lemma seq_scan_spec todo : forall turns n start cur t acc,
  table_ok t -> follows (ddwAllBlockCount (lb_head t)) cur todo -> NoDup todo ->
  1 <= cur < ddwAllBlockCount (lb_head t) -> 0 <= start < ddwAllBlockCount (lb_head t) ->
  Forall (in_range t) todo -> (length todo <= turns)%nat ->
  Z.of_nat n <= count_empty (lb_blocks t) todo ->
  linked (lb_blocks t) start acc -> (forall q, q ∈ acc -> q ∉ todo) ->
  exists l start' cur' t', seq_scan turns n start cur t = Some (O, start', cur', t') /\
    table_ok t' /\ kept t t' /\ relinked t t' /\ lb_head t' = lb_head t /\
    linked (lb_blocks t') start' (l ++ acc) /\ length l = n /\ Forall (spare t) l /\
    1 <= cur' < ddwAllBlockCount (lb_head t).
Proof.
  induction todo as [|q todo IH]; intros turns n start cur t acc Ht Hfol Hnd Hcur Hst Hr Htu Hn Hl Hd.
  { cbn in Hn. assert (n = O) as -> by lia. exists [], start, cur, t. cbn [app length].
    destruct turns; split_and!; try done; lia. }
  destruct n as [|n].
  { exists [], start, cur, t. cbn [app length]. destruct turns; split_and!; try done; lia. }
  destruct turns as [|turns]; [cbn in Htu; lia|]. cbn [length] in Htu.
  destruct Hfol as (-> & Hfol). apply NoDup_cons in Hnd as [Hq Hnd].
  apply Forall_cons in Hr as [Hqr Hr]. cbn [seq_scan]. unfold LT_ELE_AT.
  destruct (to_block t Ht q) as (b & Hb & Hbok); [lia|]. rewrite Hb. msimp.
  cbn [count_empty] in Hn. rewrite Hb in Hn.
  set (next := if _ <=? q + 1 then 1 else q + 1) in *.
  pose proof (ho_all _ (to_head _ Ht)).
  assert (1 <= next < ddwAllBlockCount (lb_head t)) as Hnext.
  { unfold next. destruct (Z.leb_spec (ddwAllBlockCount (lb_head t)) (q + 1)); lia. }
  destruct (Z.eqb_spec (ddwLengthInBlock b) 0) as [He|Hne].
  - rewrite emp_empty in Hn by done.
    assert (spare t q) as Hs by (split; [done|by exists b]).
    destruct (table_ok_relink t q b start Ht Hs Hb) as (Ht1 & Hk1 & Hre1).
    set (t1 := put_block q (set_next start b) t) in *.
    destruct (IH turns n q next t1 (q :: acc)) as (l & start' & cur' & t' & -> & Ht' & Hk' & Hre' & Hh' & Hl' & Hlen & Hsp & Hc');
      try done.
    + cbn; lia.
    + lia.
    + rewrite (count_empty_same (lb_blocks t)); [lia|by apply same_on_insert].
    + cbn [linked]. split; [done|]. split; [lia|]. exists (set_next start b).
      unfold t1; cbn. rewrite lookup_insert, decide_True, u48_small by (done || lia).
      split; [done|]. eapply linked_same; [exact Hl|]. apply same_on_insert.
      intros Hin. apply (Hd q Hin). set_solver.
    + intros x Hx. apply elem_of_cons in Hx as [->|Hx]; [done|].
      intros Hin. apply (Hd x Hx). set_solver.
    + exists (l ++ [q]), start', cur', t'. rewrite <- app_assoc. split_and!; try done.
      * by etrans.
      * by eapply relinked_trans.
      * rewrite length_app, Hlen. cbn. lia.
      * apply Forall_app. split; [|by constructor].
        eapply Forall_impl; [exact Hsp|]. intros x. by rewrite (spare_relinked t t1).
      * apply Hc'.
      * apply Hc'.
  - rewrite emp_used in Hn by done.
    destruct (IH turns (S n) start next t acc) as (l & start' & cur' & t' & -> & Hrest);
      try done; [lia|set_solver|]. eauto 10.
Qed.

(** The order in which the scan visits the positions, from [c]. *)
Definition scan_order (all c : Z) : list Z := seqZ c (all - c) ++ seqZ 1 (c - 1).

Lemma follows_seq all (k : nat) : forall c rest,
  c + Z.of_nat (S k) <= all ->
  follows all (if all <=? c + Z.of_nat (S k) then 1 else c + Z.of_nat (S k)) rest ->
  follows all c (seqZ c (Z.of_nat (S k)) ++ rest).
Proof.
  induction k as [|k IH]; intros c rest Hc Hf.
  - done.
  - rewrite seqZ_cons by lia. replace (Z.pred (Z.of_nat (S (S k)))) with (Z.of_nat (S k)) by lia.
    cbn [app follows]. split; [done|]. rewrite (proj2 (Z.leb_gt all (c + 1))) by lia.
    replace (Z.succ c) with (c + 1) by lia.
    apply IH; [lia|]. by replace (c + 1 + Z.of_nat (S k)) with (c + Z.of_nat (S (S k))) by lia.
Qed.

Lemma scan_order_spec all c :
  1 <= c < all -> follows all c (scan_order all c) /\ NoDup (scan_order all c) /\
  scan_order all c ≡ₚ seqZ 1 (all - 1).
Proof.
  intros Hc. unfold scan_order.
  assert (seqZ c (all - c) ++ seqZ 1 (c - 1) ≡ₚ seqZ 1 (all - 1)) as Hp.
  { replace (all - 1) with ((c - 1) + (all - c)) by lia. rewrite seqZ_app by lia.
    replace (1 + (c - 1)) with c by lia. apply Permutation_app_comm. }
  split; [|split; [|done]].
  - replace (all - c) with (Z.of_nat (S (Z.to_nat (all - c - 1)))) by lia.
    apply follows_seq; [lia|]. rewrite (proj2 (Z.leb_le _ _)) by lia.
    destruct (decide (c = 1)) as [->|]; [done|].
    rewrite <- (app_nil_r (seqZ 1 _)).
    replace (c - 1) with (Z.of_nat (S (Z.to_nat (c - 2)))) by lia.
    apply follows_seq; [lia|done].
  - rewrite Hp. apply NoDup_seqZ.
Qed.

(** With fewer blocks asked for than [ddwFreeBlockCount], allocation succeeds
    and yields a chain of spare blocks; it has the length asked for unless the
    free list it came from is damaged. *)
Lemma GetEmptyBlock_spec t n :
  table_ok t -> 0 < n <= MAX_BLOCK_COUNT -> n < ddwFreeBlockCount (lb_head t) ->
  exists start t' l, GetEmptyBlock t n = Some (0, start, t') /\ table_ok t' /\ kept t t' /\
    ddwFreeBlockCount (lb_head t') = ddwFreeBlockCount (lb_head t) /\
    relinked t t' /\ linked (lb_blocks t') start l /\ l <> [] /\ len l <= n /\
    Forall (spare t) l /\ (free_ok t -> len l = n).
Proof.
  intros Ht Hn Hf. pose proof (free_count_range t Ht). pose proof (to_head _ Ht) as [].
  unfold GetEmptyBlock. rewrite s32_small by lia.
  rewrite (proj2 (Z.ltb_ge n 0)), (proj2 (Z.ltb_ge _ n)), (proj2 (Z.ltb_ge _ n)) by lia.
  cbn [orb]. destruct (Z.to_nat n) as [|k] eqn:Ek; [lia|].
  destruct (free_walk_spec k (ddwFirstFreePos (lb_head t)) t Ht)
    as [(n' & cur' & ->)|(v & z & b & cur' & -> & Hv & Hp & Hs & Hz & Hr)]; msimp.
  - destruct (scan_order_spec (ddwAllBlockCount (lb_head t)) (ddwLastEmpty (lb_head t)))
      as (Hfol & Hnd & Hperm); [lia|].
    rewrite s32_small by lia.
    destruct (seq_scan_spec (scan_order (ddwAllBlockCount (lb_head t)) (ddwLastEmpty (lb_head t)))
      (Z.to_nat (ddwAllBlockCount (lb_head t))) (S k) 0 (ddwLastEmpty (lb_head t)) t [])
      as (l & start' & cur2 & t' & -> & Ht' & Hk' & Hre & Hh & Hl & Hlen & Hsp & Hc2); try done.
    + lia.
    + apply Forall_forall. intros q Hq. rewrite Hperm in Hq. by apply elem_positions.
    + rewrite Hperm, length_seqZ. lia.
    + rewrite (count_empty_perm _ _ _ Hperm). pose proof (to_free _ Ht).
      unfold positions in *. lia.
    + set_solver.
    + msimp. rewrite app_nil_r in Hl.
      assert (len l = n) as Hln by (unfold len; lia).
      do 3 eexists. split; [done|]. split; [|split_and!; try done].
      * apply table_ok_head; try done. rewrite Hh. split; try done; cbn; lia.
      * by destruct Hk'.
      * cbn. by rewrite Hh.
      * by intros ->.
      * lia.
  - destruct (path_linked _ _ _ _ _ _ Hp Hz) as (l & Hl & Hne & Hsub & Hlen & Hnd).
    { eapply Forall_impl; [exact Hs|]. intros q [[? ?] _]. lia. }
    assert (spare t z) as Hsz by (rewrite Forall_forall in Hs; apply Hs; set_solver).
    destruct (table_ok_relink t z b 0 Ht Hsz Hz) as (Ht1 & Hk1 & Hre1).
    rewrite length_app in Hlen. cbn in Hlen.
    eexists _, _, l. split; [done|]. split; [|split_and!; try done].
    + apply table_ok_head; try done.
    + unfold len. lia.
    + apply Forall_forall. intros q Hq. rewrite Forall_forall in Hs. apply Hs. set_solver.
    + intros (w & f & Hw & Hndw & _ & Hstop).
      destruct (path_prefix _ (spare t) _ _ _ _ _ Hp Hs Hw Hstop) as [w' ->].
      apply NoDup_app in Hndw as [Hndv _]. rewrite Hnd by done. unfold len.
      rewrite length_app. cbn. lia.
Qed.

(** ** Filling the chain *)

Definition nblocks (bdl : Z) (d : bytes) : Z := (len d + bdl - 1) / bdl.

Lemma nblocks_one bdl d : 0 < len d <= bdl -> nblocks bdl d = 1.
Proof. intros. unfold nblocks. symmetry. apply (Z.div_unique _ _ _ (len d - 1)); lia. Qed.
Lemma nblocks_more bdl c d : 0 < bdl -> len c = bdl -> nblocks bdl (c ++ d) = 1 + nblocks bdl d.
Proof.
  intros Hb Hc. unfold nblocks. rewrite len_app, Hc.
  replace (bdl + len d + bdl - 1) with ((len d + bdl - 1) + 1 * bdl) by lia.
  rewrite Z.div_add by lia. lia.
Qed.
Lemma nblocks_pos bdl d : 0 < bdl -> d <> [] -> 1 <= nblocks bdl d.
Proof.
  intros Hb Hd. unfold nblocks. apply Z.div_le_lower_bound; [lia|].
  destruct d; [done|]. len_lia.
Qed.

Lemma mem_write_front (m c : bytes) :
  len c <= len m -> mem_write m 0 c = Some (c ++ drop (length c) m).
Proof.
  intros H. unfold mem_write. rewrite decide_True by len_lia. cbn [Z.to_nat take app].
  unfold len. by rewrite Z.add_0_l, Nat2Z.id.
Qed.

(** One turn of the copy loop: block [q] receives the bytes [c]. *)
Definition fill_one (q : Z) (b : LtBlock) (c : bytes) (t : LtBuffer) : LtBuffer :=
  on_head (hd_set_free_count (ddwFreeBlockCount (lb_head t) - 1))
    (put_block q (set_length (len c) (set_data (c ++ drop (length c) (bufData b)) b)) t).

Lemma fill_one_ok t q b c :
  table_ok t -> in_range t q -> lb_blocks t !! q = Some b -> ddwLengthInBlock b = 0 ->
  0 < len c <= BDL t ->
  table_ok (fill_one q b c t) /\ kept t (fill_one q b c t) /\ changed_in [q] t (fill_one q b c t).
Proof.
  intros Ht Hq Hb He Hc. pose proof (free_count_range t Ht). pose proof (to_head _ Ht) as Hh.
  destruct (table_ok_bdl t Ht) as [_ Hbdl]. unfold in_range in Hq.
  destruct (to_block t Ht q) as (b0 & Hb0 & [? ? Hd]); [lia|]. assert (b0 = b) as -> by congruence. clear Hb0.
  assert (emp b = 1) as Heb by by apply emp_empty.
  assert (u16 (len c) = len c) as Hu by (apply u16_small; lia).
  split_and!; [|by split|intros x Hx; cbn; apply lookup_insert_ne; set_solver].
  apply (table_ok_put t q b _ (hd_set_free_count _ (lb_head t))); try done; [lia| |by destruct Hh|].
  - split; cbn; [done|lia|]. rewrite len_app. unfold BDL, len in *. rewrite length_drop. lia.
  - cbn. rewrite decide_True by done. rewrite Heb.
    replace (emp _) with 0 by (symmetry; apply emp_used; cbn; lia).
    assert (1 <= count_empty (lb_blocks t) (positions t)) as Hce.
    { rewrite <- (insert_id (lb_blocks t) q b Hb).
      pose proof (count_empty_bounds (<[q := mk_block 0 1 []]> (lb_blocks t)) (positions t)) as Hcb.
      rewrite (count_empty_put _ _ q b) in Hcb;
        [|apply positions_NoDup|by apply elem_positions|done].
      rewrite Heb in Hcb. change (emp (mk_block 0 1 [])) with 0 in Hcb.
      rewrite insert_id by done. lia. }
    pose proof (to_free _ Ht). destruct Hh. rewrite u64_small; lia.
Qed.

Lemma fill_loop_step fuel t pre c rest post cur q b :
  table_ok t -> in_range t q -> lb_blocks t !! q = Some b ->
  len pre + len (c ++ rest) < 2 ^ 31 -> c <> [] ->
  len c = (if BDL t <? len (c ++ rest) then BDL t else len (c ++ rest)) ->
  fill_loop (S fuel) t (pre ++ (c ++ rest) ++ post) (len pre + len (c ++ rest)) (len pre) cur q =
  fill_loop fuel (fill_one q b c t) ((pre ++ c) ++ rest ++ post)
    (len (pre ++ c) + len rest) (len (pre ++ c)) q (ddwNext b).
Proof.
  intros Ht Hq Hb Hmax Hc Hlen. destruct (table_ok_bdl t Ht) as [Hbd Hbr].
  destruct (to_block t Ht q) as (b0 & Hb0 & [? ? Hd]); [unfold in_range in Hq; lia|]. simplify_eq.
  assert (0 < len c) by (destruct c; [done|len_lia]).
  cbn [fill_loop]. unfold LT_ELE_AT. rewrite Hbd, s32_small by lia.
  replace (len pre + len (c ++ rest) - len pre) with (len (c ++ rest)) by lia.
  rewrite (proj2 (Z.eqb_neq q 0)) by (destruct Hq; lia).
  rewrite (proj2 (Z.leb_gt (len (c ++ rest)) 0)) by len_lia. cbn [orb].
  rewrite (proj2 (Z.leb_gt _ q)) by (destruct Hq; lia). rewrite Hb. msimp.
  rewrite <- Hlen. rewrite <- app_assoc, (mem_read_app pre c) by done. msimp.
  rewrite mem_write_front; [|rewrite Hd; fold (BDL t); zif_in Hlen; lia].
  msimp. unfold fill_one. rewrite s32_small by len_lia.
  rewrite <- app_assoc. f_equal; len_lia.
Qed.

Lemma fill_loop_spec l : forall fuel t pre rest post cur next,
  table_ok t -> linked (lb_blocks t) next l -> Forall (in_range t) l ->
  Forall (is_empty (lb_blocks t)) l -> rest <> [] -> (length rest < fuel)%nat ->
  len pre + len rest < 2 ^ 31 -> len l <= nblocks (BDL t) rest ->
  exists left cur' t',
    fill_loop fuel t (pre ++ rest ++ post) (len pre + len rest) (len pre) cur next
      = Some (0, left, cur', 0, t') /\
    table_ok t' /\ kept t t' /\ changed_in l t t' /\
    Forall (is_used (lb_blocks t')) l /\ linked (lb_blocks t') next l /\
    (len l < nblocks (BDL t) rest -> 0 < left) /\
    (len l = nblocks (BDL t) rest ->
     left = 0 /\ chain_data (lb_blocks t') l = rest /\ cur' ∈ l /\
     exists b, lb_blocks t' !! cur' = Some b /\ ddwNext b = 0).
Proof.
  induction l as [|q l IH]; intros fuel t pre rest post cur next Ht Hl Hr He Hne Hfu Hmax Hn.
  - cbn in Hl. subst next. destruct fuel as [|fuel]; [lia|].
    destruct (table_ok_bdl t Ht) as [_ ?]. pose proof (nblocks_pos (BDL t) rest ltac:(lia) Hne).
    exists (len rest), cur, t. cbn [fill_loop orb Z.eqb].
    replace (len pre + len rest - len pre) with (len rest) by lia.
    split_and!; try done; [destruct rest; [done|len_lia]|rewrite len_nil; intros; exfalso; lia].
  - destruct fuel as [|fuel]; [lia|]. destruct (table_ok_bdl t Ht) as [_ Hbd].
    pose proof (linked_NoDup _ _ _ Hl) as Hnd. apply NoDup_cons in Hnd as [Hq Hnd].
    pose proof Hl as (-> & Hq0 & b & Hb & Hl1). apply Forall_cons in Hr as [Hqr Hr].
    apply Forall_cons in He as [(b' & Hb' & Hlen0) He].
    assert (b' = b) as -> by congruence. clear Hb'.
    set (k := Z.to_nat (if BDL t <? len rest then BDL t else len rest)).
    assert (len (take k rest) = if BDL t <? len rest then BDL t else len rest) as Hk.
    { unfold k. destruct (Z.ltb_spec (BDL t) (len rest)); unfold len in *;
        rewrite length_take; lia. }
    assert (0 < len rest) as Hpos by (destruct rest; [done|len_lia]).
    assert (0 < len (take k rest) <= BDL t) as Hck2.
    { rewrite Hk. destruct (Z.ltb_spec (BDL t) (len rest)); lia. }
    assert (take k rest <> []) as Hck.
    { intros E. apply (f_equal len) in E. rewrite len_nil in E. lia. }
    rewrite <- (take_drop k rest). rewrite (fill_loop_step _ _ _ _ _ _ _ q b);
      [|done..|rewrite take_drop; done|done|rewrite take_drop; done].
    destruct (fill_one_ok t q b (take k rest) Ht Hqr Hb Hlen0 Hck2) as (Ht1 & Hk1 & Hc1).
    set (t1 := fill_one q b (take k rest) t) in *.
    assert (same_on l (lb_blocks t) (lb_blocks t1)) as Hs1.
    { eapply changed_in_same_on; [exact Hc1|set_solver]. }
    assert (lb_blocks t1 !! q = Some (mk_block (ddwNext b) (len (take k rest))
      (take k rest ++ drop (length (take k rest)) (bufData b)))) as Hb1.
    { unfold t1; cbn. rewrite lookup_insert, decide_True by done.
      unfold set_length; cbn. by rewrite u16_small by lia. }
    assert (Forall (is_empty (lb_blocks t1)) l) as He1.
    { apply Forall_forall. intros x Hx. unfold is_empty. rewrite (Hs1 x Hx).
      rewrite Forall_forall in He. by apply He. }
    assert (len l = len (q :: l) - 1) as Hll by len_lia. rewrite take_drop.
    destruct (Z.ltb_spec (BDL t) (len rest)) as [Hbig|Hsmall].
    + assert (nblocks (BDL t) rest = 1 + nblocks (BDL t) (drop k rest)) as Hnb.
      { rewrite <- (take_drop k rest) at 1. apply nblocks_more; [lia|done]. }
      assert (len rest = len (take k rest) + len (drop k rest)) as Hsplit.
      { by rewrite <- len_app, take_drop. }
      destruct (IH fuel t1 (pre ++ take k rest) (drop k rest) post q (ddwNext b))
        as (left & cur' & t' & -> & Ht' & Hk' & Hc' & Hu' & Hl' & Hlt & Heq);
        [done|by eapply linked_same| |done| | | | |].
      { eapply Forall_impl; [exact Hr|]. eauto using in_range_kept. }
      { intros E. rewrite E in Hsplit. len_lia. }
      { unfold len in *. lia. }
      { len_lia. }
      { change (BDL t1) with (BDL t). lia. }
      change (BDL t1) with (BDL t) in *.
      assert (lb_blocks t' !! q = lb_blocks t1 !! q) as Hq' by by apply Hc'.
      exists left, cur', t'. split; [done|]. split; [done|]. split; [by etrans|].
      split; [by apply (changed_in_trans [q] l _ t1)|]. split_and!.
      * constructor; [|done]. eexists. rewrite Hq', Hb1. split; [done|]. cbn. lia.
      * cbn [linked]. split_and!; try done. eexists. by rewrite Hq', Hb1.
      * intros. apply Hlt. lia.
      * intros E. destruct Heq as (-> & Hcd & Hin & Hlast); [lia|]. split_and!; try done.
        -- cbn [chain_data]. rewrite Hq', Hb1, Hcd. destruct l; [set_solver|]. cbn.
           rewrite drop_ge, app_nil_r by (destruct (to_block t Ht q) as (b0 & ? & [_ _ ?]);
             [destruct Hqr; lia|]; simplify_eq; unfold BDL, len in *; lia).
           apply take_drop.
        -- set_solver.
    + rewrite nblocks_one in Hn |- * by lia. assert (l = []) as -> by (destruct l; [done|len_lia]).
      assert (k = length rest) as Hkl by (unfold k, len; lia).
      rewrite Hkl, drop_all, firstn_all in *. cbn in Hl1.
      destruct fuel as [|fuel]; [destruct rest; [done|cbn in Hfu; lia]|]. cbn [fill_loop].
      rewrite (@len_nil Z), Z.add_0_r, Z.sub_diag.
      rewrite orb_true_r, Hl1. exists 0, q, t1. split; [done|]. split_and!; try done.
      * constructor; [|constructor]. eexists. split; [exact Hb1|]. cbn. lia.
      * cbn [linked]. split_and!; try done. eexists. split; [exact Hb1|done].
      * intros _. split_and!; try done; [|set_solver|by eexists].
        cbn [chain_data]. rewrite Hb1. cbn [bufData ddwLengthInBlock].
        unfold len. by rewrite Nat2Z.id, take_app_length, app_nil_r.
Qed.

(** ** The abstract store *)

(** [rep t live]: the table holds exactly the strings of [live], by handle. *)
Definition rep (t : LtBuffer) (live : gmap Z bytes) : Prop :=
  exists cm, inv t cm /\
    forall h, live !! h = chain_data (lb_blocks t) <$> (cm !! inl h).

Lemma rep_handle t live h d : rep t live -> live !! h = Some d -> in_range t h.
Proof.
  intros (cm & Hi & Hlive) Hh. rewrite Hlive in Hh.
  apply fmap_Some in Hh as (l & Hl & ->). apply (i_chain _ _ Hi) in Hl.
  by destruct (chain_ok_head _ _ _ Hl).
Qed.

Lemma rep_table t live : rep t live -> table_ok t.
Proof. intros (cm & [] & _). done. Qed.

Lemma recycle_rep t live h :
  rep t live -> is_Some (live !! h) ->
  exists t', RecycleBlock t h = Some (0, t') /\ rep t' (delete h live).
Proof.
  intros (cm & Hi & Hlive) [d Hd]. rewrite Hlive in Hd.
  apply fmap_Some in Hd as (l & Hl & ->).
  destruct (RecycleBlock_spec t cm h l Hi Hl) as (t' & i & Hr & Hi' & Hc).
  exists t'. split; [done|]. eexists. split; [exact Hi'|]. intros x.
  rewrite lookup_insert_ne by done. rewrite !lookup_delete.
  case_decide as E; [by rewrite decide_True by congruence|].
  rewrite decide_False by congruence. rewrite Hlive.
  destruct (cm !! inl x) as [lx|] eqn:Ex; [|done]. cbn. f_equal. symmetry.
  apply chain_data_same. eapply changed_in_same_on; [exact Hc|]. intros q Hq Hq'.
  destruct (cm !! inr i) as [li|] eqn:Ei; cbn in Hq'; [|set_solver].
  by assert (inl x = inr i) by by eapply (i_disj _ _ Hi).
Qed.

(** Changes outside the owned blocks keep the store. *)
Lemma used_not_spare t q : is_used (lb_blocks t) q -> ~ spare t q.
Proof. intros (b & Hb & ?) [_ (b' & Hb' & ?)]. congruence. Qed.

Lemma owned_used t cm k l q : inv t cm -> cm !! k = Some l -> q ∈ l -> in_range t q /\ is_used (lb_blocks t) q.
Proof.
  intros Hi Hl Hq. destruct (i_chain _ _ Hi _ _ Hl) as [_ _ Hr Hu _].
  rewrite Forall_forall in Hr, Hu. auto.
Qed.

Lemma inv_relinked t t' cm :
  inv t cm -> table_ok t' -> kept t t' -> relinked t t' ->
  inv t' cm /\ forall k l, cm !! k = Some l -> same_on l (lb_blocks t) (lb_blocks t').
Proof.
  intros Hi Ht' Hk Hr.
  assert (forall k l, cm !! k = Some l -> same_on l (lb_blocks t) (lb_blocks t')) as Hs.
  { intros k l Hl q Hq. destruct (Hr q) as [->|[Hsp _]]; [done|].
    by apply used_not_spare in Hsp; [|eapply owned_used]. }
  split; [by eapply inv_frame|done].
Qed.

Lemma inv_changed t t' cm l :
  inv t cm -> table_ok t' -> kept t t' -> changed_in l t t' ->
  (forall k lk q, cm !! k = Some lk -> q ∈ lk -> q ∉ l) ->
  inv t' cm /\ forall k lk, cm !! k = Some lk -> same_on lk (lb_blocks t) (lb_blocks t').
Proof.
  intros Hi Ht' Hk Hc Hd.
  assert (forall k lk, cm !! k = Some lk -> same_on lk (lb_blocks t) (lb_blocks t')) as Hs.
  { intros k lk Hl. eapply changed_in_same_on; [exact Hc|eauto]. }
  split; [by eapply inv_frame|done].
Qed.

(** [LT_ELE_AT(ddwCurPos)->ddwNext = 0; LT_ELE_AT(0)->ddwNext = 0] *)
Lemma link_ends t cur b :
  table_ok t -> lb_blocks t !! cur = Some b -> ddwNext b = 0 ->
  exists t', (t3 ← link_block cur 0 t; link_block 0 0 t3) = Some t' /\ table_ok t' /\ kept t t' /\
    changed_in [0] t t'.
Proof.
  intros Ht Hb H0. unfold link_block, LT_ELE_AT. rewrite Hb. msimp.
  assert (put_block cur (set_next 0 b) t = t) as ->.
  { unfold put_block. replace (set_next 0 b) with b by (destruct b; cbn in *; by subst).
    rewrite insert_id by done. by destruct t. }
  pose proof (ho_all _ (to_head _ Ht)).
  destruct (to_block t Ht 0) as (b0 & Hb0 & [? ? ?]); [lia|]. rewrite Hb0. msimp.
  eexists. split; [done|]. split_and!; [|by split|].
  - apply (table_ok_put t 0 b0 _ (lb_head t)); try done; [lia|apply Ht|].
    rewrite decide_False; [lia|]. unfold in_range. lia.
  - intros q Hq. cbn. apply lookup_insert_ne. set_solver.
Qed.

Lemma block_count_spec t d :
  table_ok t -> d <> [] -> len d < 2 ^ 31 - 2 ^ 16 -> block_count t (len d) = Some (nblocks (BDL t) d).
Proof.
  intros Ht Hd Hlen. destruct (table_ok_bdl t Ht) as [Hb Hr]. unfold block_count. rewrite Hb.
  rewrite (proj2 (Z.eqb_neq _ 0)) by lia. f_equal. unfold nblocks.
  assert (1 <= len d) by (destruct d; [done|len_lia]).
  rewrite u64_small by lia. apply s32_small.
  split; [pose proof (Z.div_pos (len d + BDL t - 1) (BDL t)); lia|].
  apply Z.div_lt_upper_bound; nia.
Qed.

(** Adding a chain of freshly filled blocks. *)
Lemma rep_add t cm (live : gmap Z bytes) start l d :
  inv t cm -> (forall h, live !! h = chain_data (lb_blocks t) <$> (cm !! inl h)) ->
  chain_ok t start l -> chain_data (lb_blocks t) l = d ->
  (forall k lk q, cm !! k = Some lk -> q ∈ lk -> q ∉ l) ->
  live !! start = None /\ rep t (<[start := d]> live).
Proof.
  intros Hi Hlive Hc Hd Hdis. destruct (inv_add t cm start l Hi Hc Hdis) as [Hn Hi'].
  split; [by rewrite Hlive, Hn|]. eexists. split; [exact Hi'|]. intros h.
  rewrite !lookup_insert. repeat case_decide; try congruence. by rewrite <- Hd.
Qed.

Lemma rep_same t t' cm (live : gmap Z bytes) :
  inv t' cm -> (forall h, live !! h = chain_data (lb_blocks t) <$> (cm !! inl h)) ->
  (forall k l, cm !! k = Some l -> same_on l (lb_blocks t) (lb_blocks t')) ->
  forall h, live !! h = chain_data (lb_blocks t') <$> (cm !! inl h).
Proof.
  intros Hi Hlive Hs h. rewrite Hlive. destruct (cm !! inl h) as [l|] eqn:E; [|done].
  cbn. f_equal. symmetry. apply chain_data_same. eauto.
Qed.

(** The state after the allocation and the copy loop. *)
Lemma alloc_fill t live d post :
  rep t live -> d <> [] -> len d < 2 ^ 31 - 2 ^ 16 ->
  nblocks (BDL t) d <= MAX_BLOCK_COUNT -> nblocks (BDL t) d < ddwFreeBlockCount (lb_head t) ->
  exists start t1 left cur t2,
    GetEmptyBlock t (nblocks (BDL t) d) = Some (0, start, t1) /\
    fill_loop (S (Z.to_nat (len d))) t1 (d ++ post) (len d) 0 0 start = Some (0, left, cur, 0, t2) /\
    table_ok t2 /\
    ((0 < left /\ rep t2 live /\ ~ free_ok t) \/
     (left = 0 /\ live !! start = None /\ start <> 0 /\
      exists b, lb_blocks t2 !! cur = Some b /\ ddwNext b = 0 /\
        forall t4, table_ok t4 -> kept t2 t4 -> changed_in [0] t2 t4 -> rep t4 (<[start := d]> live))).
Proof.
  intros (cm & Hi & Hlive) Hd Hlen Hmax Hfree. pose proof (i_table _ _ Hi) as Ht.
  destruct (table_ok_bdl t Ht) as [_ Hb]. pose proof (nblocks_pos (BDL t) d ltac:(lia) Hd).
  destruct (GetEmptyBlock_spec t (nblocks (BDL t) d)) as
    (start & t1 & l & Hg & Ht1 & Hk1 & _ & Hre & Hl & Hne & Hln & Hsp & Hok); [done|lia|done|].
  destruct (inv_relinked t t1 cm Hi Ht1 Hk1 Hre) as [Hi1 Hs1].
  pose proof (rep_same _ _ _ _ Hi1 Hlive Hs1) as Hlive1.
  assert (Forall (spare t1) l) as Hsp1.
  { eapply Forall_impl; [exact Hsp|]. intros q. by rewrite (spare_relinked t t1). }
  assert (BDL t1 = BDL t) as HB by (unfold BDL; by rewrite (k_bs _ _ Hk1)).
  assert (forall k lk q, cm !! k = Some lk -> q ∈ lk -> q ∉ l) as Hdis.
  { intros k lk q Hlk Hq Hql. rewrite Forall_forall in Hsp1.
    eapply used_not_spare; [by eapply owned_used|by apply Hsp1]. }
  destruct (fill_loop_spec l (S (Z.to_nat (len d))) t1 [] d post 0 start)
    as (left & cur & t2 & Hf & Ht2 & Hk2 & Hc2 & Hu2 & Hl2 & Hlt & Heq); try done.
  { eapply Forall_impl; [exact Hsp1|]. by intros q []. }
  { eapply Forall_impl; [exact Hsp1|]. by intros q []. }
  { unfold len. lia. }
  { rewrite len_nil. lia. }
  { by rewrite HB. }
  rewrite HB in Hlt, Heq. cbn [app] in Hf. rewrite (@len_nil Z) in Hf. cbn [Z.add] in Hf.
  exists start, t1, left, cur, t2. split; [done|]. split; [exact Hf|]. split; [done|].
  destruct (inv_changed t1 t2 cm l Hi1 Ht2 Hk2 Hc2 Hdis) as [Hi2 Hs2].
  pose proof (rep_same _ _ _ _ Hi2 Hlive1 Hs2) as Hlive2.
  destruct (Z.eq_dec (len l) (nblocks (BDL t) d)) as [E|E].
  - right. destruct (Heq E) as (-> & Hcd & Hin & b & Hbc & Hb0).
    assert (chain_ok t2 start l) as Hco.
    { split; [done..| |done|lia]. apply Forall_forall. intros q Hq.
      rewrite Forall_forall in Hsp1. destruct (Hsp1 q Hq) as [Hr _]. by eapply in_range_kept. }
    destruct (chain_ok_head _ _ _ Hco) as [_ Hsr].
    split; [done|]. split; [by apply (rep_add t2 cm live start l d)|].
    split; [unfold in_range in Hsr; lia|]. exists b. split; [done|]. split; [done|].
    intros t4 Ht4 Hk4 Hc4. destruct (inv_changed t2 t4 cm [0] Hi2 Ht4 Hk4 Hc4) as [Hi4 Hs4].
    { intros k lk q Hlk Hq. destruct (owned_used _ _ _ _ _ Hi2 Hlk Hq) as [[? ?] _].
      apply not_elem_of_cons. split; [lia|set_solver]. }
    pose proof (rep_same _ _ _ _ Hi4 Hlive2 Hs4) as Hlive4.
    assert (same_on l (lb_blocks t2) (lb_blocks t4)) as Hsl.
    { eapply changed_in_same_on; [exact Hc4|]. intros q Hq.
      pose proof (linked_no0 _ _ _ Hl2). intros Hq0. apply list_elem_of_singleton in Hq0.
      by subst q. }
    apply (rep_add t4 cm live start l d); try done.
    + apply (chain_ok_same t2); [done|apply Hk4|done].
    + by rewrite (chain_data_same (lb_blocks t2)).
  - left. split; [apply Hlt; lia|]. split; [by exists cm|]. intros Hfo. by apply E, Hok.
Qed.

(** ** Reading a chain back *)

(** What the read path needs of the memory; the links, the lengths and the
    contents of the blocks are arbitrary. *)
Record mem_ok (t : LtBuffer) : Prop := {
  mo_bs : 9 <= ddwBlockSize (lb_head t) < 8 + 2 ^ 16;
  mo_block : forall q, 0 < q < ddwAllBlockCount (lb_head t) ->
    exists b, lb_blocks t !! q = Some b /\ block_ok (ddwBlockSize (lb_head t)) b
}.

Lemma table_ok_mem t : table_ok t -> mem_ok t.
Proof. intros [[] Hb _]. split; [done|]. intros q Hq. apply Hb. lia. Qed.

(** The bytes one block contributes. *)
Definition block_bytes (b : LtBlock) : bytes :=
  if Z.eqb (ddwNext b) 0 then take (Z.to_nat (ddwLengthInBlock b)) (bufData b) else bufData b.

Lemma block_bytes_len bs b : block_ok bs b ->
  len (block_bytes b) <= bs - 8 /\ (ddwLengthInBlock b <> 0 -> 9 <= bs -> 0 < len (block_bytes b)).
Proof.
  intros [? ? Hd]. unfold block_bytes. destruct (Z.eqb _ _); [|lia].
  unfold len in *. rewrite length_take. lia.
Qed.

Lemma mem_read_front (m : bytes) n :
  0 <= n <= len m -> mem_read m 0 n = Some (take (Z.to_nat n) m).
Proof. intros. unfold mem_read. by rewrite decide_True, Z2Nat.inj_0, drop_0 by lia. Qed.

Lemma GetData_loop_step fuel t p b out old room iBufLen :
  mem_ok t -> p <> 0 -> p < ddwAllBlockCount (lb_head t) -> lb_blocks t !! p = Some b ->
  block_ok (ddwBlockSize (lb_head t)) b ->
  len out + BDL t <= iBufLen -> iBufLen < 2 ^ 31 -> len old = len (block_bytes b) ->
  GetData_loop (S fuel) t p (out ++ old ++ room) (len out) iBufLen =
  GetData_loop fuel t (ddwNext b) ((out ++ block_bytes b) ++ room) (len (out ++ block_bytes b)) iBufLen.
Proof.
  intros [Hbs _] Hp0 Hp Hb [Hn Hl Hd] Hroom Hmax Hold.
  assert (BLOCK_DATA_LEN t = BDL t) as HB by (unfold BLOCK_DATA_LEN, BDL; rewrite u64_small; lia).
  assert (1 <= BDL t < 2 ^ 16) as HBr by (unfold BDL; lia).
  cbn [GetData_loop]. rewrite (proj2 (Z.eqb_neq p 0)), (proj2 (Z.leb_gt _ p)) by done.
  rewrite HB. rewrite (s32_small (BDL t)), s32_small by len_lia.
  rewrite (proj2 (Z.ltb_ge iBufLen (len out + BDL t))) by lia. unfold LT_ELE_AT. rewrite Hb. msimp.
  rewrite (u16_small (BDL t)) by lia.
  set (w := if negb _ then _ else _).
  assert (mem_read (bufData b) 0 w = Some (block_bytes b) /\ w = len (block_bytes b)) as [-> ->].
  { change (len (bufData b) = BDL t) in Hd. unfold w, block_bytes. destruct (Z.eqb _ 0); cbn [negb].
    - destruct (Z.ltb_spec (BDL t) (ddwLengthInBlock b)); rewrite mem_read_front by lia;
        unfold len in *; rewrite ?length_take; (split; [|lia]); [|done].
      by rewrite !take_ge by lia.
    - rewrite mem_read_front by lia. unfold len in *. split; [by rewrite take_ge by lia|lia]. }
  msimp. rewrite mem_write_app by done. msimp. rewrite <- app_assoc, len_app.
  pose proof (block_bytes_len _ b (Build_block_ok _ _ Hn Hl Hd)).
  rewrite s32_small by (unfold BDL in *; len_lia). done.
Qed.

Lemma chain_data_cons bl q l b :
  bl !! q = Some b -> (ddwNext b = 0 <-> l = []) -> chain_data bl (q :: l) = block_bytes b ++ chain_data bl l.
Proof.
  intros Hb Hn. cbn. rewrite Hb. unfold block_bytes.
  destruct (Z.eqb_spec (ddwNext b) 0); destruct l; naive_solver.
Qed.

Lemma split_at {A} (l : list A) (n : Z) :
  0 <= n <= len l -> exists l1 l2, l = l1 ++ l2 /\ len l1 = n.
Proof.
  intros Hn. exists (take (Z.to_nat n) l), (drop (Z.to_nat n) l).
  rewrite take_drop. split; [done|]. unfold len in *. rewrite length_take. lia.
Qed.

Lemma GetData_loop_spec l : forall fuel t p out room iBufLen,
  mem_ok t -> linked (lb_blocks t) p l -> Forall (in_range t) l ->
  Forall (is_used (lb_blocks t)) l ->
  iBufLen - len out + 1 <= Z.of_nat fuel -> (0 < fuel)%nat -> 
  0 <= iBufLen <= len (out ++ room) -> len out <= iBufLen -> iBufLen < 2 ^ 31 - 2 ^ 16 ->
  if decide (len out + BDL t * len l <= iBufLen) then
    GetData_loop fuel t p (out ++ room) (len out) iBufLen =
      Some (0, out ++ chain_data (lb_blocks t) l
                ++ drop (length (chain_data (lb_blocks t) l)) room,
            len out + len (chain_data (lb_blocks t) l))
  else exists buf, GetData_loop fuel t p (out ++ room) (len out) iBufLen = Some (-22, buf, iBufLen).
Proof.
  induction l as [|q l IH]; intros fuel t p out room iBufLen Hm Hl Hr Hu Hf Hf0 Hb Hout Hmax;
    destruct fuel as [|fuel]; try lia.
  - cbn in Hl. subst p. rewrite decide_True by len_lia. cbn [chain_data app length].
    rewrite (@len_nil Z), Z.add_0_r, drop_0. done.
  - assert (1 <= BDL t < 2 ^ 16) as HBr by (destruct Hm; unfold BDL; lia).
    destruct Hl as (-> & Hq0 & b & Hbq & Hl). apply Forall_cons in Hr as [Hqr Hr].
    apply Forall_cons in Hu as [(b' & Hb' & Hub) Hu]. assert (b' = b) as -> by congruence.
    destruct (mo_block t Hm q) as (b' & Hb2 & Hbok); [apply Hqr|].
    assert (b' = b) as -> by congruence. clear Hb' Hb2.
    pose proof (block_bytes_len _ b Hbok) as [Hle Hgt]. specialize (Hgt Hub ltac:(destruct Hm; lia)).
    rewrite len_cons. pose proof (len_nonneg l).
    destruct (Z.le_gt_cases (len out + BDL t) iBufLen) as [Hfit|Hno].
    2: { rewrite decide_False by nia. exists (out ++ room). cbn [GetData_loop].
         unfold BLOCK_DATA_LEN. rewrite (proj2 (Z.eqb_neq q 0)), (proj2 (Z.leb_gt _ q)) by (destruct Hqr; lia).
         fold (BDL t). rewrite u64_small, (s32_small (BDL t)), s32_small by len_lia.
         by rewrite (proj2 (Z.ltb_lt _ _)) by lia. }
    rewrite len_app in Hb.
    destruct (split_at room (len (block_bytes b))) as (old & room' & -> & Hold);
      [unfold BDL in *; lia|].
    rewrite (GetData_loop_step fuel t q b) by (try done; unfold in_range in Hqr; lia).
    assert (ddwNext b = 0 <-> l = []) as Hnl.
    { destruct l as [|x l]; [done|]. destruct Hl as (-> & ? & _). done. }
    specialize (IH fuel t (ddwNext b) (out ++ block_bytes b) room' iBufLen Hm Hl Hr Hu).
    rewrite !len_app in IH. rewrite len_app in Hb.
    specialize (IH ltac:(lia) ltac:(lia) ltac:(lia) ltac:(unfold BDL in *; lia) Hmax).
    rewrite (chain_data_cons _ _ _ b) by done.
    destruct (ddwNext b =? 0) eqn:En; zbool.
    + rewrite (proj1 Hnl En) in *. rewrite (@len_nil Z) in *.
      rewrite decide_True in IH by (unfold BDL in *; lia). rewrite decide_True by lia.
      rewrite len_app, IH. cbn [chain_data]. rewrite !app_nil_r, (@len_nil Z), Z.add_0_r.
      unfold len in Hold. rewrite <- !app_assoc. cbn [length app]. rewrite drop_0.
      rewrite drop_app_length' by lia. done.
    + assert (len (block_bytes b) = BDL t) as Hfull.
      { unfold block_bytes. rewrite (proj2 (Z.eqb_neq _ _)) by done. apply Hbok. }
      replace (len out + len (block_bytes b) + BDL t * len l)
        with (len out + BDL t * (1 + len l)) in IH by lia.
      rewrite len_app. destruct (decide _) as [Hd|Hd]; [|exact IH].
      rewrite IH. rewrite length_app, <- drop_drop, drop_app_length', <- !app_assoc, len_app, Z.add_assoc
        by (unfold len in Hold; lia). done.
Qed.

(** ** The operations on the abstract store *)

Lemma SetData_rep (t : LtBuffer) (live : gmap Z bytes) (pos : Z) (d post : bytes) :
  rep t live -> pos = 0 \/ is_Some (live !! pos) -> d <> [] -> len d < 2 ^ 31 - 2 ^ 16 ->
  nblocks (BDL t) d <= MAX_BLOCK_COUNT -> nblocks (BDL t) d < ddwFreeBlockCount (lb_head t) ->
  exists rc pos' t',
    SetData (Some t) pos (Some (d ++ post)) (len d) = Some (rc, pos', Some t') /\
    ((rc = 0 /\ pos' <> 0 /\ live !! pos' = None /\ rep t' (<[pos' := d]> (delete pos live))) \/
     (rc = -9 /\ pos' = pos /\ rep t' live /\ ~ free_ok t)).
Proof.
  intros Hrep Hpos Hd Hlen Hmax Hfree. pose proof (rep_table _ _ Hrep) as Ht.
  destruct (alloc_fill t live d post Hrep Hd Hlen Hmax Hfree)
    as (start & t1 & left & cur & t2 & Hg & Hf & Ht2 & Hcases).
  unfold SetData. rewrite (proj2 (Z.ltb_ge _ 0)) by len_lia.
  rewrite block_count_spec by done. msimp.
  rewrite (proj2 (Z.ltb_ge _ _)) by lia. rewrite Hg. msimp. cbn [Z.ltb Z.compare].
  rewrite Hf. msimp. cbn [Z.eqb negb].
  destruct Hcases as [(Hl & Hrep2 & Hnf)|(-> & Hns & Hs0 & b & Hb & Hb0 & Hrep4)].
  - rewrite (proj2 (Z.eqb_neq _ 0)) by lia. cbn [negb]. eauto 10.
  - cbn [Z.eqb negb]. destruct (link_ends t2 cur b Ht2 Hb Hb0) as (t4 & Hlink & Ht4 & Hk4 & Hc4).
    specialize (Hrep4 t4 Ht4 Hk4 Hc4).
    destruct (link_block cur 0 t2) as [t3|] eqn:E3; [|done]. msimp_in Hlink. msimp.
    rewrite Hlink. msimp. destruct (Z.eqb_spec pos 0) as [->|Hp0]; cbn [negb].
    + exists 0, start, t4. split; [done|]. left. split_and!; try done.
      rewrite delete_id; [done|]. destruct (live !! 0) as [d0|] eqn:E0; [|done].
      apply (rep_handle t live) in E0; [|done]. unfold in_range in E0. lia.
    + destruct Hpos as [?|Hpos]; [done|].
      assert (pos <> start) as Hne by (intros ->; rewrite Hns in Hpos; by destruct Hpos).
      destruct (recycle_rep t4 _ pos Hrep4) as (t5 & -> & Hrep5);
        [by rewrite lookup_insert_ne|]. msimp.
      exists 0, start, t5. split; [done|]. left. split_and!; try done.
      by rewrite <- delete_insert_ne.
Qed.

(** The number of blocks a string occupies. *)
Lemma chain_blocks t p l :
  table_ok t -> chain_ok t p l -> nblocks (BDL t) (chain_data (lb_blocks t) l) = len l.
Proof.
  intros Ht [Hl Hne Hr Hu _]. destruct (table_ok_bdl t Ht) as [_ HB]. revert p Hl Hne Hr Hu.
  induction l as [|q l IH]; intros p Hl Hne Hr Hu; [done|].
  destruct Hl as (-> & _ & b & Hb & Hl). apply Forall_cons in Hr as [Hq Hr].
  apply Forall_cons in Hu as [(b' & Hb' & Hub) Hu]. assert (b' = b) as -> by congruence.
  destruct (to_block t Ht q) as (b' & Hb2 & [_ Hlen Hd]); [unfold in_range in Hq; lia|].
  assert (b' = b) as -> by congruence. change (len (bufData b) = BDL t) in Hd.
  cbn [chain_data]. rewrite Hb. destruct l as [|x l].
  - cbn [chain_data]. rewrite app_nil_r. apply nblocks_one. unfold len in *. rewrite length_take. lia.
  - rewrite nblocks_more by lia. rewrite (IH _ Hl) by done. len_lia.
Qed.

Lemma GetData_rep (t : LtBuffer) (live : gmap Z bytes) (h : Z) (d buf : bytes) :
  rep t live -> live !! h = Some d ->
  BDL t <= len buf -> len buf < 2 ^ 31 - 2 ^ 16 ->
  if decide (BDL t * nblocks (BDL t) d <= len buf) then
    GetData (Some t) h (Some buf) (len buf) = Some (0, d ++ drop (length d) buf, len d)
  else exists buf', GetData (Some t) h (Some buf) (len buf) = Some (-22, buf', len buf).
Proof.
  intros (cm & Hi & Hlive) Hh Hbuf Hmax. rewrite Hlive in Hh.
  apply fmap_Some in Hh as (l & Hl & ->). pose proof (i_table _ _ Hi) as Ht.
  pose proof (i_chain _ _ Hi _ _ Hl) as Hco. rewrite (chain_blocks t _ l Ht Hco).
  destruct Hco as [Hlk Hne Hr Hu _]. cbn in Hlk. destruct (table_ok_bdl t Ht) as [HB HBr].
  unfold GetData. msimp. rewrite HB, s32_small by lia. rewrite (proj2 (Z.ltb_ge _ _)) by lia.
  pose proof (GetData_loop_spec l (S (S (Z.to_nat (len buf)))) t h [] buf (len buf)) as Hs.
  rewrite (@len_nil Z), app_nil_l, Z.add_0_l in Hs. apply Hs; try done; try len_lia.
  by apply table_ok_mem.
Qed.

Lemma EraseData_rep (t : LtBuffer) (live : gmap Z bytes) (h : Z) :
  rep t live -> is_Some (live !! h) ->
  exists t', EraseData (Some t) h = Some (0, Some t') /\ rep t' (delete h live).
Proof.
  intros Hrep Hh. destruct (recycle_rep t live h Hrep Hh) as (t' & Hr & Hrep').
  exists t'. split; [|done]. unfold EraseData. by rewrite Hr.
Qed.

(** A buffer whose blocks are zeroed, after [Init]. *)
Lemma Init_rep blocks n bs :
  3 <= n < 2 ^ 31 -> 9 <= bs < 8 + 2 ^ 16 ->
  (forall q, 0 <= q < n -> exists b, blocks !! q = Some b /\ block_ok bs b /\ ddwLengthInBlock b = 0) ->
  rep (mk_buffer (mk_head (n - 1) (n - 1) bs 1 0 0 LT_DEF_RECYCLE_POOL_SIZE ∅ 0 []) blocks) ∅ /\
  free_ok (mk_buffer (mk_head (n - 1) (n - 1) bs 1 0 0 LT_DEF_RECYCLE_POOL_SIZE ∅ 0 []) blocks).
Proof.
  intros Hn Hbs Hbl. set (t := mk_buffer _ _).
  assert (count_empty blocks (seqZ 1 (n - 2)) = n - 2) as Hc.
  { assert (Forall (fun q => 0 <= q < n) (seqZ 1 (n - 2))) as Hf.
    { apply Forall_forall. intros q Hq. apply elem_of_seqZ in Hq. lia. }
    assert (len (seqZ 1 (n - 2)) = n - 2) as Hl by (unfold len; rewrite length_seqZ; lia).
    rewrite <- Hl at 2. clear Hl. induction Hf as [|q l Hq Hl IH]; [done|]. cbn [count_empty].
    destruct (Hbl q Hq) as (b & -> & _ & H0). rewrite IH, (emp_empty b H0), len_cons. done. }
  split.
  - exists ∅. split; [|by intros h; rewrite !lookup_empty].
    split; [|by intros k l; rewrite lookup_empty|by intros i p; cbn; rewrite lookup_empty|].
    + split; cbn.
      * split; cbn; try done; try lia; unfold LT_DEF_RECYCLE_POOL_SIZE, LT_MAX_RECYCLE_POOL_SIZE; lia.
      * intros q Hq. destruct (Hbl q) as (b & Hb & Hok & _); [lia|]. eauto.
      * unfold positions; cbn. replace (n - 1 - 1) with (n - 2) by lia. lia.
    + intros k1 k2 l1 l2 q. by rewrite lookup_empty.
  - exists [], 0. split_and!; try done; [constructor|]. intros [[? _] _]. lia.
Qed.

(** ** Properties *)


(** C15: a string in the store reads back exactly, when the buffer has room for the whole blocks
    it occupies; with a smaller buffer (of at least one block) the read fails with -22. *)
Theorem get_data_reads (t : LtBuffer) (live : gmap Z bytes) (h : Z) (d buf : bytes) :
  rep t live -> live !! h = Some d ->
  BDL t <= len buf -> len buf < 2 ^ 31 - 2 ^ 16 ->
  if decide (BDL t * nblocks (BDL t) d <= len buf) then
    GetData (Some t) h (Some buf) (len buf) = Some (0, d ++ drop (length d) buf, len d)
  else exists buf', GetData (Some t) h (Some buf) (len buf) = Some (-22, buf', len buf).
Proof. apply GetData_rep. Qed.


(** [Init] over a buffer of zeroed blocks yields the empty store with an intact free list. *)
Theorem init_empty_store (buf : LtBuffer) (size n bs : Z) :
  3 <= n < 2 ^ 31 -> 9 <= bs < 8 + 2 ^ 16 -> EvalBufferSize n bs <= size ->
  (forall q, 0 <= q < n -> exists b, lb_blocks buf !! q = Some b /\ block_ok bs b /\ ddwLengthInBlock b = 0) ->
  exists t, Init new_LinkTable (Some buf) size n bs = (0, Some t) /\ rep t ∅ /\ free_ok t.
Proof.
  intros Hn Hbs Hsz Hbl. unfold Init. rewrite (proj2 (Z.ltb_ge _ _)) by lia.
  rewrite u64_small by lia. eexists. split; [done|]. by apply Init_rep.
Qed.

(** When the data needs more blocks than are counted free, [SetData] returns -100 and changes
    nothing. *)
Theorem set_data_no_space (t : LtBuffer) (pos : Z) (d : bytes) :
  table_ok t -> d <> [] -> len d < 2 ^ 31 - 2 ^ 16 ->
  nblocks (BDL t) d <= MAX_BLOCK_COUNT -> ddwFreeBlockCount (lb_head t) < nblocks (BDL t) d ->
  SetData (Some t) pos (Some d) (len d) = Some (-100, pos, Some t).
Proof.
  intros Ht Hd Hlen Hmax Hfree. unfold SetData. rewrite (proj2 (Z.ltb_ge _ 0)) by len_lia.
  rewrite block_count_spec by done. msimp. rewrite (proj2 (Z.ltb_ge _ _)) by lia.
  unfold GetEmptyBlock. pose proof (free_count_range t Ht). pose proof (ho_all _ (to_head _ Ht)).
  rewrite s32_small by lia. rewrite (proj2 (Z.ltb_lt (ddwFreeBlockCount _) _)) by lia.
  rewrite orb_true_r. done.
Qed.

(** [GetData_loop] on arbitrary blocks. *)
Lemma GetData_loop_total fuel : forall t p out room iBufLen,
  mem_ok t -> 0 <= p -> len out <= iBufLen <= len (out ++ room) -> iBufLen < 2 ^ 31 - 2 ^ 16 ->
  (p = 0 /\ (0 < fuel)%nat) \/ iBufLen - len out + 2 <= Z.of_nat fuel ->
  exists rc buf n, GetData_loop fuel t p (out ++ room) (len out) iBufLen = Some (rc, buf, n) /\
    len buf = len (out ++ room).
Proof.
  induction fuel as [|fuel IH]; intros t p out room iBufLen Hm Hp Hb Hmax Hf; [lia|].
  assert (1 <= BDL t < 2 ^ 16) as HBr by (destruct Hm; unfold BDL; lia).
  destruct (Z.eq_dec p 0) as [->|Hp0]; [cbn; eauto|]. destruct Hf as [?|Hf]; [lia|].
  destruct (Z.le_gt_cases (ddwAllBlockCount (lb_head t)) p) as [Ho|Hin].
  { cbn [GetData_loop]. rewrite (proj2 (Z.eqb_neq p 0)), (proj2 (Z.leb_le _ p)) by lia. eauto. }
  destruct (Z.le_gt_cases (len out + BDL t) iBufLen) as [Hfit|Hno].
  2: { cbn [GetData_loop]. unfold BLOCK_DATA_LEN.
       rewrite (proj2 (Z.eqb_neq p 0)), (proj2 (Z.leb_gt _ p)) by lia. fold (BDL t).
       rewrite u64_small, (s32_small (BDL t)), s32_small by len_lia.
       rewrite (proj2 (Z.ltb_lt _ _)) by lia. eauto. }
  destruct (mo_block t Hm p) as (b & Hbp & Hbok); [lia|].
  pose proof (block_bytes_len _ b Hbok) as [Hle _]. rewrite len_app in Hb.
  destruct (split_at room (len (block_bytes b))) as (old & room' & -> & Hold).
  { pose proof (len_nonneg (block_bytes b)). unfold BDL in *; lia. }
  rewrite (GetData_loop_step fuel t p b) by (done || lia).
  destruct (IH t (ddwNext b) (out ++ block_bytes b) room' iBufLen) as (rc & buf & n & -> & Hl).
  - done.
  - apply Hbok.
  - unfold BDL in *. len_lia.
  - done.
  - destruct (Z.eq_dec (ddwNext b) 0) as [E|E]; [left; len_lia|right].
    assert (len (block_bytes b) = BDL t) as Hfull.
    { unfold block_bytes. rewrite (proj2 (Z.eqb_neq _ _)) by done. apply Hbok. }
    len_lia.
  - do 3 eexists. split; [done|]. len_lia.
Qed.

(** Reading is memory-safe and terminates whatever the blocks hold: with arbitrary links,
    lengths and contents (cycles included), [GetData] from any position neither leaves the
    blocks nor the buffer, and returns. *)
Theorem get_data_total (t : LtBuffer) (pos : Z) (buf : bytes) (iBufLen : Z) :
  mem_ok t -> 0 <= pos -> 0 <= iBufLen <= len buf -> iBufLen < 2 ^ 31 - 2 ^ 16 ->
  exists rc buf' n, GetData (Some t) pos (Some buf) iBufLen = Some (rc, buf', n) /\
    len buf' = len buf.
Proof.
  intros Hm Hp Hb Hmax. unfold GetData. msimp. destruct (iBufLen <? _); [eauto|].
  destruct (GetData_loop_total (S (S (Z.to_nat iBufLen))) t pos [] buf iBufLen)
    as (rc & buf' & n & Hg & Hl); try done.
  - right. rewrite (@len_nil Z). lia.
  - rewrite (@len_nil Z), app_nil_l in Hg. eauto.
Qed.

(** The user data kept in the header reads back, cut to the size asked for. *)
Theorem header_data_roundtrip (t : LtBuffer) (d buf : bytes) (iSize : Z) :
  len d <= LT_MAX_USRDATA_LEN -> 0 < iSize <= len buf -> iSize < 2 ^ 31 ->
  exists t', SetHeaderData (Some t) (Some d) (len d) = Some (len d, Some t') /\
    lb_blocks t' = lb_blocks t /\
    let k := Z.to_nat (Z.min (len d) iSize) in
    GetHeaderData (Some t') (Some buf) iSize = Some (Z.min (len d) iSize, take k d ++ drop k buf).
Proof.
  intros Hd Hs H31. unfold SetHeaderData. rewrite (proj2 (Z.ltb_ge _ 0)) by len_lia.
  cbn [orb]. rewrite bool_decide_eq_true_2 by eauto. rewrite andb_false_r.
  rewrite (proj2 (Z.ltb_ge LT_MAX_USRDATA_LEN _)) by lia. msimp.
  assert (exists u, (if 0 <? len d then src ← mem_read d 0 (len d);
      Some (src ++ drop (Z.to_nat (len d)) (sUserData (lb_head t)))
    else Some (sUserData (lb_head t))) = Some (d ++ u)) as [u ->].
  { destruct (Z.ltb_spec 0 (len d)).
    - rewrite mem_read_front by lia. msimp. unfold len. rewrite Nat2Z.id, firstn_all. eauto.
    - destruct d; [|len_lia]. by eexists. }
  msimp. eexists. split; [done|]. split; [done|]. cbv zeta. unfold GetHeaderData.
  rewrite (proj2 (Z.leb_gt iSize 0)) by lia. cbn [lb_head on_head dwUserDataLen hd_set_user sUserData].
  assert (LT_MAX_USRDATA_LEN = 524284) as HM by done.
  rewrite s32_small by len_lia.
  assert ((if len d <? iSize then len d else iSize) = Z.min (len d) iSize) as ->.
  { destruct (Z.ltb_spec (len d) iSize); lia. }
  rewrite mem_read_front by len_lia. msimp. rewrite <- !app_assoc, take_app_le by (unfold len; lia).
  rewrite mem_write_front; [|unfold len in *; rewrite length_take; lia]. msimp.
  by rewrite length_take, Nat.min_l by (unfold len; lia).
Qed.

(** ** Concrete tables *)

(** [n] zeroed blocks of 12 bytes (4 bytes of data each), initialised. *)
Definition sample (n : Z) : LtBuffer :=
  mk_buffer (mk_head (n - 1) (n - 1) 12 1 0 0 LT_DEF_RECYCLE_POOL_SIZE ∅ 0 []) (zero_blocks n 12).

Lemma sample_blocks q :
  0 <= q < 6 -> exists b, zero_blocks 6 12 !! q = Some b /\ block_ok 12 b /\ ddwLengthInBlock b = 0.
Proof.
  intros Hq. assert (q = 0 \/ q = 1 \/ q = 2 \/ q = 3 \/ q = 4 \/ q = 5) as Hc by lia.
  repeat destruct Hc as [->|Hc]; [..|subst q];
    (eexists; split; [vm_compute; reflexivity|]; split; [split; cbn; done|done]).
Qed.
Lemma sample_rep : rep (sample 6) ∅ /\ free_ok (sample 6).
Proof. apply Init_rep; [lia|lia|apply sample_blocks]. Qed.


(** The table with one string of five bytes. *)
Lemma sample_set :
  exists t', SetData (Some (sample 6)) 0 (Some ([1; 2; 3; 4; 5] ++ [])) (len [1; 2; 3; 4; 5])
      = Some (0, 2, Some t') /\ rep t' {[2 := [1; 2; 3; 4; 5]]} /\ BDL t' = 4.
Proof.
  destruct (SetData_rep (sample 6) ∅ 0 [1; 2; 3; 4; 5] []) as (rc & p & t' & Hs & Hc);
    try done; [apply sample_rep|by left|].
  destruct Hc as [(-> & _ & _ & Hr)|(_ & _ & _ & Hn)]; [|destruct Hn; apply sample_rep].
  assert (p = 2 /\ BDL t' = 4) as [-> ?] by (vm_compute in Hs; by simplify_eq).
  exists t'. by rewrite delete_empty in Hr.
Qed.

Lemma get_data_reads_witness :
  exists t', SetData (Some (sample 6)) 0 (Some ([1; 2; 3; 4; 5] ++ [])) (len [1; 2; 3; 4; 5])
      = Some (0, 2, Some t') /\
    GetData (Some t') 2 (Some (replicate 8 0)) 8
      = Some (0, [1; 2; 3; 4; 5] ++ [0; 0; 0], len [1; 2; 3; 4; 5]).
Proof.
  destruct sample_set as (t' & Hs & Hr & HB). exists t'. split; [exact Hs|].
  pose proof (get_data_reads t' {[2 := [1; 2; 3; 4; 5]]} 2 [1; 2; 3; 4; 5] (replicate 8 0) Hr) as H.
  rewrite HB in H. apply H; done.
Defined.


Lemma init_empty_store_witness :
  exists t, Init new_LinkTable
      (Some (mk_buffer (mk_head 0 0 0 0 0 0 0 ∅ 0 []) (zero_blocks 6 12))) 1048704 6 12
      = (0, Some t) /\ rep t ∅ /\ free_ok t.
Proof.
  apply (init_empty_store (mk_buffer (mk_head 0 0 0 0 0 0 0 ∅ 0 []) (zero_blocks 6 12)) 1048704 6 12).
  - lia.
  - lia.
  - vm_compute. discriminate.
  - intros q Hq. apply sample_blocks. exact Hq.
Defined.

Lemma set_data_no_space_witness :
  SetData (Some (sample 6)) 0 (Some (replicate 21 7)) (len (replicate 21 7))
    = Some (-100, 0, Some (sample 6)).
Proof.
  apply (set_data_no_space (sample 6) 0 (replicate 21 7)); try done.
  eapply rep_table. apply sample_rep.
Defined.

(** A table whose only block points to itself. *)
Definition cyclic_table : LtBuffer :=
  mk_buffer (mk_head 2 1 12 1 0 0 1 ∅ 0 []) {[1 := mk_block 1 4 [9; 9; 9; 9]]}.

Lemma get_data_total_witness :
  exists rc buf' n, GetData (Some cyclic_table) 1 (Some (replicate 9 0)) 9 = Some (rc, buf', n) /\
    len buf' = len (replicate 9 0).
Proof.
  apply (get_data_total cyclic_table 1 (replicate 9 0) 9); try done.
  split; [done|]. intros q Hq. assert (q = 1) as -> by (cbn in Hq; lia).
  eexists. split; [reflexivity|]. split; cbn; done.
Defined.

Lemma header_data_roundtrip_witness :
  exists t', SetHeaderData (Some (sample 6)) (Some [1; 2; 3]) 3 = Some (3, Some t') /\
    lb_blocks t' = lb_blocks (sample 6) /\
    GetHeaderData (Some t') (Some [0; 0; 0; 0; 0]) 2 = Some (2, [1; 2; 0; 0; 0]).
Proof. apply (header_data_roundtrip (sample 6) [1; 2; 3] [0; 0; 0; 0; 0] 2); done. Defined.

(** A string that needs exactly as many blocks as [ddwFreeBlockCount] announces is accepted,
    yet lost: the table has one block fewer than it counts, the scan comes round to its first
    block again, and what reads back is the last chunk only. *)
Theorem last_block_overwrites :
  ('(rc, pos, lt) ← SetData (Some (sample 4)) 0 (Some [1; 2; 3; 4; 5; 6; 7; 8; 9]) 9;
   '(rc', buf, n) ← GetData lt pos (Some (replicate 12 0)) 12;
   Some (rc, rc', take 4 buf, n)) = Some (0, 0, [9; 0; 0; 0], 1).
Proof. vm_compute. reflexivity. Qed.

(** Stores and erases two strings, so that the pool of size 1 releases the
    first one's block into the free list. *)
Definition with_free_block : option LinkTable :=
  '(_, t0) ← SetRecyclePoolSize (Some (sample 6)) 1;
  '(_, p1, t1) ← SetData t0 0 (Some [1]) 1;
  '(_, t2) ← EraseData t1 p1;
  '(_, p2, t3) ← SetData t2 0 (Some [2]) 1;
  '(_, t4) ← EraseData t3 p2;
  Some t4.

(** Storing an empty string succeeds and hands out the head of the free list without
    taking it: the next string stored gets the same handle. *)
Theorem empty_string_aliases :
  (t ← with_free_block;
   '(rc1, pos1, t1) ← SetData t 0 (Some []) 0;
   '(rc2, pos2, _) ← SetData t1 0 (Some [3; 4]) 2;
   Some (rc1, rc2, pos1, pos2)) = Some (0, 0, 1, 1).
Proof. vm_compute. reflexivity. Qed.
