(* ===== verification/MultiHashTable.v ===== *)
(** * The multi-row hash table (src/ht/multi_hash_table.h, src/ht/multi_hash_table.cc)

    Keys are hashed into rows of prime length; a key has one candidate slot in
    each row, and its data lives in the [LinkTable] under the handle the slot
    holds.  The memory is the header, the map from slot numbers to nodes and
    the link table; an access outside them is [None].

    Calls to [time] and [pthread_mutex_lock] are arguments of the operations
    (the record [env]); the hash function is a field, as in the class. *)

From S2P Require Import Prelude LinkTable.

(** ** Data *)

Definition HASH_MAX_ROW : Z := 100.
Definition HASH_MAX_KEY_LENGTH : Z := 10240.
Definition HASH_MAX_DATA_LENGTH : Z := 100 * 1024 * 1024.
Definition DEFAULT_MAX_KEY_LENGTH : Z := 8.
Definition DEFAULT_ROW_NUM : Z := 20.
Definition DEFAULT_INDEX_RATIO : Z := 50.
Definition DEFAULT_BLOCK_SIZE : Z := 128.

(** [dwAccessTime] and [dwAccessSeq] are one word; [ddwLtPos] has 48 bits and
    [cKeyLen] 8; [acKey] fills the node. *)
(** Models [MhtNode] (src/ht/multi_hash_table.h:46-55). *)
Record MhtNode := mk_node {
  dwHashKey : Z;
  dwAccessTime : Z;
  ddwLtPos : Z;
  cKeyLen : Z;
  acKey : bytes
}.

(** Models [MhtHeader] (src/ht/multi_hash_table.h:57-70). *)
Record MhtHeader := mk_mhead {
  ddwTotalShmSize : Z;
  ddwHashNodeNum : Z;
  ddwHashNodeSize : Z;
  ddwDataBlockSize : Z;
  ddwDataBlockNum : Z;
  ddwRowNum : Z;
  auRowsNodeNum : list Z;
  auRowsStartNode : list Z;
  ddwMaxUsedRow : Z;
  ddwEraseIterator : Z;
  cUseAccessSeq : Z
}.

Definition sizeof_MhtNode : Z := 16.
Definition sizeof_MhtHeader : Z := 6 * 8 + HASH_MAX_ROW * 8 * 2 + 16 + 1024 * 1024.

Definition h_set_max_row (n : Z) (h : MhtHeader) : MhtHeader :=
  mk_mhead (ddwTotalShmSize h) (ddwHashNodeNum h) (ddwHashNodeSize h) (ddwDataBlockSize h)
    (ddwDataBlockNum h) (ddwRowNum h) (auRowsNodeNum h) (auRowsStartNode h) n
    (ddwEraseIterator h) (cUseAccessSeq h).
Definition h_set_iterator (n : Z) (h : MhtHeader) : MhtHeader :=
  mk_mhead (ddwTotalShmSize h) (ddwHashNodeNum h) (ddwHashNodeSize h) (ddwDataBlockSize h)
    (ddwDataBlockNum h) (ddwRowNum h) (auRowsNodeNum h) (auRowsStartNode h) (ddwMaxUsedRow h)
    n (cUseAccessSeq h).

(** [header == NULL] is [None] ([ht] is set with it); [pShmAdpt] tells whether
    the table owns a shared memory adapter. *)
(** Models [MultiHashTable] (src/ht/multi_hash_table.h:98-107). *)
Record MultiHashTable := mk_mht {
  header : option MhtHeader;
  ht : gmap Z MhtNode;
  lt : LinkTable;
  pShmAdpt : bool;
  hashfunc : bytes -> Z
}.

(** What the calls into the system return. *)
Record env := mk_env { e_time : Z; e_lock : Z }.

Definition set_head (h : MhtHeader) (m : MultiHashTable) : MultiHashTable :=
  mk_mht (Some h) (ht m) (lt m) (pShmAdpt m) (hashfunc m).
Definition set_node (i : Z) (n : MhtNode) (m : MultiHashTable) : MultiHashTable :=
  mk_mht (header m) (<[i := n]> (ht m)) (lt m) (pShmAdpt m) (hashfunc m).
Definition set_lt (l : LinkTable) (m : MultiHashTable) : MultiHashTable :=
  mk_mht (header m) (ht m) l (pShmAdpt m) (hashfunc m).
Definition set_shm (b : bool) (m : MultiHashTable) : MultiHashTable :=
  mk_mht (header m) (ht m) (lt m) b (hashfunc m).

Definition n_set_pos (p : Z) (n : MhtNode) : MhtNode :=
  mk_node (dwHashKey n) (dwAccessTime n) (u48 p) (cKeyLen n) (acKey n).
Definition n_set_time (t : Z) (n : MhtNode) : MhtNode :=
  mk_node (dwHashKey n) (u32 t) (ddwLtPos n) (cKeyLen n) (acKey n).

(** [memset] of a node over [sizeof(MhtNode)] bytes: the key bytes follow the structure and
    keep their value. *)
Definition clear_node (n : MhtNode) : MhtNode := mk_node 0 0 0 0 (acKey n).

(** ** Hashing *)

(** The sum is kept in an [int32_t], wrapping around. *)
(** Models [DefaultHashFunc] (src/ht/multi_hash_table.cc:44-57). *)
Definition DefaultHashFunc (key : bytes) : Z :=
  u32 (foldl (fun h p => s32 (h * 131 + p)) 0 key).

(** [for (k = 2; k <= sqr; ++k) if (n % k == 0) break;] followed by the test
    [k == sqr + 1]: no divisor among the [fuel] numbers from [k]. *)
(** Models [MaxPrime] (src/ht/multi_hash_table.cc:68-70). *)
Fixpoint no_divisor (fuel : nat) (k n : Z) : bool :=
  match fuel with
  | O => true
  | S fuel' => if Z.eqb (n mod k) 0 then false else no_divisor fuel' (k + 1) n
  end.

(** [sqr = ceil(sqrt(n))]; for [n = 0] the loop variable stays 2 and is not
    [sqr + 1], for [n = 1] it is. *)
(** Models [MaxPrime] (src/ht/multi_hash_table.cc:66-71). *)
Definition prime_test (n : Z) : bool :=
  let sqr := Z.sqrt_up n in
  if sqr <? 1 then false else no_divisor (Z.to_nat (sqr - 1)) 2 n.

(** The [while (n--)] loop. *)
(** Models [MaxPrime] (src/ht/multi_hash_table.cc:64-72). *)
Fixpoint MaxPrime_nat (n : nat) : Z :=
  match n with
  | O => 0
  | S n' => if prime_test (Z.of_nat n') then Z.of_nat n' else MaxPrime_nat n'
  end.

(** Models [MaxPrime] (src/ht/multi_hash_table.cc:62-74). *)
Definition MaxPrime (n : Z) : Z := MaxPrime_nat (Z.to_nat n).

(** ** Layout *)

(** Models [MultiHashTable::EvaluateHashNodeSize] (src/ht/multi_hash_table.h:111-111). *)
Definition EvaluateHashNodeSize (ddwMaxKeyLen : Z) : Z := u64 (ddwMaxKeyLen + sizeof_MhtNode).

(** Models [MultiHashTable::EvaluateHashNodeNum] (src/ht/multi_hash_table.h:112-117). *)
Definition EvaluateHashNodeNum (ddwMemsize ddwHashNodeSize ddwHashMemRatio : Z) : option Z :=
  if Z.eqb (u64 (100 + ddwHashMemRatio)) 0 || Z.eqb ddwHashNodeSize 0 then None
  else
    let ddwDataMemSize := u64 (ddwMemsize * 100) / u64 (100 + ddwHashMemRatio) in
    let hashsz := u64 (ddwMemsize - ddwDataMemSize) in
    Some (hashsz / ddwHashNodeSize).

(** Models [MultiHashTable::NodeNumRatio2MemSizeRatio] (src/ht/multi_hash_table.h:118-121). *)
Definition NodeNumRatio2MemSizeRatio (ddwNodeSize ddwBlockSize ddwIndexRatio : Z) : option Z :=
  if Z.eqb ddwBlockSize 0 then None
  else Some (u64 (ddwIndexRatio * ddwNodeSize) / ddwBlockSize).

(** The rows from the fourth on: each takes the largest prime below the size
    of the one before. *)
(** Models [MultiHashTable::CalcNodeNumForEachRow] (src/ht/multi_hash_table.cc:118-125). *)
Fixpoint other_rows (n : nat) (j uNodeNum : Z) : list (Z * Z) :=
  match n with
  | O => []
  | S n' => let j' := MaxPrime j in (j', uNodeNum) :: other_rows n' j' (u64 (uNodeNum + j'))
  end.

(** The first three rows take a fixed share of what is left, the last row all
    of it; returns (node number, start) of every row in order. *)
(** Models [MultiHashTable::CalcNodeNumForEachRow] (src/ht/multi_hash_table.cc:95-126). *)
Definition calc_rows (ddwRowNum ddwMaxNodeNum : Z) : list (Z * Z) :=
  let left0 := ddwMaxNodeNum in
  let n0 := MaxPrime (if Z.eqb ddwRowNum 1 then left0 else u64 (left0 * 70) / 100) in
  let left1 := u64 (left0 - n0) in
  if Z.eqb ddwRowNum 1 then [(n0, 0)]
  else
    let n1 := MaxPrime (if Z.eqb ddwRowNum 2 then left1 else u64 (left1 * 10) / 100) in
    let left2 := u64 (left1 - n1) in
    if Z.eqb ddwRowNum 2 then [(n0, 0); (n1, n0)]
    else
      let n2 := MaxPrime (if Z.eqb ddwRowNum 3 then left2 else u64 (left2 * 5) / 100) in
      let left3 := u64 (left2 - n2) in
      let s2 := u64 (n0 + n1) in
      if Z.eqb ddwRowNum 3 then [(n0, 0); (n1, n0); (n2, s2)]
      else [(n0, 0); (n1, n0); (n2, s2)]
           ++ other_rows (Z.to_nat (ddwRowNum - 3)) (left3 / (ddwRowNum - 3)) (u64 (s2 + n2)).

(** The arrays have [HASH_MAX_ROW] entries, zeroed by the caller. *)
Definition row_array (l : list Z) : list Z :=
  l ++ replicate (Z.to_nat HASH_MAX_ROW - length l) 0.

(** Returns the total and the two arrays. *)
(** Models [MultiHashTable::CalcNodeNumForEachRow] (src/ht/multi_hash_table.cc:93-129). *)
Definition CalcNodeNumForEachRow (ddwRowNum ddwMaxNodeNum : Z) : Z * list Z * list Z :=
  let rows := calc_rows ddwRowNum ddwMaxNodeNum in
  (foldl (fun s r => u64 (s + r.1)) 0 rows, row_array rows.*1, row_array rows.*2).

(** ** Initialisation *)

(** A raw buffer: the nodes found when [num] nodes of [size] bytes are read
    after the header, and the link table found after them. *)
Record RawBuffer := mk_raw {
  rb_nodes : forall (num size : Z), gmap Z MhtNode;
  rb_lt : forall (offset count bs : Z), LtBuffer
}.

(** Models [MultiHashTable::InitFromBuffer] (src/ht/multi_hash_table.cc:131-170). *)
Definition InitFromBuffer (m : MultiHashTable) (pBuffer : option RawBuffer) (ddwBufferSize : Z)
    (wMaxKeyLen wRowNum dwIndexRatio ddwBlockSize : Z) (HashFunc : option (bytes -> Z))
    (bUseAccessSeq : bool) : option (Z * MultiHashTable) :=
  match pBuffer with
  | None => Some (-1, m)
  | Some raw =>
      if (ddwBufferSize <? 1024 * 1024 * 2) || (wMaxKeyLen <? 1) || (HASH_MAX_KEY_LENGTH <? wMaxKeyLen)
         || (wRowNum <? 1) || (HASH_MAX_ROW <? wRowNum)
         || (dwIndexRatio <? 1) || (1000 <? dwIndexRatio)
         || (ddwBlockSize <? 32) || (8192 <? ddwBlockSize)
      then Some (-1, m)
      else
        let ddwNodeSize := EvaluateHashNodeSize wMaxKeyLen in
        ddwMemRatio ← NodeNumRatio2MemSizeRatio ddwNodeSize ddwBlockSize dwIndexRatio;
        num ← EvaluateHashNodeNum ddwBufferSize ddwNodeSize ddwMemRatio;
        let '(total, nums, starts) := CalcNodeNumForEachRow wRowNum num in
        let nodesSize := u64 (total * ddwNodeSize) in
        let ddwDataSize := u64 (ddwBufferSize - sizeof_MhtHeader - nodesSize) in
        ddwBlockCount ← EvalBlockCount ddwDataSize ddwBlockSize;
        let h := mk_mhead ddwBufferSize total ddwNodeSize ddwBlockSize ddwBlockCount wRowNum
                   nums starts 0 0 (if bUseAccessSeq then 1 else 0) in
        let '(ret, l) := Init (lt m) (Some (rb_lt raw (sizeof_MhtHeader + nodesSize)
                                              ddwBlockCount ddwBlockSize))
                           ddwDataSize ddwBlockCount ddwBlockSize in
        let m1 := mk_mht (Some h) (rb_nodes raw total ddwNodeSize) l (pShmAdpt m) (hashfunc m) in
        if negb (Z.eqb ret 0) then Some (-2, m1)
        else Some (0, mk_mht (header m1) (ht m1) l (pShmAdpt m1) (default DefaultHashFunc HashFunc))
  end.

(** Shared memory as another process left it, and the adapter's two calls:
    [open] returns the pointer ([None] for [NULL]) and the size, [create] the
    pointer; their own [None] is failure. *)
Record MhtMem := mk_mem { mm_head : MhtHeader; mm_nodes : gmap Z MhtNode; mm_lt : LtBuffer }.
Record shm_calls := mk_shm {
  shm_open : Z -> option (option MhtMem * Z);
  shm_create : Z -> Z -> bool -> option (option RawBuffer)
}.

(** Models [MultiHashTable::Destroy] (src/ht/multi_hash_table.cc:83-90). *)
Definition Destroy (m : MultiHashTable) : MultiHashTable := set_shm false m.

(** Models [MultiHashTable::InitFromShm] (src/ht/multi_hash_table.cc:172-223). *)
Definition InitFromShm (sys : shm_calls) (m : MultiHashTable) (ddwShmKey : Z)
    (HashFunc : option (bytes -> Z)) : Z * MultiHashTable :=
  match shm_open sys ddwShmKey with
  | None => (-100, set_shm false m)
  | Some (None, _) => (-3, mk_mht None (ht m) (lt m) false (hashfunc m))
  | Some (Some mem, size) =>
      let h := mm_head mem in
      let m1 := mk_mht (Some h) (ht m) (lt m) true (hashfunc m) in
      if negb (Z.eqb (ddwTotalShmSize h) size) then (-4, set_shm false m1)
      else
        let ddwDataSize := EvalBufferSize (ddwDataBlockNum h) (ddwDataBlockSize h) in
        let '(ret, l) := InitExisting (lt m) (Some (mm_lt mem)) ddwDataSize
                           (ddwDataBlockNum h) (ddwDataBlockSize h) in
        let m2 := mk_mht (Some h) (mm_nodes mem) l true (hashfunc m) in
        if negb (Z.eqb ret 0) then (-5, set_shm false m2)
        else (0, mk_mht (Some h) (mm_nodes mem) l true (default DefaultHashFunc HashFunc))
  end.

(** Models [MhtInitParam] (src/ht/multi_hash_table.h:85-96). *)
Record MhtInitParam := mk_param {
  p_ShmKey : Z; p_BufferSize : Z; p_MaxKeyLen : Z; p_RowNum : Z; p_IndexRatio : Z;
  p_BlockSize : Z; p_UseHugePage : bool; p_UseAccessSeq : bool;
  p_HashFunc : option (bytes -> Z)
}.

(** Models [MultiHashTable::GetMaxKeyLen] (src/ht/multi_hash_table.cc:780-788). *)
Definition GetMaxKeyLen (m : MultiHashTable) : Z :=
  match header m with
  | None => -1
  | Some h => s32 (u64 (ddwHashNodeSize h - sizeof_MhtNode))
  end.

(** Models [MultiHashTable::GetDataBlockSize] (src/ht/multi_hash_table.cc:790-798). *)
Definition GetDataBlockSize (m : MultiHashTable) : Z :=
  match header m with None => -1 | Some h => s32 (ddwDataBlockSize h) end.

(** Models [MultiHashTable::GetHashRowNum] (src/ht/multi_hash_table.cc:800-808). *)
Definition GetHashRowNum (m : MultiHashTable) : Z :=
  match header m with None => -1 | Some h => s32 (ddwRowNum h) end.

(** Models [MultiHashTable::CreateFromShm] (src/ht/multi_hash_table.cc:225-294). *)
Definition CreateFromShm (sys : shm_calls) (m : MultiHashTable) (user_param : MhtInitParam)
    : option (Z * MultiHashTable) :=
  let key := p_ShmKey user_param in
  let size := p_BufferSize user_param in
  if Z.eqb key 0 || (size <? sizeof_MhtHeader + sizeof_LinkTableHead + 1024) then Some (-1, m)
  else
    let or_default v d := if Z.eqb v 0 then d else v in
    let wMaxKeyLen := or_default (p_MaxKeyLen user_param) DEFAULT_MAX_KEY_LENGTH in
    let wRowNum := or_default (p_RowNum user_param) DEFAULT_ROW_NUM in
    let dwIndexRatio := or_default (p_IndexRatio user_param) DEFAULT_INDEX_RATIO in
    let ddwBlockSize := or_default (p_BlockSize user_param) DEFAULT_BLOCK_SIZE in
    let '(iret, m1) := InitFromShm sys m key (p_HashFunc user_param) in
    if Z.eqb iret 0 then
      h ← header m1;
      if negb (Z.eqb size (ddwTotalShmSize h)) then Some (-2, m1)
      else if negb (Z.eqb wMaxKeyLen (GetMaxKeyLen m1)) then Some (-3, m1)
      else if negb (Z.eqb wRowNum (ddwRowNum h)) then Some (-4, m1)
      else if negb (Z.eqb ddwBlockSize (ddwDataBlockSize h)) then Some (-5, m1)
      else Some (0, m1)
    else if negb (Z.eqb iret (-100)) then Some (-6, m1)
    else
      match shm_create sys key size (p_UseHugePage user_param) with
      | None => Some (-2, set_shm false m1)
      | Some None => Some (-3, set_shm false m1)
      | Some (Some raw) =>
          InitFromBuffer (set_shm true m1) (Some raw) size wMaxKeyLen wRowNum dwIndexRatio
            ddwBlockSize (p_HashFunc user_param) (p_UseAccessSeq user_param)
      end.

(** ** Searching *)

(** Models [is_hnode_empty] (src/ht/multi_hash_table.cc:296-299). *)
Definition is_hnode_empty (n : MhtNode) : bool := Z.eqb (ddwLtPos n) 0.

(** [memcmp(a, b, n) == 0]; [None] when either block is shorter than [n]. *)
Definition mem_eq (a b : bytes) (n : Z) : option bool :=
  x ← mem_read a 0 n; y ← mem_read b 0 n; Some (bool_decide (x = y)).

(** Whether [hnode_cmp] returns 0; [cKeyLen] is an [uint8_t]. *)
(** Models [hnode_cmp] (src/ht/multi_hash_table.cc:301-307). *)
Definition hnode_eq (pKey : bytes) (cKeyLen' : Z) (pNode : MhtNode) : option bool :=
  if negb (Z.eqb (u8 cKeyLen') (cKeyLen pNode)) then Some false
  else mem_eq pKey (acKey pNode) (u8 cKeyLen').

(** [hash % auRowsNodeNum[i]]; [None] for an index past the array and for an
    empty row. *)
Definition row_num (h : MhtHeader) (i : Z) : option Z := auRowsNodeNum h !! Z.to_nat i.
Definition row_slot (h : MhtHeader) (dwHashKey i pRow : Z) : option Z :=
  n ← row_num h i;
  if Z.eqb n 0 then None else Some (pRow + dwHashKey mod n).

(** The search path: the slot found, the first empty slot with its row, and
    the slot with the smallest access time. *)
Record search_result := mk_search {
  s_node : option Z;
  s_empty : option (Z * Z);
  s_oldest : option Z
}.

(** Models [MultiHashTable::Search] (src/ht/multi_hash_table.cc:334-362). *)
Fixpoint search_rows (n : nat) (m : MultiHashTable) (h : MhtHeader) (pKey : bytes) (iKeyLen hash : Z)
    (i pRow : Z) (empty : option (Z * Z)) (oldest : option Z) : option search_result :=
  match n with
  | O =>
      match empty with
      | Some _ => Some (mk_search None empty oldest)
      | None =>
          if i <? ddwRowNum h then
            slot ← row_slot h hash i pRow;
            Some (mk_search None (Some (slot, i)) oldest)
          else Some (mk_search None None oldest)
      end
  | S n' =>
      slot ← row_slot h hash i pRow;
      num ← row_num h i;
      pNode ← ht m !! slot;
      let rest := search_rows n' m h pKey iKeyLen hash (i + 1) (pRow + num) in
      if is_hnode_empty pNode then
        rest (match empty with None => Some (slot, i) | _ => empty end) oldest
      else
        same ← (if Z.eqb hash (dwHashKey pNode) then hnode_eq pKey iKeyLen pNode else Some false);
        if (same : bool) then Some (mk_search (Some slot) empty oldest)
        else
          old ← (match oldest with
                 | None => Some slot
                 | Some o =>
                     pOld ← ht m !! o;
                     Some (if dwAccessTime pNode <? dwAccessTime pOld then slot else o)
                 end);
          rest empty (Some old)
  end.

(** Search with all the outputs; a row index out of range is first brought
    back. *)
(** Models [MultiHashTable::Search] (src/ht/multi_hash_table.cc:314-363). *)
Definition Search (m : MultiHashTable) (pKey : bytes) (iKeyLen hash : Z)
    : option (search_result * MultiHashTable) :=
  h ← header m;
  let h1 := if ddwRowNum h <=? ddwMaxUsedRow h
            then h_set_max_row (u64 (ddwRowNum h - 1)) h else h in
  r ← search_rows (Z.to_nat (ddwMaxUsedRow h1 + 1)) m h1 pKey iKeyLen hash 0 0 None None;
  Some (r, set_head h1 m).

(** ** Reading *)

(** The key as the hash function reads it: [iKeyLen] bytes. *)
Definition hash_of (m : MultiHashTable) (pKey : bytes) (iKeyLen : Z) : option Z :=
  k ← mem_read pKey 0 iKeyLen; Some (u32 (hashfunc m k)).

(** Returns the code, the buffer, [iDataLen], the last access time when the
    key is found, and the table. *)
(** Models [MultiHashTable::GetData] (src/ht/multi_hash_table.cc:365-419). *)
Definition GetData (e : env) (m : MultiHashTable) (pKey : option bytes) (iKeyLen : Z)
    (sDataBuf : option bytes) (iDataLen : Z) (bUpdateAccessTime : bool)
    : option (Z * bytes * Z * option Z * MultiHashTable) :=
  match pKey, sDataBuf with
  | Some key, Some buf =>
      if (iKeyLen <=? 0) || (iDataLen <? 1) then Some (-1, buf, iDataLen, None, m)
      else match header m with
      | None => Some (-2, buf, iDataLen, None, m)
      | Some _ =>
          hash ← hash_of m key iKeyLen;
          '(r, m1) ← Search m key iKeyLen hash;
          match s_node r with
          | None => Some (0, buf, 0, None, m1)
          | Some i =>
              h ← header m1;
              pDataNode ← ht m1 !! i;
              let last := Some (dwAccessTime pDataNode) in
              let node := if bUpdateAccessTime then
                            if Z.eqb (cUseAccessSeq h) 0 then n_set_time (e_time e) pDataNode
                            else n_set_time (dwAccessTime pDataNode + 1) pDataNode
                          else pDataNode in
              let m2 := set_node i node m1 in
              same ← hnode_eq key iKeyLen node;
              if negb (same : bool) then Some (-3, buf, iDataLen, last, m2)
              else
                '(ret, buf', n) ← LinkTable.GetData (lt m2) (ddwLtPos node) (Some buf) iDataLen;
                Some (if ret <? 0 then ret else 0, buf', n, last, m2)
          end
      end
  | _, _ => Some (-1, default [] sDataBuf, iDataLen, None, m)
  end.

(** Models [MultiHashTable::PeekData] (src/ht/multi_hash_table.h:209-209). *)
Definition PeekData (e : env) (m : MultiHashTable) (pKey : option bytes) (iKeyLen : Z)
    (sDataBuf : option bytes) (iDataLen : Z) :=
  GetData e m pKey iKeyLen sDataBuf iDataLen false.

(** ** Erasing *)

(** [memset] of the node at slot [i]. *)
Definition wipe (i : Z) (m : MultiHashTable) : option MultiHashTable :=
  n ← ht m !! i; Some (set_node i (clear_node n) m).

(** Models [MultiHashTable::EraseBadNode] (src/ht/multi_hash_table.cc:426-451). *)
Definition EraseBadNode (m : MultiHashTable) (pKey : option bytes) (iKeyLen : Z)
    : option (Z * MultiHashTable) :=
  match pKey with
  | None => Some (-1, m)
  | Some key =>
      if iKeyLen <=? 0 then Some (-1, m)
      else match header m with
      | None => Some (-2, m)
      | Some _ =>
          hash ← hash_of m key iKeyLen;
          '(r, m1) ← Search m key iKeyLen hash;
          match s_node r with
          | None => Some (0, m1)
          | Some i => m2 ← wipe i m1; Some (1, m2)
          end
      end
  end.

(** [lt.EraseData(pNode->ddwLtPos)] *)
Definition erase_pos (i : Z) (m : MultiHashTable) : option (Z * MultiHashTable) :=
  n ← ht m !! i;
  '(ret, l) ← LinkTable.EraseData (lt m) (ddwLtPos n);
  Some (ret, set_lt l m).

(** The walk of [SearchAndEraseOldestOne]: [turns] bounds it by one round of
    the table; returns the oldest slot and the iterator. *)
(** Models [MultiHashTable::SearchAndEraseOldestOne] (src/ht/multi_hash_table.cc:463-484). *)
Fixpoint oldest_loop (turns : nat) (m : MultiHashTable) (h : MhtHeader) (skip : Z)
    (it cnt oldesttime : Z) (oldest : option Z) : option (option Z * Z) :=
  match turns with
  | O => None
  | S turns' =>
      if 100 <=? cnt then Some (oldest, it)
      else
        n ← ht m !! it;
        let hit := negb (Z.eqb it skip) && negb (is_hnode_empty n) in
        let better := hit && (dwAccessTime n <? oldesttime) in
        let it' := if ddwHashNodeNum h <=? it + 1 then 0 else it + 1 in
        let oldest' := if better then Some it else oldest in
        if Z.eqb it' (ddwEraseIterator h) then Some (oldest', it')
        else oldest_loop turns' m h skip it' (if hit then cnt + 1 else cnt)
               (if better then dwAccessTime n else oldesttime) oldest'
  end.

(** Models [MultiHashTable::SearchAndEraseOldestOne] (src/ht/multi_hash_table.cc:453-499). *)
Definition SearchAndEraseOldestOne (m : MultiHashTable) (pDataNode : Z)
    : option (Z * MultiHashTable) :=
  h ← header m;
  let it := if ddwHashNodeNum h <=? ddwEraseIterator h then 0 else ddwEraseIterator h in
  '(oldest, it') ← oldest_loop (S (Z.to_nat (ddwHashNodeNum h))) m h pDataNode it 0 (2 ^ 32 - 1) None;
  let m1 := set_head (h_set_iterator it' h) m in
  match oldest with
  | None => Some (-7, m1)
  | Some o =>
      '(ret, m2) ← erase_pos o m1;
      if ret <? 0 then Some (-6, m2)
      else m3 ← wipe o m2; Some (0, m3)
  end.

(** Models [MultiHashTable::EraseData] (src/ht/multi_hash_table.cc:675-722). *)
Definition EraseData (e : env) (m : MultiHashTable) (pKey : option bytes) (iKeyLen : Z)
    : option (Z * MultiHashTable) :=
  match pKey with
  | None => Some (-1, m)
  | Some key =>
      if iKeyLen <=? 0 then Some (-1, m)
      else match header m with
      | None => Some (-2, m)
      | Some _ =>
          hash ← hash_of m key iKeyLen;
          if e_lock e <? 0 then Some (-3, m)
          else
            '(r, m1) ← Search m key iKeyLen hash;
            match s_node r with
            | None => Some (0, m1)
            | Some i =>
                '(ret, m2) ← erase_pos i m1;
                if negb (Z.eqb ret 0) then Some (-4, m2)
                else m3 ← wipe i m2; Some (1, m3)
            end
      end
  end.

(** ** Writing *)

(** The [do ... while(ret<0)] around [lt.SetData].  Returns the error code of
    an early exit, or the position to store.  After erasing [pOldestNode] the
    [continue] tests a [ret] that is no longer negative, so the loop ends with
    the position unchanged.  Each other turn erases one node, so the number of
    nodes bounds the loop. *)
(** Models [MultiHashTable::SetData] (src/ht/multi_hash_table.cc:595-639). *)
Fixpoint place_loop (fuel : nat) (m : MultiHashTable) (pDataNode : Z) (pOldestNode : option Z)
    (sDataBuf : bytes) (iDataLen : Z) (bRemoveOldIfNoSpace : bool)
    : option ((Z + Z) * MultiHashTable) :=
  match fuel with
  | O => None
  | S fuel' =>
      node ← ht m !! pDataNode;
      '(ret, pos, l) ← LinkTable.SetData (lt m) (ddwLtPos node) (Some sDataBuf) iDataLen;
      let m1 := set_lt l m in
      if ret <? 0 then
        if negb (Z.eqb ret (-100)) then Some (inl (-8), m1)
        else if negb bRemoveOldIfNoSpace then Some (inl (-9), m1)
        else match pOldestNode with
        | Some o =>
            '(ret2, m2) ← erase_pos o m1;
            if ret2 <? 0 then Some (inl (-10), m2)
            else m3 ← wipe o m2; Some (inr pos, m3)
        | None =>
            '(r, m2) ← SearchAndEraseOldestOne m1 pDataNode;
            if negb (Z.eqb r 0) then Some (inl (-11), m2)
            else place_loop fuel' m2 pDataNode None sDataBuf iDataLen bRemoveOldIfNoSpace
        end
      else Some (inr pos, m1)
  end.

(** Erasing the node the search found oldest: [None] for the code when it
    succeeds. *)
Definition drop_oldest (o : Z) (code : Z) (m : MultiHashTable)
    : option (option Z * MultiHashTable) :=
  '(ret, m1) ← erase_pos o m;
  if ret <? 0 then Some (Some code, m1)
  else m2 ← wipe o m1; Some (None, m2).

(** The two erase conditions before the data is stored; returns an error code,
    or the slot to write, the row of a new slot ([None] when the key is already
    there) and the oldest node still available. *)
(** Models [MultiHashTable::SetData] (src/ht/multi_hash_table.cc:533-593). *)
Definition choose_slot (m : MultiHashTable) (r : search_result) (bRemoveOldIfNoSpace : bool)
    : option ((Z + (Z * option Z * option Z)) * MultiHashTable) :=
  full ← (if bRemoveOldIfNoSpace && bool_decide (is_Some (s_oldest r))
          then usage ← GetUsage (lt m); Some (95 <? usage) else Some false);
  '(err, empty, oldest, m1) ←
    (match s_oldest r with
     | Some o =>
         if (full : bool) then
           '(err, m1) ← drop_oldest o (-4) m;
           Some (err, match s_empty r with None => Some (o, 0) | x => x end, None, m1)
         else Some (None, s_empty r, Some o, m)
     | None => Some (None, s_empty r, None, m)
     end);
  match err with
  | Some code => Some (inl code, m1)
  | None =>
      match s_node r, empty with
      | Some i, _ => Some (inr (i, None, oldest), m1)
      | None, Some (i, row) => Some (inr (i, Some row, oldest), m1)
      | None, None =>
          if negb bRemoveOldIfNoSpace then Some (inl (-5), m1)
          else match oldest with
          | None => Some (inl (-6), m1)
          | Some o =>
              '(err2, m2) ← drop_oldest o (-7) m1;
              match err2 with
              | Some code => Some (inl code, m2)
              | None => Some (inr (o, Some 0, None), m2)
              end
          end
      end
  end.

(** The assignments after the loop: the position, and for a new node the hash,
    the access time, the key and the highest row in use. *)
(** Models [MultiHashTable::SetData] (src/ht/multi_hash_table.cc:641-658). *)
Definition store_node (e : env) (m : MultiHashTable) (i : Z) (row : option Z) (pos hash : Z)
    (key : bytes) (iKeyLen : Z) : option MultiHashTable :=
  h ← header m;
  n ← ht m !! i;
  match row with
  | None => Some (set_node i (n_set_pos pos n) m)
  | Some r =>
      k ← mem_read key 0 iKeyLen;
      ac ← mem_write (acKey n) 0 k;
      let node := mk_node hash (if Z.eqb (cUseAccessSeq h) 0 then u32 (e_time e) else 0)
                    (u48 pos) (u8 iKeyLen) ac in
      let m1 := set_node i node m in
      Some (if ddwMaxUsedRow h <? r then set_head (h_set_max_row r h) m1 else m1)
  end.

(** Models [MultiHashTable::SetData] (src/ht/multi_hash_table.cc:501-667). *)
Definition SetData (e : env) (m : MultiHashTable) (pKey : option bytes) (iKeyLen : Z)
    (sDataBuf : option bytes) (iDataLen : Z) (bRemoveOldIfNoSpace : bool)
    : option (Z * MultiHashTable) :=
  match pKey, sDataBuf with
  | Some key, Some buf =>
      if (iKeyLen <=? 0) || (iDataLen <? 0) then Some (-1, m)
      else match header m with
      | None => Some (-2, m)
      | Some h =>
          if Z.eqb (ddwRowNum h) 0 then None
          else
            hash ← hash_of m key iKeyLen;
            if e_lock e <? 0 then Some (-3, m)
            else
              '(r, m1) ← Search m key iKeyLen hash;
              '(slot, m2) ← choose_slot m1 r bRemoveOldIfNoSpace;
              match slot with
              | inl code => Some (code, m2)
              | inr (i, row, oldest) =>
                  '(res, m3) ← place_loop (S (S (Z.to_nat (ddwHashNodeNum h)))) m2 i oldest buf
                                 iDataLen bRemoveOldIfNoSpace;
                  match res with
                  | inl code => Some (code, m3)
                  | inr pos => m4 ← store_node e m3 i row pos hash key iKeyLen; Some (0, m4)
                  end
              end
      end
  | _, _ => Some (-1, m)
  end.

(** Models [MultiHashTable::ForceSetData] (src/ht/multi_hash_table.h:211-211). *)
Definition ForceSetData (e : env) (m : MultiHashTable) (pKey : option bytes) (iKeyLen : Z)
    (sDataBuf : option bytes) (iDataLen : Z) :=
  SetData e m pKey iKeyLen sDataBuf iDataLen true.

(** ** Iteration *)

(** Models [MultiHashTable::End] (src/ht/multi_hash_table.h:215-215). *)
Definition End : Z := 2 ^ 64 - 1.

(** [for(it++; it<ddwMaxUsedNode; ++it)]: [n] is the distance to the end. *)
(** Models [MultiHashTable::Next] (src/ht/multi_hash_table.cc:738-743). *)
Fixpoint next_loop (n : nat) (m : MultiHashTable) (it : Z) : option Z :=
  match n with
  | O => Some End
  | S n' =>
      node ← ht m !! it;
      if negb (is_hnode_empty node) then Some it else next_loop n' m (it + 1)
  end.

(** Models [MultiHashTable::Next] (src/ht/multi_hash_table.cc:725-744). *)
Definition Next (m : MultiHashTable) (it : Z) : option Z :=
  match header m with
  | None => Some End
  | Some h =>
      maxNode ← (if ddwMaxUsedRow h <? ddwRowNum h then
                   s ← auRowsStartNode h !! Z.to_nat (ddwMaxUsedRow h);
                   n ← auRowsNodeNum h !! Z.to_nat (ddwMaxUsedRow h);
                   Some (u64 (s + n))
                 else Some (ddwHashNodeNum h));
      let maxNode := if ddwHashNodeNum h <? maxNode then ddwHashNodeNum h else maxNode in
      let it1 := u64 (it + 1) in
      next_loop (Z.to_nat (maxNode - it1)) m it1
  end.

(** Models [MultiHashTable::Begin] (src/ht/multi_hash_table.h:214-214). *)
Definition Begin (m : MultiHashTable) : option Z := Next m End.

(** What [Get] fills in: access time, key, data. *)
(** Models [MhtData] (src/ht/multi_hash_table.h:30-42). *)
Record MhtData := mk_mdata { md_time : Z; md_key : bytes; md_data : bytes; md_dlen : Z }.

(** [databuf] is the [data] array of the caller's structure. *)
(** Models [MultiHashTable::Get] (src/ht/multi_hash_table.cc:746-777). *)
Definition Get (m : MultiHashTable) (it : Z) (databuf : bytes)
    : option (Z * option MhtData * MultiHashTable) :=
  match header m with
  | None => Some (-1, None, m)
  | Some h =>
      node ← ht m !! it;
      let klen := if HASH_MAX_KEY_LENGTH <? cKeyLen node then HASH_MAX_KEY_LENGTH else cKeyLen node in
      key ← mem_read (acKey node) 0 klen;
      '(ret, buf, dlen) ← LinkTable.GetData (lt m) (ddwLtPos node) (Some databuf) HASH_MAX_DATA_LENGTH;
      let d := Some (mk_mdata (dwAccessTime node) key buf dlen) in
      if ret <? 0 then
        if Z.eqb ret (-21) || Z.eqb ret (-22) then
          m1 ← wipe it m; Some (-21, d, m1)
        else Some (-2, d, m)
      else Some (0, d, m)
  end.

(** ** Reports *)

(** Models [MultiHashTable::PrintInfo] (src/ht/multi_hash_table.cc:810-831). *)
Definition PrintInfo (m : MultiHashTable) : option (Z * list (string * Z)) :=
  match header m with
  | None => Some (-1, [])
  | Some h =>
      rows ← mapM (fun i => row_num h (Z.of_nat i)) (seq 0 (Z.to_nat (s32 (ddwRowNum h))));
      '(_, l) ← LinkTable.PrintInfo (lt m);
      Some (0, [("ddwTotalShmSize", ddwTotalShmSize h); ("ddwHashNodeNum", ddwHashNodeNum h);
                ("ddwHashNodeSize", ddwHashNodeSize h); ("ddwDataBlockSize", ddwDataBlockSize h);
                ("ddwDataBlockNum", ddwDataBlockNum h); ("ddwRowNum", ddwRowNum h)]%string
               ++ ((fun n => ("auRowsNodeNum"%string, n)) <$> rows)
               ++ [("ddwMaxUsedRow", ddwMaxUsedRow h); ("ddwEraseIterator", ddwEraseIterator h)]%string
               ++ l)
  end.

(** Models [MultiHashTable::ReportInfo] (src/ht/multi_hash_table.cc:833-847). *)
Definition ReportInfo (m : MultiHashTable) : option (Z * list (Z * Z)) :=
  match header m with
  | None => Some (-1, [])
  | Some h =>
      '(r, l) ← LinkTable.ReportInfo (lt m);
      Some (r, [(389153, ddwTotalShmSize h); (389154, ddwHashNodeNum h);
                (389155, ddwHashNodeSize h); (389156, ddwDataBlockSize h);
                (389157, ddwDataBlockNum h); (389158, ddwRowNum h); (389159, ddwMaxUsedRow h)] ++ l)
  end.

(** Models [MultiHashTable::GetLtUsage] (src/ht/multi_hash_table.cc:856-859). *)
Definition GetLtUsage (m : MultiHashTable) : option Z := GetUsage (lt m).

(** ** Primes *)

Lemma no_divisor_spec fuel : forall k n,
  no_divisor fuel k n = true <-> forall d, k <= d < k + Z.of_nat fuel -> n mod d <> 0.
Proof.
  induction fuel as [|fuel IH]; intros k n; cbn [no_divisor].
  - split; [intros _ d Hd; lia|done].
  - destruct (Z.eqb_spec (n mod k) 0) as [E|E].
    + split; [done|]. intros H. exfalso. apply (H k); [lia|done].
    + rewrite IH. split.
      * intros H d Hd. destruct (Z.eq_dec d k) as [->|]; [done|]. apply H. lia.
      * intros H d Hd. apply H. lia.
Qed.

Lemma prime_test_spec n :
  0 <= n -> prime_test n = true <-> n = 1 \/ (Znumtheory.prime n /\ n <> 2).
Proof.
  intros Hn. unfold prime_test. pose proof (Z.sqrt_up_spec n) as Hsq.
  destruct (Z.eq_dec n 0) as [->|Hn0].
  { cbn. split; [done|]. intros [?|[[? _] _]]; lia. }
  destruct (Z.eq_dec n 1) as [->|Hn1].
  { cbn. split; [by left|done]. }
  destruct (Z.eq_dec n 2) as [->|Hn2].
  { vm_compute. split; [done|]. intros [?|[_ ?]]; [discriminate|done]. }
  specialize (Hsq ltac:(lia)). set (s := Z.sqrt_up n) in *.
  assert (1 < s) as Hs1 by nia. assert (s < n) as Hsn by nia.
  rewrite (proj2 (Z.ltb_ge s 1)), no_divisor_spec by lia.
  replace (2 + Z.of_nat (Z.to_nat (s - 1))) with (s + 1) by lia. split.
  - intros H. right. split; [|done]. apply Znumtheory.prime_alt. split; [lia|].
    intros d Hd [q Hq].
    assert (1 < q) by nia. destruct (Z.le_gt_cases d s).
    + apply (H d); [lia|]. rewrite Hq. apply Z.mod_mul. lia.
    + apply (H q); [nia|]. rewrite Hq, Z.mul_comm. apply Z.mod_mul. lia.
  - intros [?|[Hp _]]; [lia|]. intros d Hd Hm.
    apply Znumtheory.prime_alt in Hp as [_ Hp]. apply (Hp d); [lia|].
    by apply Z.mod_divide; [lia|].
Qed.

Lemma MaxPrime_nat_spec (k : nat) :
  0 <= MaxPrime_nat k <= Z.max 0 (Z.of_nat k - 1) /\
  (MaxPrime_nat k = 0 \/ prime_test (MaxPrime_nat k) = true) /\
  forall q, MaxPrime_nat k < q < Z.of_nat k -> prime_test q = false.
Proof.
  induction k as [|k IH]; cbn [MaxPrime_nat].
  { split_and!; [lia|lia|by left|lia]. }
  destruct (prime_test (Z.of_nat k)) eqn:E; [split_and!; [lia|lia|by right|lia]|].
  destruct IH as (IH0 & IH1 & IH2). split_and!; [lia|lia|done|]. intros q Hq.
  destruct (Z.eq_dec q (Z.of_nat k)) as [->|]; [done|]. apply IH2. lia.
Qed.

Lemma MaxPrime_bounds n : 0 <= MaxPrime n <= Z.max 0 (n - 1).
Proof. unfold MaxPrime. pose proof (MaxPrime_nat_spec (Z.to_nat n)). lia. Qed.

(** ** Layout of the rows *)

(** Each row starts where the one before ends. *)
Fixpoint laid_out (s : Z) (rows : list (Z * Z)) : Prop :=
  match rows with
  | [] => True
  | (n, st) :: rows' => st = s /\ 0 <= n /\ laid_out (s + n) rows'
  end.

Definition rows_total (rows : list (Z * Z)) : Z := foldr (fun r s => r.1 + s) 0 rows.

Lemma other_rows_spec n : forall j s,
  0 <= j -> 0 <= s -> s + j * Z.of_nat n < 2 ^ 64 ->
  laid_out s (other_rows n j s) /\ length (other_rows n j s) = n /\
  0 <= rows_total (other_rows n j s) <= j * Z.of_nat n.
Proof.
  induction n as [|n IH]; intros j s Hj Hs Hmax; cbn [other_rows]; [cbn; lia|].
  pose proof (MaxPrime_bounds j) as Hp. set (p := MaxPrime j) in *.
  rewrite u64_small by nia. destruct (IH p (s + p)) as (H1 & H2 & H3); [lia|lia|nia|].
  cbn [laid_out length rows_total foldr fst]. fold (rows_total (other_rows n p (s + p))).
  split_and!; try done; try lia; nia.
Qed.

Lemma share n a : 0 <= n < 2 ^ 57 -> 0 <= a <= 100 -> 0 <= u64 (n * a) / 100 <= n.
Proof.
  intros Hn Ha. rewrite u64_small by nia. split; [apply Z.div_pos; nia|].
  apply Z.div_le_upper_bound; nia.
Qed.

Lemma calc_rows_spec rows max :
  1 <= rows <= HASH_MAX_ROW -> 0 <= max < 2 ^ 57 ->
  laid_out 0 (calc_rows rows max) /\ length (calc_rows rows max) = Z.to_nat rows /\
  0 <= rows_total (calc_rows rows max) <= max.
Proof.
  intros Hr Hm. unfold calc_rows.
  set (n0 := MaxPrime _). assert (0 <= n0 <= max) as H0.
  { unfold n0. pose proof (share max 70 Hm ltac:(lia)).
    pose proof (MaxPrime_bounds (if Z.eqb rows 1 then max else u64 (max * 70) / 100)).
    destruct (Z.eqb rows 1); lia. }
  rewrite (u64_small (max - n0)) by lia. destruct (Z.eqb_spec rows 1) as [->|Hr1]; [cbn; lia|].
  set (n1 := MaxPrime _). assert (0 <= n1 <= max - n0) as H1.
  { unfold n1. pose proof (share (max - n0) 10 ltac:(lia) ltac:(lia)).
    pose proof (MaxPrime_bounds (if Z.eqb rows 2 then max - n0 else u64 ((max - n0) * 10) / 100)).
    destruct (Z.eqb rows 2); lia. }
  rewrite (u64_small (max - n0 - n1)) by lia. destruct (Z.eqb_spec rows 2) as [->|Hr2]; [cbn; lia|].
  set (n2 := MaxPrime _). assert (0 <= n2 <= max - n0 - n1) as H2.
  { unfold n2. pose proof (share (max - n0 - n1) 5 ltac:(lia) ltac:(lia)).
    pose proof (MaxPrime_bounds (if Z.eqb rows 3 then max - n0 - n1 else u64 ((max - n0 - n1) * 5) / 100)).
    destruct (Z.eqb rows 3); lia. }
  rewrite (u64_small (max - n0 - n1 - n2)), (u64_small (n0 + n1)), (u64_small (n0 + n1 + n2)) by lia.
  destruct (Z.eqb_spec rows 3) as [->|Hr3]; [cbn; lia|]. set (left := max - n0 - n1 - n2).
  assert (left / (rows - 3) * (rows - 3) <= left) by (pose proof (Z.mul_div_le left (rows - 3)); lia).
  assert (0 <= left / (rows - 3)) by (apply Z.div_pos; lia).
  destruct (other_rows_spec (Z.to_nat (rows - 3)) (left / (rows - 3)) (n0 + n1 + n2)) as (L & Hlen & T);
    [lia|lia|rewrite Z2Nat.id by lia; lia|].
  rewrite Z2Nat.id in T by lia. cbn [app laid_out length rows_total foldr fst] in *.
  fold (rows_total (other_rows (Z.to_nat (rows - 3)) (left / (rows - 3)) (n0 + n1 + n2))).
  split_and!; try done; try lia.
Qed.

Lemma laid_out_start rows : forall s i n st,
  laid_out s rows -> rows !! i = Some (n, st) -> st = s + rows_total (take i rows).
Proof.
  induction rows as [|[n0 st0] rows IH]; intros s i n st Hl Hi; [done|].
  destruct Hl as (-> & Hn & Hl). destruct i as [|i]; cbn in *.
  - injection Hi as -> ->. lia.
  - apply (IH _ _ _ _ Hl) in Hi. fold (rows_total (take i rows)). lia.
Qed.

Lemma rows_sum rows : forall s acc,
  laid_out s rows -> 0 <= acc -> acc + rows_total rows < 2 ^ 64 ->
  foldl (fun s r => u64 (s + r.1)) acc rows = acc + rows_total rows.
Proof.
  induction rows as [|[n st] rows IH]; intros s acc Hl Ha Hmax; cbn in *; [lia|].
  destruct Hl as (-> & Hn & Hl). fold (rows_total rows) in *.
  assert (0 <= rows_total rows) as Hp.
  { clear - Hl. revert Hl. generalize (s + n). induction rows as [|[n' st'] rows IH]; intros k Hl; cbn in *; [lia|].
    destruct Hl as (_ & ? & Hl). apply IH in Hl. unfold rows_total in *. lia. }
  rewrite u64_small by lia. rewrite (IH _ _ Hl) by lia. lia.
Qed.

(** ** The abstract map

    A table stands for a finite map from keys to strings. *)

Definition row_start (h : MhtHeader) (i : Z) : Z :=
  foldr Z.add 0 (take (Z.to_nat i) (auRowsNodeNum h)).
Definition row_len (h : MhtHeader) (i : Z) : Z := default 0 (row_num h i).
Definition slot_of (h : MhtHeader) (hash i : Z) : Z := row_start h i + hash mod row_len h i.

Definition node_key (n : MhtNode) : bytes := take (Z.to_nat (cKeyLen n)) (acKey n).
Definition occupied (n : MhtNode) : Prop := ddwLtPos n <> 0.
Definition hash32 (m : MultiHashTable) (k : bytes) : Z := u32 (hashfunc m k).

Record head_inv (h : MhtHeader) : Prop := {
  hi_rows : 1 <= ddwRowNum h <= HASH_MAX_ROW;
  hi_pos : forall i, 0 <= i < ddwRowNum h -> exists n, row_num h i = Some n /\ 0 < n;
  hi_total : ddwHashNodeNum h = row_start h (ddwRowNum h);
  hi_max : 0 <= ddwMaxUsedRow h < ddwRowNum h;
  hi_key : sizeof_MhtNode < ddwHashNodeSize h
}.

Record node_inv (m : MultiHashTable) (h : MhtHeader) (live : gmap Z bytes) (i : Z) (n : MhtNode) : Prop := {
  ni_len : 0 < cKeyLen n < 256;
  ni_fit : cKeyLen n <= len (acKey n);
  ni_hash : dwHashKey n = hash32 m (node_key n);
  ni_row : exists r, 0 <= r <= ddwMaxUsedRow h /\ i = slot_of h (dwHashKey n) r;
  ni_pos : 0 < ddwLtPos n < 2 ^ 48;
  ni_live : is_Some (live !! ddwLtPos n)
}.

Record table_inv (m : MultiHashTable) (h : MhtHeader) (t : LtBuffer) (live : gmap Z bytes) : Prop := {
  ti_header : header m = Some h;
  ti_lt : lt m = Some t;
  ti_rep : rep t live;
  ti_head : head_inv h;
  ti_dom : forall i, 0 <= i < ddwHashNodeNum h ->
    exists n, ht m !! i = Some n /\ len (acKey n) = ddwHashNodeSize h - sizeof_MhtNode;
  ti_node : forall i n, ht m !! i = Some n -> occupied n -> node_inv m h live i n;
  ti_key : forall i j n n', ht m !! i = Some n -> ht m !! j = Some n' ->
    occupied n -> occupied n' -> node_key n = node_key n' -> i = j;
  ti_pos : forall i j n n', ht m !! i = Some n -> ht m !! j = Some n' ->
    occupied n -> occupied n' -> ddwLtPos n = ddwLtPos n' -> i = j
}.

(** [holds m live k d]: some occupied node has key [k] and its handle data [d]. *)
Definition holds (m : MultiHashTable) (live : gmap Z bytes) (k d : bytes) : Prop :=
  exists i n, ht m !! i = Some n /\ occupied n /\ node_key n = k /\ live !! ddwLtPos n = Some d.

Definition map_rep (m : MultiHashTable) (M : gmap (list Z) bytes) : Prop :=
  exists h t live, table_inv m h t live /\ forall k d, M !! k = Some d <-> holds m live k d.

(** ** Slots *)

Lemma row_start_step h i n :
  0 <= i -> row_num h i = Some n -> row_start h (i + 1) = row_start h i + n.
Proof.
  intros Hi Hn. unfold row_start, row_num in *. replace (Z.to_nat (i + 1)) with (S (Z.to_nat i)) by lia.
  rewrite (take_S_r _ _ _ Hn). generalize (take (Z.to_nat i) (auRowsNodeNum h)).
  intros l. induction l as [|x l IH]; cbn; lia.
Qed.

Lemma row_start_mono h i j :
  head_inv h -> 0 <= i <= j -> j <= ddwRowNum h -> row_start h i <= row_start h j.
Proof.
  intros Hh Hij Hj. replace j with (i + Z.of_nat (Z.to_nat (j - i))) in * by lia.
  revert Hj. generalize (Z.to_nat (j - i)). intros k. induction k as [|k IH]; intros Hk.
  - rewrite Z.add_0_r. lia.
  - destruct (hi_pos h Hh (i + Z.of_nat k)) as (n & Hn & Hp); [lia|].
    replace (i + Z.of_nat (S k)) with (i + Z.of_nat k + 1) by lia.
    rewrite (row_start_step h _ n) by (done || lia). specialize (IH ltac:(lia)). lia.
Qed.

Lemma slot_bounds h hash i :
  head_inv h -> 0 <= i < ddwRowNum h ->
  row_start h i <= slot_of h hash i < row_start h (i + 1) /\ 0 <= slot_of h hash i < ddwHashNodeNum h.
Proof.
  intros Hh Hi. destruct (hi_pos h Hh i Hi) as (n & Hn & Hp). unfold slot_of, row_len.
  rewrite Hn. cbn. rewrite (row_start_step h i n) by (done || lia).
  pose proof (Z.mod_pos_bound hash n Hp). rewrite (hi_total h Hh).
  pose proof (row_start_mono h 0 i Hh ltac:(lia) ltac:(lia)) as H0.
  change (row_start h 0) with 0 in H0.
  pose proof (row_start_mono h (i + 1) (ddwRowNum h) Hh ltac:(lia) ltac:(lia)) as H1.
  rewrite (row_start_step h i n) in H1 by (done || lia). lia.
Qed.

Lemma slot_row_inj h hash hash' i j :
  head_inv h -> 0 <= i < ddwRowNum h -> 0 <= j < ddwRowNum h ->
  slot_of h hash i = slot_of h hash' j -> i = j.
Proof.
  intros Hh Hi Hj E.
  destruct (slot_bounds h hash i Hh Hi) as [Bi _]. destruct (slot_bounds h hash' j Hh Hj) as [Bj _].
  destruct (Z.lt_trichotomy i j) as [H|[H|H]]; [|done|].
  - pose proof (row_start_mono h (i + 1) j Hh ltac:(lia) ltac:(lia)). lia.
  - pose proof (row_start_mono h (j + 1) i Hh ltac:(lia) ltac:(lia)). lia.
Qed.

Lemma row_slot_spec h hash i :
  head_inv h -> 0 <= i < ddwRowNum h -> row_slot h hash i (row_start h i) = Some (slot_of h hash i).
Proof.
  intros Hh Hi. destruct (hi_pos h Hh i Hi) as (n & Hn & Hp).
  unfold row_slot, slot_of, row_len. rewrite Hn. msimp. cbn.
  by rewrite (proj2 (Z.eqb_neq n 0)) by lia.
Qed.

Lemma hnode_eq_spec k n :
  0 < len k < 256 -> 0 < cKeyLen n < 256 -> cKeyLen n <= len (acKey n) ->
  hnode_eq k (len k) n = Some (bool_decide (node_key n = k)).
Proof.
  intros Hk Hn Hf. unfold hnode_eq. rewrite u8_small by lia.
  assert (len (node_key n) = cKeyLen n) as Hl.
  { unfold node_key, len in *. rewrite length_take. lia. }
  destruct (Z.eqb_spec (len k) (cKeyLen n)) as [E|E]; cbn [negb].
  - unfold mem_eq. rewrite mem_read_front by lia. msimp. rewrite mem_read_front by lia. msimp.
    rewrite firstn_all2 by (unfold len; lia). rewrite E. fold (node_key n).
    f_equal. apply bool_decide_ext. done.
  - f_equal. symmetry. apply bool_decide_eq_false. intros <-. lia.
Qed.

(** ** The search *)

Section search.
Context (m : MultiHashTable) (h : MhtHeader) (t : LtBuffer) (live : gmap Z bytes).
Hypothesis Hti : table_inv m h t live.
Context (k : bytes).
Hypothesis Hk : 0 < len k < 256.

(** The node at slot [s] does not hold the key. *)
Definition misses (s : Z) : Prop :=
  forall n, ht m !! s = Some n -> occupied n -> node_key n <> k.

Definition empty_ok (x : option (Z * Z)) : Prop :=
  match x with
  | None => True
  | Some (s, r) => 0 <= r < ddwRowNum h /\ s = slot_of h (hash32 m k) r /\
                   exists n, ht m !! s = Some n /\ ~ occupied n
  end.

Definition search_ok (r : search_result) : Prop :=
  match s_node r with
  | Some s => exists n, ht m !! s = Some n /\ occupied n /\ node_key n = k
  | None => (forall i, 0 <= i <= ddwMaxUsedRow h -> misses (slot_of h (hash32 m k) i)) /\
            empty_ok (s_empty r) /\
            (s_empty r = None -> ddwMaxUsedRow h = ddwRowNum h - 1 /\
               forall i, 0 <= i < ddwRowNum h -> exists n, ht m !! slot_of h (hash32 m k) i = Some n /\ occupied n)
  end.

(** The oldest node of the path holds another key; a path without a match has an empty slot or an
    oldest node. *)
Definition oldest_ok (x : option Z) : Prop :=
  match x with
  | None => True
  | Some o => exists n row, ht m !! o = Some n /\ occupied n /\ node_key n <> k /\
                0 <= row <= ddwMaxUsedRow h /\ o = slot_of h (hash32 m k) row
  end.

Definition path_ok (r : search_result) : Prop :=
  oldest_ok (s_oldest r) /\ (s_node r = None -> is_Some (s_empty r) \/ is_Some (s_oldest r)).

Lemma node_lookup i : 0 <= i < ddwHashNodeNum h -> exists n, ht m !! i = Some n.
Proof. intros Hi. destruct (ti_dom _ _ _ _ Hti i Hi) as (n & Hn & _). eauto. Qed.

Lemma beyond_max_empty i :
  i = ddwMaxUsedRow h + 1 -> i < ddwRowNum h -> empty_ok (Some (slot_of h (hash32 m k) i, i)).
Proof.
  intros -> Hi. pose proof (ti_head _ _ _ _ Hti) as Hh. pose proof (hi_max h Hh).
  split; [lia|]. split; [done|].
  destruct (slot_bounds h (hash32 m k) (ddwMaxUsedRow h + 1) Hh) as [_ Hb]; [lia|].
  destruct (node_lookup _ Hb) as [n Hn]. exists n. split; [done|]. intros Ho.
  destruct (ti_node _ _ _ _ Hti _ _ Hn Ho) as [_ _ _ (r & Hr & E) _ _].
  apply slot_row_inj in E; [lia|done|lia|lia].
Qed.

Lemma search_rows_spec (n : nat) : forall i empty oldest,
  0 <= i -> i + Z.of_nat n = ddwMaxUsedRow h + 1 -> empty_ok empty ->
  (forall j, 0 <= j < i -> misses (slot_of h (hash32 m k) j)) ->
  (empty = None -> forall j, 0 <= j < i ->
     exists n, ht m !! slot_of h (hash32 m k) j = Some n /\ occupied n) ->
  oldest_ok oldest -> (0 < i -> is_Some empty \/ is_Some oldest) ->
  exists r, search_rows n m h k (len k) (hash32 m k) i (row_start h i) empty oldest = Some r /\
    search_ok r /\ path_ok r.
Proof.
  pose proof (ti_head _ _ _ _ Hti) as Hh. pose proof (hi_max h Hh) as Hmax.
  induction n as [|n IH]; intros i empty oldest Hi Hn He Hmiss Hocc Hold Hone.
  - cbn [search_rows]. assert (i = ddwMaxUsedRow h + 1) as -> by lia.
    destruct empty as [x|].
    { eexists. split; [done|]. split; [|split; [done|eauto]]. split_and!; [|done|done]. intros j Hj. apply Hmiss. lia. }
    destruct (Z.ltb_spec (ddwMaxUsedRow h + 1) (ddwRowNum h)).
    + rewrite row_slot_spec by (done || lia). msimp. eexists. split; [done|]. split; [|split; [done|eauto]].
      split_and!; [|by apply beyond_max_empty|done]. intros j Hj. apply Hmiss. lia.
    + eexists. split; [done|]. split; [|split; [done|intros _; apply Hone; lia]]. split_and!; [|done|].
      * intros j Hj. apply Hmiss. lia.
      * intros _. split; [lia|]. intros j Hj. apply Hocc; [done|lia].
  - cbn [search_rows]. rewrite row_slot_spec by (done || lia). msimp.
    destruct (hi_pos h Hh i) as (num & Hnum & Hp); [lia|]. rewrite Hnum. msimp.
    destruct (slot_bounds h (hash32 m k) i Hh ltac:(lia)) as [_ Hb].
    set (s := slot_of h (hash32 m k) i) in *.
    destruct (node_lookup s Hb) as [nd Hnd]. rewrite Hnd. msimp.
    rewrite <- (row_start_step h i num) by done. unfold is_hnode_empty.
    destruct (Z.eqb_spec (ddwLtPos nd) 0) as [Hz|Hz].
    + apply IH; [lia|lia| | | |done|by destruct empty; eauto].
      * destruct empty; [done|]. split; [lia|]. split; [done|]. exists nd. split; [done|].
        intros Ho. by apply Ho.
      * intros j Hj. destruct (Z.eq_dec j i) as [->|]; [|apply Hmiss; lia].
        intros n' Hn' Ho. fold s in Hn'. simplify_eq. by destruct Ho.
      * by destruct empty.
    + pose proof (ti_node _ _ _ _ Hti _ _ Hnd Hz) as [Hl Hf Hhash _ _ _].
      assert ((if Z.eqb (hash32 m k) (dwHashKey nd) then hnode_eq k (len k) nd else Some false)
        = Some (bool_decide (node_key nd = k))) as ->.
      { destruct (Z.eqb_spec (hash32 m k) (dwHashKey nd)) as [E|E]; [by apply hnode_eq_spec|].
        f_equal. symmetry. apply bool_decide_eq_false. intros <-. by apply E. }
      msimp. case_bool_decide as Hkey.
      { eexists. split; [done|]. split; [by exists nd|]. split; [done|]. by intros. }
      assert (exists old, (match oldest with
          | None => Some s
          | Some o => pOld ← ht m !! o; Some (if dwAccessTime nd <? dwAccessTime pOld then s else o)
          end) = Some old /\ oldest_ok (Some old)) as (old & -> & Hob).
      { assert (oldest_ok (Some s)) as Hs by (exists nd, i; split_and!; [done..|lia|lia|done]).
        destruct oldest as [o|]; [|eauto]. pose proof Hold as (no & row & Hno & _). rewrite Hno.
        msimp. eexists. split; [done|]. destruct (_ <? _); auto. }
      msimp. apply IH; [lia|lia|done| | |done|eauto].
      * intros j Hj. destruct (Z.eq_dec j i) as [->|]; [|apply Hmiss; lia].
        intros n' Hn' Ho. fold s in Hn'. simplify_eq. done.
      * intros Hx j Hj. destruct (Z.eq_dec j i) as [->|]; [|apply Hocc; [done|lia]].
        exists nd. done.
Qed.

(** [Search] always answers, and leaves the table as it is. *)
Lemma Search_spec :
  exists r, Search m k (len k) (hash32 m k) = Some (r, m) /\ search_ok r /\ path_ok r.
Proof.
  pose proof (ti_head _ _ _ _ Hti) as Hh. pose proof (hi_max h Hh) as Hmax.
  unfold Search. rewrite (ti_header _ _ _ _ Hti). msimp.
  rewrite (proj2 (Z.leb_gt (ddwRowNum h) (ddwMaxUsedRow h))) by lia.
  destruct (search_rows_spec (Z.to_nat (ddwMaxUsedRow h + 1)) 0 None None) as (r & Hr & Hok);
    [lia|lia|done|intros; lia|intros; lia|done|lia|].
  change (row_start h 0) with 0 in Hr. rewrite Hr. msimp. exists r. split; [|done].
  do 2 f_equal. unfold set_head. rewrite <- (ti_header _ _ _ _ Hti). by destruct m.
Qed.

Lemma hash_of_key : hash_of m k (len k) = Some (hash32 m k).
Proof.
  unfold hash_of. rewrite mem_read_front by lia. msimp.
  rewrite firstn_all2 by (unfold len; lia). done.
Qed.

(** The search decides membership. *)
Lemma search_holds r d :
  search_ok r -> holds m live k d <->
  exists i n, s_node r = Some i /\ ht m !! i = Some n /\ occupied n /\ node_key n = k /\
    live !! ddwLtPos n = Some d.
Proof.
  intros Hr. split.
  - intros (i & n & Hn & Ho & Hkey & Hd). unfold search_ok in Hr.
    destruct (s_node r) as [s|].
    + destruct Hr as (n' & Hn' & Ho' & Hk'). assert (s = i) as ->.
      { eapply (ti_key _ _ _ _ Hti); eauto. congruence. }
      eauto 10.
    + destruct Hr as [Hm _]. exfalso.
      destruct (ti_node _ _ _ _ Hti _ _ Hn Ho) as [_ _ Hhash (row & Hrow & ->) _ _].
      rewrite Hhash, Hkey in Hn. by apply (Hm row Hrow n).
  - intros (i & n & _ & Hn & Ho & Hkey & Hd). exists i, n. done.
Qed.
End search.

(** ** Updating one node *)

(** The header keeps its layout; the highest row in use may grow. *)
Record grows (h h' : MhtHeader) : Prop := {
  g_rows : ddwRowNum h' = ddwRowNum h;
  g_nums : auRowsNodeNum h' = auRowsNodeNum h;
  g_total : ddwHashNodeNum h' = ddwHashNodeNum h;
  g_size : ddwHashNodeSize h' = ddwHashNodeSize h;
  g_max : ddwMaxUsedRow h <= ddwMaxUsedRow h' < ddwRowNum h
}.

Lemma grows_refl h : head_inv h -> grows h h.
Proof. intros []. split; try done; lia. Qed.

Lemma grows_slot h h' hash i : grows h h' -> slot_of h' hash i = slot_of h hash i.
Proof. intros []. unfold slot_of, row_len, row_num, row_start. congruence. Qed.

Lemma grows_inv h h' : head_inv h -> grows h h' -> head_inv h'.
Proof.
  intros [] []. split.
  - congruence.
  - intros i Hi. unfold row_num in *. rewrite g_nums0. rewrite g_rows0 in Hi. auto.
  - unfold row_start in *. congruence.
  - rewrite g_rows0. lia.
  - congruence.
Qed.

(** The other nodes that hold key [k] with data [d]. *)
Definition held_elsewhere (m : MultiHashTable) (live : gmap Z bytes) (i : Z) (k d : bytes) : Prop :=
  exists j n, j <> i /\ ht m !! j = Some n /\ occupied n /\ node_key n = k /\ live !! ddwLtPos n = Some d.

Lemma node_inv_grows m m' h h' live live' j n :
  node_inv m h live j n -> hashfunc m' = hashfunc m -> grows h h' ->
  live' !! ddwLtPos n = live !! ddwLtPos n -> node_inv m' h' live' j n.
Proof.
  intros [? ? Hh (r & Hr & Hj) ? ?] Hf Hg Hl. split; try done.
  - unfold hash32. by rewrite Hf.
  - exists r. rewrite (grows_slot h h') by done. destruct Hg. split; [lia|done].
  - by rewrite Hl.
Qed.

Lemma update_node m h t live i n n' h' t' live' shm :
  table_inv m h t live -> ht m !! i = Some n -> 0 <= i < ddwHashNodeNum h ->
  len (acKey n') = len (acKey n) -> rep t' live' -> grows h h' ->
  (forall j nj, ht m !! j = Some nj -> occupied nj -> j <> i ->
     live' !! ddwLtPos nj = live !! ddwLtPos nj) ->
  (occupied n' -> node_inv m h' live' i n' /\
     forall j nj, j <> i -> ht m !! j = Some nj -> occupied nj ->
       node_key nj <> node_key n' /\ ddwLtPos nj <> ddwLtPos n') ->
  let m' := mk_mht (Some h') (<[i := n']> (ht m)) (Some t') shm (hashfunc m) in
  table_inv m' h' t' live' /\
  forall k d, holds m' live' k d <->
    (occupied n' /\ node_key n' = k /\ live' !! ddwLtPos n' = Some d) \/ held_elsewhere m live i k d.
Proof.
  intros [Hhd Hlt Hrep Hh Hdom Hnode Hkey Hpos] Hi Hir Hlen Hrep' Hg Hlive Hnew m'.
  assert (forall j x, ht m' !! j = Some x -> (j = i /\ x = n') \/ (j <> i /\ ht m !! j = Some x)) as Hlk.
  { intros j x. unfold m'; cbn. rewrite lookup_insert. case_decide; naive_solver. }
  split.
  - split; try done.
    + by eapply grows_inv.
    + intros j Hj. rewrite (g_total _ _ Hg) in Hj. rewrite (g_size _ _ Hg). unfold m'; cbn.
      rewrite lookup_insert. case_decide; [|by apply Hdom].
      destruct (Hdom i Hir) as (x & Hx & Hl). simplify_eq. eexists. split; [done|]. lia.
    + intros j x Hj Ho. destruct (Hlk j x Hj) as [[-> ->]|[Hne Hj']].
      * destruct (Hnew Ho) as [Hni _]. eapply (node_inv_grows m); eauto using grows_refl, grows_inv.
      * eapply (node_inv_grows m m' h h' live); eauto.
    + intros j j' x x' Hx Hx' Ho Ho' E.
      destruct (Hlk _ _ Hx) as [[-> ->]|[Hne Hj]], (Hlk _ _ Hx') as [[-> ->]|[Hne' Hj']]; [done| | |by eapply Hkey].
      * destruct (Hnew Ho) as [_ Hd]. by destruct (Hd _ _ Hne' Hj' Ho').
      * destruct (Hnew Ho') as [_ Hd]. by destruct (Hd _ _ Hne Hj Ho).
    + intros j j' x x' Hx Hx' Ho Ho' E.
      destruct (Hlk _ _ Hx) as [[-> ->]|[Hne Hj]], (Hlk _ _ Hx') as [[-> ->]|[Hne' Hj']]; [done| | |by eapply Hpos].
      * destruct (Hnew Ho) as [_ Hd]. by destruct (Hd _ _ Hne' Hj' Ho').
      * destruct (Hnew Ho') as [_ Hd]. by destruct (Hd _ _ Hne Hj Ho).
  - intros k d. split.
    + intros (j & x & Hj & Ho & Hk & Hd). destruct (Hlk _ _ Hj) as [[-> ->]|[Hne Hj']].
      * left. done.
      * right. exists j, x. rewrite <- (Hlive j x) by done. done.
    + intros [(Ho & Hk & Hd)|(j & x & Hne & Hj & Ho & Hk & Hd)].
      * exists i, n'. split; [|done]. unfold m'; cbn. by rewrite lookup_insert, decide_True.
      * exists j, x. split; [unfold m'; cbn; by rewrite lookup_insert_ne|].
        split_and!; try done. by rewrite (Hlive j x).
Qed.

(** ** Operations on the map *)

Definition block_data_len (m : MultiHashTable) : Z :=
  match lt m with Some t => BDL t | None => 0 end.

Lemma map_rep_find m M k :
  map_rep m M -> 0 < len k < 256 ->
  exists h t live r, table_inv m h t live /\ (forall k d, M !! k = Some d <-> holds m live k d) /\
    hash_of m k (len k) = Some (hash32 m k) /\
    Search m k (len k) (hash32 m k) = Some (r, m) /\ (search_ok m h k r /\ path_ok m h k r) /\
    match M !! k with
    | Some d => exists i n, s_node r = Some i /\ ht m !! i = Some n /\ occupied n /\ node_key n = k /\
                  live !! ddwLtPos n = Some d
    | None => s_node r = None
    end.
Proof.
  intros (h & t & live & Hti & HM) Hk.
  destruct (Search_spec m h t live Hti k Hk) as (r & Hs & Hok & Hpath).
  exists h, t, live, r. split_and!; try done; [by apply hash_of_key|].
  destruct (M !! k) as [d|] eqn:E.
  - apply HM in E. by apply (search_holds m h t live Hti k r d) in E.
  - destruct (s_node r) as [i|] eqn:Ei; [|done]. unfold search_ok in Hok. rewrite Ei in Hok.
    destruct Hok as (n & Hn & Ho & Hkey).
    destruct (ti_node _ _ _ _ Hti _ _ Hn Ho) as [_ _ _ _ _ [d Hd]].
    assert (M !! k = Some d) by (apply HM; exists i, n; done). congruence.
Qed.

Lemma node_in_range m h t live i n :
  table_inv m h t live -> ht m !! i = Some n -> occupied n -> 0 <= i < ddwHashNodeNum h.
Proof.
  intros Hti Hn Ho. destruct (ti_node _ _ _ _ Hti _ _ Hn Ho) as [_ _ _ (r & Hr & ->) _ _].
  pose proof (hi_max _ (ti_head _ _ _ _ Hti)). by apply slot_bounds; [apply Hti|lia].
Qed.

(** A new access time changes nothing in the map. *)
Lemma touch_rep m M h t live i n x :
  table_inv m h t live -> (forall k d, M !! k = Some d <-> holds m live k d) ->
  ht m !! i = Some n -> occupied n -> map_rep (set_node i (n_set_time x n) m) M.
Proof.
  intros Hti HM Hn Ho. pose proof (ti_node _ _ _ _ Hti _ _ Hn Ho) as Hni.
  destruct (update_node m h t live i n (n_set_time x n) h t live (pShmAdpt m)) as [Hti' Hh'];
    try done; [by eapply node_in_range|apply Hti|apply grows_refl, Hti| |].
  - intros _. split; [by destruct Hni|]. intros j nj Hne Hj Hoj. split; intros E.
    + apply Hne. by eapply (ti_key _ _ _ _ Hti).
    + apply Hne. by eapply (ti_pos _ _ _ _ Hti).
  - unfold set_node. rewrite (ti_header _ _ _ _ Hti), (ti_lt _ _ _ _ Hti).
    eexists h, t, live. split; [exact Hti'|]. intros k d. rewrite HM, Hh'. split.
    + intros (j & nj & Hj & Hoj & Hk & Hd). destruct (Z.eq_dec j i) as [->|].
      * left. simplify_eq. done.
      * right. exists j, nj. done.
    + intros [(_ & Hk & Hd)|(j & nj & _ & ?)]; [|by exists j, nj].
      exists i, n. done.
Qed.

Lemma GetData_map e m M k buf upd :
  map_rep m M -> 0 < len k < 256 -> block_data_len m <= len buf -> 1 <= len buf < 2 ^ 31 - 2 ^ 16 ->
  match M !! k with
  | None => GetData e m (Some k) (len k) (Some buf) (len buf) upd = Some (0, buf, 0, None, m)
  | Some d =>
      exists last m', map_rep m' M /\
        if decide (block_data_len m * nblocks (block_data_len m) d <= len buf) then
          GetData e m (Some k) (len k) (Some buf) (len buf) upd
            = Some (0, d ++ drop (length d) buf, len d, last, m')
        else exists buf', GetData e m (Some k) (len k) (Some buf) (len buf) upd
            = Some (-22, buf', len buf, last, m')
  end.
Proof.
  intros HM Hk Hroom Hbuf. destruct (map_rep_find m M k HM Hk) as (h & t & live & r & Hti & HMh & Hh & Hs & [Hok Hpath] & Hm).
  unfold GetData. rewrite (proj2 (Z.leb_gt (len k) 0)), (proj2 (Z.ltb_ge (len buf) 1)) by lia.
  cbn [orb]. rewrite (ti_header _ _ _ _ Hti), Hh. msimp. rewrite Hs. msimp.
  destruct (M !! k) as [d|]; [|by rewrite Hm].
  destruct Hm as (i & n & -> & Hn & Ho & Hkey & Hd). rewrite (ti_header _ _ _ _ Hti), Hn. msimp.
  set (nd := if upd then _ else n).
  assert (exists x, nd = n_set_time x n \/ nd = n) as [x Hx].
  { unfold nd. destruct upd; [destruct (Z.eqb _ 0)|exists 0]; eauto. }
  assert (ddwLtPos nd = ddwLtPos n /\ node_key nd = node_key n /\ cKeyLen nd = cKeyLen n /\ acKey nd = acKey n)
    as (Hpos & Hnk & Hcl & Hak) by (by destruct Hx as [-> | ->]).
  assert (map_rep (set_node i nd m) M) as HM'.
  { destruct Hx as [-> | ->]; [by eapply touch_rep|].
    unfold set_node. rewrite insert_id by done. by destruct m. }
  destruct (ti_node _ _ _ _ Hti _ _ Hn Ho) as [Hl Hf _ _ _ _].
  rewrite hnode_eq_spec by (rewrite ?Hcl, ?Hak; done). msimp.
  rewrite bool_decide_eq_true_2 by congruence. cbn [negb].
  unfold block_data_len in *. cbn [set_node lt]. rewrite (ti_lt _ _ _ _ Hti) in *. rewrite Hpos.
  pose proof (GetData_rep t live (ddwLtPos n) d buf (ti_rep _ _ _ _ Hti) Hd Hroom ltac:(lia)) as Hg.
  exists (Some (dwAccessTime n)), (set_node i nd m). split; [done|].
  destruct (decide _).
  - rewrite Hg. done.
  - destruct Hg as [buf' ->]. exists buf'. done.
Qed.

Lemma other_pos m h t live i j n nj :
  table_inv m h t live -> ht m !! i = Some n -> occupied n -> ht m !! j = Some nj -> occupied nj ->
  j <> i -> ddwLtPos nj <> ddwLtPos n.
Proof. intros Hti Hn Ho Hj Hoj Hne E. apply Hne. by eapply (ti_pos _ _ _ _ Hti). Qed.

(** Erasing the data of an occupied node and clearing it: its key leaves the map. *)
Lemma erase_slot_rep (m : MultiHashTable) (M : gmap (list Z) bytes) h t live i n :
  table_inv m h t live -> (forall k d, M !! k = Some d <-> holds m live k d) ->
  ht m !! i = Some n -> occupied n ->
  exists t' m', erase_pos i m = Some (0, set_lt (Some t') m) /\ wipe i (set_lt (Some t') m) = Some m' /\
    LinkTable.EraseData (lt m) (ddwLtPos n) = Some (0, Some t') /\
    m' = mk_mht (Some h) (<[i := clear_node n]> (ht m)) (Some t') (pShmAdpt m) (hashfunc m) /\
    table_inv m' h t' (delete (ddwLtPos n) live) /\
    (forall k d, delete (node_key n) M !! k = Some d <-> holds m' (delete (ddwLtPos n) live) k d).
Proof.
  intros Hti HMh Hn Ho. destruct (ti_node _ _ _ _ Hti _ _ Hn Ho) as [_ _ _ _ _ Hlive].
  unfold erase_pos. rewrite Hn. msimp. rewrite (ti_lt _ _ _ _ Hti).
  destruct (EraseData_rep t live (ddwLtPos n) (ti_rep _ _ _ _ Hti) Hlive) as (t' & E & Hrep). rewrite E.
  msimp. unfold wipe. cbn [set_lt ht]. rewrite Hn. msimp.
  do 2 eexists. split; [done|]. split; [done|]. split; [done|].
  unfold set_node, set_lt; cbn. rewrite (ti_header _ _ _ _ Hti). split; [done|].
  destruct (update_node m h t live i n (clear_node n) h t' (delete (ddwLtPos n) live) (pShmAdpt m))
    as [Hti' Hh']; try done; [by eapply node_in_range|apply grows_refl, Hti| |].
  - intros j nj Hj Hoj Hne. apply lookup_delete_ne. apply not_eq_sym. by eapply other_pos.
  - split; [exact Hti'|]. intros k' d'. rewrite Hh'.
    rewrite lookup_delete. case_decide as E'.
    + subst k'. split; [done|]. intros [[Hx _]|(j & nj & Hne & Hj & Hoj & Hkj & _)]; [by destruct Hx|].
      exfalso. apply Hne. eapply (ti_key _ _ _ _ Hti); eauto.
    + rewrite HMh. split.
      * intros (j & nj & Hj & Hoj & Hkj & Hdj). right. exists j, nj. split_and!; try done.
        intros ->. simplify_eq.
      * intros [[Hx _]|(j & nj & _ & ?)]; [by destruct Hx|]. exists j, nj. done.
Qed.

Lemma EraseData_map e m M k :
  map_rep m M -> 0 < len k < 256 -> 0 <= e_lock e ->
  exists m', EraseData e m (Some k) (len k)
      = Some (if decide (is_Some (M !! k)) then 1 else 0, m') /\ map_rep m' (delete k M).
Proof.
  intros HM Hk He. destruct (map_rep_find m M k HM Hk) as (h & t & live & r & Hti & HMh & Hh & Hs & [Hok Hpath] & Hm).
  unfold EraseData. rewrite (proj2 (Z.leb_gt (len k) 0)) by lia.
  rewrite (ti_header _ _ _ _ Hti), Hh. msimp. rewrite (proj2 (Z.ltb_ge (e_lock e) 0)) by lia.
  rewrite Hs. msimp. destruct (M !! k) as [d|] eqn:EM.
  2: { rewrite Hm, decide_False by (by intros []). exists m. split; [done|]. by rewrite delete_id. }
  destruct Hm as (i & n & -> & Hn & Ho & Hkey & Hd). rewrite decide_True by eauto.
  destruct (erase_slot_rep m M h t live i n Hti HMh Hn Ho) as (t' & m' & -> & Ew & _ & _ & Hti' & HM').
  msimp. cbn [Z.eqb negb]. rewrite Ew. msimp. exists m'. split; [done|]. rewrite <- Hkey. by exists h, t', (delete (ddwLtPos n) live).
Qed.

(** ** Insertion *)

Definition free_blocks (m : MultiHashTable) : Z :=
  match lt m with Some t => ddwFreeBlockCount (lb_head t) | None => 0 end.
Definition free_list_ok (m : MultiHashTable) : Prop :=
  match lt m with Some t => free_ok t | None => False end.
Definition max_key_len (m : MultiHashTable) : Z :=
  match header m with Some h => ddwHashNodeSize h - sizeof_MhtNode | None => 0 end.

Lemma set_lt_inv m h t t' live :
  table_inv m h t live -> rep t' live -> table_inv (set_lt (Some t') m) h t' live.
Proof. intros [] Hrep. split; try done. intros i n Hn Ho. destruct (ti_node0 i n Hn Ho). by split. Qed.

(** Storing under a slot: [pos] is the old handle (0 for an empty slot), the
    node [n'] written has the fresh handle [pos']. *)
Lemma store_rep m M h t live k d i n n' h' t' pos' :
  table_inv m h t live -> (forall k d, M !! k = Some d <-> holds m live k d) ->
  0 <= i < ddwHashNodeNum h -> ht m !! i = Some n ->
  (occupied n /\ node_key n = k \/ ~ occupied n /\ M !! k = None) ->
  rep t' (<[pos' := d]> (delete (ddwLtPos n) live)) -> live !! pos' = None -> grows h h' ->
  len (acKey n') = len (acKey n) -> node_key n' = k -> ddwLtPos n' = pos' -> 0 < pos' < 2 ^ 48 ->
  0 < cKeyLen n' < 256 -> cKeyLen n' <= len (acKey n') -> dwHashKey n' = hash32 m k ->
  (exists r, 0 <= r <= ddwMaxUsedRow h' /\ i = slot_of h' (hash32 m k) r) ->
  map_rep (mk_mht (Some h') (<[i := n']> (ht m)) (Some t') (pShmAdpt m) (hashfunc m)) (<[k := d]> M).
Proof.
  intros Hti HMh Hi Hn Hcase Hrep Hfresh Hg Hlen Hkey Hpos Hpr Hcl Hcf Hhash Hrow.
  set (live' := <[pos' := d]> (delete (ddwLtPos n) live)) in *.
  assert (forall j nj, ht m !! j = Some nj -> occupied nj -> j <> i ->
    ddwLtPos nj <> ddwLtPos n /\ ddwLtPos nj <> pos' /\ node_key nj <> k) as Hoth.
  { intros j nj Hj Hoj Hne. destruct (ti_node _ _ _ _ Hti _ _ Hj Hoj) as [_ _ _ _ _ [dj Hdj]].
    split_and!.
    - destruct Hcase as [[Ho _]|[Ho _]]; [by eapply other_pos|]. intros E. apply Ho. unfold occupied in *. congruence.
    - intros E. rewrite E in Hdj. congruence.
    - intros E. destruct Hcase as [[Ho Hkn]|[_ Hnone]].
      + apply Hne. eapply (ti_key _ _ _ _ Hti); eauto. congruence.
      + assert (M !! k = Some dj) by (apply HMh; exists j, nj; done). congruence. }
  destruct (update_node m h t live i n n' h' t' live' (pShmAdpt m)) as [Hti' Hh']; try done.
  - intros j nj Hj Hoj Hne. destruct (Hoth j nj Hj Hoj Hne) as (H1 & H2 & _).
    unfold live'. by rewrite lookup_insert_ne, lookup_delete_ne by congruence.
  - intros _. split.
    + split; try done; rewrite ?Hkey, ?Hpos, ?Hhash; try done.
      unfold live'. rewrite lookup_insert, decide_True by done. eauto.
    + intros j nj Hne Hj Hoj. destruct (Hoth j nj Hj Hoj Hne) as (_ & H2 & H3).
      rewrite Hkey, Hpos. done.
  - eexists h', t', live'. split; [exact Hti'|]. intros k' d'. rewrite Hh', Hkey, Hpos.
    assert (live' !! pos' = Some d) as -> by (unfold live'; by rewrite lookup_insert, decide_True).
    rewrite lookup_insert. case_decide as E.
    + subst k'. split; [intros [= ->]; left; split; [unfold occupied; rewrite Hpos; lia|done]|].
      intros [(_ & _ & ?)|(j & nj & Hne & Hj & Hoj & Hkj & _)]; [done|].
      by destruct (Hoth j nj Hj Hoj Hne) as (_ & _ & ?).
    + rewrite HMh. split.
      * intros (j & nj & Hj & Hoj & Hkj & Hdj). right. exists j, nj. split_and!; try done.
        intros ->. simplify_eq. destruct Hcase as [[_ ?]|[? _]]; [congruence|done].
      * intros [(_ & ? & _)|(j & nj & _ & ?)]; [done|]. exists j, nj. done.
Qed.

(** Without eviction the slot is the node of the key, or the first empty slot
    of its path. *)
Lemma choose_slot_plain m r :
  choose_slot m r false =
  Some (match s_node r, s_empty r with
        | Some i, _ => inr (i, None, s_oldest r)
        | None, Some (i, row) => inr (i, Some row, s_oldest r)
        | None, None => inl (-5)
        end, m).
Proof.
  unfold choose_slot. cbn [andb]. msimp.
  destruct (s_oldest r), (s_node r), (s_empty r) as [[]|]; done.
Qed.

(** One turn of the loop when the link table has room. *)
Lemma place_loop_room fuel m h t live i n oldest d rem :
  table_inv m h t live -> ht m !! i = Some n ->
  ddwLtPos n = 0 \/ is_Some (live !! ddwLtPos n) ->
  d <> [] -> len d < 2 ^ 31 - 2 ^ 16 -> nblocks (BDL t) d <= MAX_BLOCK_COUNT ->
  nblocks (BDL t) d < ddwFreeBlockCount (lb_head t) ->
  exists res t', place_loop (S fuel) m i oldest d (len d) rem = Some (res, set_lt (Some t') m) /\
    match res with
    | inr pos' => 0 < pos' < 2 ^ 31 /\ live !! pos' = None /\
        rep t' (<[pos' := d]> (delete (ddwLtPos n) live))
    | inl code => code = -8 /\ rep t' live /\ ~ free_ok t
    end.
Proof.
  intros Hti Hn Hpos Hd Hlen Hmax Hfree. cbn [place_loop]. rewrite Hn. msimp.
  rewrite (ti_lt _ _ _ _ Hti).
  destruct (SetData_rep t live (ddwLtPos n) d [] (ti_rep _ _ _ _ Hti) Hpos Hd Hlen Hmax Hfree)
    as (rc & pos' & t' & Hs & Hc).
  rewrite app_nil_r in Hs. rewrite Hs. msimp.
  destruct Hc as [(-> & Hp0 & Hfr & Hrep)|(-> & -> & Hrep & Hnf)]; cbn [Z.ltb Z.compare Z.eqb negb Pos.eqb].
  - exists (inr pos'), t'. split; [done|]. split; [|done].
    assert (in_range t' pos') as Hr.
    { apply (rep_handle t' _ pos' d Hrep). by rewrite lookup_insert, decide_True. }
    pose proof (ho_all _ (to_head _ (rep_table _ _ Hrep))). unfold in_range in Hr. lia.
  - exists (inl (-8)), t'. done.
Qed.

Lemma write_key (ac k : bytes) :
  0 < len k -> len k <= len ac ->
  mem_write ac 0 k = Some (k ++ drop (length k) ac) /\ len (k ++ drop (length k) ac) = len ac /\
  take (Z.to_nat (len k)) (k ++ drop (length k) ac) = k.
Proof.
  intros H0 Hk. rewrite mem_write_front by done. split_and!; [done| |].
  - rewrite len_app. unfold len in *. rewrite length_drop. lia.
  - unfold len. by rewrite Nat2Z.id, take_app_length.
Qed.

(** The assignments after the loop, for a key already present. *)
Lemma store_node_old e m M h t live k d i n t' pos' :
  table_inv m h t live -> (forall k d, M !! k = Some d <-> holds m live k d) ->
  ht m !! i = Some n -> occupied n -> node_key n = k ->
  0 < pos' < 2 ^ 31 -> live !! pos' = None -> rep t' (<[pos' := d]> (delete (ddwLtPos n) live)) ->
  exists m', store_node e (set_lt (Some t') m) i None pos' (hash32 m k) k (len k) = Some m' /\
    map_rep m' (<[k := d]> M).
Proof.
  intros Hti HMh Hn Ho Hkey Hpr Hfr Hrep.
  pose proof (ti_node _ _ _ _ Hti _ _ Hn Ho) as [Hcl Hcf Hhash Hrow Hp Hl].
  unfold store_node. cbn [set_lt header ht]. rewrite (ti_header _ _ _ _ Hti), Hn. msimp.
  eexists. split; [done|]. unfold set_node, set_lt; cbn. rewrite (ti_header _ _ _ _ Hti).
  eapply (store_rep m M h t live k d i n (n_set_pos pos' n) h t' pos'); eauto; cbn.
  - by eapply node_in_range.
  - by apply grows_refl, Hti.
  - apply u48_small. lia.
  - lia.
  - by rewrite Hhash, Hkey.
  - rewrite Hhash, Hkey in Hrow. done.
Qed.

(** The assignments after the loop, for a new key in an empty slot of row [r0]; the row passed is that
    one, or a row that does not raise the highest row in use. *)
Lemma store_node_new e m M h t live k d i n row r0 t' pos' :
  table_inv m h t live -> (forall k d, M !! k = Some d <-> holds m live k d) -> M !! k = None ->
  0 < len k < 256 -> len k <= ddwHashNodeSize h - sizeof_MhtNode ->
  ht m !! i = Some n -> ~ occupied n -> 0 <= row < ddwRowNum h -> 0 <= r0 < ddwRowNum h ->
  r0 = row \/ r0 <= ddwMaxUsedRow h -> i = slot_of h (hash32 m k) r0 ->
  0 < pos' < 2 ^ 31 -> live !! pos' = None -> rep t' (<[pos' := d]> (delete (ddwLtPos n) live)) ->
  exists m', store_node e (set_lt (Some t') m) i (Some row) pos' (hash32 m k) k (len k) = Some m' /\
    map_rep m' (<[k := d]> M).
Proof.
  intros Hti HMh HMk Hk Hkm Hn Hno Hrow Hr0 Hcase Hslot Hpr Hfr Hrep.
  pose proof (ti_head _ _ _ _ Hti) as Hhi. pose proof (hi_max h Hhi).
  destruct (slot_bounds h (hash32 m k) r0 Hhi Hr0) as [_ Hir]. rewrite <- Hslot in Hir.
  unfold store_node. cbn [set_lt header ht]. rewrite (ti_header _ _ _ _ Hti), Hn. msimp.
  destruct (ti_dom _ _ _ _ Hti i Hir) as (n0 & Hn0 & Hal). assert (n0 = n) as -> by congruence.
  destruct (write_key (acKey n) k) as (Hw & Hwl & Hwk); [lia|lia|].
  rewrite mem_read_front by lia. msimp.
  rewrite firstn_all2 by (unfold len; lia). rewrite Hw. msimp. eexists. split; [done|].
  set (h' := if ddwMaxUsedRow h <? row then h_set_max_row row h else h).
  set (n' := mk_node _ _ _ _ _).
  assert (grows h h') as Hg.
  { unfold h'. destruct (Z.ltb_spec (ddwMaxUsedRow h) row); [|by apply grows_refl].
    split; try done; cbn; lia. }
  replace (if ddwMaxUsedRow h <? row then _ else _) with
    (mk_mht (Some h') (<[i := n']> (ht m)) (Some t') (pShmAdpt m) (hashfunc m)).
  2: { unfold h', set_head, set_node, set_lt; cbn. rewrite (ti_header _ _ _ _ Hti).
       by destruct (ddwMaxUsedRow h <? row). }
  eapply (store_rep m M h t live k d i n n' h' t' pos'); eauto; cbn; rewrite ?u8_small by lia;
    try done; try lia.
  - unfold node_key; cbn. by rewrite u8_small by lia.
  - apply u48_small. lia.
  - exists r0. rewrite (grows_slot h h') by done. split; [|done].
    unfold h'. destruct (Z.ltb_spec (ddwMaxUsedRow h) row); cbn; lia.
Qed.

Lemma SetData_map e m M k d :
  map_rep m M -> 0 < len k < 256 -> len k <= max_key_len m -> d <> [] -> len d < 2 ^ 31 - 2 ^ 16 ->
  nblocks (block_data_len m) d <= MAX_BLOCK_COUNT -> nblocks (block_data_len m) d < free_blocks m ->
  0 <= e_lock e ->
  exists rc m', SetData e m (Some k) (len k) (Some d) (len d) false = Some (rc, m') /\
    ((rc = 0 /\ map_rep m' (<[k := d]> M)) \/
     (rc = -5 /\ M !! k = None /\ m' = m) \/
     (rc = -8 /\ map_rep m' M /\ ~ free_list_ok m)).
Proof.
  intros HM Hk Hkm Hd Hlen Hmax Hfree He.
  destruct (map_rep_find m M k HM Hk) as (h & t & live & r & Hti & HMh & Hh & Hs & [Hok Hpath] & Hm).
  pose proof (hi_rows h (ti_head _ _ _ _ Hti)).
  unfold block_data_len, free_blocks, free_list_ok, max_key_len in *.
  rewrite (ti_lt _ _ _ _ Hti) in *. rewrite (ti_header _ _ _ _ Hti) in Hkm.
  unfold SetData. rewrite (proj2 (Z.leb_gt (len k) 0)), (proj2 (Z.ltb_ge (len d) 0)) by len_lia.
  cbn [orb]. rewrite (ti_header _ _ _ _ Hti), (proj2 (Z.eqb_neq (ddwRowNum h) 0)), Hh by lia. msimp.
  rewrite (proj2 (Z.ltb_ge (e_lock e) 0)) by lia. rewrite Hs. msimp. rewrite choose_slot_plain. msimp.
  destruct (M !! k) as [d0|] eqn:EM.
  - destruct Hm as (i & n & -> & Hn & Ho & Hkey & Hd0). msimp.
    destruct (place_loop_room (S (Z.to_nat (ddwHashNodeNum h))) m h t live i n (s_oldest r) d false)
      as (res & t' & -> & Hres); eauto. msimp. destruct res as [code|pos'].
    + destruct Hres as (-> & Hrep & Hnf). do 2 eexists. split; [done|]. right. right.
      split; [done|]. split; [|done]. exists h, t', live. split; [by eapply set_lt_inv|done].
    + destruct Hres as (Hpr & Hfr & Hrep).
      destruct (store_node_old e m M h t live k d i n t' pos') as (m' & -> & HM'); eauto.
      msimp. eauto 10.
  - rewrite Hm. unfold search_ok in Hok. rewrite Hm in Hok. destruct Hok as (_ & Hemp & _).
    destruct (s_empty r) as [[i row]|]; [|do 2 eexists; split; [done|]; right; by left].
    destruct Hemp as (Hrow & Hslot & n & Hn & Hno).
    assert (ddwLtPos n = 0) as Hp0.
    { destruct (Z.eq_dec (ddwLtPos n) 0); [done|]. by destruct Hno. }
    destruct (place_loop_room (S (Z.to_nat (ddwHashNodeNum h))) m h t live i n (s_oldest r) d false)
      as (res & t' & -> & Hres); eauto. msimp. destruct res as [code|pos'].
    + destruct Hres as (-> & Hrep & Hnf). do 2 eexists. split; [done|]. right. right.
      split; [done|]. split; [|done]. exists h, t', live. split; [by eapply set_lt_inv|done].
    + destruct Hres as (Hpr & Hfr & Hrep).
      destruct (store_node_new e m M h t live k d i n row row t' pos') as (m' & -> & HM'); eauto.
      msimp. eauto 10.
Qed.

(** ** Concrete tables *)

Definition zero_nodes (num size : Z) : gmap Z MhtNode :=
  list_to_map ((fun i => (i, mk_node 0 0 0 0 (replicate (Z.to_nat (size - sizeof_MhtNode)) 0)))
               <$> seqZ 0 num).

Lemma zero_nodes_lookup num size i n :
  zero_nodes num size !! i = Some n <->
  0 <= i < num /\ n = mk_node 0 0 0 0 (replicate (Z.to_nat (size - sizeof_MhtNode)) 0).
Proof.
  unfold zero_nodes. set (z := mk_node _ _ _ _ _).
  rewrite <- elem_of_list_to_map.
  2: { replace (((fun i => (i, z)) <$> seqZ 0 num).*1) with (seqZ 0 num); [apply NoDup_seqZ|].
       induction (seqZ 0 num) as [|x l IH]; cbn; congruence. }
  rewrite list_elem_of_fmap. split.
  - intros (x & [= -> ->] & Hx). apply elem_of_seqZ in Hx. split; [lia|done].
  - intros [Hi ->]. exists i. split; [done|]. apply elem_of_seqZ. lia.
Qed.

(** A table with the given rows over an empty link table. *)
Lemma empty_map_rep h t nodes shm hf :
  head_inv h -> rep t ∅ ->
  (forall i, 0 <= i < ddwHashNodeNum h -> exists n, nodes !! i = Some n /\
     len (acKey n) = ddwHashNodeSize h - sizeof_MhtNode) ->
  (forall i n, nodes !! i = Some n -> ddwLtPos n = 0) ->
  map_rep (mk_mht (Some h) nodes (Some t) shm hf) ∅.
Proof.
  intros Hh Hrep Hdom Hz. exists h, t, ∅. split.
  - split; try done; cbn.
    + intros i n Hn Ho. destruct Ho. eauto.
    + intros i j n n' Hn _ Ho. destruct Ho. eauto.
    + intros i j n n' Hn _ Ho. destruct Ho. eauto.
  - intros k d. rewrite lookup_empty. split; [done|]. intros (i & n & Hn & Ho & _). destruct Ho. eauto.
Qed.

(** Rows of 3, 2 and 1 nodes with keys of up to [ks] bytes, over [l]. *)
Definition sample_head (ks : Z) : MhtHeader :=
  mk_mhead 0 6 (sizeof_MhtNode + ks) 12 6 3 (row_array [3; 2; 1]) (row_array [0; 3; 5]) 0 0 0.
Definition sample_mht (ks : Z) (l : LinkTable) : MultiHashTable :=
  mk_mht (Some (sample_head ks)) (zero_nodes 6 (sizeof_MhtNode + ks)) l false DefaultHashFunc.

Lemma sample_map_rep : map_rep (sample_mht 8 (Some (sample 6))) ∅.
Proof.
  apply empty_map_rep.
  - split; cbn; try lia; try done; unfold HASH_MAX_ROW; try lia.
    intros i Hi. assert (i = 0 \/ i = 1 \/ i = 2) as Hc by lia.
    destruct Hc as [-> | [-> | ->]]; eexists; (split; [reflexivity|lia]).
  - apply sample_rep.
  - intros i Hi. eexists. rewrite zero_nodes_lookup. split; [split; [exact Hi|done]|done].
  - intros i n Hn. apply zero_nodes_lookup in Hn as [_ ->]. done.
Qed.

Definition env0 : env := mk_env 1000 0.

(** ** Properties *)



(** C12: [GetData] implements lookup: an absent key gives length 0 and code 0; a present one gives
    its data when the buffer holds the whole blocks, and -22 when it does not.  The map is
    unchanged, the access time included in it or not. *)
Theorem mht_get_refines (e : env) (m : MultiHashTable) (M : gmap (list Z) bytes) (k buf : bytes) (upd : bool) :
  map_rep m M -> 0 < len k < 256 -> block_data_len m <= len buf -> 1 <= len buf < 2 ^ 31 - 2 ^ 16 ->
  match M !! k with
  | None => GetData e m (Some k) (len k) (Some buf) (len buf) upd = Some (0, buf, 0, None, m)
  | Some d =>
      exists last m', map_rep m' M /\
        if decide (block_data_len m * nblocks (block_data_len m) d <= len buf) then
          GetData e m (Some k) (len k) (Some buf) (len buf) upd
            = Some (0, d ++ drop (length d) buf, len d, last, m')
        else exists buf', GetData e m (Some k) (len k) (Some buf) (len buf) upd
            = Some (-22, buf', len buf, last, m')
  end.
Proof. apply GetData_map. Qed.

(** The sample table with one binding. *)
Lemma sample_bound :
  exists m', SetData env0 (sample_mht 8 (Some (sample 6))) (Some [65]) 1 (Some [1; 2; 3]) 3 false
      = Some (0, m') /\ map_rep m' {[ [65] := [1; 2; 3] ]} /\ block_data_len m' = 4.
Proof.
  destruct (SetData_map env0 (sample_mht 8 (Some (sample 6))) ∅ [65] [1; 2; 3])
    as (rc & m' & Hs & Hc); try done; [apply sample_map_rep|].
  assert ((fun p => (p.1, block_data_len p.2)) <$>
    SetData env0 (sample_mht 8 (Some (sample 6))) (Some [65]) (len [65]) (Some [1; 2; 3])
      (len [1; 2; 3]) false = Some (0, 4)) as Hv by (vm_compute; reflexivity).
  rewrite Hs in Hv.
  injection Hv as -> HB.
  destruct Hc as [[_ Hr]|[[? _]|[? _]]]; [|done|done]. exists m'. done.
Qed.

Lemma mht_get_refines_witness :
  exists m last m', SetData env0 (sample_mht 8 (Some (sample 6))) (Some [65]) 1 (Some [1; 2; 3]) 3 false
      = Some (0, m) /\ map_rep m' {[ [65] := [1; 2; 3] ]} /\
    GetData env0 m (Some [65]) 1 (Some (replicate 6 0)) 6 true
      = Some (0, [1; 2; 3; 0; 0; 0], 3, last, m').
Proof.
  destruct sample_bound as (m & Hs & Hr & HB).
  pose proof (mht_get_refines env0 m _ [65] (replicate 6 0) true Hr) as H. rewrite HB in H.
  destruct H as (last & m' & Hr' & Hg); try done. exists m, last, m'. done.
Defined.

(** C13: [EraseData] implements deletion, and tells by 1 or 0 whether the key was there. *)
Theorem mht_erase_refines (e : env) (m : MultiHashTable) (M : gmap (list Z) bytes) (k : bytes) :
  map_rep m M -> 0 < len k < 256 -> 0 <= e_lock e ->
  exists m', EraseData e m (Some k) (len k)
      = Some (if decide (is_Some (M !! k)) then 1 else 0, m') /\ map_rep m' (delete k M).
Proof. apply EraseData_map. Qed.

Lemma mht_erase_refines_witness :
  exists m m', SetData env0 (sample_mht 8 (Some (sample 6))) (Some [65]) 1 (Some [1; 2; 3]) 3 false
      = Some (0, m) /\
    EraseData env0 m (Some [65]) 1 = Some (1, m') /\ map_rep m' (delete [65] {[ [65] := [1; 2; 3] ]}).
Proof.
  destruct sample_bound as (m & Hs & Hr & _).
  destruct (mht_erase_refines env0 m _ [65] Hr) as (m' & He & Hr'); try done.
  exists m, m'. done.
Defined.

(** [MaxPrime n] is 0, 1 or a prime below [n], and no prime other than 2 lies between it and
    [n]; it is 0 only for [n <= 1], so a row of at least two nodes never gets length 0. *)
Theorem max_prime_correct (n : Z) :
  0 <= n ->
  let p := MaxPrime n in
  0 <= p <= Z.max 0 (n - 1) /\ (p = 0 \/ p = 1 \/ Znumtheory.prime p) /\
  (forall q, p < q < n -> ~ (Znumtheory.prime q /\ q <> 2)) /\ (p = 0 <-> n <= 1).
Proof.
  intros Hn p. unfold p, MaxPrime. destruct (MaxPrime_nat_spec (Z.to_nat n)) as (Hb & Hp & Hq).
  rewrite Z2Nat.id in * by done. split; [done|]. split_and!.
  - destruct Hp as [?|Hp]; [by left|]. apply prime_test_spec in Hp; [|lia]. tauto.
  - intros q Hr [Hpr H2]. assert (prime_test q = true) as Ht.
    { apply prime_test_spec; [lia|]. right. done. }
    rewrite Hq in Ht by lia. done.
  - split; [|lia]. intros H0. destruct (Z.le_gt_cases n 1); [done|].
    assert (prime_test 1 = false) as Ht by (apply Hq; lia). done.
Qed.

Lemma max_prime_correct_witness :
  let p := MaxPrime 14 in
  0 <= p <= Z.max 0 (14 - 1) /\ (p = 0 \/ p = 1 \/ Znumtheory.prime p) /\
  (forall q, p < q < 14 -> ~ (Znumtheory.prime q /\ q <> 2)) /\ (p = 0 <-> 14 <= 1).
Proof. apply (max_prime_correct 14). lia. Defined.

(** The rows are laid out one after the other without overlap: row [i] starts where the rows
    before it end, and together they take at most the nodes available. *)
Theorem rows_layout (rows max : Z) (i : nat) (n st : Z) :
  1 <= rows <= HASH_MAX_ROW -> 0 <= max < 2 ^ 57 ->
  calc_rows rows max !! i = Some (n, st) ->
  let '(total, nums, starts) := CalcNodeNumForEachRow rows max in
  nums !! i = Some n /\ starts !! i = Some st /\
  st = foldr Z.add 0 (take i nums) /\ 0 <= n /\ st + n <= total <= max.
Proof.
  intros Hr Hm Hi. destruct (calc_rows_spec rows max Hr Hm) as (Hl & Hlen & Ht).
  unfold CalcNodeNumForEachRow. cbv zeta. set (l := calc_rows rows max) in *.
  pose proof (lookup_lt_Some _ _ _ Hi) as Hlt.
  assert (rows_total (take i l) = foldr Z.add 0 (take i l.*1)) as Hsum.
  { clear. revert i. induction l as [|[a b] l IH]; intros [|i]; cbn; try done. f_equal. apply IH. }
  assert (forall s l, laid_out s l -> forall j a b, l !! j = Some (a, b) ->
    0 <= a /\ rows_total (take j l) + a <= rows_total l) as Hpos.
  { clear. intros s l. revert s. induction l as [|[a0 b0] l IH]; intros s Hl [|j] a b Hj; try done.
    - destruct Hl as (_ & ? & Hl). injection Hj as -> ->. cbn. split; [done|].
      destruct l as [|[a' b'] l]; [cbn; lia|]. destruct (IH _ Hl O a' b' eq_refl) as [? Hx]. cbn in *. lia.
    - destruct Hl as (_ & ? & Hl). cbn in *. destruct (IH _ Hl j a b Hj). unfold rows_total in *. lia. }
  rewrite (rows_sum l 0 0 Hl) by lia. rewrite Z.add_0_l.
  destruct (Hpos 0 l Hl i n st Hi) as [Hn0 Hle].
  apply (laid_out_start l 0 i n st Hl) in Hi as Hst. rewrite Z.add_0_l in Hst.
  unfold row_array. rewrite !lookup_app_l by (by rewrite length_fmap).
  rewrite !list_lookup_fmap, Hi. cbn. split_and!; try done; try lia.
  rewrite take_app_le by (rewrite length_fmap; lia). congruence.
Qed.

Lemma rows_layout_witness :
  let '(total, nums, starts) := CalcNodeNumForEachRow 4 100 in
  nums !! 3%nat = Some 31 /\ starts !! 3%nat = Some 68 /\
  68 = foldr Z.add 0 (take 3 nums) /\ 0 <= 31 /\ 68 + 31 <= total <= 100.
Proof. apply (rows_layout 4 100 3 31 68); vm_compute; intuition congruence. Defined.

(** When the data does not fit and the search path holds another key, the forced [SetData]
    erases that key, leaves its retry loop and returns 0 without having stored anything: both
    keys are then absent. *)
Theorem force_set_loses_data :
  ('(rc1, m1) ← SetData env0 (sample_mht 8 (Some (sample 6))) (Some [65]) 1 (Some [1]) 1 false;
   '(rc2, m2) ← ForceSetData env0 m1 (Some [68]) 1 (Some (replicate 20 7)) 20;
   '(r1, _, n1, _, _) ← GetData env0 m2 (Some [68]) 1 (Some (replicate 20 0)) 20 true;
   '(r2, _, n2, _, _) ← GetData env0 m2 (Some [65]) 1 (Some (replicate 20 0)) 20 true;
   Some (rc1, rc2, (r1, n1), (r2, n2))) = Some (0, 0, (0, 0), (0, 0)).
Proof. vm_compute. reflexivity. Qed.

(** A node keeps the key length modulo 256, so keys of more than 255 bytes with the same hash
    can be taken for one another: the data stored under 256 zero bytes is returned for 512. *)
Theorem long_keys_confused :
  ('(rc, m) ← SetData env0 (sample_mht 512 (Some (sample 6))) (Some (replicate 256 0)) 256 (Some [1]) 1 false;
   '(r, buf, n, _, _) ← GetData env0 m (Some (replicate 512 0)) 512 (Some (replicate 4 0)) 4 true;
   Some (rc, r, buf, n)) = Some (0, 0, [1; 0; 0; 0], 1).
Proof. vm_compute. reflexivity. Qed.

