(* ===== verification/ForceSet.v ===== *)
(** * Insertion with eviction (src/ht/multi_hash_table.cc, src/ht/multi_hash_table.h)

    [MultiHashTable::SetData] with [bRemoveOldIfNoSpace], which is how the server stores an answer
    (storage.cc, [ForceSetData]).  The definitions are in MultiHashTable.v; here is what the operation
    does to the map a table stands for when the link table has room for the data: besides the binding
    asked for, at most one other key leaves the map. *)

From S2P Require Import Prelude LinkTable MultiHashTable.

(** ** Erasing keeps the room there is *)

Lemma FreeBlock_loop_count fuel : forall p t r t',
  FreeBlock_loop fuel p t = Some (r, t') ->
  0 <= ddwFreeBlockCount (lb_head t) -> ddwFreeBlockCount (lb_head t) + Z.of_nat fuel < 2 ^ 64 ->
  ddwFreeBlockCount (lb_head t) <= ddwFreeBlockCount (lb_head t') /\
  ddwBlockSize (lb_head t') = ddwBlockSize (lb_head t).
Proof.
  induction fuel as [|fuel IH]; intros p t r t' H H0 Hf; cbn [FreeBlock_loop] in H; [by simplify_eq|].
  destruct (Z.eqb p 0); [by simplify_eq|]. destruct (_ <=? p); [by simplify_eq|].
  destruct (LT_ELE_AT t p) as [b|]; [|done]. cbn [mbind option_bind] in H.
  apply IH in H; cbn in H |- *; [|apply Z.mod_pos_bound; lia|rewrite u64_small by lia; lia].
  rewrite u64_small in H by lia. destruct H. split; [lia|done].
Qed.

Lemma EraseData_count t pos r t' :
  table_ok t -> LinkTable.EraseData (Some t) pos = Some (r, Some t') ->
  ddwFreeBlockCount (lb_head t) <= ddwFreeBlockCount (lb_head t') /\ BDL t' = BDL t.
Proof.
  intros Ht H. pose proof (free_count_range t Ht) as Hc. pose proof (ho_all _ (to_head _ Ht)).
  unfold LinkTable.EraseData, RecycleBlock in H.
  destruct (pool_get t _) as [old|]; [|done]. cbn [mbind option_bind] in H.
  destruct (Z.eqb (dwRecyclePoolSize (lb_head t)) 0); [done|].
  destruct (Z.eqb old 0); cbn [negb mbind option_bind] in H; [by simplify_eq/=|].
  unfold FreeBlock in H. destruct (_ || _); cbn [mbind option_bind] in H; [by simplify_eq/=|].
  destruct (FreeBlock_loop _ _ _) as [[c t2]|] eqn:E; [|done]. cbn [mbind option_bind] in H. simplify_eq.
  unfold BDL. apply FreeBlock_loop_count in E; cbn in E |- *; [|lia|unfold MAX_BLOCK_COUNT; lia].
  destruct E as [E1 E2]. split; [done|]. by rewrite E2.
Qed.

(** ** The slot *)

(** [M'] is [M] without at most one key, which is not [k]. *)
Definition evicted (k : bytes) (M M' : gmap (list Z) bytes) : Prop :=
  M' = M \/ exists k', k' <> k /\ is_Some (M !! k') /\ M' = delete k' M.

Lemma evicted_lookup k M M' : evicted k M M' -> M' !! k = M !! k.
Proof. intros [-> |(k' & Hk & _ & ->)]; [done|]. by rewrite lookup_delete_ne. Qed.

(** The slot [choose_slot] hands out. *)
Definition slot_ok (m : MultiHashTable) (h : MhtHeader) (M : gmap (list Z) bytes) (k : bytes) (i : Z) (row : option Z) : Prop :=
  exists n, ht m !! i = Some n /\
  match row with
  | None => occupied n /\ node_key n = k
  | Some x => ~ occupied n /\ M !! k = None /\ 0 <= x < ddwRowNum h /\
      exists r0, 0 <= r0 < ddwRowNum h /\ (r0 = x \/ r0 <= ddwMaxUsedRow h) /\ i = slot_of h (hash32 m k) r0
  end.

Section evict.
Context (m : MultiHashTable) (M : gmap (list Z) bytes) (h : MhtHeader) (t : LtBuffer) (live : gmap Z bytes).
Context (Hti : table_inv m h t live) (HMh : forall k d, M !! k = Some d <-> holds m live k d).
Context (k : bytes) (r : search_result) (Hok : search_ok m h k r) (Hpath : path_ok m h k r).

(** The table after the choice. *)
Definition chosen (m1 : MultiHashTable) (M1 : gmap (list Z) bytes) (t1 : LtBuffer) (live1 : gmap Z bytes) : Prop :=
  table_inv m1 h t1 live1 /\ (forall k d, M1 !! k = Some d <-> holds m1 live1 k d) /\
  ddwFreeBlockCount (lb_head t) <= ddwFreeBlockCount (lb_head t1) /\ BDL t1 = BDL t /\
  hashfunc m1 = hashfunc m.

Lemma drop_oldest_rep o code :
  oldest_ok m h k (Some o) ->
  exists m1 t1 live1 n k', drop_oldest o code m = Some (None, m1) /\ chosen m1 (delete k' M) t1 live1 /\
    k' <> k /\ is_Some (M !! k') /\ ht m1 = <[o := clear_node n]> (ht m).
Proof.
  intros (n & row & Hn & Ho & Hk & _ & _).
  destruct (erase_slot_rep m M h t live o n Hti HMh Hn Ho) as (t' & m' & E & Ew & El & -> & Hti' & HM').
  unfold drop_oldest. rewrite E. msimp. cbn [Z.ltb Z.compare]. rewrite Ew. msimp.
  do 2 eexists. exists (delete (ddwLtPos n) live), n, (node_key n).
  split; [done|]. rewrite (ti_lt _ _ _ _ Hti) in El.
  destruct (EraseData_count t _ _ _ (rep_table _ _ (ti_rep _ _ _ _ Hti)) El) as [Hc Hb].
  split; [done|]. split; [done|]. split; [|done].
  destruct (ti_node _ _ _ _ Hti _ _ Hn Ho) as [_ _ _ _ _ [d Hd]]. exists d. apply HMh. by exists o, n.
Qed.

(** The slot of the oldest node, once cleared. *)
Lemma cleared_slot o n m1 M1 :
  oldest_ok m h k (Some o) -> M !! k = None -> M1 !! k = M !! k -> hashfunc m1 = hashfunc m ->
  ht m1 = <[o := clear_node n]> (ht m) -> slot_ok m1 h M1 k o (Some 0).
Proof.
  intros (n0 & row & _ & _ & _ & Hr & ->) HM HM1 Hf Ht. pose proof (ti_head _ _ _ _ Hti) as Hh.
  pose proof (hi_max _ Hh). pose proof (hi_rows _ Hh). exists (clear_node n). rewrite Ht, lookup_insert_eq.
  split; [done|]. split; [by intros []|]. split; [congruence|]. split; [lia|]. exists row.
  split; [lia|]. split; [by right; lia|]. unfold hash32. by rewrite Hf.
Qed.

(** The slot the search found, in the table after another node was cleared or not. *)
Lemma found_slot m1 M1 :
  M1 !! k = M !! k -> hashfunc m1 = hashfunc m ->
  (ht m1 = ht m \/ exists o n, oldest_ok m h k (Some o) /\ ht m1 = <[o := clear_node n]> (ht m)) ->
  match s_node r, s_empty r with
  | Some i, _ => slot_ok m1 h M1 k i None
  | None, Some (i, row) => M !! k = None -> slot_ok m1 h M1 k i (Some row)
  | None, None => True
  end.
Proof.
  intros HM1 Hf Ht. unfold search_ok in Hok. destruct (s_node r) as [i|].
  - destruct Hok as (n & Hn & Ho & Hk). exists n. split; [|done]. destruct Ht as [-> |(o & no & Hold & ->)]; [done|].
    rewrite lookup_insert_ne; [done|]. intros ->. destruct Hold as (n' & row & Hn' & _ & Hk' & _). simplify_eq.
  - destruct (s_empty r) as [[i row]|]; [|done]. intros HM. destruct Hok as (_ & (Hrow & -> & n & Hn & Ho) & _).
    exists n. split.
    + destruct Ht as [-> |(o & no & Hold & ->)]; [done|]. rewrite lookup_insert_ne; [done|]. intros ->.
      destruct Hold as (n' & row' & Hn' & Ho' & _). by simplify_eq.
    + split; [done|]. split; [congruence|]. split; [done|]. exists row. split; [done|]. split; [by left|].
      unfold hash32. by rewrite Hf.
Qed.

Lemma choose_slot_evict :
  (M !! k = None <-> s_node r = None) ->
  exists i row old m1 M1 t1 live1, choose_slot m r true = Some (inr (i, row, old), m1) /\
    chosen m1 M1 t1 live1 /\ evicted k M M1 /\ (M1 = M -> t1 = t) /\ slot_ok m1 h M1 k i row.
Proof.
  intros HMk. unfold choose_slot. cbn [andb]. destruct Hpath as [Hold Hne]. pose proof (found_slot m M eq_refl eq_refl ltac:(by left)) as Hsame.
  assert (Hhere : chosen m M t live) by (split_and!; try done; lia).
  assert (Hu : exists u, GetUsage (lt m) = Some u).
  { rewrite (ti_lt _ _ _ _ Hti). unfold GetUsage. rewrite (proj2 (Z.eqb_neq _ 0)); [eauto|].
    pose proof (ho_all _ (to_head _ (rep_table _ _ (ti_rep _ _ _ _ Hti)))). lia. }
  destruct Hu as [u Hu].
  destruct (s_oldest r) as [o|] eqn:Eo.
  2: { rewrite bool_decide_eq_false_2 by (by intros []). msimp.
       destruct (s_node r) as [i|]; [|destruct (s_empty r) as [[i row]|]].
       - do 7 eexists. split; [done|]. split; [done|]. split; [by left|done].
       - do 7 eexists. split; [done|]. split; [done|]. split; [by left|]. split; [done|]. by apply Hsame, HMk.
       - destruct (Hne eq_refl) as [[]|[]]; done. }
  rewrite bool_decide_eq_true_2 by eauto. rewrite Hu. msimp.
  assert (Hdrop : forall m1 t1 live1 k', chosen m1 (delete k' M) t1 live1 -> k' <> k -> is_Some (M !! k') ->
    evicted k M (delete k' M) /\ (delete k' M = M -> t1 = t)).
  { intros m1 t1 live1 k' _ Hk' [d Hd]. split; [right; eauto|]. intros E. rewrite <- E in Hd. by rewrite lookup_delete_eq in Hd. }
  destruct (95 <? u).
  - destruct (drop_oldest_rep o (-4) Hold) as (m1 & t1 & live1 & n & k' & -> & Hch & Hk' & Hs' & Ht). msimp.
    destruct (Hdrop _ _ _ k' Hch Hk' Hs') as [Hev Heq]. pose proof (evicted_lookup _ _ _ Hev) as Hlk.
    assert (hashfunc m1 = hashfunc m) as Hf by apply Hch.
    pose proof (found_slot m1 _ Hlk Hf ltac:(by right; exists o, n)) as Hfs.
    destruct (s_node r) as [i|].
    + destruct (s_empty r); (do 7 eexists; split; [done|]; split; [exact Hch|]; done).
    + destruct (s_empty r) as [[i row]|].
      * do 7 eexists; split; [done|]; split; [exact Hch|]. split; [done|]. split; [done|]. by apply Hfs, HMk.
      * do 7 eexists; split; [done|]; split; [exact Hch|]. split; [done|]. split; [done|].
        eapply cleared_slot; try done. by apply HMk.
  - msimp. destruct (s_node r) as [i|].
    + do 7 eexists. split; [done|]. split; [done|]. split; [by left|done].
    + destruct (s_empty r) as [[i row]|].
      * do 7 eexists. split; [done|]. split; [done|]. split; [by left|]. split; [done|]. by apply Hsame, HMk.
      * cbn [negb]. destruct (drop_oldest_rep o (-7) Hold) as (m1 & t1 & live1 & n & k' & -> & Hch & Hk' & Hs' & Ht). msimp.
        destruct (Hdrop _ _ _ k' Hch Hk' Hs') as [Hev Heq]. pose proof (evicted_lookup _ _ _ Hev) as Hlk.
        do 7 eexists; split; [done|]; split; [exact Hch|]. split; [done|]. split; [done|].
        eapply cleared_slot; try done; [by apply HMk|apply Hch].
Qed.

End evict.

(** ** The operation *)

Lemma ForceSet_run (e : env) (m : MultiHashTable) (M : gmap (list Z) bytes) (k d : bytes) :
  map_rep m M -> 0 < len k < 256 -> len k <= max_key_len m -> d <> [] -> len d < 2 ^ 31 - 2 ^ 16 ->
  nblocks (block_data_len m) d <= MAX_BLOCK_COUNT -> nblocks (block_data_len m) d < free_blocks m -> 0 <= e_lock e ->
  exists rc m' M', SetData e m (Some k) (len k) (Some d) (len d) true = Some (rc, m') /\ evicted k M M' /\
    ((rc = 0 /\ map_rep m' (<[k := d]> M')) \/
     (rc = -8 /\ map_rep m' M' /\ (M' = M -> ~ free_list_ok m))).
Proof.
  intros HM Hk Hkm Hd Hlen Hmax Hfree He.
  destruct (map_rep_find m M k HM Hk) as (h & t & live & r & Hti & HMh & Hh & Hs & [Hok Hpath] & Hm).
  pose proof (hi_rows h (ti_head _ _ _ _ Hti)).
  unfold block_data_len, free_blocks, free_list_ok, max_key_len in *.
  rewrite (ti_lt _ _ _ _ Hti) in *. rewrite (ti_header _ _ _ _ Hti) in Hkm.
  unfold SetData. rewrite (proj2 (Z.leb_gt (len k) 0)), (proj2 (Z.ltb_ge (len d) 0)) by len_lia.
  cbn [orb]. rewrite (ti_header _ _ _ _ Hti), (proj2 (Z.eqb_neq (ddwRowNum h) 0)), Hh by lia. msimp.
  rewrite (proj2 (Z.ltb_ge (e_lock e) 0)) by lia. rewrite Hs. msimp.
  destruct (choose_slot_evict m M h t live Hti HMh k r Hok Hpath) as (i & row & old & m1 & M1 & t1 & live1 & Ec & Hch & Hev & Heq & Hslot).
  { destruct (M !! k) as [d0|]; [|done]. destruct Hm as (i & n & -> & _). done. }
  destruct Hch as (Hti1 & HM1 & Hcnt & Hbdl & Hf). rewrite Ec. msimp.
  destruct Hslot as (n & Hn & Hcase).
  assert (Hpos : ddwLtPos n = 0 \/ is_Some (live1 !! ddwLtPos n)).
  { destruct (Z.eq_dec (ddwLtPos n) 0) as [|Ho]; [by left|right]. by destruct (ti_node _ _ _ _ Hti1 _ _ Hn Ho). }
  destruct (place_loop_room (S (Z.to_nat (ddwHashNodeNum h))) m1 h t1 live1 i n old d true) as (res & t' & -> & Hres);
    try done; [by rewrite Hbdl|rewrite Hbdl; lia|].
  msimp. assert (hash32 m k = hash32 m1 k) as -> by (unfold hash32; by rewrite Hf).
  destruct res as [code|pos'].
  - destruct Hres as (-> & Hrep & Hnf). do 3 eexists. split; [done|]. split; [exact Hev|]. right. split; [done|]. split.
    + exists h, t', live1. split; [by eapply set_lt_inv|done].
    + intros E. by rewrite <- (Heq E).
  - destruct Hres as (Hpr & Hfr & Hrep). destruct row as [x|].
    + destruct Hcase as (Ho & HMk & Hx & r0 & Hr0 & Hor & Hi).
      destruct (store_node_new e m1 M1 h t1 live1 k d i n x r0 t' pos') as (m' & -> & HM'); try done. msimp. eauto 10.
    + destruct Hcase as [Ho Hkey].
      destruct (store_node_old e m1 M1 h t1 live1 k d i n t' pos') as (m' & -> & HM'); try done. msimp. eauto 10.
Qed.

(** ** Properties *)


