(* ===== verification/ObjPool.v ===== *)
(** * Object pools (src/knv/obj_base.h, src/knv/obj_pool.h)

    Objects live in a heap from addresses to cells; address 0 is [NULL].  A
    list of objects is doubly linked, with the [prev] of its first element
    pointing to the last one; released objects form a singly linked free list.

    The first part is the code run by one thread at a time, where every
    compare-and-swap succeeds at once.  The second part is the free list under
    interleaving: one step per access to shared memory. *)

From S2P Require Import Prelude.

Section pool.

(** The object type: the value of a new object and [ReleaseObject]. *)
Context {V : Type} (new_val : V) (ReleaseObject : V -> V).

(** Models [ObjBase] (src/knv/obj_base.h:16-26). *)
Record obj := mk_obj { o_prev : Z; o_next : Z; o_val : V }.

Local Notation heap := (gmap Z obj).

(** [obj_freelist] is a field of the pool; the heap is shared. *)
(** Models [ObjPool] (src/knv/obj_pool.h:32-50). *)
Record pool := mk_pool { p_heap : heap; obj_freelist : Z }.

Definition set_o_next (n : Z) (o : obj) : obj := mk_obj (o_prev o) n (o_val o).
Definition set_o_prev (n : Z) (o : obj) : obj := mk_obj n (o_next o) (o_val o).

(** [p->field = v]; [None] when [p] is not an object. *)
Definition upd (p : Z) (f : obj -> obj) (h : heap) : option heap :=
  o ← h !! p; Some (<[p := f o]> h).

(** Taking an object off the free list, or [new]: [mem] is what [operator new]
    returns ([None] when it throws). *)
(** Models [ObjPool::New] (src/knv/obj_pool.h:60-87). *)
Definition take_obj (s : pool) (mem : option Z) : option (Z * pool) :=
  if Z.eqb (obj_freelist s) 0 then
    match mem with
    | None => Some (0, s)
    | Some p => Some (p, mk_pool (<[p := mk_obj 0 0 new_val]> (p_heap s)) 0)
    end
  else
    o ← p_heap s !! obj_freelist s;
    Some (obj_freelist s, mk_pool (p_heap s) (o_next o)).

(** Models [ObjPool::New] (src/knv/obj_pool.h:58-88). *)
Definition New (s : pool) (mem : option Z) : option (Z * pool) :=
  '(o, s1) ← take_obj s mem;
  if Z.eqb o 0 then Some (0, s1)
  else
    h ← upd o (fun c => set_o_prev o (set_o_next 0 c)) (p_heap s1);
    Some (o, mk_pool h (obj_freelist s1)).

(** [obj->next = obj_freelist; obj_freelist = obj] *)
(** Models [ObjPool::Delete] (src/knv/obj_pool.h:95-101). *)
Definition push_free (s : pool) (o : Z) : option pool :=
  h ← upd o (set_o_next (obj_freelist s)) (p_heap s);
  Some (mk_pool h o).

Definition release (o : Z) (s : pool) : option pool :=
  h ← upd o (fun c => mk_obj (o_prev c) (o_next c) (ReleaseObject (o_val c))) (p_heap s);
  Some (mk_pool h (obj_freelist s)).

(** Models [ObjPool::Delete] (src/knv/obj_pool.h:90-103). *)
Definition Delete (s : pool) (o : Z) : option (Z * pool) :=
  s1 ← release o s; s2 ← push_free s1 o; Some (0, s2).

(** Appends to the list; returns the object, [first] and the pool. *)
(** Models [ObjPool::New] (src/knv/obj_pool.h:105-147). *)
Definition New_list (s : pool) (first : Z) (mem : option Z) : option (Z * Z * pool) :=
  '(o, s1) ← take_obj s mem;
  if Z.eqb o 0 then Some (0, first, s1)
  else
    h1 ← upd o (set_o_next 0) (p_heap s1);
    if negb (Z.eqb first 0) then
      fo ← h1 !! first;
      let lst := o_prev fo in
      h2 ← upd lst (set_o_next o) h1;
      h3 ← upd o (set_o_prev lst) h2;
      h4 ← upd first (set_o_prev o) h3;
      Some (o, first, mk_pool h4 (obj_freelist s1))
    else
      h2 ← upd o (set_o_prev o) h1;
      Some (o, o, mk_pool h2 (obj_freelist s1)).

(** Models [ObjPool::NewFront] (src/knv/obj_pool.h:149-189). *)
Definition NewFront (s : pool) (first : Z) (mem : option Z) : option (Z * Z * pool) :=
  '(o, s1) ← take_obj s mem;
  if Z.eqb o 0 then Some (0, first, s1)
  else
    h1 ← upd o (set_o_next first) (p_heap s1);
    if negb (Z.eqb first 0) then
      fo ← h1 !! first;
      h2 ← upd o (set_o_prev (o_prev fo)) h1;
      h3 ← upd first (set_o_prev o) h2;
      Some (o, o, mk_pool h3 (obj_freelist s1))
    else
      h2 ← upd o (set_o_prev o) h1;
      Some (o, o, mk_pool h2 (obj_freelist s1)).

(** Taking [o] out of the list; returns [first] and the heap. *)
(** Models [ObjPool::Detach] (src/knv/obj_pool.h:228-243). *)
Definition unlink (h : heap) (first o : Z) : option (Z * heap) :=
  c ← h !! o;
  if Z.eqb o first then
    h1 ← (if negb (Z.eqb (o_next c) 0) then upd (o_next c) (set_o_prev (o_prev c)) h else Some h);
    Some (o_next c, h1)
  else
    let p := o_prev c in
    let n := o_next c in
    h1 ← upd p (set_o_next n) h;
    h2 ← (if negb (Z.eqb n 0) then upd n (set_o_prev p) h1 else upd first (set_o_prev p) h1);
    Some (first, h2).

(** Models [ObjPool::Delete] (src/knv/obj_pool.h:193-224). *)
Definition Delete_list (s : pool) (first o : Z) : option (Z * Z * pool) :=
  '(first', h) ← unlink (p_heap s) first o;
  s1 ← release o (mk_pool h (obj_freelist s));
  s2 ← push_free s1 o;
  Some (0, first', s2).

(** Models [ObjPool::Detach] (src/knv/obj_pool.h:226-247). *)
Definition Detach (s : pool) (first o : Z) : option (Z * Z * pool) :=
  '(first', h) ← unlink (p_heap s) first o;
  h1 ← upd o (fun c => mk_obj 0 0 (o_val c)) h;
  Some (0, first', mk_pool h1 (obj_freelist s)).

(** The whole list goes in front of the free list; a [NULL] list is
    dereferenced. *)
(** Models [ObjPool::AddToFreeList] (src/knv/obj_pool.h:249-260). *)
Definition AddToFreeList (s : pool) (o : Z) : option (Z * pool) :=
  c ← p_heap s !! o;
  h ← upd (o_prev c) (set_o_next (obj_freelist s)) (p_heap s);
  Some (0, mk_pool h o).

(** [while(o) { o->ReleaseObject(); o = o->next; }]: a list visits each object
    of the heap at most once, so the size of the heap bounds the loop. *)
(** Models [ObjPool::DeleteAll] (src/knv/obj_pool.h:264-269). *)
Fixpoint release_all (fuel : nat) (s : pool) (o : Z) : option pool :=
  match fuel with
  | O => None
  | S fuel' =>
      if Z.eqb o 0 then Some s
      else
        c ← p_heap s !! o;
        s1 ← release o s;
        release_all fuel' s1 (o_next c)
  end.

(** Models [ObjPool::DeleteAll] (src/knv/obj_pool.h:262-275). *)
Definition DeleteAll (s : pool) (first : Z) : option (Z * Z * pool) :=
  s1 ← release_all (S (size (p_heap s))) s first;
  '(_, s2) ← AddToFreeList s1 first;
  Some (0, 0, s2).

(** ** Lists in the heap *)

(** [seg h p l n]: the objects [l] are linked both ways, between [p] and [n]. *)
Fixpoint seg (h : heap) (p : Z) (l : list Z) (n : Z) : Prop :=
  match l with
  | [] => True
  | x :: l' => (exists o, h !! x = Some o /\ o_prev o = p /\ o_next o = hd n l') /\ seg h x l' n
  end.

Definition last_of (d : Z) (l : list Z) : Z := default d (last l).

(** A doubly linked list whose first [prev] is its last element. *)
Record dll (h : heap) (first : Z) (l : list Z) : Prop := {
  d_first : first = hd 0 l;
  d_seg : seg h (last_of 0 l) l 0;
  d_nodup : NoDup l;
  d_null : 0 ∉ l
}.

(** The free list: only [next] matters. *)
Fixpoint free_chain (h : heap) (p : Z) (fl : list Z) : Prop :=
  match fl with
  | [] => p = 0
  | x :: fl' => p = x /\ x <> 0 /\ exists o, h !! x = Some o /\ free_chain h (o_next o) fl'
  end.

(** The state of a pool and one list of its objects. *)
Record pool_ok (s : pool) (first : Z) (l fl : list Z) : Prop := {
  po_list : dll (p_heap s) first l;
  po_free : free_chain (p_heap s) (obj_freelist s) fl;
  po_disj : NoDup (l ++ fl)
}.

Lemma upd_lookup p f h o : h !! p = Some o -> upd p f h = Some (<[p := f o]> h).
Proof. intros H. unfold upd. by rewrite H. Qed.

Lemma seg_frame h h' l : forall p n,
  (forall x, x ∈ l -> h' !! x = h !! x) -> seg h p l n -> seg h' p l n.
Proof.
  induction l as [|x l IH]; intros p n Hf; [done|]. intros [(o & Ho & Hp & Hn) Hs]. split.
  - exists o. rewrite Hf by set_solver. done.
  - apply IH; [|done]. intros y Hy. apply Hf. set_solver.
Qed.

Lemma seg_insert h p l n x o : x ∉ l -> seg h p l n -> seg (<[x := o]> h) p l n.
Proof. intros Hx. apply seg_frame. intros y Hy. apply lookup_insert_ne. set_solver. Qed.

Lemma free_chain_frame h h' fl : forall p,
  (forall x, x ∈ fl -> h' !! x = h !! x) -> free_chain h p fl -> free_chain h' p fl.
Proof.
  induction fl as [|x fl IH]; intros p Hf; [done|]. intros (-> & H0 & o & Ho & Hc).
  split; [done|]. split; [done|]. exists o. rewrite Hf by set_solver. split; [done|].
  apply IH; [|done]. intros y Hy. apply Hf. set_solver.
Qed.

Lemma free_chain_insert h p fl x o : x ∉ fl -> free_chain h p fl -> free_chain (<[x := o]> h) p fl.
Proof. intros Hx. apply free_chain_frame. intros y Hy. apply lookup_insert_ne. set_solver. Qed.

Lemma seg_app h l1 : forall p l2 n,
  seg h p (l1 ++ l2) n <-> seg h p l1 (hd n l2) /\ seg h (last_of p l1) l2 n.
Proof.
  induction l1 as [|x l1 IH]; intros p l2 n; cbn [app seg].
  { change (last_of p []) with p. tauto. }
  rewrite IH. replace (hd n (l1 ++ l2)) with (hd (hd n l2) l1) by (by destruct l1).
  assert (last_of p (x :: l1) = last_of x l1) as ->.
  { unfold last_of. rewrite last_cons. by destruct (last l1). }
  tauto.
Qed.

Lemma last_of_snoc d l x : last_of d (l ++ [x]) = x.
Proof. unfold last_of. by rewrite last_snoc. Qed.
Lemma last_of_cons d x l : last_of d (x :: l) = last_of x l.
Proof. unfold last_of. rewrite last_cons. by destruct (last l). Qed.

(** The first object gets a new [prev]. *)
Lemma seg_set_prev h p q a l n o :
  NoDup (a :: l) -> h !! a = Some o -> seg h p (a :: l) n ->
  seg (<[a := set_o_prev q o]> h) q (a :: l) n.
Proof.
  intros Hnd Ho [(o' & Ho' & Hp & Hn) Hs]. apply NoDup_cons in Hnd as [Ha _]. simplify_eq. split.
  - eexists. rewrite lookup_insert, decide_True by done. done.
  - by apply seg_insert.
Qed.

(** The last object gets a new [next]. *)
Lemma seg_set_next h p l z n m o :
  NoDup (l ++ [z]) -> h !! z = Some o -> seg h p (l ++ [z]) n ->
  seg (<[z := set_o_next m o]> h) p (l ++ [z]) m.
Proof.
  intros Hnd Ho Hs. apply seg_app in Hs as [Hs1 Hs2]. apply NoDup_app in Hnd as (_ & Hd & _).
  apply seg_app. split.
  - apply seg_insert; [|done]. intros Hz. apply (Hd z Hz). set_solver.
  - destruct Hs2 as [(o' & Ho' & Hp & _) _]. simplify_eq. split; [|done].
    eexists. rewrite lookup_insert, decide_True by done. done.
Qed.

Lemma seg_elem h p l n x : seg h p l n -> x ∈ l -> exists o, h !! x = Some o.
Proof.
  revert p. induction l as [|y l IH]; intros p Hs Hx; [set_solver|].
  destruct Hs as [(o & Ho & _) Hs]. apply elem_of_cons in Hx as [->|Hx]; eauto.
Qed.

(** ** The operations *)

(** The object [take_obj] hands out: the head of the free list, or new memory
    that no list uses. *)
Definition fresh_for (s : pool) (l : list Z) (mem : option Z) : Prop :=
  forall p, mem = Some p -> p <> 0 /\ p_heap s !! p = None.

Lemma take_obj_spec s first l fl mem o s1 :
  pool_ok s first l fl -> fresh_for s l mem -> take_obj s mem = Some (o, s1) -> o <> 0 ->
  exists fl', (fl = o :: fl' \/ (fl = [] /\ fl' = [])) /\ o ∉ l /\ o ∉ fl' /\ pool_ok s1 first l fl' /\
    is_Some (p_heap s1 !! o).
Proof.
  intros [[Hf Hs Hn H0] Hfc Hd] Hfr Ht Ho. unfold take_obj in Ht.
  destruct (Z.eqb_spec (obj_freelist s) 0) as [E|E].
  - destruct fl as [|x fl]; [|destruct Hfc as (? & ? & _); congruence].
    destruct mem as [p|]; [|by simplify_eq]. destruct (Hfr p eq_refl) as [Hp0 Hpn].
    injection Ht as <- <-. exists []. rewrite app_nil_r in Hd.
    assert (p ∉ l) as Hpl.
    { intros Hp. destruct (seg_elem _ _ _ _ _ Hs Hp) as [x Hx]. congruence. }
    split_and!; [by right|done|set_solver| |].
    + split; [split; try done|done|by rewrite app_nil_r]. by apply seg_insert.
    + cbn. rewrite lookup_insert, decide_True by done. eauto.
  - destruct fl as [|x fl]; [done|]. destruct Hfc as (Hx & Hx0 & c & Hc & Hfc). rewrite Hx, Hc in Ht.
    msimp_in Ht. injection Ht as <- <-. exists fl.
    apply NoDup_app in Hd as (_ & Hd & Hnd). apply NoDup_cons in Hnd as [Hxf Hnd].
    split_and!; [by left| |done| |eauto].
    + intros Hxl. apply (Hd x Hxl). set_solver.
    + split; [by split|done|]. apply NoDup_app. split_and!; try done.
      intros y Hy Hyf. apply (Hd y Hy). set_solver.
Qed.

Lemma pool_ok_disj s first l fl x : pool_ok s first l fl -> x ∈ l -> x ∉ fl.
Proof. intros [_ _ Hd] Hl. apply NoDup_app in Hd as (_ & Hd & _). auto. Qed.

Lemma snoc_cases (l : list Z) : l = [] \/ exists l' z, l = l' ++ [z].
Proof.
  destruct l as [|x l]; [by left|]. right. destruct (exists_last (l := x :: l)) as (l' & z & E); [done|].
  exists l', z. done.
Qed.

Lemma nodup_snoc (l fl : list Z) o : NoDup (l ++ fl) -> o ∉ l -> o ∉ fl -> NoDup ((l ++ [o]) ++ fl).
Proof.
  intros Hd Hl Hf. apply NoDup_app in Hd as (H1 & H2 & H3). apply NoDup_app. split_and!; [| |done].
  - apply NoDup_app. split_and!; [done| |apply NoDup_singleton]. set_solver.
  - intros x Hx. apply elem_of_app in Hx as [Hx|Hx]; [auto|]. apply list_elem_of_singleton in Hx. by subst.
Qed.

Lemma New_list_spec s first l fl mem o first' s' :
  pool_ok s first l fl -> fresh_for s l mem -> New_list s first mem = Some (o, first', s') -> o <> 0 ->
  exists fl', (fl = o :: fl' \/ (fl = [] /\ fl' = [])) /\ pool_ok s' first' (l ++ [o]) fl'.
Proof.
  intros Hok Hfr Hn Ho. unfold New_list in Hn.
  destruct (take_obj s mem) as [[o1 s1]|] eqn:Et; [|done]. msimp_in Hn.
  destruct (Z.eqb_spec o1 0) as [->|Ho1]; [by simplify_eq|].
  destruct (take_obj_spec s first l fl mem o1 s1 Hok Hfr Et Ho1) as (fl' & Hfl & Hol & Hof & Hok1 & [c Hc]).
  rewrite (upd_lookup _ _ _ c Hc) in Hn. msimp_in Hn.
  destruct Hok1 as [[Hf Hs Hnd H0] Hfc Hd].
  destruct (snoc_cases l) as [->|(l' & z & ->)].
  - cbn in Hf. subst first. cbn [Z.eqb negb] in Hn.
    rewrite (upd_lookup _ _ _ (set_o_next 0 c)) in Hn by (by rewrite lookup_insert, decide_True).
    msimp_in Hn. injection Hn as <- <- <-. exists fl'. split; [done|]. cbn [app] in *. split; cbn [p_heap obj_freelist].
    + split; [done| |apply NoDup_singleton|set_solver]. split; [|done]. eexists.
      rewrite lookup_insert, decide_True by done. done.
    + apply free_chain_insert; [done|]. by apply free_chain_insert.
    + by constructor.
  - destruct (l' ++ [z]) as [|a rest] eqn:El; [by destruct l'|]. cbn in Hf. subst first.
    assert (a <> 0) as Ha0 by set_solver. rewrite (proj2 (Z.eqb_neq a 0)) in Hn by done. cbn [negb] in Hn.
    rewrite <- El in *. 
    destruct (seg_elem _ _ _ _ a Hs) as [ca Hca]; [rewrite El; set_solver|].
    destruct (seg_elem _ _ _ _ z Hs) as [cz Hcz]; [set_solver|].
    assert (o_prev ca = z) as Hpz.
    { rewrite El in Hs. destruct Hs as [(x & Hx & Hxp & _) _]. rewrite <- El, last_of_snoc in Hxp. congruence. }
    assert (o1 <> a /\ o1 <> z) as [Hoa Hoz].
    { split; intros ->; apply Hol; [rewrite El|]; set_solver. }
    set (h1 := <[o1 := set_o_next 0 c]> (p_heap s1)) in *.
    assert (h1 !! a = Some ca) as Ha1 by (unfold h1; by rewrite lookup_insert_ne).
    rewrite Ha1 in Hn. msimp_in Hn. rewrite Hpz in Hn.
    assert (h1 !! z = Some cz) as Hz1 by (unfold h1; by rewrite lookup_insert_ne).
    rewrite (upd_lookup _ _ _ cz Hz1) in Hn. msimp_in Hn.
    set (h2 := <[z := set_o_next o1 cz]> h1) in *.
    assert (h2 !! o1 = Some (set_o_next 0 c)) as Ho2.
    { unfold h2, h1. rewrite lookup_insert_ne by done. by rewrite lookup_insert, decide_True. }
    rewrite (upd_lookup _ _ _ _ Ho2) in Hn. msimp_in Hn. set (h3 := <[o1 := _]> h2) in *.
    assert (seg h3 z (l' ++ [z]) o1) as Hs3.
    { unfold h3. apply seg_insert; [done|]. unfold h2. apply (seg_set_next h1 z l' z 0); try done.
      unfold h1. rewrite last_of_snoc in Hs. by apply seg_insert. }
    destruct (seg_elem _ _ _ _ a Hs3) as [ca3 Hca3]; [rewrite El; set_solver|].
    rewrite (upd_lookup _ _ _ _ Hca3) in Hn. msimp_in Hn. injection Hn as <- <- <-.
    exists fl'. split; [done|].
    assert (forall x, x ∈ l' ++ [z] -> x ∉ fl') as Hdis by (apply NoDup_app in Hd; tauto).
    split; cbn [p_heap obj_freelist].
    + split.
      * by rewrite El.
      * rewrite last_of_snoc. apply seg_app. cbn [hd]. split.
        -- rewrite El in *. by apply (seg_set_prev h3 z o1 a).
        -- rewrite last_of_snoc. split; [|done]. eexists. rewrite lookup_insert_ne by done.
           unfold h3. rewrite lookup_insert, decide_True by done. done.
      * apply NoDup_app. split_and!; [done| |apply NoDup_singleton]. set_solver.
      * set_solver.
    + repeat apply free_chain_insert; try done; apply Hdis; [rewrite El|]; set_solver.
    + by apply nodup_snoc.
Qed.

Lemma NewFront_spec s first l fl mem o first' s' :
  pool_ok s first l fl -> fresh_for s l mem -> NewFront s first mem = Some (o, first', s') -> o <> 0 ->
  exists fl', (fl = o :: fl' \/ (fl = [] /\ fl' = [])) /\ first' = o /\ pool_ok s' o (o :: l) fl'.
Proof.
  intros Hok Hfr Hn Ho. unfold NewFront in Hn.
  destruct (take_obj s mem) as [[o1 s1]|] eqn:Et; [|done]. msimp_in Hn.
  destruct (Z.eqb_spec o1 0) as [->|Ho1]; [by simplify_eq|].
  destruct (take_obj_spec s first l fl mem o1 s1 Hok Hfr Et Ho1) as (fl' & Hfl & Hol & Hof & Hok1 & [c Hc]).
  rewrite (upd_lookup _ _ _ c Hc) in Hn. msimp_in Hn.
  destruct Hok1 as [[Hf Hs Hnd H0] Hfc Hd].
  assert (NoDup ((o1 :: l) ++ fl')) as Hd'.
  { cbn. constructor; [|done]. rewrite elem_of_app. tauto. }
  destruct l as [|a l].
  - cbn in Hf. subst first. cbn [Z.eqb negb] in Hn.
    rewrite (upd_lookup _ _ _ (set_o_next 0 c)) in Hn by (by rewrite lookup_insert, decide_True).
    msimp_in Hn. injection Hn as <- <- <-. exists fl'. split; [done|]. split; [done|].
    split; [|apply free_chain_insert; [done|]; by apply free_chain_insert|done].
    split; [done| |apply NoDup_singleton|set_solver]. split; [|done]. eexists.
    cbn. rewrite lookup_insert, decide_True by done. done.
  - cbn in Hf. subst first. assert (a <> 0) as Ha0 by set_solver.
    rewrite (proj2 (Z.eqb_neq a 0)) in Hn by done. cbn [negb] in Hn.
    assert (o1 <> a) as Hoa by (intros ->; apply Hol; set_solver).
    destruct (seg_elem _ _ _ _ a Hs) as [ca Hca]; [set_solver|].
    assert (o_prev ca = last_of a l) as Hpz.
    { destruct Hs as [(x & Hx & Hxp & _) _]. rewrite last_of_cons in Hxp. congruence. }
    rewrite lookup_insert_ne, Hca in Hn by done. msimp_in Hn.
    rewrite (upd_lookup _ _ _ (set_o_next a c)) in Hn by (by rewrite lookup_insert, decide_True).
    msimp_in Hn. rewrite (upd_lookup _ _ _ ca) in Hn by (by rewrite !lookup_insert_ne).
    msimp_in Hn. injection Hn as <- <- <-. exists fl'. split; [done|]. split; [done|].
    split; cbn [p_heap obj_freelist]; [| |done].
    + split; [done| |by constructor|set_solver]. rewrite last_of_cons, last_of_cons. split.
      * eexists. rewrite lookup_insert_ne, lookup_insert, decide_True by done. cbn.
        by rewrite Hpz.
      * eapply (seg_set_prev _ _ o1 a l 0); [done| |].
        -- by rewrite !lookup_insert_ne.
        -- apply seg_insert; [done|]. apply seg_insert; [done|]. exact Hs.
    + assert (a ∉ fl') by (apply NoDup_app in Hd as (_ & Hd & _); apply Hd; set_solver).
      by repeat (apply free_chain_insert; [done|]).
Qed.

(** Taking an object out leaves a list of the others. *)
Lemma unlink_spec h first l1 x l2 :
  dll h first (l1 ++ x :: l2) ->
  exists first' h', unlink h first x = Some (first', h') /\ dll h' first' (l1 ++ l2) /\
    (forall y, y ∉ l1 ++ l2 -> h' !! y = h !! y).
Proof.
  intros [Hf Hs Hnd H0]. pose proof Hs as Hs0. apply seg_app in Hs as [Hs1 Hs2].
  destruct Hs2 as [(c & Hc & Hcp & Hcn) Hs2]. cbn [hd] in Hs1. unfold unlink. rewrite Hc. msimp.
  assert (NoDup (l1 ++ l2)) as Hnd'.
  { eapply sublist_NoDup; [exact Hnd|]. apply sublist_app; [done|]. by constructor. }
  assert (0 ∉ l1 ++ l2) as H0' by set_solver.
  destruct (snoc_cases l1) as [->|(l1' & p & ->)].
  - cbn in Hf. subst first. rewrite Z.eqb_refl. cbn [app] in *. apply NoDup_cons in Hnd as [Hx Hnd].
    destruct l2 as [|b l2]; cbn in Hcn; rewrite Hcn.
    + cbn [Z.eqb negb]. msimp. exists 0, h. done.
    + rewrite (proj2 (Z.eqb_neq b 0)) by set_solver. cbn [negb].
      destruct (seg_elem _ _ _ _ b Hs2) as [cb Hcb]; [set_solver|].
      rewrite (upd_lookup _ _ _ _ Hcb). msimp. do 2 eexists. split; [done|]. split.
      * split; [done| |done|done]. rewrite Hcp, !last_of_cons. by apply (seg_set_prev h x).
      * intros y Hy. apply lookup_insert_ne. set_solver.
  - assert (x <> first) as Hxf.
    { apply NoDup_app in Hnd as (_ & Hd & _). intros E.
      apply (Hd x); [rewrite E, Hf; destruct l1'; set_solver|set_solver]. }
    rewrite (proj2 (Z.eqb_neq x first)) by done. rewrite last_of_snoc in Hcp.
    destruct (seg_elem _ _ _ _ p Hs1) as [cp Hcp']; [set_solver|]. rewrite Hcp.
    rewrite (upd_lookup _ _ _ _ Hcp'). msimp. set (h1 := <[p := _]> h).
    pose proof Hnd' as Hsplit. apply NoDup_app in Hsplit as (Hn1 & Hd & Hn2).
    assert (seg h1 (last_of 0 ((l1' ++ [p]) ++ x :: l2)) (l1' ++ [p]) (o_next c)) as Hseg1.
    { apply (seg_set_next h _ l1' p x); done. }
    destruct l2 as [|b l2]; cbn in Hcn; rewrite Hcn in *.
    + cbn [Z.eqb negb]. rewrite app_nil_r in *.
      destruct (l1' ++ [p]) as [|a rest] eqn:El; [by destruct l1'|]. cbn in Hf. subst first.
      destruct (seg_elem _ _ _ _ a Hseg1) as [ca Hca]; [set_solver|].
      rewrite (upd_lookup _ _ _ _ Hca). msimp. do 2 eexists. split; [done|]. split.
      * split; [done| |done|done]. rewrite <- El at 1. rewrite last_of_snoc.
        eapply (seg_set_prev h1 _ p a); [done|done|exact Hseg1].
      * intros y Hy. rewrite lookup_insert_ne by set_solver. apply lookup_insert_ne.
        assert (p ∈ a :: rest) by (rewrite <- El; set_solver). set_solver.
    + rewrite (proj2 (Z.eqb_neq b 0)) by set_solver. cbn [negb].
      assert (p <> b) as Hpb by (intros ->; apply (Hd b); set_solver).
      destruct (seg_elem _ _ _ _ b Hs2) as [cb Hcb]; [set_solver|].
      rewrite (upd_lookup b _ h1 cb) by (unfold h1; by rewrite lookup_insert_ne). msimp.
      do 2 eexists. split; [done|]. split.
      * split; [by rewrite Hf; destruct l1'| |done|done]. apply seg_app. cbn [hd]. split.
        -- apply seg_insert; [intros Hb; apply (Hd b Hb); set_solver|].
           replace (last_of 0 _) with (last_of 0 ((l1' ++ [p]) ++ x :: b :: l2)); [exact Hseg1|].
           unfold last_of. rewrite !last_app, !last_cons. by destruct (last l2).
        -- rewrite last_of_snoc. apply (seg_set_prev h1 x p b l2 0 cb); [done| |].
           ++ unfold h1. by rewrite lookup_insert_ne.
           ++ unfold h1. apply seg_insert; [|done]. intros Hp. apply (Hd p); set_solver.
      * intros y Hy. rewrite lookup_insert_ne by set_solver. apply lookup_insert_ne. set_solver.
Qed.

(** Pushing an object that is in neither list. *)
Lemma push_free_spec s first l fl o :
  pool_ok s first l fl -> o <> 0 -> o ∉ l -> o ∉ fl -> is_Some (p_heap s !! o) ->
  exists s', push_free s o = Some s' /\ pool_ok s' first l (o :: fl).
Proof.
  intros [[Hf Hs Hn H0] Hfc Hd] Ho Hol Hof [c Hc]. unfold push_free.
  rewrite (upd_lookup _ _ _ _ Hc). msimp. eexists. split; [done|]. split; cbn [p_heap obj_freelist].
  - split; try done. by apply seg_insert.
  - split; [done|]. split; [done|]. eexists. rewrite lookup_insert, decide_True by done.
    split; [done|]. by apply free_chain_insert.
  - apply NoDup_app in Hd as (H1 & H2 & H3). apply NoDup_app. split_and!; [done| |by constructor].
    intros x Hx. apply not_elem_of_cons. split; [by intros ->|auto].
Qed.

Lemma seg_val h p l n x o v :
  h !! x = Some o -> seg h p l n -> seg (<[x := mk_obj (o_prev o) (o_next o) v]> h) p l n.
Proof.
  intros Hx. revert p. induction l as [|y l IH]; intros p; [done|]. intros [(c & Hc & Hp & Hn) Hs].
  split; [|auto]. destruct (decide (y = x)) as [->|].
  - simplify_eq. eexists. rewrite lookup_insert, decide_True by done. done.
  - exists c. by rewrite lookup_insert_ne.
Qed.
Lemma free_chain_val h p fl x o v :
  h !! x = Some o -> free_chain h p fl -> free_chain (<[x := mk_obj (o_prev o) (o_next o) v]> h) p fl.
Proof.
  intros Hx. revert p. induction fl as [|y fl IH]; intros p; [done|]. intros (-> & H0 & c & Hc & Hf).
  split; [done|]. split; [done|]. destruct (decide (y = x)) as [->|].
  - simplify_eq. eexists. rewrite lookup_insert, decide_True by done. split; [done|]. cbn. auto.
  - exists c. rewrite lookup_insert_ne by done. auto.
Qed.

Lemma release_spec s first l fl o :
  pool_ok s first l fl -> is_Some (p_heap s !! o) ->
  exists s', release o s = Some s' /\ pool_ok s' first l fl /\ size (p_heap s') = size (p_heap s) /\
    (forall x c, p_heap s !! x = Some c -> exists c', p_heap s' !! x = Some c' /\ o_next c' = o_next c).
Proof.
  intros [[Hf Hs Hn H0] Hfc Hd] [c Hc]. unfold release. rewrite (upd_lookup _ _ _ _ Hc). msimp.
  eexists. split; [done|]. split; [|split]; cbn [p_heap].
  - split; [split; try done; by apply seg_val|by apply free_chain_val|done].
  - apply map_size_insert_Some. eauto.
  - intros x cx Hx. rewrite lookup_insert. case_decide as E; [|eauto].
    subst x. eexists. split; [done|]. cbn. congruence.
Qed.

Lemma Delete_list_spec s first l1 o l2 fl :
  pool_ok s first (l1 ++ o :: l2) fl ->
  exists first' s', Delete_list s first o = Some (0, first', s') /\
    pool_ok s' first' (l1 ++ l2) (o :: fl).
Proof.
  intros [Hdll Hfc Hd]. pose proof Hdll as [_ Hs0 Hnd H0]. unfold Delete_list.
  destruct (unlink_spec _ _ _ _ _ Hdll) as (first' & h' & -> & Hdll' & Hframe). msimp.
  assert (o ∉ l1 ++ l2) as Hol.
  { apply NoDup_app in Hnd as (_ & H1 & H2). apply NoDup_cons in H2 as [H2 _].
    rewrite elem_of_app. intros [H|H]; [|done]. eapply H1; [exact H|set_solver]. }
  assert (o ∉ fl) as Hof.
  { apply NoDup_app in Hd as (_ & H1 & _). apply H1. set_solver. }
  assert (NoDup ((l1 ++ l2) ++ fl)) as Hd'.
  { eapply sublist_NoDup; [exact Hd|]. apply sublist_app; [|done]. apply sublist_app; [done|]. by constructor. }
  destruct (seg_elem _ _ _ _ o Hs0) as [c Hc]; [set_solver|].
  assert (pool_ok (mk_pool h' (obj_freelist s)) first' (l1 ++ l2) fl) as Hok.
  { split; try done. cbn. apply (free_chain_frame (p_heap s)); [|done]. intros x Hx. apply Hframe.
    intros Hx'. apply NoDup_app in Hd' as (_ & H1 & _). by apply (H1 x). }
  destruct (release_spec _ _ _ _ o Hok) as (s1 & -> & Hok1 & _ & Hkeep).
  { cbn. rewrite Hframe by done. eauto. }
  msimp. destruct (Hkeep o c) as (c' & Hc' & _); [cbn; by rewrite Hframe|].
  destruct (push_free_spec s1 first' (l1 ++ l2) fl o Hok1) as (s2 & -> & Hok2);
    [set_solver|done|done|eauto|]. msimp. eauto.
Qed.

(** ** Releasing a whole list *)

Lemma list_size (l : list Z) (h : heap) :
  NoDup l -> (forall x, x ∈ l -> is_Some (h !! x)) -> (length l <= size h)%nat.
Proof.
  intros Hnd Hin. rewrite <- size_dom, <- (size_list_to_set (C := gset Z) l) by done.
  apply subseteq_size. intros x Hx. apply elem_of_list_to_set in Hx. apply elem_of_dom. auto.
Qed.

Lemma release_all_spec fuel : forall s first l fl lr p,
  pool_ok s first l fl -> seg (p_heap s) p lr 0 -> 0 ∉ lr -> (length lr < fuel)%nat ->
  exists s', release_all fuel s (hd 0 lr) = Some s' /\ pool_ok s' first l fl.
Proof.
  induction fuel as [|fuel IH]; intros s first l fl lr p Hok Hs H0 Hf; [lia|].
  destruct lr as [|x lr]; [by exists s|]. cbn [release_all hd].
  rewrite (proj2 (Z.eqb_neq x 0)) by set_solver. destruct Hs as [(c & Hc & Hp & Hn) Hs].
  rewrite Hc. msimp. destruct (release_spec s first l fl x Hok) as (s1 & Hr & Hok1 & _); [eauto|].
  rewrite Hr. msimp. rewrite Hn. apply (IH s1 first l fl lr x); [done| |set_solver|cbn in Hf; lia].
  unfold release in Hr. rewrite (upd_lookup _ _ _ _ Hc) in Hr. msimp_in Hr. injection Hr as <-.
  cbn. by apply seg_val.
Qed.

(** A list in front of the free list. *)
Lemma free_chain_app h l : forall p x fl f,
  seg h p l f -> 0 ∉ l -> x = hd f l -> free_chain h f fl -> free_chain h x (l ++ fl).
Proof.
  induction l as [|y l IH]; intros p x fl f Hs H0 -> Hfc; [done|]. cbn.
  destruct Hs as [(c & Hc & _ & Hn) Hs]. split; [done|]. split; [set_solver|]. exists c.
  split; [done|]. rewrite Hn. apply (IH y _ fl f); [done|set_solver|done|done].
Qed.

Lemma DeleteAll_spec s first l fl :
  l <> [] -> pool_ok s first l fl ->
  exists s', DeleteAll s first = Some (0, 0, s') /\ pool_ok s' 0 [] (l ++ fl).
Proof.
  intros Hne Hok. pose proof Hok as [[Hf Hs Hnd H0] _ Hd]. unfold DeleteAll.
  destruct (release_all_spec (S (size (p_heap s))) s first l fl l (last_of 0 l) Hok Hs H0) as (s1 & Hr & Hok1).
  { apply le_n_S, list_size; [done|]. intros x Hx. destruct (seg_elem _ _ _ _ x Hs Hx) as [c ->]. eauto. }
  rewrite Hf, Hr. msimp. destruct Hok1 as [[_ Hs1 _ _] Hfc1 _].
  destruct (snoc_cases l) as [->|(l' & z & ->)]; [done|].
  destruct (l' ++ [z]) as [|a rest] eqn:El; [by destruct l'|]. cbn [hd].
  unfold AddToFreeList. destruct (seg_elem _ _ _ _ a Hs1) as [ca Hca]; [set_solver|]. rewrite Hca. msimp.
  assert (o_prev ca = z) as ->.
  { destruct Hs1 as [(x & Hx & Hxp & _) _]. rewrite <- El, last_of_snoc in Hxp. congruence. }
  destruct (seg_elem _ _ _ _ z Hs1) as [cz Hcz]; [rewrite <- El; set_solver|].
  rewrite (upd_lookup _ _ _ _ Hcz). msimp. eexists. split; [done|].
  rewrite <- El in *. assert (z ∉ fl) as Hzf.
  { apply NoDup_app in Hd as (_ & Hd & _). apply Hd. set_solver. }
  split; [split; [done|done|constructor|set_solver]| |done]. cbn [p_heap obj_freelist].
  apply (free_chain_app _ (l' ++ [z]) z _ fl (obj_freelist s1)).
  - eapply (seg_set_next _ _ l' z 0); [done|done|]. by rewrite last_of_snoc in Hs1.
  - done.
  - by rewrite El.
  - by apply free_chain_insert.
Qed.
End pool.

(** ** The free list under interleaving

    One step per access to shared memory: a thread reads [obj_freelist], reads
    or writes the [next] of an object, or tries its compare-and-swap.  Only the
    links matter, so the heap is the map of [next] pointers. *)

(** Where a thread stands in [New] or [Delete]; [Idle] is outside both. *)
Inductive pc :=
  | Idle
  | NewGot (o : Z)
  | NewNext (o n : Z)
  | DelStart (x : Z)
  | DelGot (x o : Z)
  | DelLinked (x o : Z).

Record thread := mk_thread { t_pc : pc; t_owned : list Z }.
Record cstate := mk_cstate { c_next : gmap Z Z; c_free : Z; c_threads : gmap nat thread }.

(** What the scheduler picks: a call to start, or the next step of a thread. *)
Inductive action :=
  | StartNew (t : nat)
  | StartDelete (t : nat) (x : Z)
  | Run (t : nat).

Definition set_thread (t : nat) (th : thread) (s : cstate) : cstate :=
  mk_cstate (c_next s) (c_free s) (<[t := th]> (c_threads s)).

(** [None]: the action is not possible (or takes a path through [operator
    new], which is not needed here). *)
(** Models [ObjPool::New] (src/knv/obj_pool.h:60-74). *)
Definition cstep (a : action) (s : cstate) : option cstate :=
  match a with
  | StartNew t =>
      th ← c_threads s !! t;
      match t_pc th with
      | Idle =>
          if Z.eqb (c_free s) 0 then None
          else Some (set_thread t (mk_thread (NewGot (c_free s)) (t_owned th)) s)
      | _ => None
      end
  | StartDelete t x =>
      th ← c_threads s !! t;
      match t_pc th with
      | Idle =>
          if bool_decide (x ∈ t_owned th)
          then Some (set_thread t (mk_thread (DelStart x) (filter (fun y => y <> x) (t_owned th))) s)
          else None
      | _ => None
      end
  | Run t =>
      th ← c_threads s !! t;
      match t_pc th with
      | Idle => None
      | NewGot o =>
          n ← c_next s !! o;
          Some (set_thread t (mk_thread (NewNext o n) (t_owned th)) s)
      | NewNext o n =>
          if Z.eqb (c_free s) o then
            Some (set_thread t (mk_thread Idle (o :: t_owned th))
                    (mk_cstate (<[o := 0]> (c_next s)) n (c_threads s)))
          else if Z.eqb (c_free s) 0 then None
          else Some (set_thread t (mk_thread (NewGot (c_free s)) (t_owned th)) s)
      | DelStart x => Some (set_thread t (mk_thread (DelGot x (c_free s)) (t_owned th)) s)
      | DelGot x o =>
          Some (set_thread t (mk_thread (DelLinked x o) (t_owned th))
                  (mk_cstate (<[x := o]> (c_next s)) (c_free s) (c_threads s)))
      | DelLinked x o =>
          if Z.eqb (c_free s) o then
            Some (set_thread t (mk_thread Idle (t_owned th)) (mk_cstate (c_next s) x (c_threads s)))
          else Some (set_thread t (mk_thread (DelStart x) (t_owned th)) s)
      end
  end.

Definition crun (l : list action) (s : cstate) : option cstate :=
  foldl (fun r a => r ≫= cstep a) (Some s) l.

(** Two idle threads and the objects 1 and 2 on the free list. *)
Definition two_free : cstate :=
  mk_cstate {[1 := 2; 2 := 0]} 1 {[0%nat := mk_thread Idle []; 1%nat := mk_thread Idle []]}.

(** ** Properties *)

Lemma pool_ok_val {V} (s : @pool V) first l fl : l <> [] -> pool_ok s first l fl -> inhabited V.
Proof. intros Hl [[_ Hs _ _] _ _]. destruct l as [|x l]; [done|]. destruct Hs as [(o & _) _]. exact (inhabits (o_val o)). Qed.

(** [New(first)] appends exactly one object to the list: the head of the free list if there is
    one, and otherwise the new object; the links in both directions, the [prev] of the first
    object and the free list are those of the longer list. *)
Theorem new_appends {V} (v : V) (s s' : pool) (first first' o : Z) (l fl : list Z) (mem : option Z) :
  pool_ok s first l fl -> fresh_for s l mem -> New_list v s first mem = Some (o, first', s') -> o <> 0 ->
  exists fl', (fl = o :: fl' \/ (fl = [] /\ fl' = [])) /\ pool_ok s' first' (l ++ [o]) fl'.
Proof. intros. eapply New_list_spec; eauto using id. Qed.

(** [Delete(first, obj)] takes exactly [obj] out of the list, wherever it stands in it, and puts
    it at the head of the free list. *)
Theorem delete_removes {V} (rel : V -> V) (s : pool) (first : Z) (l1 : list Z) (o : Z) (l2 fl : list Z) :
  pool_ok s first (l1 ++ o :: l2) fl ->
  exists first' s', Delete_list rel s first o = Some (0, first', s') /\
    pool_ok s' first' (l1 ++ l2) (o :: fl).
Proof.
  intros Hok. destruct (pool_ok_val s first (l1 ++ o :: l2) fl) as [v]; [by destruct l1|done|].
  by apply Delete_list_spec.
Qed.

(** [DeleteAll] on a non-empty list moves all its objects, in order, in front of the free
    list. *)
Theorem delete_all_frees {V} (rel : V -> V) (s : pool) (first : Z) (l fl : list Z) :
  l <> [] -> pool_ok s first l fl ->
  exists s', DeleteAll rel s first = Some (0, 0, s') /\ pool_ok s' 0 [] (l ++ fl).
Proof.
  intros Hl Hok. destruct (pool_ok_val s first l fl Hl Hok) as [v]. by apply DeleteAll_spec.
Qed.

(** A list of 1, 2, 3 and the object 4 on the free list. *)
Definition sample_pool : @pool unit :=
  mk_pool {[1 := mk_obj 3 2 (); 2 := mk_obj 1 3 (); 3 := mk_obj 2 0 (); 4 := mk_obj 0 0 ()]} 4.

Lemma sample_pool_ok : pool_ok sample_pool 1 [1; 2; 3] [4].
Proof.
  split; [split|..].
  - reflexivity.
  - cbn. repeat (split; [eexists; split_and!; reflexivity|]). done.
  - repeat (constructor; [set_solver|]). constructor.
  - set_solver.
  - cbn. split; [done|]. split; [done|]. eexists. split; [reflexivity|done].
  - cbn. repeat (constructor; [set_solver|]). constructor.
Qed.

Lemma new_appends_witness :
  exists s' fl', New_list () sample_pool 1 None = Some (4, 1, s') /\
    ([4] = 4 :: fl' \/ ([4] = [] /\ fl' = [])) /\ pool_ok s' 1 ([1; 2; 3] ++ [4]) fl'.
Proof.
  destruct (New_list () sample_pool 1 None) as [[[o f] s']|] eqn:E; [|by vm_compute in E].
  assert (o = 4 /\ f = 1) as [-> ->] by (vm_compute in E; by simplify_eq).
  destruct (new_appends () sample_pool s' 1 1 4 [1; 2; 3] [4] None sample_pool_ok) as (fl' & H1 & H2);
    [done|exact E|done|]. exists s', fl'. done.
Defined.

Lemma delete_removes_witness :
  exists first' s', Delete_list id sample_pool 1 2 = Some (0, first', s') /\
    pool_ok s' first' ([1] ++ [3]) [2; 4].
Proof. apply (delete_removes id sample_pool 1 [1] 2 [3] [4]). apply sample_pool_ok. Defined.

Lemma delete_all_frees_witness :
  exists s', DeleteAll id sample_pool 1 = Some (0, 0, s') /\ pool_ok s' 0 [] ([1; 2; 3] ++ [4]).
Proof. apply (delete_all_frees id sample_pool 1 [1; 2; 3] [4]); [done|apply sample_pool_ok]. Defined.

