(* ===== verification/MemPool.v ===== *)
(** * Memory pools (src/knv/mem_pool.h, src/knv/mem_pool.cc)

    Nine pools of buffers of fixed sizes over the object pool, with a budget
    ([sz_max]) per pool that the manager moves between them.  A buffer is an
    object of the shared heap; a pool is named by its index in [magics].  The
    results of [new] and [malloc] are a list consumed from the front, [None]
    being a failure.  The compare-and-swaps and the [__sync] additions are
    those of one thread: they succeed at once. *)

From S2P Require Import Prelude ObjPool.

(** ** Data *)

(** Models [UcMem] (src/knv/mem_pool.h:30-71). *)
Record UcMem := mk_mem { alloc_sz : Z; mem : Z; m_pool : option nat }.

(** Models [UcMem::UcMem] (src/knv/mem_pool.h:33-35). *)
Definition UcMem_new : UcMem := mk_mem 0 0 None.

(** Models [UcMem::ReleaseObject] (src/knv/mem_pool.h:54-57). *)
Definition UcMem_Release (m : UcMem) : UcMem := m.

(** Models [UcMemPool] (src/knv/mem_pool.h:76-95). *)
Record UcMemPool := mk_mpool {
  sz_each : Z; sz_total : Z; sz_free : Z; sz_max : Z; freelist : Z }.

Definition set_total (v : Z) (p : UcMemPool) := mk_mpool (sz_each p) v (sz_free p) (sz_max p) (freelist p).
Definition set_free (v : Z) (p : UcMemPool) := mk_mpool (sz_each p) (sz_total p) v (sz_max p) (freelist p).
Definition set_max (v : Z) (p : UcMemPool) := mk_mpool (sz_each p) (sz_total p) (sz_free p) v (freelist p).
Definition set_list (v : Z) (p : UcMemPool) := mk_mpool (sz_each p) (sz_total p) (sz_free p) (sz_max p) v.

(** The heap of [UcMem] objects, and what the allocator will return. *)
Record env := mk_env { heap : gmap Z (@obj UcMem); news : list (option Z) }.

(** The next result of [new] or [malloc]; 0 is [NULL]. *)
Definition next_alloc (e : env) : Z * env :=
  (default 0 (mjoin (head (news e))), mk_env (heap e) (tail (news e))).

(** The pool's [ObjPool<UcMem>] member. *)
Definition pool_New (e : env) (p : UcMemPool) : option (Z * env * UcMemPool) :=
  let made := if Z.eqb (freelist p) 0 then mjoin (head (news e)) else None in
  '(o, s) ← New UcMem_new (mk_pool (heap e) (freelist p)) made;
  Some (o, mk_env (p_heap s) (if Z.eqb (freelist p) 0 then tail (news e) else news e),
        set_list (obj_freelist s) p).

Definition pool_Delete (e : env) (p : UcMemPool) (m : Z) : option (env * UcMemPool) :=
  '(_, s) ← Delete UcMem_Release (mk_pool (heap e) (freelist p)) m;
  Some (mk_env (p_heap s) (news e), set_list (obj_freelist s) p).

Definition set_val (f : UcMem -> UcMem) (c : @obj UcMem) : @obj UcMem :=
  mk_obj (o_prev c) (o_next c) (f (o_val c)).

(** [m->field = v] *)
Definition upd_mem (e : env) (m : Z) (f : UcMem -> UcMem) : option env :=
  h ← upd m (set_val f) (heap e);
  Some (mk_env h (news e)).

Definition set_mem (a : Z) (u : UcMem) : UcMem := mk_mem (alloc_sz u) a (m_pool u).
Definition set_pool (i : nat) (u : UcMem) : UcMem := mk_mem (alloc_sz u) (mem u) (Some i).

(** [v = __sync_sub_and_fetch((volatile long * )&x, d); if(v < 0) __sync_add_and_fetch(..., d)] *)
Definition sub_fetch (x d : Z) : Z := if Z.ltb (s64 (x - d)) 0 then u64 (u64 (x - d) + d) else u64 (x - d).

(** ** One pool *)

(** Returns the object, [exceed_limit] and the new state; [this] is the index of the pool. *)
(** Models [UcMemPool::Alloc] (src/knv/mem_pool.cc:12-56). *)
Definition Alloc (this : nat) (e : env) (p : UcMemPool) : option (Z * bool * env * UcMemPool) :=
  '(m, e1, p1) ← pool_New e p;
  if Z.eqb m 0 then Some (0, false, e1, p1)
  else
    e2 ← upd_mem e1 m (set_pool this);
    c ← heap e2 !! m;
    if Z.eqb (mem (o_val c)) 0 then
      if Z.ltb (sz_max p1) (u64 (sz_total p1 + sz_each p1)) then
        '(e3, p2) ← pool_Delete e2 p1 m;
        Some (0, true, e3, p2)
      else
        let '(a, e3) := next_alloc e2 in
        e4 ← upd_mem e3 m (set_mem a);
        if Z.eqb a 0 then
          '(e5, p2) ← pool_Delete e4 p1 m;
          Some (0, false, e5, p2)
        else Some (m, false, e4, set_total (u64 (sz_total p1 + sz_each p1)) p1)
    else
      let p2 := set_free (sub_fetch (sz_free p1) (sz_each p1)) p1 in
      Some (m, false, e2, set_total (u64 (sz_total p2 + sz_each p2)) p2).

(** Models [UcMemPool::Free] (src/knv/mem_pool.cc:58-68). *)
Definition Free (e : env) (p : UcMemPool) (m : Z) : option (env * UcMemPool) :=
  '(e1, p1) ← pool_Delete e p m;
  let p2 := set_free (u64 (sz_free p1 + sz_each p1)) p1 in
  Some (e1, set_total (sub_fetch (sz_total p2) (sz_each p2)) p2).

(** [max_free = sz_max/4; if(max_free > sz_total) max_free = sz_total;] *)
(** Models [UcMemPool::Shrink] (src/knv/mem_pool.cc:100-102). *)
Definition max_free (p : UcMemPool) : Z :=
  if Z.ltb (sz_total p) (sz_max p / 4) then sz_total p else sz_max p / 4.

(** Giving buffers of the free list back.  Every turn that does not leave the loop takes
    [sz_each] off [sz_free]. *)
(** Models [UcMemPool::Shrink] (src/knv/mem_pool.cc:104-135). *)
Fixpoint shrink_loop (fuel : nat) (e : env) (p : UcMemPool) (shk : Z) : option (Z * env * UcMemPool) :=
  match fuel with
  | O => None
  | S fuel' =>
      if Z.ltb (max_free p) (sz_free p) then
        '(m, e1, p1) ← pool_New e p;
        if Z.eqb m 0 then Some (shk, e1, p1)
        else
          c ← heap e1 !! m;
          if Z.eqb (mem (o_val c)) 0 then
            '(e2, p2) ← pool_Delete e1 p1 m;
            Some (shk, e2, p2)
          else
            e2 ← upd_mem e1 m (set_mem 0);
            '(e3, p2) ← pool_Delete e2 p1 m;
            let p3 := set_free (sub_fetch (sz_free p2) (sz_each p2)) p2 in
            shrink_loop fuel' e3 p3 (u64 (shk + sz_each p3))
      else Some (shk, e, p)
  end.

(** [((resv_max - sz_allocated) / 2) & (~(sz_each - 1))] *)
(** Models [UcMemPool::Shrink] (src/knv/mem_pool.cc:76-81). *)
Definition unalloc_part (p : UcMemPool) : Z :=
  Z.land (u64 (sz_max p - u64 (sz_total p + sz_free p)) / 2) (u64 (Z.lnot (u64 (sz_each p - 1)))).

(** Two turns of the loop are enough: [shrink_loop_turns] below. *)
(** Models [UcMemPool::Shrink] (src/knv/mem_pool.cc:71-144). *)
Definition Shrink (e : env) (p : UcMemPool) : option (Z * env * UcMemPool) :=
  let resv_max := sz_max p in
  let sz_allocated := u64 (sz_total p + sz_free p) in
  if Z.ltb (u64 (sz_allocated * 2)) resv_max && Z.ltb (sz_each p) (unalloc_part p)
  then Some (unalloc_part p, e, set_max (u64 (sz_max p - unalloc_part p)) p)
  else
    '(shk, e1, p1) ← shrink_loop 2 e p 0;
    Some (shk, e1, set_max (sub_fetch (sz_max p1) shk) p1).

(** ** Size classes *)

(** Models [magics] (src/knv/mem_pool.cc:148-164). *)
Definition magics : list Z :=
  [64; 256; 1024; 4096; 16384; 65536; 262144; 1048576; 4194304].

(** Models [biggest_magic] (src/knv/mem_pool.cc:166-167). *)
Definition biggest_magic : Z := 4194304.
(** Models [nr_magics] (src/knv/mem_pool.cc:168-168). *)
Definition nr_magics : Z := len magics.

Definition magic_sz (i : Z) : Z := nth (Z.to_nat i) magics 0.

(** Models [get_magic] (src/knv/mem_pool.cc:175-197). *)
Fixpoint magic_loop (fuel : nat) (i low high : Z) : option Z :=
  match fuel with
  | O => None
  | S fuel' =>
      if Z.ltb low high then
        let mid := Z.quot (low + high) 2 in
        if Z.eqb i (magic_sz mid) then Some mid
        else if Z.ltb (magic_sz mid) i then
          magic_loop fuel' i (if Z.ltb low mid then mid else low + 1) high
        else magic_loop fuel' i low (if Z.ltb mid high then mid else high - 1)
      else Some low
  end.

(** [high - low] decreases with every turn. *)
(** Models [get_magic] (src/knv/mem_pool.cc:170-204). *)
Definition get_magic (i : Z) : option Z :=
  if Z.leb i biggest_magic then magic_loop (length magics) i 0 (nr_magics - 1) else Some (-1).

(** ** The manager *)

(** [magics[].pool], in the order of [magics]. *)
(** Models [UcMemManager] (src/knv/mem_pool.h:102-118). *)
Record UcMemManager := mk_mng { mng_max : Z; pools : list (option UcMemPool) }.

(** Models [UcMemManager::GetInstance] (src/knv/mem_pool.cc:332-336). *)
Definition GetInstance : UcMemManager := mk_mng (1024 * 1024 * 1024) (replicate (length magics) None).

(** Models [UcMemManager::SetMaxSize] (src/knv/mem_pool.h:108-108). *)
Definition SetMaxSize (sz : Z) (g : UcMemManager) : UcMemManager := mk_mng sz (pools g).

Definition put_pool (i : nat) (p : UcMemPool) (g : UcMemManager) : UcMemManager :=
  mk_mng (mng_max g) (<[i := Some p]> (pools g)).

(** The pool of a size class, made on its first use; [None] in the result is [NULL]. *)
(** Models [UcMemManager::GetPool] (src/knv/mem_pool.cc:206-232). *)
Definition GetPool (e : env) (g : UcMemManager) (i : nat) : option (option UcMemPool * env * UcMemManager) :=
  r ← pools g !! i;
  match r with
  | Some p => Some (Some p, e, g)
  | None =>
      let '(a, e1) := next_alloc e in
      if Z.eqb a 0 then Some (None, e1, g)
      else
        let p := mk_mpool (magic_sz (Z.of_nat i)) 0 0 (mng_max g / nr_magics) 0 in
        Some (Some p, e1, put_pool i p g)
  end.

(** [p->Shrink()] on one pool of the table: 0 for a pool that could not be made. *)
Definition shrink_one (e : env) (g : UcMemManager) (i : nat) : option (Z * env * UcMemManager) :=
  '(r, e1, g1) ← GetPool e g i;
  match r with
  | None => Some (0, e1, g1)
  | Some p =>
      '(s, e2, p') ← Shrink e1 p;
      Some (s, e2, put_pool i p' g1)
  end.

(** The pools of the list one after the other, until [sz_needed] bytes are there; the boolean
    tells whether that stopped the loop. *)
(** Models [UcMemManager::Shrink] (src/knv/mem_pool.cc:239-249). *)
Fixpoint shrink_larger (l : list nat) (sz_needed : Z) (e : env) (g : UcMemManager) (shk : Z)
    : option (Z * bool * env * UcMemManager) :=
  match l with
  | [] => Some (shk, false, e, g)
  | i :: l' =>
      '(r, e1, g1) ← GetPool e g i;
      match r with
      | None => shrink_larger l' sz_needed e1 g1 shk
      | Some p =>
          '(s, e2, p') ← Shrink e1 p;
          let shk' := u64 (shk + s) in
          if Z.leb sz_needed shk' then Some (shk', true, e2, put_pool i p' g1)
          else shrink_larger l' sz_needed e2 (put_pool i p' g1) shk'
      end
  end.

(** Models [UcMemManager::Shrink] (src/knv/mem_pool.cc:255-260). *)
Fixpoint shrink_smaller (l : list nat) (e : env) (g : UcMemManager) (shk : Z) : option (Z * env * UcMemManager) :=
  match l with
  | [] => Some (shk, e, g)
  | i :: l' =>
      '(s, e1, g1) ← shrink_one e g i;
      shrink_smaller l' e1 g1 (u64 (shk + s))
  end.

(** Models [UcMemManager::Shrink] (src/knv/mem_pool.cc:234-265). *)
Definition mng_Shrink (e : env) (g : UcMemManager) (magic : nat) : option (Z * env * UcMemManager) :=
  '(shk, stop, e1, g1) ←
    shrink_larger (rev (seq (S magic) (length magics - S magic))) (magic_sz (Z.of_nat magic)) e g 0;
  if (stop : bool) then Some (shk, e1, g1)
  else shrink_smaller (rev (seq 0 magic)) e1 g1 shk.

(** [new UcMem(sz)]: the object, then its buffer. *)
(** Models [UcMem::UcMem] (src/knv/mem_pool.h:36-47). *)
Definition new_direct (e : env) (sz : Z) : Z * env :=
  let '(o, e1) := next_alloc e in
  if Z.eqb o 0 then (0, e1)
  else
    let '(a, e2) := next_alloc e1 in
    (o, mk_env (<[o := mk_obj 0 0 (mk_mem (if Z.eqb a 0 then 0 else sz) a None)]> (heap e2)) (news e2)).

(** Models [UcMemManager::Alloc] (src/knv/mem_pool.cc:268-319). *)
Definition mng_Alloc (e : env) (g : UcMemManager) (sz : Z) : option (Z * env * UcMemManager) :=
  magic ← get_magic sz;
  let alloc_sz := if Z.leb 0 magic then magic_sz magic else sz in
  if Z.ltb biggest_magic alloc_sz then
    let '(o, e1) := new_direct e sz in Some (o, e1, g)
  else
    let i := Z.to_nat magic in
    '(r, e1, g1) ← GetPool e g i;
    match r with
    | None => Some (0, e1, g1)
    | Some p =>
        '(m, exceed_limit, e2, p2) ← Alloc i e1 p;
        let g2 := put_pool i p2 g1 in
        if Z.eqb m 0 && exceed_limit then
          '(shk, e3, g3) ← mng_Shrink e2 g2 i;
          if Z.eqb shk 0 then Some (0, e3, g3)
          else
            '(m', _, e4, p4) ← Alloc i e3 (set_max (u64 (sz_max p2 + shk)) p2);
            Some (m', e4, put_pool i p4 g3)
        else Some (m, e2, g2)
    end.

(** Models [UcMemManager::Free] (src/knv/mem_pool.cc:321-330). *)
Definition mng_Free (e : env) (g : UcMemManager) (m : Z) : option (env * UcMemManager) :=
  if Z.eqb m 0 then Some (e, g)
  else
    c ← heap e !! m;
    match m_pool (o_val c) with
    | None => Some (mk_env (delete m (heap e)) (news e), g)
    | Some i =>
        r ← pools g !! i;
        p ← r;
        '(e1, p1) ← Free e p m;
        Some (e1, put_pool i p1 g)
    end.

(** Models [UcMem::GetAllocSize] (src/knv/mem_pool.h:97-100). *)
Definition GetAllocSize (e : env) (g : UcMemManager) (m : Z) : option Z :=
  c ← heap e !! m;
  match m_pool (o_val c) with
  | None => Some (alloc_sz (o_val c))
  | Some i => r ← pools g !! i; p ← r; Some (sz_each p)
  end.

(** ** The free list of a pool *)

Definition val_of (e : env) (x : Z) : option UcMem := o_val <$> heap e !! x.
Definition mem_of (e : env) (x : Z) : Z := default 0 (mem <$> val_of e x).

(** The allocator returns addresses that are not in use. *)
Definition fresh (e : env) : Prop :=
  NoDup (omap id (news e)) /\ forall a, a ∈ omap id (news e) -> a <> 0 /\ heap e !! a = None.

Record objs_ok (e : env) (p : UcMemPool) (used : gset Z) (fl : list Z) : Prop := {
  ob_chain : free_chain (heap e) (freelist p) fl;
  ob_nodup : NoDup fl;
  ob_disj : forall x, x ∈ fl -> x ∉ used;
  ob_used : forall x, x ∈ used -> x <> 0 /\ is_Some (heap e !! x);
  ob_fresh : fresh e
}.

Lemma chain_in h fl : forall p x, free_chain (V := UcMem) h p fl -> x ∈ fl -> is_Some (h !! x).
Proof.
  induction fl as [|y fl IH]; intros p x; [set_solver|]. intros (-> & _ & o & Ho & Hc) Hx.
  apply elem_of_cons in Hx as [->|Hx]; [eauto|]. by eapply IH.
Qed.

Lemma fresh_tail e h :
  fresh e -> (forall a, heap e !! a = None -> a ∈ omap id (tail (news e)) -> h !! a = None) ->
  fresh (mk_env h (tail (news e))).
Proof.
  intros [Hn Ha] Hh. unfold fresh. cbn [heap news]. destruct (news e) as [|[a|] l]; cbn in *.
  - split; [done|]. set_solver.
  - apply NoDup_cons in Hn as [_ Hn]. split; [done|]. intros b Hb. destruct (Ha b) as [? ?]; [set_solver|]. auto.
  - split; [done|]. intros b Hb. destruct (Ha b Hb). auto.
Qed.

Lemma fresh_heap e h : fresh e -> dom h ⊆ dom (heap e) -> fresh (mk_env h (news e)).
Proof.
  intros [Hn Ha] Hh. split; [done|]. cbn [heap news]. intros a Hin. destruct (Ha a Hin) as [? ?].
  split; [done|]. apply not_elem_of_dom. apply not_elem_of_dom in H0. set_solver.
Qed.

Lemma objs_ok_insert e p used fl x c c' :
  objs_ok e p used fl -> heap e !! x = Some c -> o_next c' = o_next c \/ x ∉ fl ->
  objs_ok (mk_env (<[x := c']> (heap e)) (news e)) p used fl.
Proof.
  intros [Hc Hn Hd Hu Hf] Hx Hs. split; [|done|done| |].
  - cbn [heap]. destruct Hs as [Hs|Hs]; [|by apply (free_chain_insert UcMem_new UcMem_Release)].
    revert Hc. clear -Hx Hs. generalize (freelist p). induction fl as [|y fl IH]; intros q; [done|].
    intros (-> & H0 & o & Ho & Hc). split; [done|]. split; [done|]. destruct (decide (x = y)) as [->|].
    + simplify_eq. exists c'. rewrite lookup_insert, decide_True by done. rewrite Hs. auto.
    + exists o. rewrite lookup_insert_ne by done. auto.
  - cbn [heap]. intros y Hy. destruct (Hu y Hy) as [? ?]. split; [done|].
    apply lookup_insert_is_Some'. by right.
  - apply fresh_heap; [done|]. rewrite dom_insert. apply elem_of_dom_2 in Hx. set_solver.
Qed.

Lemma val_of_insert h n x c y :
  val_of (mk_env (<[x := c]> h) n) y = if decide (x = y) then Some (o_val c) else o_val <$> h !! y.
Proof. unfold val_of. cbn [heap]. rewrite lookup_insert. by case_decide. Qed.

Lemma upd_mem_spec e p used fl m f u :
  objs_ok e p used fl -> val_of e m = Some u ->
  exists e1, upd_mem e m f = Some e1 /\ objs_ok e1 p used fl /\ news e1 = news e /\ val_of e1 m = Some (f u) /\
    (forall x, x <> m -> val_of e1 x = val_of e x).
Proof.
  intros Hok Hv. unfold val_of in Hv. destruct (heap e !! m) as [c|] eqn:Hc; [|done]. cbn in Hv. simplify_eq.
  unfold upd_mem. rewrite (upd_lookup _ _ _ c Hc). msimp. eexists. split; [done|].
  split; [eapply objs_ok_insert; [done..|by left]|]. split; [done|]. split.
  - by rewrite val_of_insert, decide_True.
  - intros x Hx. by rewrite val_of_insert, decide_False by done.
Qed.

Lemma pool_Delete_spec e p used fl m :
  objs_ok e p used fl -> m ∈ used ->
  exists e1, pool_Delete e p m = Some (e1, set_list m p) /\ news e1 = news e /\
    objs_ok e1 (set_list m p) (used ∖ {[m]}) (m :: fl) /\ (forall x, val_of e1 x = val_of e x).
Proof.
  intros Hok Hm. pose proof Hok as [Hc Hn Hd Hu Hf]. destruct (Hu m Hm) as [Hm0 [c Hmc]].
  assert (m ∉ fl) as Hmf by (intros H; by apply (Hd m)).
  unfold pool_Delete, Delete, release. cbn [p_heap obj_freelist]. rewrite (upd_lookup _ _ _ c Hmc). msimp.
  unfold push_free. cbn [p_heap obj_freelist].
  rewrite (upd_lookup _ _ _ (mk_obj (o_prev c) (o_next c) (UcMem_Release (o_val c))))
    by (by rewrite lookup_insert, decide_True).
  msimp. cbn [p_heap obj_freelist]. rewrite insert_insert, decide_True by done.
  eexists. split; [done|]. split; [done|]. split.
  - pose proof (objs_ok_insert e p used fl m c (set_o_next (freelist p)
      (mk_obj (o_prev c) (o_next c) (UcMem_Release (o_val c)))) Hok Hmc (or_intror Hmf)) as [Hc1 _ _ Hu1 Hf1].
    split; [|by constructor| | |done].
    + cbn. split; [done|]. split; [done|]. eexists. rewrite lookup_insert, decide_True by done.
      split; [done|]. exact Hc1.
    + intros x Hx. apply elem_of_cons in Hx as [->|Hx]; [set_solver|]. specialize (Hd x Hx). set_solver.
    + intros x Hx. apply Hu1. set_solver.
  - intros x. rewrite val_of_insert. case_decide as Hx; [|done]. subst. unfold val_of. by rewrite Hmc.
Qed.

Lemma pool_New_spec e p used fl :
  objs_ok e p used fl ->
  exists m e1 q, pool_New e p = Some (m, e1, set_list q p) /\
    ((m = 0 /\ fl = [] /\ objs_ok e1 (set_list q p) used [] /\ (forall x, val_of e1 x = val_of e x)) \/
     (m <> 0 /\ m ∉ used /\ exists fl' u, objs_ok e1 (set_list q p) ({[m]} ∪ used) fl' /\
        (forall x, x <> m -> val_of e1 x = val_of e x) /\ val_of e1 m = Some u /\
        ((fl = m :: fl' /\ val_of e m = Some u) \/ (fl = [] /\ fl' = [] /\ u = UcMem_new)))).
Proof.
  intros [Hc Hn Hd Hu Hf]. unfold pool_New, New, take_obj. cbn [obj_freelist p_heap].
  destruct fl as [|x fl].
  - cbn in Hc. rewrite Hc. cbn [Z.eqb]. pose proof Hf as [Hn' Ha].
    destruct (news e) as [|[a|] l] eqn:En; msimp; cbn [head mjoin option_join]; msimp.
    1, 3: exists 0; do 2 eexists; split; [reflexivity|]; left; split_and!; [done..| |done];
      (split; [done|constructor|set_solver|done|]);
      pose proof (fresh_tail e (heap e) Hf) as Hft; rewrite En in Hft; apply Hft; auto.
    destruct (Ha a) as [Ha0 Hah]; [apply elem_of_cons; by left|].
    replace (a =? 0) with false by (symmetry; by apply Z.eqb_neq). cbn [p_heap obj_freelist].
    rewrite (upd_lookup _ _ _ (mk_obj 0 0 UcMem_new)) by (by rewrite lookup_insert, decide_True). msimp.
    cbn [p_heap obj_freelist]. rewrite insert_insert, decide_True by done. exists a. do 2 eexists. split; [reflexivity|]. right.
    split; [done|]. split.
    { intros Hin. destruct (Hu a Hin) as [_ [? ?]]. congruence. }
    exists [], UcMem_new. split_and!.
    + split; [done|constructor|set_solver| |].
      * intros y Hy. cbn [heap]. destruct (decide (a = y)) as [->|].
        -- rewrite lookup_insert, decide_True by done. eauto.
        -- rewrite lookup_insert_ne by done. apply Hu. set_solver.
      * pose proof (fresh_tail e (<[a := set_o_prev a (set_o_next 0 (mk_obj 0 0 UcMem_new))]> (heap e)) Hf) as Hft.
        rewrite En in Hft. apply Hft. intros b Hb Hin. cbn in Hn', Hin. apply NoDup_cons in Hn' as [Hna _].
        rewrite lookup_insert_ne; [done|]. intros ->. done.
    + intros y Hy. by rewrite val_of_insert, decide_False by done.
    + by rewrite val_of_insert, decide_True.
    + right. done.
  - destruct Hc as (-> & Hx0 & o & Ho & Hc). replace (x =? 0) with false by (symmetry; by apply Z.eqb_neq).
    rewrite Ho. msimp. replace (x =? 0) with false by (symmetry; by apply Z.eqb_neq). cbn [p_heap obj_freelist].
    rewrite (upd_lookup _ _ _ o Ho). msimp. cbn [p_heap obj_freelist]. exists x. do 2 eexists. split; [reflexivity|]. right.
    apply NoDup_cons in Hn as [Hxf Hn].
    split; [done|]. split; [apply Hd; set_solver|]. exists fl, (o_val o). split_and!.
    + split; [|done| | |].
      * cbn. by apply (free_chain_insert UcMem_new UcMem_Release).
      * intros y Hy. specialize (Hd y). set_solver.
      * intros y Hy. cbn [heap p_heap]. destruct (decide (x = y)) as [->|].
        -- rewrite lookup_insert, decide_True by done. eauto.
        -- rewrite lookup_insert_ne by done. apply Hu. set_solver.
      * apply fresh_heap; [done|]. rewrite dom_insert. apply elem_of_dom_2 in Ho. set_solver.
    + intros y Hy. by rewrite val_of_insert, decide_False by done.
    + by rewrite val_of_insert, decide_True.
    + left. split; [done|]. unfold val_of. by rewrite Ho.
Qed.

(** ** Accounting *)

(** The number of objects of the free list that still have a buffer. *)
Fixpoint nfree (e : env) (fl : list Z) : Z :=
  match fl with
  | [] => 0
  | x :: fl' => (if Z.eqb (mem_of e x) 0 then 0 else 1) + nfree e fl'
  end.

(** [sz_total] is the size of the buffers handed out, [sz_free] that of the buffers waiting on
    the free list. *)
Record acc (e : env) (p : UcMemPool) (used : gset Z) (fl : list Z) : Prop := {
  ac_objs : objs_ok e p used fl;
  ac_each : 0 < sz_each p < 2 ^ 32;
  ac_max : 0 <= sz_max p < 2 ^ 62;
  ac_total : sz_total p = sz_each p * Z.of_nat (size used);
  ac_free : sz_free p = sz_each p * nfree e fl;
  ac_mem : forall x, x ∈ used -> mem_of e x <> 0
}.

(** One more buffer still fits in the address space. *)
Definition room (p : UcMemPool) : Prop := sz_total p + sz_free p + sz_each p < 2 ^ 62.

Lemma nfree_nonneg e fl : 0 <= nfree e fl.
Proof. induction fl; cbn [nfree]; [lia|]. zif; lia. Qed.

Lemma nfree_ext e e' fl : (forall x, x ∈ fl -> val_of e' x = val_of e x) -> nfree e' fl = nfree e fl.
Proof.
  induction fl as [|x fl IH]; intros H; [done|]. cbn [nfree]. unfold mem_of.
  rewrite (H x) by set_solver. f_equal. apply IH. set_solver.
Qed.

Lemma mem_of_val e x u : val_of e x = Some u -> mem_of e x = mem u.
Proof. unfold mem_of. by intros ->. Qed.

Lemma val_of_heap e x u : val_of e x = Some u -> exists c, heap e !! x = Some c /\ o_val c = u.
Proof. unfold val_of. destruct (heap e !! x) as [c|]; [|done]. cbn. intros [= <-]. eauto. Qed.

Lemma sub_fetch_small x d : 0 <= d <= x -> x < 2 ^ 63 -> sub_fetch x d = x - d.
Proof.
  intros Hd Hx. unfold sub_fetch. rewrite s64_small by lia.
  destruct (Z.ltb_spec (x - d) 0); [lia|]. by rewrite u64_small by lia.
Qed.

Lemma sub_fetch_back x d : 0 <= x < d -> d < 2 ^ 63 -> sub_fetch x d = x.
Proof.
  intros Hd Hx. unfold sub_fetch. rewrite s64_small by lia.
  destruct (Z.ltb_spec (x - d) 0); [|lia]. unfold u64. rewrite Zplus_mod_idemp_l.
  rewrite Z.mod_small; lia.
Qed.

Lemma acc_bounds e p used fl : acc e p used fl -> 0 <= sz_total p /\ 0 <= sz_free p.
Proof. intros [_ He _ -> -> _]. pose proof (nfree_nonneg e fl). lia. Qed.

(** What a failed allocation leaves: the same counters, possibly with one more bufferless object
    on the free list. *)
Definition same_sizes (p p' : UcMemPool) : Prop :=
  sz_each p' = sz_each p /\ sz_total p' = sz_total p /\ sz_free p' = sz_free p /\ sz_max p' = sz_max p.

Lemma same_sizes_list q p : same_sizes p (set_list q p).
Proof. by destruct p. Qed.

(** Putting back an object without a buffer that [pool_New] had taken. *)
Lemma give_back e e1 e2 p q used fl fl' m :
  acc e p used fl -> m ∉ used ->
  objs_ok e2 (set_list q p) ({[m]} ∪ used) fl' -> mem_of e2 m = 0 ->
  (forall x, x <> m -> val_of e2 x = val_of e1 x) -> (forall x, x <> m -> val_of e1 x = val_of e x) ->
  nfree e fl' = nfree e fl -> m ∉ fl' ->
  exists e3, pool_Delete e2 (set_list q p) m = Some (e3, set_list m (set_list q p)) /\
    acc e3 (set_list m (set_list q p)) used (m :: fl') /\ (forall x, x ∈ used -> val_of e3 x = val_of e x).
Proof.
  intros [Hob He Hx Ht Hf Hm] Hmu Hok H0 Hv2 Hv1 Hn Hmf.
  destruct (pool_Delete_spec _ _ _ _ m Hok) as (e3 & Hd & _ & Hok3 & Hv3); [set_solver|].
  exists e3. split; [done|]. split.
  - replace (({[m]} ∪ used) ∖ {[m]}) with used in Hok3 by set_solver.
    split; [done|by destruct p..| |].
    + cbn [sz_free sz_each set_list nfree]. unfold mem_of at 1. rewrite Hv3. fold (mem_of e2 m). rewrite H0.
      cbn [Z.eqb]. rewrite (nfree_ext e), Hn; [done|]. intros x Hxin.
      assert (x <> m) by (intros ->; done). by rewrite Hv3, Hv2, Hv1.
    + intros x Hxin. unfold mem_of. rewrite Hv3, Hv2, Hv1; [by apply Hm| |]; intros ->; done.
  - intros x Hxin. assert (x <> m) by (intros ->; done). by rewrite Hv3, Hv2, Hv1.
Qed.

(** An object of the free list, now with a buffer, goes to the caller. *)
Lemma hand_out e e2 p p' used fl fl' m :
  acc e p used fl -> m ∉ used -> objs_ok e2 p' ({[m]} ∪ used) fl' ->
  (forall x, x <> m -> val_of e2 x = val_of e x) -> mem_of e2 m <> 0 ->
  sz_each p' = sz_each p -> sz_max p' = sz_max p -> sz_total p' = sz_total p + sz_each p ->
  sz_free p' = sz_each p * nfree e fl' ->
  acc e2 p' ({[m]} ∪ used) fl'.
Proof.
  intros [Hob He Hx Ht Hf Hm] Hmu Hok Hv Hmm Ee Em Et Ef. split; [done| | | | |].
  - lia.
  - lia.
  - rewrite size_union, size_singleton by set_solver. lia.
  - rewrite Ef, Ee, (nfree_ext e e2); [done|]. intros x Hxin. apply Hv. intros ->.
    apply (ob_disj _ _ _ _ Hok m Hxin). set_solver.
  - intros x Hxin. destruct (decide (x = m)) as [->|]; [done|]. unfold mem_of. rewrite Hv by done. apply Hm. set_solver.
Qed.

Lemma objs_ok_sizes e p p' used fl : freelist p' = freelist p -> objs_ok e p used fl -> objs_ok e p' used fl.
Proof. intros E [? ? ? ? ?]. split; [by rewrite E|done..]. Qed.

Lemma next_alloc_ok e p used fl :
  objs_ok e p used fl -> objs_ok (mk_env (heap e) (tail (news e))) p used fl.
Proof. intros [? ? ? ? Hfr]. split; [done..|]. by apply fresh_tail. Qed.

Lemma Alloc_spec i e p used fl :
  acc e p used fl -> room p ->
  exists m ex e' p' fl', Alloc i e p = Some (m, ex, e', p') /\
    (forall x, x ∈ used -> val_of e' x = val_of e x) /\
    ((m <> 0 /\ m ∉ used /\ ex = false /\ acc e' p' ({[m]} ∪ used) fl' /\ m_pool <$> val_of e' m = Some (Some i) /\
      sz_max p' = sz_max p) \/
     (m = 0 /\ acc e' p' used fl' /\ same_sizes p p' /\ (ex = true -> sz_max p < sz_total p + sz_each p))).
Proof.
  intros Ha Hr. pose proof Ha as [Hob He Hx Ht Hf Hm]. pose proof (acc_bounds _ _ _ _ Ha) as [Ht0 Hf0].
  unfold room in Hr. unfold Alloc.
  destruct (pool_New_spec e p used fl Hob) as (m & e1 & q & -> & [(-> & -> & Hok & Hv)|
    (Hm0 & Hmu & fl' & u & Hok & Hv & Hvm & Hfl)]); msimp.
  { exists 0, false, e1, (set_list q p), []. split; [done|]. split; [auto|]. right.
    split; [done|]. split; [|by split; [apply same_sizes_list|]]. split; [done|by destruct p..|].
    intros x Hxin. unfold mem_of. rewrite Hv. by apply Hm. }
  replace (m =? 0) with false by (symmetry; by apply Z.eqb_neq).
  destruct (upd_mem_spec _ _ _ _ m (set_pool i) u Hok Hvm) as (e2 & -> & Hok2 & Hnw & Hvm2 & Hv2). msimp.
  destruct (val_of_heap _ _ _ Hvm2) as (c & -> & Hcu). msimp. rewrite Hcu. cbn [mem set_pool].
  assert (m ∉ fl') as Hmf by (intros H; apply (ob_disj _ _ _ _ Hok2 m H); set_solver).
  assert (nfree e fl' = if Z.eqb (mem u) 0 then nfree e fl else nfree e fl - 1) as Hnf.
  { destruct Hfl as [[-> Hvem]|(-> & -> & ->)]; [|done]. cbn [nfree]. rewrite (mem_of_val _ _ _ Hvem).
    destruct (Z.eqb (mem u) 0); lia. }
  assert (forall x, x <> m -> val_of e2 x = val_of e x) as Hv2' by (intros x Hxm; by rewrite Hv2, Hv by done).
  cbn [sz_each sz_max sz_total sz_free set_free set_list].
  pose proof (nfree_nonneg e fl') as Hnn. destruct (Z.eqb_spec (mem u) 0) as [Hmu0|Hmu0].
  - rewrite u64_small by lia. destruct (Z.ltb_spec (sz_max p) (sz_total p + sz_each p)) as [Hlim|Hlim].
    { destruct (give_back e e1 e2 p q used fl fl' m) as (e3 & -> & Ha3 & Hv3); try done.
      { by rewrite (mem_of_val _ _ _ Hvm2). } msimp.
      exists 0, true, e3, (set_list m (set_list q p)), (m :: fl'). split; [done|]. split; [done|]. by right. }
    unfold next_alloc. set (a := default 0 _).
    destruct (upd_mem_spec _ _ _ _ m (set_mem a) (set_pool i u) (next_alloc_ok _ _ _ _ Hok2) Hvm2)
      as (e4 & -> & Hok4 & Hnw4 & Hvm4 & Hv4). msimp. destruct (Z.eqb_spec a 0) as [Ha0|Ha0].
    { destruct (give_back e e2 e4 p q used fl fl' m) as (e3 & -> & Ha3 & Hv3); try done.
      { by rewrite (mem_of_val _ _ _ Hvm4). } msimp.
      exists 0, false, e3, (set_list m (set_list q p)), (m :: fl'). split; [done|]. split; [done|]. by right. }
    assert (forall x, x <> m -> val_of e4 x = val_of e x) as Hv4' by (intros x Hxm; rewrite Hv4 by done; by apply Hv2').
    do 4 eexists. exists fl'. split; [reflexivity|]. split; [intros x Hxin; apply Hv4'; by intros ->|]. left.
    split_and!; [done..| |by rewrite Hvm4|done].
    apply (hand_out e _ p _ used fl fl'); try done; [by eapply objs_ok_sizes; [|exact Hok4]| |].
    + by rewrite (mem_of_val _ _ _ Hvm4).
    + cbn. by rewrite Hnf.
  - rewrite sub_fetch_small by nia. rewrite u64_small by lia.
    do 4 eexists. exists fl'. split; [reflexivity|]. split; [intros x Hxin; apply Hv2'; by intros ->|]. left.
    split_and!; [done..| |by rewrite Hvm2|done].
    apply (hand_out e _ p _ used fl fl'); try done; [by eapply objs_ok_sizes; [|exact Hok2]| |].
    + by rewrite (mem_of_val _ _ _ Hvm2).
    + cbn. rewrite Hnf. lia.
Qed.

Lemma Free_spec e p used fl m :
  acc e p used fl -> room p -> m ∈ used ->
  exists e' p', Free e p m = Some (e', p') /\ acc e' p' (used ∖ {[m]}) (m :: fl) /\
    sz_total p' + sz_free p' = sz_total p + sz_free p /\ (forall x, val_of e' x = val_of e x).
Proof.
  intros Ha Hr Hin. pose proof Ha as [Hob He Hx Ht Hf Hm]. pose proof (acc_bounds _ _ _ _ Ha) as [Ht0 Hf0].
  unfold room in Hr. unfold Free.
  destruct (pool_Delete_spec _ _ _ _ m Hob Hin) as (e1 & -> & _ & Hok & Hv). msimp.
  cbn [sz_each sz_max sz_total sz_free set_free set_list].
  assert (size used = S (size (used ∖ {[m]}))) as Hsz.
  { rewrite (union_difference_L {[m]} used) at 1 by set_solver.
    rewrite size_union, size_singleton by set_solver. done. }
  rewrite u64_small, sub_fetch_small by lia. do 2 eexists. split; [reflexivity|].
  split; [|by split; [cbn; lia|]]. split; cbn [sz_each sz_max sz_total sz_free set_free set_list set_total];
    [by eapply objs_ok_sizes; [|exact Hok]|done|done|lia| |].
  - cbn [nfree]. assert (mem_of e1 m = mem_of e m) as -> by (unfold mem_of; by rewrite Hv).
    destruct (Z.eqb_spec (mem_of e m) 0) as [E|_]; [by destruct (Hm m)|].
    rewrite (nfree_ext e e1) by auto. lia.
  - intros x Hxin. unfold mem_of. rewrite Hv. apply Hm. set_solver.
Qed.

Lemma shrink_loop_fuel n : forall k e p shk r,
  shrink_loop n e p shk = Some r -> shrink_loop (n + k) e p shk = Some r.
Proof.
  induction n as [|n IH]; intros k e p shk r; [done|]. cbn [shrink_loop Nat.add].
  zif; [|done]. destruct (pool_New e p) as [[[m e1] p1]|]; [|done]. msimp. zif; [done|].
  destruct (heap e1 !! m) as [c|]; [|done]. msimp. zif; [done|].
  destruct (upd_mem _ _ _) as [e2|]; [|done]. msimp. destruct (pool_Delete _ _ _) as [[e3 p2]|]; [|done].
  msimp. apply IH.
Qed.

Lemma max_free_nonneg p : 0 <= sz_total p -> 0 <= sz_max p -> 0 <= max_free p.
Proof. intros. unfold max_free. pose proof (Z.div_pos (sz_max p) 4). zif; lia. Qed.

(** The head of the free list has no buffer: the loop ends without freeing anything. *)
Lemma shrink_loop_stop n e p used fl shk :
  acc e p used fl -> (forall x fl', fl = x :: fl' -> mem_of e x = 0) ->
  exists e' p' fl', shrink_loop (S n) e p shk = Some (shk, e', p') /\ acc e' p' used fl' /\ same_sizes p p' /\
    (forall x, x ∈ used -> val_of e' x = val_of e x).
Proof.
  intros Ha Hh. pose proof Ha as [Hob He Hx Ht Hf Hm]. pose proof (acc_bounds _ _ _ _ Ha) as [Ht0 Hf0].
  cbn [shrink_loop]. destruct (Z.ltb_spec (max_free p) (sz_free p)) as [Hlt|];
    [|by exists e, p, fl; split_and!].
  assert (fl <> []) as Hne.
  { intros ->. pose proof (max_free_nonneg p Ht0 (proj1 Hx)). cbn [nfree] in Hf. lia. }
  destruct (pool_New_spec e p used fl Hob) as (m & e1 & q & -> & [(-> & -> & Hok & Hv)|
    (Hm0 & Hmu & fl' & u & Hok & Hv & Hvm & Hfl)]); [done|]. msimp.
  replace (m =? 0) with false by (symmetry; by apply Z.eqb_neq).
  destruct Hfl as [[-> Hvem]|(-> & _)]; [|done].
  destruct (val_of_heap _ _ _ Hvm) as (c & -> & Hcu). msimp. rewrite Hcu.
  pose proof (Hh m fl' eq_refl) as Hz. pose proof Hz as Hz'. rewrite (mem_of_val _ _ _ Hvem) in Hz'. rewrite Hz'. cbn [Z.eqb].
  destruct (give_back e e1 e1 p q used (m :: fl') fl' m) as (e3 & -> & Ha3 & Hv3); try done.
  - by rewrite (mem_of_val _ _ _ Hvm).
  - cbn [nfree]. by rewrite Hz.
  - intros H. apply (ob_disj _ _ _ _ Hok m H). set_solver.
  - msimp. do 2 eexists. exists (m :: fl'). by split_and!.
Qed.

(** At most one buffer is freed: its object goes back to the head of the free list without a
    buffer, and that ends the loop. *)
Lemma shrink_loop_spec e p used fl :
  acc e p used fl -> room p ->
  exists shk e' p' fl', shrink_loop 2 e p 0 = Some (shk, e', p') /\ acc e' p' used fl' /\
    (forall x, x ∈ used -> val_of e' x = val_of e x) /\
    sz_each p' = sz_each p /\ sz_total p' = sz_total p /\ sz_max p' = sz_max p /\ sz_free p' = sz_free p - shk /\
    (shk = 0 \/ shk = sz_each p).
Proof.
  intros Ha Hr. unfold room in Hr. pose proof Ha as [Hob He Hx Ht Hf Hm]. pose proof (acc_bounds _ _ _ _ Ha) as [Ht0 Hf0].
  assert ((forall x fl', fl = x :: fl' -> mem_of e x = 0) \/ exists x fl', fl = x :: fl' /\ mem_of e x <> 0) as [Hh|Hh].
  { destruct fl as [|x fl]; [by left|]. destruct (decide (mem_of e x = 0)); [left|right; eauto].
    intros y fl' [= -> ->]. done. }
  { destruct (shrink_loop_stop 1 e p used fl 0 Ha Hh) as (e' & p' & fl' & Hs & Ha' & (? & ? & ? & ?) & Hv).
    exists 0, e', p', fl'. split_and!; try done; [lia|by left]. }
  destruct Hh as (x & fl' & -> & Hxm). destruct (Z.ltb (max_free p) (sz_free p)) eqn:Hlt.
  2: { exists 0, e, p, (x :: fl'). change 2%nat with (S 1). cbn [shrink_loop]. rewrite Hlt. split_and!; try done; [lia|by left]. }
  destruct (pool_New_spec e p used (x :: fl') Hob) as (m & e1 & q & Hnew & [(-> & ? & _)|
    (Hm0 & Hmu & fl2 & u & Hok & Hv & Hvm & [[Hfl Hvem]|(? & _)])]); [done| |done]. simplify_eq.
  destruct (upd_mem_spec _ _ _ _ m (set_mem 0) u Hok Hvm) as (e2 & Hup & Hok2 & _ & Hvm2 & Hv2).
  destruct (pool_Delete_spec _ _ _ _ m Hok2) as (e3 & Hdel & _ & Hok3 & Hv3); [set_solver|].
  replace (({[m]} ∪ used) ∖ {[m]}) with used in Hok3 by set_solver.
  assert (m ∉ fl2) as Hmf by (intros H; apply (ob_disj _ _ _ _ Hok m H); set_solver).
  assert (forall y, y <> m -> val_of e3 y = val_of e y) as Hv3' by (intros y Hy; by rewrite Hv3, Hv2, Hv by done).
  assert (mem_of e3 m = 0) as Hm3 by (unfold mem_of; rewrite Hv3, Hvm2; done).
  set (p3 := set_free (sz_free p - sz_each p) (set_list m (set_list q p))).
  assert (nfree e (m :: fl2) = 1 + nfree e fl2) as Hnf by (cbn [nfree]; destruct (Z.eqb_spec (mem_of e m) 0); [done|lia]).
  pose proof (nfree_nonneg e fl2) as Hnn.
  assert (acc e3 p3 used (m :: fl2)) as Ha3.
  { split; cbn [p3 sz_each sz_max sz_total sz_free set_free set_list]; try done.
    - by eapply objs_ok_sizes; [|exact Hok3].
    - cbn [nfree]. rewrite Hm3. cbn [Z.eqb]. rewrite (nfree_ext e e3); [lia|]. intros y Hy. apply Hv3'. by intros ->.
    - intros y Hy. unfold mem_of. rewrite Hv3' by (by intros ->). by apply Hm. }
  destruct (shrink_loop_stop 0 e3 p3 used (m :: fl2) (sz_each p) Ha3) as (e' & p' & fl' & Hs & Ha' & (E1 & E2 & E3 & E4) & Hv').
  { intros y fl [= -> ->]. done. }
  exists (sz_each p), e', p', fl'. split.
  - change 2%nat with (S 1). cbn [shrink_loop]. rewrite Hlt, Hnew. msimp.
    replace (m =? 0) with false by (symmetry; by apply Z.eqb_neq).
    destruct (val_of_heap _ _ _ Hvm) as (c & -> & Hcu). msimp. rewrite Hcu. rewrite (mem_of_val _ _ _ Hvem) in Hxm.
    destruct (Z.eqb_spec (mem u) 0); [done|]. rewrite Hup. msimp. rewrite Hdel. msimp.
    cbn [sz_each sz_max sz_total sz_free set_free set_list]. rewrite sub_fetch_small, u64_small by lia. exact Hs.
  - split_and!; try done; [|by right]. intros y Hy. rewrite Hv' by done. apply Hv3'. by intros ->.
Qed.

Lemma land_le a b : 0 <= a -> Z.land a b <= a.
Proof.
  intros Ha. assert (a - Z.land a b = Z.ldiff a (Z.land a b)) as E.
  { apply Z.sub_nocarry_ldiff. apply Z.bits_inj'. intros n _. rewrite Z.ldiff_spec, Z.land_spec, Z.bits_0.
    by destruct (Z.testbit a n), (Z.testbit b n). }
  assert (0 <= Z.ldiff a (Z.land a b)) by (apply Z.ldiff_nonneg; lia). lia.
Qed.

Lemma Shrink_spec e p used fl :
  acc e p used fl -> room p ->
  exists shk e' p' fl', Shrink e p = Some (shk, e', p') /\ acc e' p' used fl' /\
    (forall x, x ∈ used -> val_of e' x = val_of e x) /\ 0 <= shk /\
    sz_total p' = sz_total p /\
    ((shk <= sz_max p /\ sz_max p' = sz_max p - shk) \/
     (shk = sz_each p /\ sz_max p < sz_each p /\ sz_max p' = sz_max p)) /\
    sz_free p - sz_each p <= sz_free p' <= sz_free p.
Proof.
  intros Ha Hr. pose proof Ha as [Hob He Hx Ht Hf Hm]. pose proof (acc_bounds _ _ _ _ Ha) as [Ht0 Hf0].
  unfold Shrink. zif.
  - unfold room in Hr. rewrite u64_small in H by (rewrite u64_small; lia). rewrite u64_small in H by lia.
    assert (0 <= unalloc_part p <= sz_max p) as Hb.
    { unfold unalloc_part in *. rewrite (u64_small (sz_total p + _)) in * by lia.
      rewrite (u64_small (sz_max p - _)) in * by lia. split; [apply Z.land_nonneg; left; apply Z.div_pos; lia|].
      etransitivity; [apply land_le; apply Z.div_pos; lia|]. apply Z.div_le_upper_bound; lia. }
    do 3 eexists. exists fl. split; [reflexivity|]. rewrite u64_small by lia. split_and!; try done; try (cbn; lia).
    split; try done; [by eapply objs_ok_sizes; [|exact Hob]|cbn; lia].
  - destruct (shrink_loop_spec e p used fl Ha Hr) as (shk & e' & p' & fl' & -> & Ha' & Hv & E1 & E2 & E3 & E4 & Hs).
    msimp. do 3 eexists. exists fl'. split; [reflexivity|]. rewrite E3. pose proof Ha' as [Hob' He' Hx' Ht' Hf' Hm'].
    assert ((shk <= sz_max p /\ sub_fetch (sz_max p) shk = sz_max p - shk) \/
      (shk = sz_each p /\ sz_max p < sz_each p /\ sub_fetch (sz_max p) shk = sz_max p)) as Hsub.
    { destruct (decide (shk <= sz_max p)); [left; split; [done|]; apply sub_fetch_small; lia|].
      right. split_and!; [lia|lia|]. apply sub_fetch_back; lia. }
    split_and!; try done; try (cbn; lia).
    split; try done; [by eapply objs_ok_sizes; [|exact Hob']|]. cbn. lia.
Qed.

(** ** Size classes *)

Lemma magic_sz_step j : 0 <= j -> j + 1 < nr_magics -> magic_sz j < magic_sz (j + 1).
Proof.
  intros H1 H2. change nr_magics with 9 in H2.
  assert (j = 0 \/ j = 1 \/ j = 2 \/ j = 3 \/ j = 4 \/ j = 5 \/ j = 6 \/ j = 7) as Hj by lia.
  repeat destruct Hj as [->|Hj]; [vm_compute; done..|subst; vm_compute; done].
Qed.

Lemma magic_sz_lt j k : 0 <= j < k -> k < nr_magics -> magic_sz j < magic_sz k.
Proof.
  intros Hj Hk. assert (0 <= j) by lia. replace k with (j + Z.of_nat (Z.to_nat (k - j))) in * by lia.
  assert (0 < Z.to_nat (k - j))%nat as Hn by lia. revert Hk. generalize dependent (Z.to_nat (k - j)).
  intros n _ Hn. induction Hn as [|n Hn IH]; intros Hk; [apply magic_sz_step; lia|].
  transitivity (magic_sz (j + Z.of_nat n)); [apply IH; lia|].
  replace (j + Z.of_nat (S n)) with (j + Z.of_nat n + 1) by lia. apply magic_sz_step; lia.
Qed.

(** The invariant of the binary search: the classes below [low] are too small, the class [high]
    is large enough. *)
Lemma magic_loop_spec fuel : forall i low high,
  0 <= low <= high -> high < nr_magics -> high - low < Z.of_nat fuel ->
  i <= magic_sz high -> (forall j, 0 <= j < low -> magic_sz j < i) ->
  exists k, magic_loop fuel i low high = Some k /\ 0 <= k < nr_magics /\ i <= magic_sz k /\
    forall j, 0 <= j < k -> magic_sz j < i.
Proof.
  induction fuel as [|fuel IH]; intros i low high Hlh Hh Hf Hi Hlow; [lia|]. cbn [magic_loop].
  destruct (Z.ltb_spec low high) as [Hlt|]; [|exists low; replace high with low in Hi by lia; split_and!; [done|lia|lia|done|done]].
  rewrite Z.quot_div_nonneg by lia. set (mid := (low + high) / 2).
  assert (low <= mid < high) as Hmid.
  { subst mid. split; [apply Z.div_le_lower_bound; lia|apply Z.div_lt_upper_bound; lia]. }
  destruct (Z.eqb_spec i (magic_sz mid)) as [Heq|Hne].
  { exists mid. split_and!; [done|lia|lia|lia|]. intros j Hj. rewrite Heq. apply magic_sz_lt; lia. }
  destruct (Z.ltb_spec (magic_sz mid) i) as [Hgt|Hle].
  - assert (forall j, 0 <= j <= mid -> magic_sz j < i) as Hall.
    { intros j Hj. destruct (decide (j = mid)) as [->|]; [done|].
      transitivity (magic_sz mid); [apply magic_sz_lt; lia|done]. }
    destruct (Z.ltb_spec low mid); (apply IH; [lia|lia|lia|done|]); intros j Hj; apply Hall; lia.
  - destruct (Z.ltb_spec mid high); [|lia]. apply IH; [lia|lia|lia|lia|done].
Qed.

(** ** Reachable states of a pool *)

(** What a pool goes through: its own operations, called when there is room for one more buffer,
    and the manager giving it more budget.  The set holds the buffers in use. *)
Inductive pool_step (i : nat) : env * UcMemPool * gset Z -> env * UcMemPool * gset Z -> Prop :=
  | step_alloc e p used m ex e' p' :
      room p -> Alloc i e p = Some (m, ex, e', p') ->
      pool_step i (e, p, used) (e', p', if Z.eqb m 0 then used else {[m]} ∪ used)
  | step_free e p used m e' p' :
      room p -> m ∈ used -> Free e p m = Some (e', p') -> pool_step i (e, p, used) (e', p', used ∖ {[m]})
  | step_shrink e p used shk e' p' :
      room p -> Shrink e p = Some (shk, e', p') -> pool_step i (e, p, used) (e', p', used)
  | step_grow e p used shk :
      0 <= shk -> sz_max p + shk < 2 ^ 62 -> pool_step i (e, p, used) (e, set_max (sz_max p + shk) p, used).

Lemma pool_step_acc i s s' :
  pool_step i s s' -> forall fl, acc s.1.1 s.1.2 s.2 fl -> exists fl', acc s'.1.1 s'.1.2 s'.2 fl'.
Proof.
  intros Hs fl Ha. destruct Hs as [e p used m ex e' p' Hr Hal|e p used m e' p' Hr Hin Hfr|e p used shk e' p' Hr Hsh|e p used shk Hk Hb];
    cbn [fst snd] in *.
  - destruct (Alloc_spec i e p used fl Ha Hr) as (m' & ex' & e2 & p2 & fl' & E & _ & [(H0 & _ & _ & Ha' & _)|(-> & Ha' & _)]);
      rewrite E in Hal; simplify_eq; exists fl'; [|done]. by rewrite (proj2 (Z.eqb_neq m 0)).
  - destruct (Free_spec e p used fl m Ha Hr Hin) as (e2 & p2 & E & Ha' & _). rewrite E in Hfr. simplify_eq. eauto.
  - destruct (Shrink_spec e p used fl Ha Hr) as (s & e2 & p2 & fl' & E & Ha' & _). rewrite E in Hsh. simplify_eq. eauto.
  - exists fl. destruct Ha as [Hob He Hx Ht Hf Hm]. split; try done; [by eapply objs_ok_sizes; [|exact Hob]|cbn; lia].
Qed.

Lemma pool_steps_acc i s s' :
  rtc (pool_step i) s s' -> forall fl, acc s.1.1 s.1.2 s.2 fl -> exists fl', acc s'.1.1 s'.1.2 s'.2 fl'.
Proof.
  induction 1 as [s|s s1 s' H1 Hs IH]; intros fl Ha; [eauto|].
  destruct (pool_step_acc i s s1 H1 fl Ha) as [fl1 Ha1]. eauto.
Qed.

(** ** Properties *)

(** A pool of 64-byte buffers as [GetPool] makes it, with a budget of [n] buffers. *)
Definition new_pool (n : Z) : UcMemPool := mk_mpool 64 0 0 (64 * n) 0.
Definition sample_env : env := mk_env ∅ [Some 1; Some 100; Some 2; Some 200; Some 300; Some 400].

Lemma new_pool_acc e n : fresh e -> 0 <= n < 2 ^ 32 -> acc e (new_pool n) ∅ [].
Proof.
  intros Hf Hn. split; cbn [new_pool sz_each sz_max sz_total sz_free]; try done; try lia; try set_solver.
  split; [done|constructor|set_solver|set_solver|done].
Qed.

Lemma sample_env_fresh : fresh sample_env.
Proof.
  split; cbn.
  - repeat (constructor; [set_solver|]). constructor.
  - intros a Ha. split; [|apply lookup_empty]. intros ->. set_solver.
Qed.


(** [UcMemPool::Alloc] either hands out a buffer that nobody uses, with memory of its own, or
    returns [NULL] with the counters unchanged, reporting the limit only when one more buffer would
    exceed [sz_max]; it always returns, and the buffers in use keep their contents. *)
Theorem alloc_hands_out (i : nat) (e : env) (p : UcMemPool) (used : gset Z) (fl : list Z) :
  acc e p used fl -> room p ->
  exists m ex e' p' fl', Alloc i e p = Some (m, ex, e', p') /\
    (forall x, x ∈ used -> val_of e' x = val_of e x) /\
    ((m <> 0 /\ m ∉ used /\ ex = false /\ acc e' p' ({[m]} ∪ used) fl' /\ m_pool <$> val_of e' m = Some (Some i) /\
      sz_max p' = sz_max p) \/
     (m = 0 /\ acc e' p' used fl' /\ same_sizes p p' /\ (ex = true -> sz_max p < sz_total p + sz_each p))).
Proof. apply Alloc_spec. Qed.

(** [UcMemPool::Shrink] gives up exactly the budget it returns, unless the budget is below one
    buffer; it never touches a buffer in use and frees at most one buffer, however many are on the
    free list. *)
Theorem shrink_budget (e : env) (p : UcMemPool) (used : gset Z) (fl : list Z) :
  acc e p used fl -> room p ->
  exists shk e' p' fl', Shrink e p = Some (shk, e', p') /\ acc e' p' used fl' /\
    (forall x, x ∈ used -> val_of e' x = val_of e x) /\ 0 <= shk /\
    sz_total p' = sz_total p /\
    ((shk <= sz_max p /\ sz_max p' = sz_max p - shk) \/
     (shk = sz_each p /\ sz_max p < sz_each p /\ sz_max p' = sz_max p)) /\
    sz_free p - sz_each p <= sz_free p' <= sz_free p.
Proof. apply Shrink_spec. Qed.

(** For a size that fits in a class, [get_magic] returns the smallest class that holds it; for
    a larger one it returns -1. *)
Theorem get_magic_smallest (sz : Z) :
  (sz <= biggest_magic ->
   exists k, get_magic sz = Some k /\ 0 <= k < nr_magics /\ sz <= magic_sz k /\
     forall j, 0 <= j < k -> magic_sz j < sz) /\
  (biggest_magic < sz -> get_magic sz = Some (-1)).
Proof.
  unfold get_magic. split; intros H.
  - rewrite (proj2 (Z.leb_le _ _) H). apply magic_loop_spec; [done|done|done|exact H|lia].
  - by rewrite (proj2 (Z.leb_gt _ _) H).
Qed.


Lemma alloc_hands_out_witness :
  exists m ex e' p' fl', Alloc 0 sample_env (new_pool 2) = Some (m, ex, e', p') /\
    (forall x, x ∈ (∅ : gset Z) -> val_of e' x = val_of sample_env x) /\
    ((m <> 0 /\ m ∉ (∅ : gset Z) /\ ex = false /\ acc e' p' ({[m]} ∪ ∅) fl' /\
      m_pool <$> val_of e' m = Some (Some 0%nat) /\ sz_max p' = 128) \/
     (m = 0 /\ acc e' p' ∅ fl' /\ same_sizes (new_pool 2) p' /\ (ex = true -> 128 < 0 + 64))).
Proof. apply (alloc_hands_out 0 sample_env (new_pool 2) ∅ []); [apply new_pool_acc; [apply sample_env_fresh|lia]|done]. Defined.

Lemma shrink_budget_witness :
  exists shk e' p' fl', Shrink sample_env (new_pool 9) = Some (shk, e', p') /\ acc e' p' ∅ fl' /\
    (forall x, x ∈ (∅ : gset Z) -> val_of e' x = val_of sample_env x) /\ 0 <= shk /\
    sz_total p' = 0 /\
    ((shk <= 576 /\ sz_max p' = 576 - shk) \/ (shk = 64 /\ 576 < 64 /\ sz_max p' = 576)) /\
    0 - 64 <= sz_free p' <= 0.
Proof. apply (shrink_budget sample_env (new_pool 9) ∅ []); [apply new_pool_acc; [apply sample_env_fresh|lia]|done]. Defined.

Lemma get_magic_smallest_witness :
  exists k, get_magic 1000 = Some k /\ 0 <= k < nr_magics /\ 1000 <= magic_sz k /\
     forall j, 0 <= j < k -> magic_sz j < 1000.
Proof. apply (get_magic_smallest 1000). done. Defined.

(** One operation of a pool, in a run; [Free] takes the buffer by its object. *)
Inductive op := OpAlloc | OpFree (m : Z) | OpShrink.

(** The result (the object, 0, or the bytes given up) and the state. *)
Definition run_op (s : env * UcMemPool) (o : op) : option (Z * (env * UcMemPool)) :=
  match o with
  | OpAlloc => '(m, _, e, p) ← Alloc 0 s.1 s.2; Some (m, (e, p))
  | OpFree m => '(e, p) ← Free s.1 s.2 m; Some (0, (e, p))
  | OpShrink => '(k, e, p) ← Shrink s.1 s.2; Some (k, (e, p))
  end.

Fixpoint run_ops (s : env * UcMemPool) (l : list op) : option (list Z * UcMemPool) :=
  match l with
  | [] => Some ([], s.2)
  | o :: l' =>
      '(r, s') ← run_op s o;
      '(rs, p) ← run_ops s' l';
      Some (r :: rs, p)
  end.

(** The budget is not conserved: a pool of two buffers gives up its two buffers' worth of
    budget, and the third [Shrink] returns one more buffer's size although [sz_max] is 0 already.
    The two [Shrink]s in between that find an object without a buffer at the head of the free list
    free nothing, although the other object still has its buffer. *)
Theorem shrink_inflates_budget :
  run_ops (sample_env, new_pool 2)
    [OpAlloc; OpAlloc; OpFree 1; OpFree 2; OpShrink; OpShrink; OpAlloc; OpAlloc; OpFree 1; OpShrink; OpFree 2; OpShrink]
  = Some ([1; 2; 0; 0; 64; 0; 2; 1; 0; 64; 0; 64], mk_mpool 64 0 0 0 2).
Proof. vm_compute. reflexivity. Qed.
