(* ===== verification/Crypt.v ===== *)
(** * Request and response encryption (src/mysql_proxy_server.cpp, src/mysql_proxy_api.cpp)

    The DES routines of the C library are the interface [Des]; [DesLaws] is
    what their manual page promises.  Everything else is the code of the two
    programs, which carry the same text but for one test of [Decrypt]. *)

From S2P Require Import Prelude.

(** ** The DES library *)

Inductive direction := DES_ENCRYPT | DES_DECRYPT.

(** [ecb_crypt] works in place; [None] is [DES_FAILED]. *)
Class Des := {
  ecb_crypt : bytes -> bytes -> direction -> option bytes;
  des_setparity : bytes -> bytes
}.

Definition max_des_data : Z := 8192.

(** A buffer of a multiple of 8 bytes, at most [DES_MAXDATA], is transformed into one of the same
    length, and decryption with the same key undoes encryption. *)
Class DesLaws (D : Des) : Prop := {
  ecb_ok : forall key data dir, len data mod 8 = 0 -> len data <= max_des_data ->
    exists out, ecb_crypt key data dir = Some out /\ len out = len data;
  ecb_len : forall key data dir out, ecb_crypt key data dir = Some out -> len out = len data;
  ecb_inverse : forall key data out, ecb_crypt key data DES_ENCRYPT = Some out ->
    ecb_crypt key out DES_DECRYPT = Some data
}.

Section crypt.
Context `{D : Des}.

(** ** Keys *)

(** [for (i = 0; *pw; ++i) key[i%8] ^= *pw++ << 1;]; the text ends at its first 0. *)
(** Models [passwd2des] (src/mysql_proxy_server.cpp:144-145). *)
Fixpoint mix_key (pw : bytes) (i : nat) (key : bytes) : bytes :=
  match pw with
  | [] => key
  | c :: pw' =>
      if Z.eqb c 0 then key
      else mix_key pw' (S i) (alter (fun k => u8 (Z.lxor k (Z.shiftl c 1))) (i mod 8)%nat key)
  end.

(** Models [passwd2des] (src/mysql_proxy_server.cpp:139-148). *)
Definition passwd2des (pw : bytes) : bytes :=
  des_setparity (mix_key pw 0 (replicate 8 0)).

(** Models [passwd2des] (src/mysql_proxy_api.cpp:214-223). *)
Definition api_passwd2des (pw : bytes) : bytes :=
  des_setparity (mix_key pw 0 (replicate 8 0)).

(** ** Encryption *)

(** Models [max_encrypt_length] (src/mysql_proxy_server.cpp:168-168). *)
Definition max_encrypt_length : Z := 512.

(** The text with its length in front, padded with spaces to a multiple of 8. *)
(** Models [Encrypt] (src/mysql_proxy_server.cpp:172-178). *)
Definition pad_source (content : bytes) : bytes :=
  let source := le_split 4 (u32 (len content)) ++ content in
  if Z.eqb (Z.land (len source) 7) 0 then source
  else source ++ replicate (Z.to_nat (8 - len source mod 8)) 32.

(** [length] bytes from position [result.length()] on are still to be encrypted.  The result is
    the empty string when the library fails. *)
(** Models [Encrypt] (src/mysql_proxy_server.cpp:184-202). *)
Fixpoint encrypt_loop (fuel : nat) (key source : bytes) (length : Z) (result : bytes) : option bytes :=
  match fuel with
  | O => None
  | S fuel' =>
      if Z.ltb 0 length then
        let left := if Z.ltb max_encrypt_length length then s32 (length - max_encrypt_length) else 0 in
        let n := if Z.ltb max_encrypt_length length then max_encrypt_length else length in
        data ← mem_read source (len result) n;
        match ecb_crypt key data DES_ENCRYPT with
        | None => Some []
        | Some out => encrypt_loop fuel' key source (u32 left) (result ++ out)
        end
      else Some result
  end.

(** Every turn takes at least one byte. *)
(** Models [Encrypt] (src/mysql_proxy_server.cpp:170-203). *)
Definition Encrypt (key content : bytes) : option bytes :=
  let source := pad_source content in
  encrypt_loop (S (length source)) key source (u32 (len source)) [].

(** Models [Encrypt] (src/mysql_proxy_api.cpp:227-260). *)
Definition api_Encrypt (key content : bytes) : option bytes :=
  let source := pad_source content in
  encrypt_loop (S (length source)) key source (u32 (len source)) [].

(** ** Decryption *)

(** [Some None] is a failure of the library. *)
(** Models [Decrypt] (src/mysql_proxy_server.cpp:217-232). *)
Fixpoint decrypt_loop (fuel : nat) (key content : bytes) (length : Z) (result : bytes) : option (option bytes) :=
  match fuel with
  | O => None
  | S fuel' =>
      if Z.ltb 0 length then
        let n := if Z.ltb max_encrypt_length length then max_encrypt_length else length in
        data ← mem_read content (len result) n;
        match ecb_crypt key data DES_DECRYPT with
        | None => Some None
        | Some out =>
            let result' := result ++ out in
            decrypt_loop fuel' key content (s32 (len content - len result')) result'
        end
      else Some (Some result)
  end.

(** [result.substr(pos, n)]: at most [n] bytes. *)
Definition substr (l : bytes) (pos n : Z) : bytes :=
  take (Z.to_nat n) (drop (Z.to_nat pos) l).

(** The length in front of the text, an [int] compared after conversion to [size_t]; the empty
    string is returned when it is wrong. *)
(** Models [Decrypt] (src/mysql_proxy_server.cpp:233-243). *)
Definition strip_length (result : bytes) : bytes :=
  if Z.ltb 4 (len result) then
    let length := s32 (le_combine (take 4 result)) in
    if Z.leb (u64 (length + 4)) (len result)
    then substr result 4 (u64 length)
    else []
  else [].

(** The [int] length is compared with [sizeof(uint32_t)] as a [size_t]. *)
(** Models [Decrypt] (src/mysql_proxy_server.cpp:205-244). *)
Definition Decrypt (key content : bytes) : option bytes :=
  let length := s32 (len content) in
  if Z.ltb (u64 length) 4 then Some []
  else
    r ← decrypt_loop (S (List.length content)) key content length [];
    Some (match r with Some result => strip_length result | None => [] end).

(** Models [Decrypt] (src/mysql_proxy_api.cpp:262-300). *)
Definition api_Decrypt (key content : bytes) : option bytes :=
  let length := s32 (len content) in
  if Z.ltb (len content) 4 then Some []
  else
    r ← decrypt_loop (S (List.length content)) key content length [];
    Some (match r with Some result => strip_length result | None => [] end).

(** ** Hexadecimal text *)

Definition hex_digit (d : Z) : Z := if Z.ltb d 10 then 48 + d else 55 + d.

(** [sprintf("%02X", c)] of an [int] shown as unsigned: at least two digits. *)
Fixpoint hex_digits (fuel : nat) (z : Z) (acc : bytes) : bytes :=
  match fuel with
  | O => acc
  | S fuel' => if Z.eqb z 0 then acc else hex_digits fuel' (z / 16) (hex_digit (z mod 16) :: acc)
  end.
Definition print_02X (z : Z) : bytes :=
  let d := hex_digits 8 z [] in replicate (2 - length d)%nat 48 ++ d.

(** A [char] is signed: it is promoted to [int]. *)
Definition promote_char (c : Z) : Z := u32 (if Z.ltb c 128 then c else c - 256).

(** [sprintf(buf+i*2, "%02X", content[i])], its terminating 0 included; [None] is a write past the
    end of [buf]. *)
(** Models [StrToHex] (src/mysql_proxy_server.cpp:154-155). *)
Fixpoint hex_loop (content : bytes) (i : Z) (buf : bytes) : option bytes :=
  match content with
  | [] => Some buf
  | c :: content' =>
      buf' ← mem_write buf (i * 2) (print_02X (promote_char c) ++ [0]);
      hex_loop content' (i + 1) buf'
  end.

(** Models [StrToHex] (src/mysql_proxy_server.cpp:151-157). *)
Definition StrToHex (content : bytes) : option bytes :=
  buf ← hex_loop content 0 (replicate (length content * 2 + 2)%nat 0);
  mem_read buf 0 (len content * 2).

(** Models [StrToHex] (src/mysql_proxy_api.cpp:345-351). *)
Definition api_StrToHex (content : bytes) : option bytes :=
  buf ← hex_loop content 0 (replicate (length content * 2 + 2)%nat 0);
  mem_read buf 0 (len content * 2).

Definition hex_val (c : Z) : option Z :=
  if Z.leb 48 c && Z.leb c 57 then Some (c - 48)
  else if Z.leb 65 c && Z.leb c 70 then Some (c - 55)
  else if Z.leb 97 c && Z.leb c 102 then Some (c - 87)
  else None.

(** The digits of [strtoul(s, NULL, 16)]: it stops at the first other character.  The prefix [0x]
    makes no difference in a text of two characters. *)
Fixpoint hex_number (s : bytes) (acc : Z) : Z :=
  match s with
  | [] => acc
  | c :: s' => match hex_val c with Some d => hex_number s' (acc * 16 + d) | None => acc end
  end.

Definition isspace (c : Z) : bool := Z.eqb c 32 || (Z.leb 9 c && Z.leb c 13).

Fixpoint skip_spaces (s : bytes) : bytes :=
  match s with
  | c :: s' => if isspace c then skip_spaces s' else s
  | [] => []
  end.

(** Leading spaces, a sign, then digits. *)
Definition strtoul16 (s : bytes) : Z :=
  match skip_spaces s with
  | 43 :: s' => hex_number s' 0
  | 45 :: s' => u64 (- hex_number s' 0)
  | s' => hex_number s' 0
  end.

(** [buf[i] = strtoul(hex.substr(i*2, 2).c_str(), NULL, 16)] for every [i] below [newlen]. *)
(** Models [HexToStr] (src/mysql_proxy_server.cpp:159-166). *)
Definition HexToStr (hex : bytes) : bytes :=
  (fun i => u8 (strtoul16 (substr hex (Z.of_nat i * 2) 2))) <$> seq 0 (length hex / 2).

End crypt.

(** ** Correctness *)

Section laws.
Context `{D : Des} `{DL : !DesLaws D}.

Lemma mem_read_mid pre mid post n :
  n = len mid -> mem_read (pre ++ mid ++ post) (len pre) n = Some mid.
Proof. intros ->. by apply mem_read_app. Qed.

(** A turn of a loop takes the next 512 bytes, or what is left. *)
Lemma split_chunk (l : bytes) :
  exists c rest, l = c ++ rest /\ len c = Z.min max_encrypt_length (len l).
Proof.
  exists (take 512 l), (drop 512 l). rewrite take_drop. split; [done|].
  unfold len, max_encrypt_length. rewrite length_take. lia.
Qed.

Lemma chunk_choice a : (if Z.ltb max_encrypt_length a then max_encrypt_length else a) = Z.min max_encrypt_length a.
Proof. destruct (Z.ltb_spec max_encrypt_length a); lia. Qed.

(** Encrypting and decrypting run over the same chunks. *)
Lemma loops_inverse fuel : forall key rest,
  len rest mod 8 = 0 -> len rest < 2 ^ 31 -> (length rest < fuel)%nat ->
  exists out, len out = len rest /\
    (forall source pre result, source = pre ++ rest -> len result = len pre ->
       encrypt_loop fuel key source (len rest) result = Some (result ++ out)) /\
    (forall content pre result, content = pre ++ out -> len result = len pre ->
       decrypt_loop fuel key content (len rest) result = Some (Some (result ++ rest))).
Proof.
  induction fuel as [|fuel IH]; intros key rest H8 Hb Hf; [lia|]. pose proof (len_nonneg rest) as H0.
  destruct (decide (len rest = 0)) as [Hz|Hnz].
  { assert (rest = []) as -> by (destruct rest; [done|rewrite len_cons in Hz; len_lia]).
    exists []. split; [done|]. cbn. split; intros; by rewrite app_nil_r. }
  destruct (split_chunk rest) as (c & rest' & -> & Hc). rewrite len_app in *. pose proof (len_nonneg rest') as Hr0.
  assert (len c mod 8 = 0 /\ len rest' mod 8 = 0 /\ 0 < len c <= 512 /\ (len c = 512 \/ len rest' = 0)) as (Hc8 & Hr8 & Hcb & Hcr).
  { unfold max_encrypt_length in Hc. destruct (decide (len rest' = 0)) as [Hr|Hr].
    - rewrite Hr, Z.add_0_r in H8. rewrite Hr. split_and!; [done|done|lia|lia|by right].
    - assert (len c = 512) as Hc5 by lia. rewrite Hc5 in *. split_and!; [done| |lia|lia|by left].
      rewrite <- H8. replace 512 with (64 * 8) by lia. rewrite Z.add_comm, Z.mod_add; done. }
  destruct (ecb_ok key c DES_ENCRYPT Hc8) as (o & Ho & Hlo); [unfold max_des_data; lia|].
  destruct (IH key rest' Hr8) as (out & Hlen & He & Hd); [lia| |].
  { rewrite length_app in Hf. unfold len in Hcb. lia. }
  assert (Z.ltb 0 (len c + len rest') = true) as Hpos by (apply Z.ltb_lt; lia).
  assert (Z.min max_encrypt_length (len c + len rest') = len c) as Hmin by (unfold max_encrypt_length in *; lia).
  exists (o ++ out). split; [rewrite len_app; lia|]. split.
  - intros source pre result -> Hres. cbn [encrypt_loop]. rewrite Hpos, chunk_choice, Hmin, Hres.
    rewrite mem_read_mid by done. msimp. rewrite Ho.
    replace (u32 _) with (len rest').
    2: { destruct (Z.ltb_spec max_encrypt_length (len c + len rest')); unfold max_encrypt_length in *.
         - rewrite s32_small, u32_small by lia. lia.
         - rewrite u32_small by lia. lia. }
    rewrite (He _ (pre ++ c) (result ++ o)); [by rewrite <- app_assoc|by rewrite <- app_assoc|rewrite !len_app; lia].
  - intros content pre result -> Hres. cbn [decrypt_loop]. rewrite Hpos, chunk_choice, Hmin, Hres.
    rewrite mem_read_mid by lia. msimp. rewrite (ecb_inverse key c o Ho). rewrite !len_app, Hres.
    replace (s32 _) with (len rest') by (rewrite s32_small; lia).
    rewrite (Hd _ (pre ++ o) (result ++ c)); [by rewrite <- app_assoc|by rewrite <- app_assoc|rewrite !len_app; lia].
Qed.

(** Decryption never reads outside the text, whatever it is. *)
Lemma decrypt_loop_total fuel : forall key pre rest result,
  len (pre ++ rest) < 2 ^ 31 -> len result = len pre -> (length rest < fuel)%nat ->
  exists r, decrypt_loop fuel key (pre ++ rest) (len rest) result = Some r /\
    forall x, r = Some x -> len x = len result + len rest.
Proof.
  induction fuel as [|fuel IH]; intros key pre rest result Hb Hres Hf; [lia|]. pose proof (len_nonneg rest) as H0.
  cbn [decrypt_loop]. destruct (Z.ltb_spec 0 (len rest)) as [Hp|Hp].
  2: { exists (Some result). split; [done|]. intros x [= <-]. lia. }
  destruct (split_chunk rest) as (c & rest' & -> & Hc). rewrite chunk_choice, <- Hc, Hres.
  rewrite mem_read_mid by done. msimp. rewrite !len_app in *. unfold max_encrypt_length in Hc.
  pose proof (len_nonneg rest'). pose proof (len_nonneg pre). pose proof (len_nonneg c).
  destruct (ecb_crypt key c DES_DECRYPT) as [o|] eqn:Ho; [|by exists None].
  pose proof (ecb_len _ _ _ _ Ho) as Hlo. rewrite !len_app. rewrite Hres, Hlo.
  replace (s32 _) with (len rest') by (rewrite s32_small; lia).
  destruct (IH key (pre ++ c) rest' (result ++ o)) as (r & Hr & Hl).
  - rewrite !len_app; lia.
  - rewrite !len_app; lia.
  - rewrite length_app in Hf. unfold len in *. lia.
  - rewrite <- app_assoc in Hr. exists r. split; [done|]. intros x Hx. rewrite (Hl x Hx), len_app. lia.
Qed.

Lemma pad_source_spec content :
  exists pad, pad_source content = le_split 4 (u32 (len content)) ++ content ++ pad /\
    len (pad_source content) mod 8 = 0 /\ len pad < 8.
Proof.
  unfold pad_source. set (s := le_split 4 _ ++ content). change 7 with (Z.ones 3).
  rewrite Z.land_ones by lia. change (2 ^ 3) with 8. destruct (Z.eqb_spec (len s mod 8) 0) as [E|E].
  - exists []. rewrite app_nil_r. split_and!; [done|done|vm_compute; done].
  - exists (replicate (Z.to_nat (8 - len s mod 8)) 32). pose proof (Z.mod_pos_bound (len s) 8).
    assert (len (replicate (Z.to_nat (8 - len s mod 8)) 32) = 8 - len s mod 8) as Hl
      by (unfold len at 1; rewrite length_replicate; lia).
    split; [by rewrite app_assoc|]. rewrite len_app, Hl. split; [|lia].
    rewrite <- Zplus_mod_idemp_l. replace (len s mod 8 + (8 - len s mod 8)) with 8 by lia. done.
Qed.

Lemma strip_padded content pad :
  0 < len content + len pad -> len content < 2 ^ 31 ->
  strip_length (le_split 4 (u32 (len content)) ++ content ++ pad) = content.
Proof.
  intros Hp Hb. pose proof (len_nonneg content). pose proof (len_nonneg pad). unfold strip_length.
  rewrite !len_app, len_le_split. destruct (Z.ltb_spec 4 (Z.of_nat 4 + (len content + len pad))); [|lia].
  rewrite u32_small, (take_app_length' _ _ 4) by (rewrite ?length_le_split; done || lia).
  rewrite le_combine_split by (change (256 ^ Z.of_nat 4) with (2 ^ 32); lia). rewrite s32_small by lia.
  rewrite !u64_small by lia. destruct (Z.leb_spec (len content + 4) (Z.of_nat 4 + (len content + len pad))); [|lia].
  unfold substr. rewrite (drop_app_length' _ _ (Z.to_nat 4)) by (by rewrite length_le_split).
  unfold len. by rewrite Nat2Z.id, take_app_length.
Qed.

Lemma Encrypt_Decrypt key content :
  len content < 2 ^ 31 - 16 ->
  exists c, Encrypt key content = Some c /\ 8 <= len c /\ len c <= len content + 11 /\
    Decrypt key c = Some content /\ api_Decrypt key c = Some content.
Proof.
  intros Hb. destruct (pad_source_spec content) as (pad & Hs & H8 & Hpad).
  pose proof (len_nonneg content). pose proof (len_nonneg pad).
  assert (len (pad_source content) = 4 + len content + len pad) as Hl by (rewrite Hs, !len_app, len_le_split; lia).
  assert (8 <= len (pad_source content)).
  { pose proof (Z.div_mod (len (pad_source content)) 8). lia. }
  destruct (loops_inverse (S (length (pad_source content))) key (pad_source content) H8) as (out & Hlo & He & Hd); [lia|lia|].
  exists out. unfold Encrypt. rewrite u32_small by lia. rewrite (He _ [] []) by done. split; [done|]. split; [lia|]. split; [lia|].
  assert (length out = length (pad_source content)) as Hln by (unfold len in *; lia).
  unfold Decrypt, api_Decrypt. rewrite s32_small, u64_small by lia. destruct (Z.ltb_spec (len out) 4); [lia|].
  rewrite Hlo, Hln, (Hd _ [] []) by done. msimp. cbn [app]. rewrite Hs, strip_padded by lia. done.
Qed.

Lemma Decrypt_total key content :
  len content < 2 ^ 31 -> exists r, Decrypt key content = Some r /\ len r <= len content.
Proof.
  intros Hb. pose proof (len_nonneg content). unfold Decrypt. rewrite s32_small, u64_small by lia.
  destruct (Z.ltb_spec (len content) 4); [by exists []|].
  destruct (decrypt_loop_total (S (length content)) key [] content []) as (r & Hr & Hl); [done|done|lia|].
  cbn [app] in Hr. rewrite Hr. msimp. eexists. split; [done|]. destruct r as [x|]; [|done].
  specialize (Hl x eq_refl). change (len []) with 0 in Hl. unfold strip_length, substr.
  zif; [zif|]; [|done..]. unfold len in *. rewrite length_take, length_drop. lia.
Qed.

End laws.

(** ** Hexadecimal text *)

Definition print2 (c : Z) : bytes := [hex_digit (c / 16); hex_digit (c mod 16)].

(** A decidable fact about every byte is checked by running it. *)
Lemma byte_check (P : Z -> bool) (n : nat) :
  forallb (fun k => P (Z.of_nat k)) (seq 0 n) = true -> forall c, 0 <= c < Z.of_nat n -> P c = true.
Proof.
  intros H c Hc. rewrite forallb_forall in H. rewrite <- (Z2Nat.id c) by lia. apply H. apply in_seq. lia.
Qed.

Lemma print_ascii c : 0 <= c < 128 -> print_02X (promote_char c) = print2 c.
Proof.
  intros Hc. apply (bool_decide_eq_true_1 (print_02X (promote_char c) = print2 c)).
  revert c Hc. apply (byte_check (fun c => bool_decide (print_02X (promote_char c) = print2 c)) 128).
  vm_compute. reflexivity.
Qed.

Lemma print_signed c : 128 <= c < 256 -> len (print_02X (promote_char c)) = 8.
Proof.
  intros Hc. apply Z.eqb_eq. assert (Z.ltb c 128 || Z.eqb (len (print_02X (promote_char c))) 8 = true) as E.
  { revert c Hc. intros c Hc. apply (byte_check (fun c => Z.ltb c 128 || Z.eqb (len (print_02X (promote_char c))) 8) 256); [|lia].
    vm_compute. reflexivity. }
  apply orb_true_iff in E as [E|E]; [|done]. apply Z.ltb_lt in E. lia.
Qed.

Lemma read2 c : 0 <= c < 256 -> u8 (strtoul16 (print2 c)) = c.
Proof.
  intros Hc. apply Z.eqb_eq. revert c Hc. apply (byte_check (fun c => Z.eqb (u8 (strtoul16 (print2 c))) c) 256).
  vm_compute. reflexivity.
Qed.

Lemma HexToStr_cons a b l : HexToStr (a :: b :: l) = u8 (strtoul16 [a; b]) :: HexToStr l.
Proof.
  unfold HexToStr. cbn [length]. replace (S (S (length l)) / 2)%nat with (S (length l / 2))
    by (rewrite <- Nat.add_1_r, <- (Nat.div_add (length l) 1 2) by lia; f_equal; lia).
  rewrite <- cons_seq, fmap_cons. f_equal.
  rewrite <- fmap_S_seq, <- list_fmap_compose. apply list_fmap_ext. intros _ i _. unfold compose, substr.
  replace (Z.to_nat (Z.of_nat (S i) * 2)) with (S (S (Z.to_nat (Z.of_nat i * 2)))) by lia. done.
Qed.

Lemma HexToStr_print content : Forall (fun c => 0 <= c < 256) content -> HexToStr (concat (print2 <$> content)) = content.
Proof.
  induction 1 as [|c content Hc _ IH]; [done|]. change (print2 <$> c :: content) with (print2 c :: (print2 <$> content)).
  cbn [concat]. change (print2 c ++ ?l) with (hex_digit (c / 16) :: hex_digit (c mod 16) :: l).
  rewrite HexToStr_cons, IH. f_equal. by apply read2.
Qed.

Lemma len_print content : len (concat (print2 <$> content)) = 2 * len content.
Proof.
  induction content as [|c content IH]; [done|]. change (print2 <$> c :: content) with (print2 c :: (print2 <$> content)).
  cbn [concat]. rewrite len_app, IH, len_cons. change (len (print2 c)) with 2. lia.
Qed.

Lemma hex_loop_ascii content : forall i pre post,
  Forall (fun c => 0 <= c < 128) content -> len pre = i * 2 -> len post = 2 * len content + 2 ->
  exists post', hex_loop content i (pre ++ post) = Some (pre ++ concat (print2 <$> content) ++ post').
Proof.
  induction content as [|c content IH]; intros i pre post Hf Hp Hq; [by exists post|].
  apply Forall_cons in Hf as [Hc Hf]. cbn [hex_loop]. rewrite print_ascii by done.
  rewrite len_cons in Hq. pose proof (len_nonneg content).
  destruct post as [|x [|y [|z post]]]; [rewrite ?len_cons, ?len_nil in Hq; lia..|].
  rewrite (mem_write_app pre [x; y; z] post) by (by rewrite ?Hp). msimp.
  change (pre ++ (print2 c ++ [0]) ++ post) with (pre ++ print2 c ++ 0 :: post). rewrite app_assoc.
  destruct (IH (i + 1) (pre ++ print2 c) (0 :: post) Hf) as (post' & ->).
  - rewrite len_app. change (len (print2 c)) with 2. lia.
  - rewrite !len_cons in *. lia.
  - exists post'. change (print2 <$> c :: content) with (print2 c :: (print2 <$> content)). cbn [concat].
    by rewrite <- !app_assoc.
Qed.

Lemma hex_loop_snoc content : forall c i buf,
  hex_loop (content ++ [c]) i buf =
  buf' ← hex_loop content i buf; mem_write buf' ((i + len content) * 2) (print_02X (promote_char c) ++ [0]).
Proof.
  induction content as [|x content IH]; intros c i buf.
  - cbn [hex_loop app]. msimp. change (len []) with 0. rewrite Z.add_0_r. by destruct (mem_write _ _ _).
  - cbn [hex_loop app]. destruct (mem_write _ _ _) as [b|]; [|done]. msimp. rewrite IH, len_cons.
    destruct (hex_loop content (i + 1) b); [|done]. msimp. f_equal. lia.
Qed.

Lemma hex_loop_len content : forall i buf b, hex_loop content i buf = Some b -> len b = len buf.
Proof.
  induction content as [|x content IH]; intros i buf b; cbn [hex_loop]; [by intros [= ->]|].
  destruct (mem_write buf _ _) as [b1|] eqn:E; [|done]. msimp. intros H. rewrite (IH _ _ _ H). by eapply mem_write_len.
Qed.

(** ** Properties *)

(** A cipher that satisfies the laws: every byte xor the first byte of the key. *)
#[export] Instance xor_des : Des := {
  ecb_crypt key data _ :=
    if Z.eqb (len data mod 8) 0 && Z.leb (len data) max_des_data
    then Some ((fun b => Z.lxor b (hd 0 key)) <$> data) else None;
  des_setparity key := key
}.

Lemma len_fmap {A B} (f : A -> B) l : len (f <$> l) = len l.
Proof. unfold len. by rewrite length_fmap. Qed.

#[export] Instance xor_des_laws : DesLaws xor_des.
Proof.
  split; cbn [ecb_crypt xor_des].
  - intros key data _ H8 Hb. rewrite H8, (proj2 (Z.leb_le _ _) Hb). eexists. split; [done|]. apply len_fmap.
  - intros key data _ out. zif; [|done]. intros [= <-]. apply len_fmap.
  - intros key data out. zif; [|done]. intros [= <-]. rewrite len_fmap, H, Z.eqb_refl, (proj2 (Z.leb_le _ _)) by done.
    cbn [andb]. f_equal. rewrite <- list_fmap_compose. rewrite <- (list_fmap_id data) at 2. apply list_fmap_ext.
    intros _ b _. cbn. by rewrite Z.lxor_assoc, Z.lxor_nilpotent, Z.lxor_0_r.
Qed.

(** C27: for every DES library that keeps its promises, what either side encrypts the other decrypts to
    the same text: the client's request on the server and the server's response on the client, for
    texts of any length below 2 GB. *)
Theorem crypt_roundtrip `{DL : DesLaws} (key content : bytes) :
  len content < 2 ^ 31 - 16 ->
  (exists c, api_Encrypt key content = Some c /\ Decrypt key c = Some content) /\
  (exists c, Encrypt key content = Some c /\ api_Decrypt key c = Some content).
Proof.
  intros Hb. destruct (Encrypt_Decrypt key content Hb) as (c & He & _ & _ & Hd & Hd').
  split; exists c; done.
Qed.

Lemma crypt_roundtrip_witness :
  (exists c, api_Encrypt [7; 2] [115; 101; 108] = Some c /\ Decrypt [7; 2] c = Some [115; 101; 108]) /\
  (exists c, Encrypt [7; 2] [115; 101; 108] = Some c /\ api_Decrypt [7; 2] c = Some [115; 101; 108]).
Proof. apply (crypt_roundtrip (DL := xor_des_laws)). vm_compute. reflexivity. Defined.

(** [Decrypt] returns on every text a peer can send, without reading outside it, and the result
    is never longer than the text. *)
Theorem decrypt_total `{DL : DesLaws} (key content : bytes) :
  len content < 2 ^ 31 -> exists r, Decrypt key content = Some r /\ len r <= len content.
Proof. apply Decrypt_total. Qed.

Lemma decrypt_total_witness : exists r, Decrypt [1] [1; 2; 3; 4; 5] = Some r /\ len r <= 5.
Proof. apply (decrypt_total (DL := xor_des_laws) [1] [1; 2; 3; 4; 5]). vm_compute. reflexivity. Defined.

(** The length in front of a decrypted text is not always checked: the four values from
    [2^32 - 4] on pass the test, since the negative [int] is added to 4 as a [size_t], and the whole
    text, padding included, is returned. *)
Theorem negative_length_accepted (k : Z) (text : bytes) :
  1 <= k <= 4 -> text <> [] -> len text < 2 ^ 31 -> strip_length (le_split 4 (2 ^ 32 - k) ++ text) = text.
Proof.
  intros Hk Hne Hb. assert (0 < len text) by (destruct text; [done|]; rewrite len_cons; pose proof (len_nonneg text); lia).
  unfold strip_length. rewrite len_app, len_le_split. destruct (Z.ltb_spec 4 (Z.of_nat 4 + len text)); [|lia].
  rewrite (take_app_length' _ _ 4) by (by rewrite length_le_split).
  rewrite le_combine_split by (change (256 ^ Z.of_nat 4) with (2 ^ 32); lia).
  assert (s32 (2 ^ 32 - k) = - k) as ->.
  { unfold s32. replace (2 ^ 32 - k + 2 ^ 31) with (2 ^ 31 - k + 1 * 2 ^ 32) by lia. rewrite Z.mod_add, Z.mod_small; lia. }
  rewrite (u64_small (- k + 4)) by lia. destruct (Z.leb_spec (- k + 4) (Z.of_nat 4 + len text)); [|lia].
  unfold substr. rewrite (drop_app_length' _ _ (Z.to_nat 4)) by (by rewrite length_le_split).
  apply take_ge. unfold u64. replace (- k) with (2 ^ 64 - k + (-1) * 2 ^ 64) by lia.
  rewrite Z.mod_add, Z.mod_small by lia. unfold len in Hb. lia.
Qed.

Lemma negative_length_accepted_witness :
  strip_length (le_split 4 (2 ^ 32 - 1) ++ [104; 105; 32; 32]) = [104; 105; 32; 32].
Proof. apply (negative_length_accepted 1); [lia|done|vm_compute; reflexivity]. Defined.

(** [StrToHex] prints ASCII text so that [HexToStr] reads it back, but a last byte of 128 or more
    is printed with eight digits and written past the end of the buffer. *)
Theorem hex_ascii_only (content : bytes) (c : Z) :
  (Forall (fun b => 0 <= b < 128) content ->
   exists h, StrToHex content = Some h /\ len h = 2 * len content /\ HexToStr h = content) /\
  (128 <= c < 256 -> StrToHex (content ++ [c]) = None).
Proof.
  split.
  - intros Hf. unfold StrToHex. destruct (hex_loop_ascii content 0 [] (replicate (length content * 2 + 2) 0) Hf) as (post & E).
    + done.
    + unfold len. rewrite length_replicate. lia.
    + cbn [app] in E. rewrite E. msimp. exists (concat (print2 <$> content)).
      rewrite len_print, HexToStr_print by (eapply Forall_impl; [exact Hf|]; intros; cbn in *; lia).
      split; [|done]. apply (mem_read_app [] (concat (print2 <$> content)) post); [done|]. rewrite len_print. lia.
  - intros Hc. unfold StrToHex. rewrite hex_loop_snoc. destruct (hex_loop content 0 _) as [b|] eqn:E; [|done]. msimp.
    apply hex_loop_len in E. unfold mem_write. rewrite decide_False; [done|]. rewrite len_app, print_signed by done.
    rewrite E, Z.add_0_l. rewrite length_app. cbn [length]. unfold len. rewrite length_replicate. cbn [length]. lia.
Qed.

Lemma hex_ascii_only_witness :
  (exists h, StrToHex [64; 77; 121] = Some h /\ len h = 2 * 3 /\ HexToStr h = [64; 77; 121]) /\
  StrToHex ([64; 77; 121] ++ [200]) = None.
Proof.
  split.
  - apply (hex_ascii_only [64; 77; 121] 0). repeat constructor; lia.
  - apply (hex_ascii_only [64; 77; 121] 200). lia.
Defined.
