(* ===== verification/Packet.v ===== *)
(** * Packet framing (src/mysql_proxy_server.cpp, src/mysql_proxy_api.cpp)

    The two [ParsePacket] functions and the server's [Worker].  What is done
    with the body of a packet is a parameter here; Server.v puts the real
    handler in.  A pointer into the buffer is its address together with the
    bytes from there to the end; addresses are 64 bits and wrap around. *)

From S2P Require Import Prelude.

(** Models [PACKET_START_TOKEN] (src/mysql_proxy_server.cpp:107-107). *)
Definition PACKET_START_TOKEN : bytes := Eval cbv in txt "@MyPROXY".
(** Models [PACKET_HEADER_LENGTH] (src/mysql_proxy_server.cpp:108-108). *)
Definition PACKET_HEADER_LENGTH : Z := 16.
(** Models [MAX_REQUEST_PACKET_LENGTH] (src/mysql_proxy_server.cpp:109-109). *)
Definition MAX_REQUEST_PACKET_LENGTH : Z := 4096 + PACKET_HEADER_LENGTH.
(** Models [MAX_RESPONSE_PACKET_LENGTH] (src/mysql_proxy_api.cpp:183-183). *)
Definition MAX_RESPONSE_PACKET_LENGTH : Z := 1024 * 1024 * 500.

(** [std::string::max_size()]: building a longer string throws [std::length_error]. *)
Definition string_max_size : Z := 2 ^ 63 - 1.

Section parse.
Context {St : Type}.

(** What is done with the body of a packet: the new state, and what the function returns when it
    returns at once. *)
Context (handle : bytes -> St -> option (St * option Z)).

(** The limit on packets that are not complete yet. *)
Context (max_length : Z).

(** How the loop ends: with the bytes that were not consumed, with a return from inside, or with
    [std::length_error]. *)
Inductive parse_end := Left (rest : bytes) | Return (r : Z) | LengthError.

(** [while(packet+PACKET_HEADER_LENGTH < endpack && memcmp(packet, PACKET_START_TOKEN, 8)) packet++;] *)
(** Models [ParsePacket] (src/mysql_proxy_server.cpp:1010-1015). *)
Fixpoint find_token (addr : Z) (rest : bytes) : Z * bytes :=
  match rest with
  | [] => (addr, rest)
  | _ :: rest' =>
      if Z.ltb PACKET_HEADER_LENGTH (len rest) && negb (bool_decide (take 8 rest = PACKET_START_TOKEN))
      then find_token (addr + 1) rest'
      else (addr, rest)
  end.

(** Every turn leaves the loop or consumes at least one byte. *)
(** Models [ParsePacket] (src/mysql_proxy_server.cpp:1008-1070). *)
Fixpoint parse_loop (fuel : nat) (addr : Z) (rest : bytes) (st : St) : option (St * parse_end) :=
  match fuel with
  | O => None
  | S fuel' =>
      match rest with
      | [] => Some (st, Left [])
      | _ :: _ =>
          let '(addr, rest) := find_token addr rest in
          if Z.leb (len rest) PACKET_HEADER_LENGTH then Some (st, Left rest)
          else
            let packlen := le_combine (take 8 (drop 8 rest)) in
            if Z.ltb (addr + len rest) (u64 (addr + packlen)) then
              if Z.ltb max_length packlen
              then parse_loop fuel' (addr + 1) (tail rest) st
              else Some (st, Left rest)
            else if Z.ltb string_max_size (u64 (packlen - PACKET_HEADER_LENGTH)) then Some (st, LengthError)
            else
              body ← mem_read rest PACKET_HEADER_LENGTH (u64 (packlen - PACKET_HEADER_LENGTH));
              '(st', ret) ← handle body st;
              match ret with
              | Some r => Some (st', Return r)
              | None => parse_loop fuel' (addr + packlen) (drop (Z.to_nat packlen) rest) st'
              end
      end
  end.

End parse.

Arguments Left rest : assert.

(** ** The server *)

Section server.
Context {St : Type} (handle : bytes -> St -> option St).

Definition server_handle (body : bytes) (st : St) : option (St * option Z) :=
  st' ← handle body st; Some (st', None).

(** [base] is the address of the buffer.  The result is the new state and the new [reqstr], or
    nothing when an exception leaves the function. *)
(** Models [ParsePacket] (src/mysql_proxy_server.cpp:1002-1078). *)
Definition ParsePacket (base : Z) (reqstr : bytes) (st : St) : option (St * option bytes) :=
  '(st', e) ← parse_loop server_handle MAX_REQUEST_PACKET_LENGTH (S (length reqstr)) base reqstr st;
  Some (st',
    match e with
    | Left rest =>
        Some (if Z.eqb (len rest) (len reqstr) then reqstr
              else match rest with [] => [] | _ => rest end)
    | Return _ => Some reqstr
    | LengthError => None
    end).

(** The received pieces, each with the address of the buffer it was appended to.  An exception ends
    the whole process. *)
(** Models [Worker] (src/mysql_proxy_server.cpp:1087-1091). *)
Fixpoint recv_loop (chunks : list (Z * bytes)) (reqstr : bytes) (st : St) : option (St * option bytes) :=
  match chunks with
  | [] => Some (st, Some reqstr)
  | (base, c) :: chunks' =>
      '(st', r) ← ParsePacket base (reqstr ++ c) st;
      match r with
      | Some reqstr' => recv_loop chunks' reqstr' st'
      | None => Some (st', None)
      end
  end.

(** Models [Worker] (src/mysql_proxy_server.cpp:1080-1098). *)
Definition Worker (chunks : list (Z * bytes)) (base : Z) (st : St) : option (St * option bytes) :=
  '(st', r) ← recv_loop chunks [] st;
  match r with
  | Some (b :: reqstr) => ParsePacket base (b :: reqstr) st'
  | _ => Some (st', r)
  end.

End server.

(** ** The client *)

Section client.
Context {St : Type}.

(** [NewFromMessage] and [ProcessResponse] on a body: [None] when it is not a message. *)
Context (process : bytes -> St -> option (option (St * Z))).

Definition client_handle (body : bytes) (st : St) : option (St * option Z) :=
  r ← process body st;
  match r with
  | None => Some (st, None)
  | Some (st', v) => Some (st', Some v)
  end.

(** The result is the return value and the new [reqstr]; a packet that was processed stays in it. *)
(** Models [ParsePacket] (src/mysql_proxy_api.cpp:379-443). *)
Definition api_ParsePacket (base : Z) (reqstr : bytes) (st : St) : option (St * option (Z * bytes)) :=
  '(st', e) ← parse_loop client_handle MAX_RESPONSE_PACKET_LENGTH (S (length reqstr)) base reqstr st;
  Some (st',
    match e with
    | Left rest =>
        Some (0, if Z.eqb (len rest) (len reqstr) then reqstr
                 else match rest with [] => [] | _ => rest end)
    | Return v => Some (v, reqstr)
    | LengthError => None
    end).

End client.

(** ** Frames *)

(** A packet with the body [p]. *)
Definition frame (p : bytes) : bytes :=
  PACKET_START_TOKEN ++ le_split 8 (PACKET_HEADER_LENGTH + len p) ++ p.

Definition good (max : Z) (p : bytes) : Prop := 1 <= len p /\ PACKET_HEADER_LENGTH + len p <= max.

(** A packet that has not arrived completely. *)
Definition partial (max : Z) (t : bytes) : Prop :=
  exists p more, good max p /\ frame p = t ++ more /\ more <> [].

(** The buffer is not at the very end of the address space. *)
Definition addr_ok (base n : Z) : Prop := 0 <= base /\ base + n + 2 ^ 31 < 2 ^ 64.

Lemma len_frame p : len (frame p) = PACKET_HEADER_LENGTH + len p.
Proof. unfold frame. rewrite !len_app, len_le_split. change (len PACKET_START_TOKEN) with 8. unfold PACKET_HEADER_LENGTH. lia. Qed.

Lemma frame_length_field p t more x :
  frame p ++ x = t ++ more -> 0 <= PACKET_HEADER_LENGTH + len p < 2 ^ 64 -> 16 <= len t ->
  take 8 t = PACKET_START_TOKEN /\ le_combine (take 8 (drop 8 t)) = PACKET_HEADER_LENGTH + len p.
Proof.
  intros E Hb Ht. assert (forall n m, (n + m <= 16)%nat -> take m (drop n t) = take m (drop n (frame p ++ x))) as Ht'.
  { intros n m Hnm. rewrite E. unfold len in Ht. rewrite drop_app_le, take_app_le; [done| |lia]. rewrite length_drop. lia. }
  pose proof (Ht' 0%nat 8%nat) as H1. rewrite !drop_0 in H1. rewrite H1, (Ht' 8%nat 8%nat) by lia.
  unfold frame. rewrite <- !app_assoc. split; [done|].
  rewrite (drop_app_length' PACKET_START_TOKEN) by done. rewrite take_app_length' by (by rewrite length_le_split).
  rewrite le_combine_split; [done|]. exact Hb.
Qed.

Lemma find_token_here addr rest :
  take 8 rest = PACKET_START_TOKEN \/ len rest <= PACKET_HEADER_LENGTH -> find_token addr rest = (addr, rest).
Proof.
  intros H. destruct rest as [|b rest]; [done|]. cbn [find_token].
  destruct H as [->|H]; [by rewrite bool_decide_true, andb_false_r|].
  by rewrite (proj2 (Z.ltb_ge _ _) H).
Qed.

Lemma frame_cons p : exists b l, frame p = b :: l.
Proof. unfold frame. cbn. eauto. Qed.

Section loop.
Context {St : Type} (handle : bytes -> St -> option (St * option Z)) (max : Z).
Context (Hmax : max < 2 ^ 31).

Lemma parse_frame fuel addr p more st :
  1 <= len p -> PACKET_HEADER_LENGTH + len p < 2 ^ 31 -> addr_ok addr (len (frame p ++ more)) ->
  parse_loop handle max (S fuel) addr (frame p ++ more) st =
  '(st', ret) ← handle p st;
  match ret with
  | Some r => Some (st', Return r)
  | None => parse_loop handle max fuel (addr + len (frame p)) more st'
  end.
Proof.
  intros H1 H2 [Ha0 Ha]. cbn [parse_loop]. destruct (frame_cons p) as (b & l & Ef). rewrite Ef at 1. cbn [app].
  pose proof (len_frame p) as Hlf. rewrite len_app in Ha. pose proof (len_nonneg more). unfold PACKET_HEADER_LENGTH in *.
  destruct (frame_length_field p (frame p ++ more) [] more) as [Ht Hl];
    [by rewrite app_nil_r|unfold PACKET_HEADER_LENGTH; lia|rewrite len_app; lia|].
  rewrite find_token_here by (by left). rewrite Hl. rewrite len_app, Hlf. unfold PACKET_HEADER_LENGTH.
  destruct (Z.leb_spec (16 + len p + len more) 16); [lia|]. rewrite (u64_small (addr + _)) by lia.
  destruct (Z.ltb_spec (addr + (16 + len p + len more)) (addr + (16 + len p))); [lia|].
  rewrite (u64_small (16 + len p - 16)) by lia. unfold string_max_size.
  destruct (Z.ltb_spec (2 ^ 63 - 1) (16 + len p - 16)); [lia|].
  replace (mem_read (frame p ++ more) 16 (16 + len p - 16)) with (Some p).
  2: { unfold frame. rewrite <- !app_assoc, app_assoc. symmetry. apply mem_read_app; [|lia].
       rewrite len_app, len_le_split. done. }
  msimp. destruct (handle p st) as [[st' [r|]]|]; [done| |done]. msimp.
  replace (drop (Z.to_nat (16 + len p)) (frame p ++ more)) with more; [done|].
  rewrite drop_app_length'; [done|]. unfold len in *. lia.
Qed.

Lemma parse_partial fuel addr t st :
  partial max t -> addr_ok addr (len t) -> parse_loop handle max (S fuel) addr t st = Some (st, Left t).
Proof.
  intros (p & more & [Hp1 Hp2] & E & Hne) [Ha0 Ha]. cbn [parse_loop]. destruct t as [|b t']; [done|].
  remember (b :: t') as t eqn:Et. clear Et b t'.
  assert (len t < len (frame p)) as Hlt.
  { rewrite E, len_app. destruct more; [done|]. rewrite len_cons. pose proof (len_nonneg more). lia. }
  rewrite len_frame in Hlt. unfold PACKET_HEADER_LENGTH in *. pose proof (len_nonneg t).
  destruct (Z.leb_spec (len t) 16) as [Hle|Hgt].
  { rewrite find_token_here by (right; exact Hle). by rewrite (proj2 (Z.leb_le _ _) Hle). }
  destruct (frame_length_field p t more []) as [Ht Hl]; [by rewrite app_nil_r|unfold PACKET_HEADER_LENGTH; lia|lia|].
  rewrite find_token_here by (by left). rewrite Hl. unfold PACKET_HEADER_LENGTH.
  destruct (Z.leb_spec (len t) 16); [lia|]. rewrite u64_small by lia.
  destruct (Z.ltb_spec (addr + len t) (addr + (16 + len p))); [|lia].
  by rewrite (proj2 (Z.ltb_ge _ _) Hp2).
Qed.

(** A packet is not the beginning of another one. *)
Lemma frame_not_partial p more : good max p -> ~ partial max (frame p ++ more).
Proof.
  intros [Hp1 Hp2] (q & more' & [Hq1 Hq2] & E & Hne). pose proof (len_frame p). pose proof (len_frame q).
  pose proof (len_nonneg more). unfold PACKET_HEADER_LENGTH in *.
  destruct (frame_length_field p (frame p ++ more) [] more) as [_ Hl1];
    [by rewrite app_nil_r|unfold PACKET_HEADER_LENGTH; lia|rewrite len_app; lia|].
  destruct (frame_length_field q (frame p ++ more) more' []) as [_ Hl2];
    [by rewrite app_nil_r|unfold PACKET_HEADER_LENGTH; lia|rewrite len_app; lia|].
  assert (len (frame q) = len (frame p) + len more + len more') as Hl by (rewrite E, !len_app; lia).
  destruct more'; [done|]. rewrite len_cons in Hl. pose proof (len_nonneg more'). lia.
Qed.

(** Cutting a stream of packets anywhere leaves complete packets and one partial packet. *)
Lemma stream_cut ps : forall x y t,
  Forall (good max) ps -> t = [] \/ partial max t -> x ++ y = concat (frame <$> ps) ++ t ->
  exists ps1 ps2 u, ps = ps1 ++ ps2 /\ x = concat (frame <$> ps1) ++ u /\ (u = [] \/ partial max u) /\
    u ++ y = concat (frame <$> ps2) ++ t.
Proof.
  induction ps as [|p ps IH]; intros x y t Hg Ht E.
  - exists [], [], x. split_and!; try done. destruct Ht as [->|(q & more & Hq & Ef & Hne)].
    + left. by apply app_eq_nil in E as [? _].
    + right. exists q, (y ++ more). split_and!; [done|cbn in E; by rewrite Ef, app_assoc, E|].
      intros Hn. apply app_eq_nil in Hn as [_ ?]. done.
  - apply Forall_cons in Hg as [Hp Hg]. change (frame <$> p :: ps) with (frame p :: (frame <$> ps)) in E. cbn [concat] in E.
    rewrite <- app_assoc in E. destruct (decide (length x < length (frame p))%nat) as [Hl|Hl].
    + exists [], (p :: ps), x. split_and!; [done|done| |by rewrite E; cbn; rewrite <- app_assoc]. right.
      exists p, (drop (length x) (frame p)). split_and!; [done| |].
      * rewrite <- (take_drop (length x) (frame p)) at 1. f_equal.
        transitivity (take (length x) (frame p ++ concat (frame <$> ps) ++ t)); [by rewrite take_app_le by lia|]. rewrite <- E. apply take_app_length.
      * intros Hn. apply (f_equal length) in Hn. rewrite length_drop in Hn. change (length []) with 0%nat in Hn. lia.
    + assert (x = frame p ++ drop (length (frame p)) x) as Hx.
      { rewrite <- (take_drop (length (frame p)) x) at 1. f_equal.
        transitivity (take (length (frame p)) (x ++ y)); [by rewrite take_app_le by lia|]. rewrite E. apply take_app_length. }
      rewrite Hx, <- app_assoc in E. apply app_inv_head in E.
      destruct (IH _ _ _ Hg Ht E) as (ps1 & ps2 & u & -> & Hx' & Hu & Hy).
      exists (p :: ps1), ps2, u. split_and!; [done| |done|done].
      rewrite Hx, Hx'. cbn. by rewrite <- app_assoc.
Qed.

End loop.

(** ** The server's loop *)

Section server_spec.
Context {St : Type} (handle : bytes -> St -> option St).

(** The bodies handled one after the other. *)
Fixpoint handle_all (ps : list bytes) (st : St) : option St :=
  match ps with
  | [] => Some st
  | p :: ps' => st' ← handle p st; handle_all ps' st'
  end.

Lemma handle_all_app ps qs st : handle_all (ps ++ qs) st = st' ← handle_all ps st; handle_all qs st'.
Proof. revert st. induction ps as [|p ps IH]; intros st; [done|]. cbn. destruct (handle p st); [apply IH|done]. Qed.

Abbreviation max := MAX_REQUEST_PACKET_LENGTH.

Lemma parse_frames ps : forall fuel addr t st,
  Forall (good max) ps -> t = [] \/ partial max t -> addr_ok addr (len (concat (frame <$> ps) ++ t)) ->
  (length (concat (frame <$> ps) ++ t) < fuel)%nat ->
  parse_loop (server_handle handle) max fuel addr (concat (frame <$> ps) ++ t) st =
  st' ← handle_all ps st; Some (st', Left t).
Proof.
  induction ps as [|p ps IH]; intros fuel addr t st Hg Ht Ha Hf; (destruct fuel as [|fuel]; [lia|]).
  - cbn [fmap list_fmap concat app handle_all]. destruct Ht as [->|Ht]; [done|]. by apply parse_partial.
  - apply Forall_cons in Hg as [[Hp1 Hp2] Hg]. change (frame <$> p :: ps) with (frame p :: (frame <$> ps)) in *.
    cbn [concat] in *. rewrite <- app_assoc in *. pose proof (len_frame p) as Hl.
    assert (PACKET_HEADER_LENGTH + len p < 2 ^ 31) by (unfold MAX_REQUEST_PACKET_LENGTH, PACKET_HEADER_LENGTH in *; lia).
    rewrite parse_frame by done. change (server_handle handle p st) with (st' ← handle p st; Some (st', @None Z)).
    unfold PACKET_HEADER_LENGTH in Hl. cbn [handle_all].
    destruct (handle p st) as [st'|]; [|done]. msimp. apply IH; [done|done| |].
    + destruct Ha as [Ha0 Ha]. rewrite len_app in Ha. split; lia.
    + rewrite length_app in Hf. unfold len in Hl. lia.
Qed.

Lemma ParsePacket_spec base ps t st :
  Forall (good max) ps -> t = [] \/ partial max t -> addr_ok base (len (concat (frame <$> ps) ++ t)) ->
  ParsePacket handle base (concat (frame <$> ps) ++ t) st = st' ← handle_all ps st; Some (st', Some t).
Proof.
  intros Hg Ht Ha. unfold ParsePacket. rewrite parse_frames by (done || lia).
  destruct (handle_all ps st) as [st'|]; [|done]. msimp. do 3 f_equal.
  destruct (Z.eqb_spec (len t) (len (concat (frame <$> ps) ++ t))) as [E|_]; [|by destruct t].
  rewrite len_app in E. assert (len (concat (frame <$> ps)) = 0) as E' by lia.
  destruct (concat (frame <$> ps)) as [|b l]; [done|]. rewrite len_cons in E'. pose proof (len_nonneg l). lia.
Qed.

(** The addresses of the buffers allow for the [n] bytes of the whole stream. *)
Definition bases_ok (n : Z) (chunks : list (Z * bytes)) : Prop := Forall (fun c => addr_ok c.1 n) chunks.

Lemma addr_ok_le base n m : n <= m -> addr_ok base m -> addr_ok base n.
Proof. intros ? [? ?]. split; lia. Qed.

Lemma recv_loop_spec chunks : forall n ps t reqstr st,
  Forall (good max) ps -> t = [] \/ partial max t -> reqstr = [] \/ partial max reqstr ->
  reqstr ++ concat (snd <$> chunks) = concat (frame <$> ps) ++ t ->
  bases_ok n chunks -> len (concat (frame <$> ps) ++ t) <= n ->
  recv_loop handle chunks reqstr st = st' ← handle_all ps st; Some (st', Some t).
Proof.
  induction chunks as [|[base c] chunks IH]; intros n ps t reqstr st Hg Ht Hr E Hb Hn.
  - cbn in E. rewrite app_nil_r in E. destruct ps as [|p ps]; [by cbn in E; subst|].
    apply Forall_cons in Hg as [Hp _]. exfalso. cbn [fmap list_fmap concat] in E. rewrite <- app_assoc in E. subst reqstr.
    destruct Hr as [Hr|Hr].
    + destruct (frame_cons p) as (b & l & Ef). rewrite Ef in Hr. done.
    + by apply frame_not_partial in Hr.
  - cbn [fmap list_fmap concat snd] in E. rewrite app_assoc in E. apply Forall_cons in Hb as [Hb1 Hb].
    destruct (stream_cut max ps _ _ t Hg Ht E) as (ps1 & ps2 & u & -> & Hx & Hu & Hy).
    apply Forall_app in Hg as [Hg1 Hg2]. cbn [recv_loop]. rewrite Hx.
    assert (len (concat (frame <$> ps1) ++ u) + len (concat (snd <$> chunks)) = len (concat (frame <$> ps1 ++ ps2) ++ t)) as Hlen
      by (by rewrite <- E, Hx, (len_app (concat (frame <$> ps1) ++ u))).
    pose proof (len_nonneg (concat (snd <$> chunks))). pose proof (len_nonneg (concat (frame <$> ps1))).
    rewrite ParsePacket_spec; [|done|done|eapply addr_ok_le; [|exact Hb1]; lia].
    rewrite handle_all_app. destruct (handle_all ps1 st) as [st'|]; [|done]. msimp.
    eapply IH; [done..|exact Hb|]. rewrite <- Hy, len_app. rewrite len_app in Hlen. lia.
Qed.

End server_spec.

Lemma Worker_spec {St} (handle : bytes -> St -> option St) (chunks : list (Z * bytes)) (base : Z)
    (ps : list bytes) (t : bytes) (st : St) :
  Forall (good MAX_REQUEST_PACKET_LENGTH) ps -> t = [] \/ partial MAX_REQUEST_PACKET_LENGTH t ->
  concat (snd <$> chunks) = concat (frame <$> ps) ++ t ->
  bases_ok (len (concat (frame <$> ps) ++ t)) ((base, []) :: chunks) ->
  Worker handle chunks base st = st' ← handle_all handle ps st; Some (st', Some t).
Proof.
  intros Hg Ht E Hb. apply Forall_cons in Hb as [Hb1 Hb]. unfold Worker.
  rewrite (recv_loop_spec handle chunks _ ps t []) by (done || by left).
  destruct (handle_all handle ps st) as [st'|]; [|done]. msimp. destruct t as [|b t]; [done|].
  apply (ParsePacket_spec handle base [] (b :: t) st'); [constructor|done|].
  eapply addr_ok_le; [|exact Hb1]. rewrite (len_app (concat (frame <$> ps))).
  pose proof (len_nonneg (concat (frame <$> ps))). cbn [fmap list_fmap concat app]. lia.
Qed.

(** ** Properties *)

(** C26: the server's framing does not depend on how the network cuts the stream: for every way of
    cutting a stream of packets with bodies of 1 to 4096 bytes, followed by at most a part of one
    more, the worker hands the bodies to the handler, each once and in order, and keeps the part. *)
Theorem worker_framing {St} (handle : bytes -> St -> option St) (chunks : list (Z * bytes)) (base : Z)
    (ps : list bytes) (t : bytes) (st : St) :
  Forall (good MAX_REQUEST_PACKET_LENGTH) ps -> t = [] \/ partial MAX_REQUEST_PACKET_LENGTH t ->
  concat (snd <$> chunks) = concat (frame <$> ps) ++ t ->
  bases_ok (len (concat (frame <$> ps) ++ t)) ((base, []) :: chunks) ->
  Worker handle chunks base st = st' ← handle_all handle ps st; Some (st', Some t).
Proof. apply Worker_spec. Qed.

(** Handling a body is recording it. *)
Definition record (p : bytes) (st : list bytes) : option (list bytes) := Some (st ++ [p]).

Lemma worker_framing_witness :
  Worker record [(0, [64; 77; 121]); (0, [80; 82; 79; 88; 89; 17; 0; 0; 0; 0; 0; 0; 0; 5; 64])] 0 []
  = Some ([[5]], Some [64]).
Proof.
  rewrite (worker_framing record _ 0 [[5]] [64] []).
  - reflexivity.
  - repeat constructor; vm_compute; discriminate.
  - right. exists [7], (tail (frame [7])). split_and!; [by split; vm_compute|done|done].
  - reflexivity.
  - repeat constructor; vm_compute; discriminate || reflexivity.
Defined.

(** C28: a packet whose length field is below 16 makes the size of the body wrap around; the string
    constructor throws and, since nothing catches it, the process ends.  It takes one such packet
    from any peer. *)
Theorem short_length_throws {St} (handle : bytes -> St -> option St) (base n : Z) (b : Z) (more : bytes) (st : St) :
  0 <= n < PACKET_HEADER_LENGTH -> addr_ok base (17 + len more) ->
  ParsePacket handle base (PACKET_START_TOKEN ++ le_split 8 n ++ b :: more) st = Some (st, None).
Proof.
  intros Hn [Ha0 Ha]. unfold ParsePacket. set (l := PACKET_START_TOKEN ++ le_split 8 n ++ b :: more).
  assert (len l = 17 + len more) as Hl.
  { subst l. rewrite !len_app, len_cons, len_le_split. change (len PACKET_START_TOKEN) with 8. lia. }
  pose proof (len_nonneg more). unfold PACKET_HEADER_LENGTH in *.
  assert (parse_loop (server_handle handle) MAX_REQUEST_PACKET_LENGTH (S (length l)) base l st = Some (st, LengthError)) as ->; [|done].
  assert (le_combine (take 8 (drop 8 l)) = n) as Hc.
  { subst l. rewrite (drop_app_length' PACKET_START_TOKEN), take_app_length' by (by rewrite ?length_le_split).
    apply le_combine_split. change (256 ^ Z.of_nat 8) with (2 ^ 64). lia. }
  cbn [parse_loop]. rewrite find_token_here by (by left). rewrite Hc, Hl.
  unfold PACKET_HEADER_LENGTH. destruct (Z.leb_spec (17 + len more) 16); [lia|].
  rewrite (u64_small (base + n)) by lia. destruct (Z.ltb_spec (base + (17 + len more)) (base + n)); [lia|].
  assert (u64 (n - 16) = 2 ^ 64 + n - 16) as ->.
  { unfold u64. replace (n - 16) with (2 ^ 64 + n - 16 + (-1) * 2 ^ 64) by lia. rewrite Z.mod_add, Z.mod_small; lia. }
  unfold string_max_size. destruct (Z.ltb_spec (2 ^ 63 - 1) (2 ^ 64 + n - 16)); [done|lia].
Qed.

Lemma short_length_throws_witness :
  ParsePacket record 0 (PACKET_START_TOKEN ++ le_split 8 3 ++ 1 :: []) [] = Some ([], None).
Proof. apply (short_length_throws record 0 3 1 []); [by vm_compute|by split; vm_compute]. Defined.

Lemma find_token_suffix rest : forall addr, 0 <= addr ->
  exists pre, rest = pre ++ (find_token addr rest).2 /\ (find_token addr rest).1 = addr + len pre.
Proof.
  induction rest as [|b rest IH]; intros addr Ha; [exists []; split; [done|rewrite (@len_nil Z); cbn [find_token fst]; lia]|]. cbn [find_token].
  destruct (_ && _).
  - destruct (IH (addr + 1)) as (pre & E & E2); [lia|]. exists (b :: pre). cbn [app]. split; [by f_equal|].
    rewrite E2, len_cons. lia.
  - exists []. split; [done|]. rewrite (@len_nil Z). cbn [fst]. lia.
Qed.

(** Whatever the bytes, the loop keeps an invariant of the handler, reads only inside the buffer and
    ends. *)
Lemma parse_loop_inv {St} (handle : bytes -> St -> option (St * option Z)) (max n : Z) (I : St -> Prop) :
  (forall p s, I s -> len p < n -> exists s' ret, handle p s = Some (s', ret) /\ I s') -> forall fuel addr rest st,
  I st -> is_bytes rest -> 0 <= addr -> addr + len rest < 2 ^ 62 -> len rest < n -> (length rest < fuel)%nat ->
  exists st' e, parse_loop handle max fuel addr rest st = Some (st', e) /\ I st' /\
    (forall r, e = Left r -> is_bytes r /\ len r <= len rest).
Proof.
  intros Hh. induction fuel as [|fuel IH]; intros addr rest st Hi Hb Ha Hl Hln Hf; [lia|]. cbn [parse_loop].
  destruct rest as [|b0 rest0]; [by eexists _, _; split_and!; [done|done|intros r [= <-]]|].
  remember (b0 :: rest0) as rest eqn:Er. clear Er b0 rest0.
  destruct (find_token_suffix rest addr Ha) as (pre & E & E2). destruct (find_token addr rest) as [addr' rest'].
  cbn [fst snd] in E, E2. subst rest addr'. apply Forall_app in Hb as [_ Hb]. rewrite len_app in *. rewrite length_app in Hf.
  pose proof (len_nonneg pre) as Hp0. pose proof (len_nonneg rest') as Hr0. unfold PACKET_HEADER_LENGTH.
  assert (forall st1 e, I st1 -> e = Left rest' \/ (forall r, e <> Left r) -> exists st' e', Some (st1, e) = Some (st', e') /\ I st' /\
    (forall r, e' = Left r -> is_bytes r /\ len r <= len pre + len rest')) as Hstop.
  { intros st1 e Hi1 He. eexists _, _. split; [done|]. split; [done|]. intros r ->. destruct He as [[= ->]|He]; [|by destruct (He r)].
    split; [done|lia]. }
  destruct (Z.leb_spec (len rest') 16) as [|Hlen]; [apply Hstop; auto|].
  set (packlen := le_combine (take 8 (drop 8 rest'))).
  assert (0 <= packlen < 2 ^ 64) as Hpk.
  { pose proof (le_combine_range (take 8 (drop 8 rest'))) as Hrng. fold packlen in Hrng.
    assert (len (take 8 (drop 8 rest')) = 8) as H8 by (unfold len in *; rewrite length_take, length_drop; lia).
    rewrite H8 in Hrng. apply Hrng. apply Forall_take, Forall_drop, Hb. }
  assert (forall k st1, I st1 -> (0 < k)%nat -> exists st' e, parse_loop handle max fuel (addr + len pre + Z.of_nat k) (drop k rest') st1
      = Some (st', e) /\ I st' /\ (forall r, e = Left r -> is_bytes r /\ len r <= len pre + len rest') \/ len rest' < Z.of_nat k) as Hnext.
  { intros k st1 Hi1 Hk. destruct (decide (len rest' < Z.of_nat k)) as [|Hkl]; [by exists st, LengthError; right|].
    assert (len (drop k rest') = len rest' - Z.of_nat k) as Hd by (unfold len in *; rewrite length_drop; lia).
    destruct (IH (addr + len pre + Z.of_nat k) (drop k rest') st1) as (st' & e & E & Hi' & Hr); [done|by apply Forall_drop|lia|lia|lia| |].
    { rewrite length_drop. unfold len in *. lia. }
    exists st', e. left. split; [done|]. split; [done|]. intros r Her. destruct (Hr r Her). split; [done|lia]. }
  destruct (Z.ltb_spec (addr + len pre + len rest') (u64 (addr + len pre + packlen))) as [|Hfit].
  - zif; [|apply Hstop; auto]. destruct (Hnext 1%nat st Hi) as (st' & e & [Hx|Hx]); [lia| |lia].
    exists st', e. destruct rest' as [|b rest']; [done|]. exact Hx.
  - destruct (Z.ltb_spec string_max_size (u64 (packlen - 16))) as [|Hms]; [apply Hstop; [done|by right]|]. unfold string_max_size in Hms.
    assert (16 <= packlen < 2 ^ 63 + 16) as Hpk2.
    { unfold u64 in Hms. destruct (Z.lt_ge_cases packlen 16).
      - replace (packlen - 16) with (2 ^ 64 + packlen - 16 + (-1) * 2 ^ 64) in Hms by lia.
        rewrite Z.mod_add, Z.mod_small in Hms by lia. lia.
      - rewrite Z.mod_small in Hms by lia. lia. }
    rewrite u64_small in Hfit by lia. rewrite u64_small by lia.
    destruct (mem_read rest' 16 (packlen - 16)) as [body|] eqn:Eb; [|by destruct (mem_read_is_Some rest' 16 (packlen - 16)); [lia..|simplify_eq]].
    msimp. apply mem_read_len in Eb. destruct (Hh body st Hi) as (st' & [r|] & -> & Hi'); [lia| |]; msimp; [apply Hstop; [done|by right]|].
    destruct (Hnext (Z.to_nat packlen) st' Hi') as (st2 & e & [Hx|Hx]); [lia| |lia]. rewrite Z2Nat.id in Hx by lia. eauto.
Qed.

Lemma ParsePacket_inv {St} (handle : bytes -> St -> option St) (n : Z) (I : St -> Prop) base reqstr st :
  (forall p s, I s -> len p < n -> exists s', handle p s = Some s' /\ I s') ->
  I st -> is_bytes reqstr -> 0 <= base -> base + len reqstr < 2 ^ 62 -> len reqstr < n ->
  exists st' r, ParsePacket handle base reqstr st = Some (st', r) /\ I st' /\
    (forall q, r = Some q -> is_bytes q /\ len q <= len reqstr).
Proof.
  intros Hh Hi Hb Hb0 Hb1 Hn. unfold ParsePacket.
  destruct (parse_loop_inv (server_handle handle) MAX_REQUEST_PACKET_LENGTH n I) with (fuel := S (length reqstr))
    (addr := base) (rest := reqstr) (st := st) as (st' & e & -> & Hi' & Hr); try done; [|lia|].
  { intros p s Hs Hp. unfold server_handle. destruct (Hh p s Hs Hp) as (s' & -> & ?). msimp. eauto. }
  msimp. eexists _, _. split; [done|]. split; [done|]. intros q. destruct e as [r|r|]; [|by intros [= <-]|done].
  destruct (Hr r eq_refl) as [Hrb Hrl]. destruct (Z.eqb _ _); intros [= <-]; [done|]. destruct r; [|done]. split; [constructor|lia].
Qed.

(** A whole connection. *)
Lemma recv_loop_inv {St} (handle : bytes -> St -> option St) (n : Z) (I : St -> Prop) :
  (forall p s, I s -> len p < n -> exists s', handle p s = Some s' /\ I s') -> forall chunks reqstr st,
  I st -> is_bytes reqstr -> Forall (fun c => is_bytes c.2 /\ 0 <= c.1 /\ c.1 + n < 2 ^ 62) chunks ->
  len reqstr + len (concat (snd <$> chunks)) < n ->
  exists st' r, recv_loop handle chunks reqstr st = Some (st', r) /\ I st' /\
    (forall q, r = Some q -> is_bytes q /\ len q < n).
Proof.
  intros Hh. induction chunks as [|[base c] chunks IH]; intros reqstr st Hi Hb Hc Hn; cbn [recv_loop].
  - eexists _, _. split; [done|]. split; [done|]. intros q [= <-]. change (len (concat (snd <$> []))) with 0 in Hn. split; [done|lia].
  - apply Forall_cons in Hc as [(Hcb & Hc0 & Hc1) Hc]. cbn [fmap list_fmap concat fst snd] in *. rewrite len_app in Hn.
    change (list_fmap _ _ snd chunks) with (snd <$> chunks) in Hn.
    pose proof (len_nonneg (concat (snd <$> chunks))).
    destruct (ParsePacket_inv handle n I base (reqstr ++ c) st Hh Hi) as (st' & r & -> & Hi' & Hr);
      [by apply Forall_app|done|rewrite len_app; lia|rewrite len_app; lia|]. msimp. rewrite len_app in Hr.
    destruct r as [q|]; [|by eexists _, _]. destruct (Hr q eq_refl) as [Hqb Hql]. apply IH; [done|done|done|lia].
Qed.

Lemma Worker_inv {St} (handle : bytes -> St -> option St) (n : Z) (I : St -> Prop) chunks base st :
  (forall p s, I s -> len p < n -> exists s', handle p s = Some s' /\ I s') ->
  I st -> Forall (fun c => is_bytes c.2 /\ 0 <= c.1 /\ c.1 + n < 2 ^ 62) ((base, []) :: chunks) ->
  len (concat (snd <$> chunks)) < n ->
  exists st' r, Worker handle chunks base st = Some (st', r) /\ I st'.
Proof.
  intros Hh Hi Hc Hn. apply Forall_cons in Hc as [(_ & Hc0 & Hc1) Hc]. unfold Worker.
  destruct (recv_loop_inv handle n I Hh chunks [] st) as (st' & r & -> & Hi' & Hr);
    [done|constructor|done|rewrite (@len_nil Z); lia|]. msimp.
  destruct r as [[|b q]|]; [eauto| |eauto]. destruct (Hr _ eq_refl) as [Hqb Hql].
  destruct (ParsePacket_inv handle n I base (b :: q) st' Hh Hi') as (st2 & r2 & -> & Hi2 & _); [done|done|cbn in *; lia|done|eauto].
Qed.

(** On every buffer a peer can send, the server's loop terminates without reading outside the
    buffer: it either returns the bytes it did not consume or throws [std::length_error]. *)
Theorem parse_packet_total {St} (handle : bytes -> St -> option St) (base : Z) (reqstr : bytes) (st : St) :
  (forall p s, is_Some (handle p s)) -> is_bytes reqstr -> 0 <= base -> base + len reqstr < 2 ^ 62 ->
  is_Some (ParsePacket handle base reqstr st).
Proof.
  intros Hh Hb Hb0 Hb1.
  destruct (ParsePacket_inv handle (len reqstr + 1) (fun _ => True) base reqstr st) as (st' & r & -> & _);
    [|done|done|done|done|lia|eauto].
  intros p s _ _. destruct (Hh p s) as [s' ->]. eauto.
Qed.

Lemma parse_packet_total_witness : is_Some (ParsePacket record 4096 [1; 2; 64; 77] []).
Proof.
  apply (parse_packet_total record 4096 [1; 2; 64; 77] []); [by intros|repeat constructor; lia|lia|vm_compute; reflexivity].
Defined.

(** The limit on the size of a request holds only for packets that arrive in several pieces: a
    packet with a body of 4097 bytes is handled when it arrives at once, and dropped when its last
    byte arrives separately. *)
Theorem limit_depends_on_chunks :
  let big := frame (replicate 4097 7) in
  (length <$> (fst <$> Worker record [(0, big)] 0 []), length <$> (fst <$> Worker record [(0, take 4112 big); (0, drop 4112 big)] 0 []))
  = (Some 1%nat, Some 0%nat).
Proof. vm_compute. reflexivity. Qed.

(** The client waits for a response of up to 500 MB to be complete, and then returns what
    [ProcessResponse] returns for its body; the packet stays in the buffer. *)
Theorem client_waits_for_frame {St} (process : bytes -> St -> option (option (St * Z))) (base : Z)
    (p t more : bytes) (st st' : St) (v : Z) :
  good MAX_RESPONSE_PACKET_LENGTH p -> frame p = t ++ more -> addr_ok base (len (frame p)) ->
  process p st = Some (Some (st', v)) ->
  api_ParsePacket process base t st =
  if decide (more = []) then Some (st', Some (v, t)) else Some (st, Some (0, t)).
Proof.
  intros Hp E [Ha0 Ha] Hpr. unfold api_ParsePacket. rewrite E, len_app in Ha. pose proof (len_nonneg more).
  case_decide as Hm.
  - subst more. rewrite app_nil_r in E. subst t. destruct Hp as [Hp1 Hp2].
    assert (PACKET_HEADER_LENGTH + len p < 2 ^ 31) by (unfold MAX_RESPONSE_PACKET_LENGTH in Hp2; lia).
    rewrite <- (app_nil_r (frame p)) at 2. rewrite parse_frame; [|done|done|rewrite app_nil_r; split; lia].
    assert (client_handle process p st = Some (st', Some v)) as -> by (unfold client_handle; by rewrite Hpr). done.
  - rewrite parse_partial; [|done|by exists p, more|split; lia]. msimp. rewrite Z.eqb_refl. done.
Qed.

Lemma client_waits_for_frame_witness :
  api_ParsePacket (fun p (s : Z) => Some (Some (s + len p, 1))) 0 (frame [9; 9]) 5 = Some (7, Some (1, frame [9; 9])).
Proof.
  rewrite (client_waits_for_frame _ 0 [9; 9] (frame [9; 9]) [] 5 7 1);
    [reflexivity|by split; vm_compute|by rewrite app_nil_r|by split; vm_compute|reflexivity].
Defined.
