(* ===== verification/Traffic.v ===== *)
(** * Traffic control (src/comm/atomic_counter_array.c, src/mysql_proxy_server.cpp)

    Six counters of bytes sent, used as a ring: [cIdx] moves backwards, the
    five slots from [cIdx] on are the last five time slices and the sixth is
    the next one to be used.  The specification is a window of five slices,
    the most recent first.  One process is modelled; the [lock] prefix of the
    assembly makes each counter operation atomic. *)

From S2P Require Import Prelude.

(** ** The counters *)

(** Models [atomic_counter_t] (src/comm/atomic_counter_array.h:19-25). *)
Record atomic_counter_t := mk_counter { dwCounter : list Z; cIdx : Z }.

Definition slot (i : Z) (c : atomic_counter_t) : nat := Z.to_nat ((cIdx c + i) mod 6).

(** [memset(ptr, 0, sizeof(atomic_counter_t))] *)
Definition zero_counter : atomic_counter_t := mk_counter (replicate 6 0) 0.

(** Attaching without and with [IPC_CREAT]: [old] is the segment that exists, [fresh] the one that is
    made; the [bool] of the result tells that it was made. *)
(** Models [GetShm3] (src/comm/atomic_counter_array.c:23-36). *)
Definition GetShm3 {A} (create : bool) (old fresh : option A) : option (A * bool) :=
  match old with
  | Some s => Some (s, false)
  | None => if create then (fun s => (s, true)) <$> fresh else None
  end.

(** Returns the code and the counter. *)
(** Models [atomic_counter_array_init] (src/comm/atomic_counter_array.c:38-57). *)
Definition atomic_counter_array_init (old fresh : option atomic_counter_t) (iVal : Z) : Z * option atomic_counter_t :=
  match GetShm3 true old fresh with
  | None => (-20, None)
  | Some (c, false) => (0, Some c)
  | Some (_, true) => (0, Some (mk_counter (<[0%nat := iVal]> (replicate 6 0)) 0))
  end.

(** [dwCounter[i]]; [None] is an access outside the array. *)
Definition get_slot (i : Z) (c : atomic_counter_t) : option Z := dwCounter c !! slot i c.

Definition upd_slot (i : Z) (f : Z -> Z) (c : atomic_counter_t) : option atomic_counter_t :=
  v ← get_slot i c; Some (mk_counter (<[slot i c := f v]> (dwCounter c)) (cIdx c)).

(** The counter itself, indexed without a modulus. *)
Definition upd_current (f : Z -> Z) (c : atomic_counter_t) : option atomic_counter_t :=
  v ← dwCounter c !! Z.to_nat (cIdx c);
  Some (mk_counter (<[Z.to_nat (cIdx c) := f v]> (dwCounter c)) (cIdx c)).

(** Models [atomic_counter_array_inc_current_slot] (src/comm/atomic_counter_array.c:58-66). *)
Definition atomic_counter_array_inc_current_slot (c : atomic_counter_t) : option atomic_counter_t :=
  upd_current (fun v => u32 (v + 1)) c.

(** The compare-and-swap succeeds at once: the counter goes down unless it is 0. *)
(** Models [atomic_counter_array_dec_current_slot] (src/comm/atomic_counter_array.c:88-109). *)
Definition atomic_counter_array_dec_current_slot (c : atomic_counter_t) : option atomic_counter_t :=
  upd_current (fun v => let dec := u32 (v - 1) in if Z.eqb dec (2 ^ 32 - 1) then v else dec) c.

(** Models [atomic_counter_array_set_lastest_slot] (src/comm/atomic_counter_array.c:111-119). *)
Definition atomic_counter_array_set_lastest_slot (c : atomic_counter_t) (val : Z) : option atomic_counter_t :=
  upd_slot 4 (fun _ => val) c.

(** [*pval] starts from the caller's value. *)
(** Models [atomic_counter_array_get_five_slots] (src/comm/atomic_counter_array.c:121-131). *)
Definition atomic_counter_array_get_five_slots (c : atomic_counter_t) (pval : Z) : option Z :=
  foldl (fun r i => s ← r; v ← get_slot i c; Some (u32 (s + v))) (Some pval) [0; 1; 2; 3; 4].

(** Models [atomic_counter_array_get_current_slot] (src/comm/atomic_counter_array.c:133-141). *)
Definition atomic_counter_array_get_current_slot (c : atomic_counter_t) : option Z :=
  dwCounter c !! Z.to_nat (cIdx c).

(** Models [atomic_counter_array_add_current_slot] (src/comm/atomic_counter_array.c:143-151). *)
Definition atomic_counter_array_add_current_slot (c : atomic_counter_t) (val : Z) : option atomic_counter_t :=
  upd_current (fun v => u32 (v + val)) c.

(** ** The control *)

Record timeval := mk_tv { tv_sec : Z; tv_usec : Z }.

(** Models [TimeToUsec] (src/mysql_proxy_server.cpp:627-636). *)
Definition TimeToUsec (t : timeval) : Z := u64 (u64 (u64 (tv_sec t) * 1000000) + tv_usec t).

(** Models [SubTime] (src/mysql_proxy_server.cpp:638-641). *)
Definition SubTime (t1 t2 : timeval) : Z := u64 (TimeToUsec t1 - TimeToUsec t2).

(** The shared counter and the [static] array of the function. *)
Record traffic := mk_traffic { tr_counter : atomic_counter_t; tvTime : list timeval }.

(** [tvTime[(cIdx + i) % 6]] *)
Definition slot_time (i : Z) (s : traffic) : option timeval := tvTime s !! slot i (tr_counter s).

(** A new time slice. *)
(** Models [TrafficCtl] (src/mysql_proxy_server.cpp:661-667). *)
Definition rotate (tvNow : timeval) (s : traffic) : option traffic :=
  c ← atomic_counter_array_set_lastest_slot (tr_counter s) 0;
  let idx := u8 ((cIdx c + 5) mod 6) in
  _ ← tvTime s !! Z.to_nat idx;
  Some (mk_traffic (mk_counter (dwCounter c) idx) (<[Z.to_nat idx := tvNow]> (tvTime s))).

(** Models [TrafficCtl] (src/mysql_proxy_server.cpp:643-679). *)
Definition TrafficCtl (iUTimePice iSendBytesLimit : Z) (tvNow : timeval) (s : traffic) : option (Z * traffic) :=
  t0 ← tvTime s !! Z.to_nat (cIdx (tr_counter s));
  let ullUsec := SubTime tvNow t0 in
  if Z.leb (u64 (5000 * 1000000 * u64 iUTimePice)) ullUsec then
    Some (0, mk_traffic zero_counter (replicate 6 tvNow))
  else
    s1 ← (if Z.ltb (u64 (100000 * u64 iUTimePice)) ullUsec then rotate tvNow s else Some s);
    t4 ← slot_time 4 s1;
    let ullUsec' := SubTime tvNow t4 in
    if Z.leb (u64 (100000 * u64 iUTimePice)) ullUsec' then
      dwSendBytes ← atomic_counter_array_get_five_slots (tr_counter s1) 0;
      if Z.eqb ullUsec' 0 then None
      else if Z.ltb (u64 iSendBytesLimit) (u64 (dwSendBytes * 1000000) / ullUsec')
      then Some (1, s1) else Some (0, s1)
    else Some (0, s1).

(** ** The window of five slices *)

(** Bytes sent in the slice and when it began, the most recent slice first. *)
Definition window := list (Z * timeval).

Definition total (w : window) : Z := foldr Z.add 0 w.*1.

Definition spec_add (val : Z) (w : window) : window :=
  match w with
  | (b, t) :: w' => (u32 (b + val), t) :: w'
  | [] => []
  end.

(** Too fast: more than [limit] bytes a second since the oldest slice began. *)
Definition too_fast (piece limit : Z) (now : timeval) (w : window) : bool :=
  match last w with
  | Some (_, t4) =>
      let span := SubTime now t4 in
      Z.leb (100000 * piece) span && Z.ltb limit (u32 (total w) * 1000000 / span)
  | None => false
  end.

(** A slice lasts [piece] tenths of a second; after 5000 [piece] seconds of silence, or when the clock
    goes back, everything starts again. *)
Definition spec_ctl (piece limit : Z) (now : timeval) (w : window) : Z * window :=
  match w with
  | [] => (0, w)
  | (_, t0) :: _ =>
      let age := SubTime now t0 in
      if Z.leb (5000 * 1000000 * piece) age then (0, replicate 5 (0, now))
      else
        let w' := if Z.ltb (100000 * piece) age then (0, now) :: take 4 w else w in
        (if too_fast piece limit now w' then 1 else 0, w')
  end.

(** [s] holds the window [w], and the slot that comes next is empty. *)
Record win_rep (s : traffic) (w : window) : Prop := {
  wr_idx : 0 <= cIdx (tr_counter s) < 6;
  wr_counters : length (dwCounter (tr_counter s)) = 6%nat;
  wr_times : length (tvTime s) = 6%nat;
  wr_slots : (fun i => b ← get_slot i (tr_counter s); t ← slot_time i s; Some (b, t)) <$> [0; 1; 2; 3; 4] = Some <$> w;
  wr_next : get_slot 5 (tr_counter s) = Some 0
}.

Lemma u32_add_l a b : u32 (u32 a + b) = u32 (a + b).
Proof. unfold u32. apply Zplus_mod_idemp_l. Qed.

(** The six slots one by one. *)
Lemma win_rep_cases s w :
  win_rep s w ->
  exists i a0 a1 a2 a3 a4 a5 t0 t1 t2 t3 t4 t5,
    s = mk_traffic (mk_counter [a0; a1; a2; a3; a4; a5] i) [t0; t1; t2; t3; t4; t5] /\
    (i = 0 \/ i = 1 \/ i = 2 \/ i = 3 \/ i = 4 \/ i = 5).
Proof.
  intros [Hi Hc Ht _ _]. destruct s as [[cs i] ts]. cbn in *.
  destruct cs as [|a0 [|a1 [|a2 [|a3 [|a4 [|a5 [|]]]]]]]; try done.
  destruct ts as [|t0 [|t1 [|t2 [|t3 [|t4 [|t5 [|]]]]]]]; try done.
  exists i, a0, a1, a2, a3, a4, a5, t0, t1, t2, t3, t4, t5. split; [done|lia].
Qed.

(** Evaluates the closed indices. *)
Ltac idx_eval :=
  unfold get_slot, slot_time, slot in *; cbn [cIdx tr_counter dwCounter tvTime] in *;
  repeat match goal with
  | |- context [Z.to_nat ?z] => let n := eval vm_compute in (Z.to_nat z) in change (Z.to_nat z) with n
  | H : context [Z.to_nat ?z] |- _ => let n := eval vm_compute in (Z.to_nat z) in change (Z.to_nat z) with n in H
  end.

Ltac win_cases H w :=
  let i := fresh "i" in
  destruct (win_rep_cases _ _ H) as (i & a0 & a1 & a2 & a3 & a4 & a5 & t0 & t1 & t2 & t3 & t4 & t5 & -> & Hi);
  destruct H as [_ _ _ Hws Hwn];
  repeat destruct Hi as [Hi|Hi]; subst i; cbn [fmap list_fmap] in Hws; idx_eval; cbn in Hws, Hwn;
  destruct w as [|[] [|[] [|[] [|[] [|[] [|]]]]]]; try discriminate Hws; cbn in Hws; simplify_eq.

Lemma five_slots_spec s w :
  win_rep s w -> atomic_counter_array_get_five_slots (tr_counter s) 0 = Some (u32 (total w)).
Proof.
  intros H. win_cases H w; unfold total, atomic_counter_array_get_five_slots; cbn [foldl]; idx_eval;
    cbn -[u32 Z.add]; repeat (rewrite <- ?Z.add_assoc; rewrite u32_add_l); do 2 f_equal; lia.
Qed.

Lemma oldest_spec s w : win_rep s w -> exists x, last w = Some x /\ slot_time 4 s = Some x.2.
Proof. intros H. win_cases H w; idx_eval; by eexists. Qed.

Lemma newest_spec s w : win_rep s w -> exists x w', w = x :: w' /\ tvTime s !! Z.to_nat (cIdx (tr_counter s)) = Some x.2.
Proof. intros H. win_cases H w; idx_eval; by do 2 eexists. Qed.

Lemma rotate_spec now s w : win_rep s w -> exists s', rotate now s = Some s' /\ win_rep s' ((0, now) :: take 4 w).
Proof.
  intros H. win_cases H w; unfold rotate, atomic_counter_array_set_lastest_slot, upd_slot; idx_eval; msimp; idx_eval;
    (eexists; split; [reflexivity|]; split; [vm_compute; split; discriminate || reflexivity|done|done|reflexivity|reflexivity]).
Qed.

Lemma add_current_spec s w val :
  win_rep s w ->
  exists c, atomic_counter_array_add_current_slot (tr_counter s) val = Some c /\
    win_rep (mk_traffic c (tvTime s)) (spec_add val w).
Proof.
  intros H. win_cases H w; unfold atomic_counter_array_add_current_slot, upd_current; idx_eval;
    (eexists; split; [reflexivity|]; split; [cbn; lia|done|done|reflexivity|reflexivity]).
Qed.

Lemma SubTime_range a b : 0 <= SubTime a b < 2 ^ 64.
Proof. apply u64_range. Qed.

Lemma TrafficCtl_spec (piece limit : Z) (now : timeval) (s : traffic) (w : window) :
  win_rep s w -> 0 < piece <= 50 -> 0 <= limit < 2 ^ 31 ->
  exists s', TrafficCtl piece limit now s = Some ((spec_ctl piece limit now w).1, s') /\
     win_rep s' (spec_ctl piece limit now w).2.
Proof.
  intros Hw Hp Hl. unfold TrafficCtl.
  destruct (newest_spec s w Hw) as ([b0 t0] & w0 & -> & ->). msimp. unfold spec_ctl.
  rewrite !(u64_small piece), !(u64_small (_ * piece)), (u64_small limit) by lia.
  destruct (Z.leb_spec (5000 * 1000000 * piece) (SubTime now t0)).
  { eexists. split; [done|]. split; cbn; [lia|done..]. }
  assert (exists s1, (if Z.ltb (100000 * piece) (SubTime now t0) then rotate now s else Some s) = Some s1 /\
    win_rep s1 (if Z.ltb (100000 * piece) (SubTime now t0) then (0, now) :: take 4 ((b0, t0) :: w0) else (b0, t0) :: w0)) as (s1 & -> & Hw1).
  { destruct (Z.ltb _ _); [by apply rotate_spec|eauto]. }
  cbn [snd] in *. msimp. set (w1 := if Z.ltb (100000 * piece) (SubTime now t0) then _ else _) in Hw1 |- *. clearbody w1.
  destruct (oldest_spec s1 w1 Hw1) as ([b4 t4] & Hlast & ->). msimp. cbn [fst snd].
  unfold too_fast. rewrite Hlast. rewrite (five_slots_spec s1 w1 Hw1). msimp.
  pose proof (SubTime_range now t4). pose proof (u32_range (total w1)). rewrite (u64_small (_ * 1000000)) by lia.
  destruct (Z.leb_spec (100000 * piece) (SubTime now t4)); cbn [andb]; [|eauto].
  destruct (Z.eqb_spec (SubTime now t4) 0); [lia|]. destruct (Z.ltb _ _); eauto.
Qed.

(** ** Properties *)


(** Five slices of a second, 400 million bytes in each. *)
Definition busy : traffic :=
  mk_traffic (mk_counter [400000000; 400000000; 400000000; 400000000; 400000000; 0] 0)
    [mk_tv 1004 0; mk_tv 1003 0; mk_tv 1002 0; mk_tv 1001 0; mk_tv 1000 0; mk_tv 0 0].
Definition busy_window : window :=
  [(400000000, mk_tv 1004 0); (400000000, mk_tv 1003 0); (400000000, mk_tv 1002 0); (400000000, mk_tv 1001 0);
   (400000000, mk_tv 1000 0)].


(** The sum of the slices is kept in 32 bits: with the longest slice (5 seconds) and the highest
    limit (500 MB a second), a server that has sent 859 MB a second for five slices is not stopped. *)
Theorem traffic_sum_wraps :
  let w := (fun i => (4294967295, mk_tv (1020 - 5 * i) 0)) <$> [0; 1; 2; 3; 4] in
  let now := mk_tv 1025 0 in
  (too_fast 50 500000000 now w, total w * 1000000 / SubTime now (mk_tv 1000 0)) = (false, 858993459).
Proof. vm_compute. reflexivity. Qed.
