(* ===== verification/Keys.v ===== *)
(** * The key file (src/mysql_proxy_server.cpp, LoadKeyFile)

    The file is the list of its bytes; an input stream is what is left of it
    and whether it is still good. *)

From S2P Require Import Prelude Crypt.

(** ** Reading lines *)

Record ifstream := mk_ifs { ifs_rest : bytes; ifs_good : bool }.

(** The characters before the first newline, at most [n] of them, and what ends them. *)
Inductive stop := Newline | EndOfFile | BufferFull.

Fixpoint scan_line (n : nat) (s : bytes) : bytes * bytes * stop :=
  match s with
  | [] => ([], [], EndOfFile)
  | c :: s' =>
      if Z.eqb c 10 then ([], s', Newline)
      else match n with
           | O => ([], s, BufferFull)
           | S n' => let '(l, r, e) := scan_line n' s' in (c :: l, r, e)
           end
  end.

(** [ifs.getline(line, n)]: nothing is read from a stream that is not good; the stream stays good
    only when a newline ends the line. *)
Definition getline (n : Z) (s : ifstream) : bytes * ifstream :=
  if ifs_good s then
    let '(l, r, e) := scan_line (Z.to_nat (n - 1)) (ifs_rest s) in
    (l, mk_ifs r (match e with Newline => true | _ => false end))
  else ([], s).

(** The text of a [char] array: it ends at the first 0. *)
Fixpoint c_str (l : bytes) : bytes :=
  match l with
  | c :: l' => if Z.eqb c 0 then [] else c :: c_str l'
  | [] => []
  end.

(** ** One line *)

(** [while( *pstr && !isspace( *pstr) && *pstr!='#')]: the word and what follows it. *)
(** Models [LoadKeyFile] (src/mysql_proxy_server.cpp:456-460). *)
Fixpoint word (s : bytes) : bytes * bytes :=
  match s with
  | c :: s' =>
      if isspace c || Z.eqb c 35 then ([], s)
      else let '(w, r) := word s' in (c :: w, r)
  | [] => ([], [])
  end.

Definition at_hash (s : bytes) : bool := match s with c :: _ => Z.eqb c 35 | [] => false end.
Definition at_end (s : bytes) : bool := match s with [] => true | _ => false end.

(** The name and the key of a line; [None] for a comment. *)
(** Models [LoadKeyFile] (src/mysql_proxy_server.cpp:448-474). *)
Definition parse_line (line : bytes) : option (bytes * bytes) :=
  let pstr := skip_spaces line in
  if at_hash pstr then None
  else
    let '(appname, pstr) := word pstr in
    if at_end pstr || at_hash pstr then Some (appname, [])
    else Some (appname, (word (skip_spaces pstr)).1).

Section load.
Context `{D : Des}.

(** [line] has room for 10240 characters.  Every turn reads at least one character or finds the
    stream not good and stops. *)
(** Models [LoadKeyFile] (src/mysql_proxy_server.cpp:442-485). *)
Fixpoint load_loop (fuel : nat) (s : ifstream) (keys : gmap bytes bytes) : option (gmap bytes bytes) :=
  match fuel with
  | O => None
  | S fuel' =>
      let '(l, s') := getline 10240 s in
      match c_str l with
      | [] => if ifs_good s' then load_loop fuel' s' keys else Some keys
      | line =>
          match parse_line line with
          | None => load_loop fuel' s' keys
          | Some (appname, appkey) => load_loop fuel' s' (<[appname := passwd2des appkey]> keys)
          end
      end
  end.

(** [None] for a file that cannot be opened.  Returns the number of keys, or -1. *)
(** Models [LoadKeyFile] (src/mysql_proxy_server.cpp:433-500). *)
Definition LoadKeyFile (file : option bytes) (keys : gmap bytes bytes) : option (Z * gmap bytes bytes) :=
  match file with
  | None => Some (-1, keys)
  | Some text =>
      keys' ← load_loop (S (S (length text))) (mk_ifs text true) keys;
      Some (Z.of_nat (size keys'), keys')
  end.

(** ** Correctness *)

Definition word_char (c : Z) : bool := negb (isspace c || Z.eqb c 35 || Z.eqb c 0).
Definition is_word (w : bytes) : Prop := w <> [] /\ Forall (fun c => word_char c = true) w.

(** A line [name key]. *)
Definition entry_line (e : bytes * bytes) : bytes := e.1 ++ 32 :: e.2 ++ [10].
Definition entry_ok (e : bytes * bytes) : Prop :=
  is_word e.1 /\ is_word e.2 /\ len e.1 + len e.2 < 10239.

Lemma word_char_spec c : word_char c = true -> isspace c = false /\ c <> 35 /\ c <> 0 /\ c <> 10.
Proof.
  unfold word_char. intros H. apply negb_true_iff in H. apply orb_false_iff in H as [H H0].
  apply orb_false_iff in H as [Hs H35]. split; [done|]. split; [by apply Z.eqb_neq|]. split; [by apply Z.eqb_neq|].
  intros ->. done.
Qed.

Lemma scan_line_word n s r : Forall (fun c => c <> 10) s -> (length s <= n)%nat ->
  scan_line n (s ++ 10 :: r) = (s, r, Newline).
Proof.
  revert n. induction s as [|c s IH]; intros n Hf Hn; [by destruct n|]. apply Forall_cons in Hf as [Hc Hf].
  destruct n as [|n]; [cbn in Hn; lia|]. cbn [app scan_line]. rewrite (proj2 (Z.eqb_neq c 10) Hc).
  rewrite IH by (done || cbn in Hn; lia). done.
Qed.

Lemma word_stop w r : Forall (fun c => word_char c = true) w ->
  (match r with [] => True | c :: _ => isspace c = true \/ c = 35 end) -> word (w ++ r) = (w, r).
Proof.
  intros Hw Hr. induction Hw as [|c w Hc Hw IH]; cbn [app word].
  - destruct r as [|c r]; [done|]. cbn [word]. destruct Hr as [-> | ->]; [done|]. by rewrite orb_true_r.
  - apply word_char_spec in Hc as (-> & H35 & _). rewrite (proj2 (Z.eqb_neq c 35) H35). cbn [orb]. by rewrite IH.
Qed.

Lemma skip_spaces_word w r : is_word w -> skip_spaces (w ++ r) = w ++ r.
Proof.
  intros [Hne Hw]. destruct w as [|c w]; [done|]. apply Forall_cons in Hw as [Hc _].
  apply word_char_spec in Hc as (Hs & _). cbn [app skip_spaces]. by rewrite Hs.
Qed.

Lemma c_str_id s : Forall (fun c => c <> 0) s -> c_str s = s.
Proof. induction 1 as [|c s Hc _ IH]; [done|]. cbn. rewrite (proj2 (Z.eqb_neq c 0) Hc). by f_equal. Qed.

Lemma parse_entry e : entry_ok e -> parse_line (e.1 ++ 32 :: e.2) = Some e.
Proof.
  destruct e as [n k]. cbn [fst snd]. intros ([Hnn Hn] & Hk & _). unfold parse_line.
  rewrite skip_spaces_word by (by split). rewrite (word_stop n (32 :: k) Hn) by (by left).
  destruct n as [|c n]; [done|]. apply Forall_cons in Hn as [Hc _]. apply word_char_spec in Hc as (_ & H35 & _).
  cbn [app at_hash at_end]. rewrite (proj2 (Z.eqb_neq c 35) H35). change (skip_spaces (32 :: k)) with (skip_spaces k).
  rewrite <- (app_nil_r k) at 1. rewrite skip_spaces_word by done. destruct Hk as [Hkn Hk].
  by rewrite (word_stop k []).
Qed.

Lemma load_entry fuel e r keys :
  entry_ok e ->
  load_loop (S fuel) (mk_ifs (entry_line e ++ r) true) keys
  = load_loop fuel (mk_ifs r true) (<[e.1 := passwd2des e.2]> keys).
Proof.
  intros He. pose proof He as ([Hnn Hn] & [Hkn Hk] & Hl). cbn [load_loop]. unfold getline, entry_line. cbn [ifs_good ifs_rest].
  assert (Forall (fun c => c <> 10 /\ c <> 0) (e.1 ++ 32 :: e.2)) as Hf.
  { apply Forall_app. split; [|constructor; [done|]]; (eapply Forall_impl; [eassumption|]);
      intros c Hc; by apply word_char_spec in Hc as (_ & _ & ? & ?). }
  replace ((e.1 ++ 32 :: e.2 ++ [10]) ++ r) with ((e.1 ++ 32 :: e.2) ++ 10 :: r) by (by rewrite <- !app_assoc; cbn; rewrite <- app_assoc).
  rewrite scan_line_word.
  - rewrite c_str_id by (eapply Forall_impl; [exact Hf|]; by intros ? []).
    pose proof (parse_entry e He) as Hp. destruct e as [n k]. cbn [fst snd] in *. destruct n as [|c n]; [done|].
    cbn [app] in *. by rewrite Hp.
  - eapply Forall_impl; [exact Hf|]. by intros ? [].
  - rewrite length_app. cbn [length]. unfold len in Hl. lia.
Qed.

Lemma load_entries es : forall fuel keys, Forall entry_ok es -> (length es < fuel)%nat ->
  load_loop fuel (mk_ifs (concat (entry_line <$> es)) true) keys
  = Some (foldl (fun m e => <[e.1 := passwd2des e.2]> m) keys es).
Proof.
  induction es as [|e es IH]; intros fuel keys He Hf; (destruct fuel as [|fuel]; [cbn in Hf; lia|]); [done|].
  apply Forall_cons in He as [He Hes]. change (entry_line <$> e :: es) with (entry_line e :: (entry_line <$> es)). cbn [concat].
  rewrite load_entry by done. cbn [foldl]. apply IH; [done|]. cbn in Hf. lia.
Qed.

End load.

(** ** Properties *)

(** C34: for a file of lines "name key", [LoadKeyFile] builds exactly the map from each name to the DES
    key of its last line, and returns its size. *)
Theorem load_key_file_spec `{D : Des} (es : list (bytes * bytes)) (keys : gmap bytes bytes) :
  Forall entry_ok es ->
  let m := foldl (fun m e => <[e.1 := passwd2des e.2]> m) keys es in
  LoadKeyFile (Some (concat (entry_line <$> es))) keys = Some (Z.of_nat (size m), m).
Proof.
  intros He m. unfold LoadKeyFile. rewrite load_entries; [done|done|].
  assert (length es <= length (concat (entry_line <$> es)))%nat; [|lia].
  clear. induction es as [|e es IH]; [done|]. change (entry_line <$> e :: es) with (entry_line e :: (entry_line <$> es)).
  cbn [concat]. rewrite length_app. unfold entry_line at 1. rewrite length_app. cbn [length]. lia.
Qed.

Lemma load_key_file_spec_witness :
  LoadKeyFile (Some ([97; 32; 98; 10])) ∅ = Some (1, {[ [97] := passwd2des [98] ]}).
Proof.
  etransitivity; [apply (load_key_file_spec [([97], [98])] ∅); repeat constructor; done|]. vm_compute. reflexivity.
Defined.

(** A line of white space, such as the blank line of a file with CRLF line ends, registers the
    empty application name with the key of the empty password. *)
Theorem blank_line_registers `{D : Des} (c : Z) :
  isspace c = true -> c <> 10 -> LoadKeyFile (Some [c; 10]) ∅ = Some (1, {[ [] := passwd2des [] ]}).
Proof.
  intros Hs H10. assert (c <> 0) as H0 by (intros ->; done). unfold LoadKeyFile. cbn [length load_loop].
  unfold getline. cbn [ifs_good ifs_rest]. change [c; 10] with ([c] ++ 10 :: []).
  rewrite scan_line_word; [|by apply Forall_singleton|cbn [length]; lia]. cbn [c_str]. rewrite (proj2 (Z.eqb_neq c 0) H0).
  unfold parse_line. cbn [skip_spaces]. rewrite Hs. done.
Qed.

Lemma blank_line_registers_witness : LoadKeyFile (Some [13; 10]) ∅ = Some (1, {[ [] := passwd2des [] ]}).
Proof. apply (blank_line_registers 13); done. Defined.
