(* ===== verification/KnvHeap.v ===== *)
(** * The memory of the tree library (src/knv/knv_node.h, src/knv/knv_node.cc)

    Nodes, the buffers their strings point into, the pool nodes come from, and the hash table
    [KnvHt] a node keeps of its children.

    Nodes are numbers.  All nodes live in one pool ([ObjPool], modelled in ObjPool.v), so the memory of
    a node is never given back: a released node keeps its last content, goes to the front of the free
    list and is handed out again by the next [New].  The linked lists [childlist] and [metalist], doubly
    linked through [prev] and [next] in the code, are the lists of their nodes here: ObjPool.v proves
    that New, NewFront, Delete and DeleteAll act on them as list operations.

    Strings are pointers: a buffer and an offset.  A buffer is a block of the memory pool, the 64 bytes
    inside a node or inside its key, or memory of the caller.  Reading a buffer that was freed is [Crash].
    A computation is [Ret], [Crash] (undefined behaviour) or [Spin], which only says that the fuel given
    to the model's loops was not enough: a theorem that a function returns has to exclude both. *)

From S2P Require Import Prelude Pb MemPool.

(** ** Pointers and values *)

(** Nodes are numbers. *)
Abbreviation nid := Z (only parsing).

(** A block of the pool, the [small_buf] of a node's value or key, or memory of the caller. *)
Inductive buf := BMem (i : Z) | BSmall (n : Z) (key : bool) | BExt (i : Z).

#[export] Instance buf_eq_dec : EqDecision buf.
Proof. solve_decision. Defined.
#[export] Instance buf_countable : Countable buf.
Proof.
  refine (inj_countable' (fun b => match b with
            | BMem i => inl i | BSmall n k => inr (inl (n, k)) | BExt i => inr (inr i) end)
          (fun s => match s with
            | inl i => BMem i | inr (inl p) => BSmall (fst p) (snd p) | inr (inr i) => BExt i end) _).
  by intros [].
Defined.

(** [char *]; [None] is NULL. *)
Abbreviation ptr := (option (buf * Z)) (only parsing).

Definition ptr_add (p : ptr) (o : Z) : ptr := '(b, k) ← p; Some (b, k + o).

(** The union, as in Pb.v but with a pointer: [kv_word] is the 64-bit word at offset 0, whose low half
    is [i32] and [str.len]; [kv_ptr] is [str.data]. *)
(** Models [knv_value_t] (src/knv/knv_node.h:48-48). *)
Record kval := mk_kval { kv_word : Z; kv_ptr : ptr }.

Definition kv_i64 (v : kval) : Z := kv_word v.
Definition kv_i32 (v : kval) : Z := u32 (kv_word v).
Definition kv_len (v : kval) : Z := u32 (kv_word v).
Definition kv_set_len (l : Z) (v : kval) : kval := mk_kval (kv_word v / 2 ^ 32 * 2 ^ 32 + u32 l) (kv_ptr v).
Definition kv_set_str (l : Z) (p : ptr) (v : kval) : kval := mk_kval (kv_word v / 2 ^ 32 * 2 ^ 32 + u32 l) p.
Definition kv_int (x : Z) : kval := mk_kval x None.
Definition kv_str (l : Z) (p : ptr) : kval := mk_kval (u32 l) p.

Abbreviation KNV_VARINT := PB_WT_VARINT (only parsing).
Abbreviation KNV_FIXED64 := PB_WT_FIXED64 (only parsing).
Abbreviation KNV_STRING := PB_WT_STRING (only parsing).
Abbreviation KNV_FIXED32 := PB_WT_FIXED32 (only parsing).

(** Models [KNV_NODE] (src/knv/knv_node.h:45-45). *)
Definition KNV_NODE : Z := KNV_STRING.
(** Models [UC_MAX_META_NUM] (src/knv/knv_node.h:43-43). *)
Definition UC_MAX_META_NUM : Z := 10.
Definition KNV_DEFAULT_HT_SIZE : Z := 32.

(** [knv_eval_field_length(tag, type, &v)]: the string's content plays no part. *)
Definition eval_len (tag type : Z) (v : kval) : Z := pb_eval_field_length tag type (mk_val (kv_word v) []).

(** ** Nodes *)

(** Models [knv_dynamic_data_t] (src/knv/knv_node.h:51-63). *)
Record dyn_data := mk_dyn { d_sz : Z; d_data : ptr; d_mem : option Z }.

(** Models [knv_key_t] (src/knv/knv_node.h:101-107). *)
Record knv_key_t := mk_key { k_type : Z; k_len : Z; k_val : ptr; k_dyn : dyn_data }.

(** [ht_slot] holds the slots whose bit is set in the bitmap; a slot whose bit is clear is never read.
    [ht_mem] tells whether the arrays were allocated from the pool. *)
(** Models [KnvHt] (src/knv/knv_node.h:171-177). *)
Record KnvHt := mk_ht { ht_nr : Z; ht_sz : Z; ht_mem : option Z; ht_slot : gmap Z (option nid) }.

(** Models [KnvNode] (src/knv/knv_node.h:191-206). *)
Record node := mk_node {
  n_tag : Z; n_type : Z; n_val : kval; n_dyn : dyn_data;
  n_key : knv_key_t; n_ht_next : option nid;
  n_child_num : Z; n_ht : KnvHt; n_childlist : list nid; n_metalist : list nid; n_metas : gmap Z nid;
  n_dirty : bool; n_child_has_key : bool; n_no_key : bool;
  n_parent : option nid; n_eval_sz : Z; n_eval_val_sz : Z }.

Definition dyn0 : dyn_data := mk_dyn 0 None None.
Definition key0 : knv_key_t := mk_key KNV_STRING 0 None dyn0.
Definition ht0 : KnvHt := mk_ht 0 KNV_DEFAULT_HT_SIZE None ∅.

(** The constructor. *)
(** Models [KnvNode::KnvNode] (src/knv/knv_node.h:209-212). *)
Definition node0 : node :=
  mk_node 0 KNV_STRING (mk_kval 0 None) dyn0 key0 None (-1) ht0 [] [] ∅ false false false None (-1) 0.

Definition set_tag x n := mk_node x (n_type n) (n_val n) (n_dyn n) (n_key n) (n_ht_next n) (n_child_num n) (n_ht n) (n_childlist n) (n_metalist n) (n_metas n) (n_dirty n) (n_child_has_key n) (n_no_key n) (n_parent n) (n_eval_sz n) (n_eval_val_sz n).
Definition set_type x n := mk_node (n_tag n) x (n_val n) (n_dyn n) (n_key n) (n_ht_next n) (n_child_num n) (n_ht n) (n_childlist n) (n_metalist n) (n_metas n) (n_dirty n) (n_child_has_key n) (n_no_key n) (n_parent n) (n_eval_sz n) (n_eval_val_sz n).
Definition set_val x n := mk_node (n_tag n) (n_type n) x (n_dyn n) (n_key n) (n_ht_next n) (n_child_num n) (n_ht n) (n_childlist n) (n_metalist n) (n_metas n) (n_dirty n) (n_child_has_key n) (n_no_key n) (n_parent n) (n_eval_sz n) (n_eval_val_sz n).
Definition set_dyn x n := mk_node (n_tag n) (n_type n) (n_val n) x (n_key n) (n_ht_next n) (n_child_num n) (n_ht n) (n_childlist n) (n_metalist n) (n_metas n) (n_dirty n) (n_child_has_key n) (n_no_key n) (n_parent n) (n_eval_sz n) (n_eval_val_sz n).
Definition set_key x n := mk_node (n_tag n) (n_type n) (n_val n) (n_dyn n) x (n_ht_next n) (n_child_num n) (n_ht n) (n_childlist n) (n_metalist n) (n_metas n) (n_dirty n) (n_child_has_key n) (n_no_key n) (n_parent n) (n_eval_sz n) (n_eval_val_sz n).
Definition set_ht_next x n := mk_node (n_tag n) (n_type n) (n_val n) (n_dyn n) (n_key n) x (n_child_num n) (n_ht n) (n_childlist n) (n_metalist n) (n_metas n) (n_dirty n) (n_child_has_key n) (n_no_key n) (n_parent n) (n_eval_sz n) (n_eval_val_sz n).
Definition set_child_num x n := mk_node (n_tag n) (n_type n) (n_val n) (n_dyn n) (n_key n) (n_ht_next n) x (n_ht n) (n_childlist n) (n_metalist n) (n_metas n) (n_dirty n) (n_child_has_key n) (n_no_key n) (n_parent n) (n_eval_sz n) (n_eval_val_sz n).
Definition set_ht x n := mk_node (n_tag n) (n_type n) (n_val n) (n_dyn n) (n_key n) (n_ht_next n) (n_child_num n) x (n_childlist n) (n_metalist n) (n_metas n) (n_dirty n) (n_child_has_key n) (n_no_key n) (n_parent n) (n_eval_sz n) (n_eval_val_sz n).
Definition set_childlist x n := mk_node (n_tag n) (n_type n) (n_val n) (n_dyn n) (n_key n) (n_ht_next n) (n_child_num n) (n_ht n) x (n_metalist n) (n_metas n) (n_dirty n) (n_child_has_key n) (n_no_key n) (n_parent n) (n_eval_sz n) (n_eval_val_sz n).
Definition set_metalist x n := mk_node (n_tag n) (n_type n) (n_val n) (n_dyn n) (n_key n) (n_ht_next n) (n_child_num n) (n_ht n) (n_childlist n) x (n_metas n) (n_dirty n) (n_child_has_key n) (n_no_key n) (n_parent n) (n_eval_sz n) (n_eval_val_sz n).
Definition set_metas x n := mk_node (n_tag n) (n_type n) (n_val n) (n_dyn n) (n_key n) (n_ht_next n) (n_child_num n) (n_ht n) (n_childlist n) (n_metalist n) x (n_dirty n) (n_child_has_key n) (n_no_key n) (n_parent n) (n_eval_sz n) (n_eval_val_sz n).
Definition set_dirty x n := mk_node (n_tag n) (n_type n) (n_val n) (n_dyn n) (n_key n) (n_ht_next n) (n_child_num n) (n_ht n) (n_childlist n) (n_metalist n) (n_metas n) x (n_child_has_key n) (n_no_key n) (n_parent n) (n_eval_sz n) (n_eval_val_sz n).
Definition set_child_has_key x n := mk_node (n_tag n) (n_type n) (n_val n) (n_dyn n) (n_key n) (n_ht_next n) (n_child_num n) (n_ht n) (n_childlist n) (n_metalist n) (n_metas n) (n_dirty n) x (n_no_key n) (n_parent n) (n_eval_sz n) (n_eval_val_sz n).
Definition set_no_key x n := mk_node (n_tag n) (n_type n) (n_val n) (n_dyn n) (n_key n) (n_ht_next n) (n_child_num n) (n_ht n) (n_childlist n) (n_metalist n) (n_metas n) (n_dirty n) (n_child_has_key n) x (n_parent n) (n_eval_sz n) (n_eval_val_sz n).
Definition set_parent x n := mk_node (n_tag n) (n_type n) (n_val n) (n_dyn n) (n_key n) (n_ht_next n) (n_child_num n) (n_ht n) (n_childlist n) (n_metalist n) (n_metas n) (n_dirty n) (n_child_has_key n) (n_no_key n) x (n_eval_sz n) (n_eval_val_sz n).
Definition set_eval_sz x n := mk_node (n_tag n) (n_type n) (n_val n) (n_dyn n) (n_key n) (n_ht_next n) (n_child_num n) (n_ht n) (n_childlist n) (n_metalist n) (n_metas n) (n_dirty n) (n_child_has_key n) (n_no_key n) (n_parent n) x (n_eval_val_sz n).
Definition set_eval_val_sz x n := mk_node (n_tag n) (n_type n) (n_val n) (n_dyn n) (n_key n) (n_ht_next n) (n_child_num n) (n_ht n) (n_childlist n) (n_metalist n) (n_metas n) (n_dirty n) (n_child_has_key n) (n_no_key n) (n_parent n) (n_eval_sz n) x.

(** ** The heap and its monad *)

(** [h_free] is the free list of the node pool, [h_next] the next new node, [h_nmem] the next block of the
    memory pool.  [h_fail] tells, for the allocations to come, which ones fail: an empty list means that
    they all succeed. *)
Record heap := mk_heap {
  h_node : gmap Z node; h_free : list nid; h_next : Z;
  h_buf : gmap buf bytes; h_nmem : Z; h_fail : list bool }.

Inductive res (A : Type) := Ret (a : A) (h : heap) | Crash | Spin.
Arguments Ret {A}. Arguments Crash {A}. Arguments Spin {A}.

Definition M (A : Type) : Type := heap -> res A.

#[export] Instance M_ret : MRet M := fun A a h => Ret a h.
#[export] Instance M_bind : MBind M := fun A B k m h =>
  match m h with Ret a h' => k a h' | Crash => Crash | Spin => Spin end.

(** Running a computation: [hsimp] steps through the binds of the goal. *)
Lemma M_bind_eq {A B} (k : A -> M B) (m : M A) (h : heap) :
  (m ≫= k) h = match m h with Ret a h' => k a h' | Crash => Crash | Spin => Spin end.
Proof. done. Qed.
Lemma M_ret_eq {A} (a : A) (h : heap) : (mret a : M A) h = Ret a h.
Proof. done. Qed.

Definition crash {A} : M A := fun _ => Crash.
Definition spin {A} : M A := fun _ => Spin.
Definition lift {A} (o : option A) : M A := match o with Some a => mret a | None => crash end.

(** A node that was never changed is as its constructor left it. *)
Definition nd (h : heap) (n : nid) : node := default node0 (h_node h !! n).
Definition set_node (n : nid) (x : node) (h : heap) : heap :=
  mk_heap (<[n := x]> (h_node h)) (h_free h) (h_next h) (h_buf h) (h_nmem h) (h_fail h).
Definition set_free (l : list nid) (h : heap) : heap :=
  mk_heap (h_node h) l (h_next h) (h_buf h) (h_nmem h) (h_fail h).
Definition set_buf (m : gmap buf bytes) (h : heap) : heap :=
  mk_heap (h_node h) (h_free h) (h_next h) m (h_nmem h) (h_fail h).

Definition getn (n : nid) : M node := fun h => Ret (nd h n) h.
Definition modn (n : nid) (f : node -> node) : M unit := fun h => Ret tt (set_node n (f (nd h n)) h).

Lemma getn_eq n h : getn n h = Ret (nd h n) h.
Proof. done. Qed.
Lemma modn_eq n f h : modn n f h = Ret tt (set_node n (f (nd h n)) h).
Proof. done. Qed.

Ltac hsimp :=
  repeat first [rewrite M_bind_eq | rewrite M_ret_eq | rewrite getn_eq | rewrite modn_eq
               | progress cbn beta iota delta [fst snd lift]].
Ltac hsimp_in H :=
  repeat first [rewrite M_bind_eq in H | rewrite M_ret_eq in H | rewrite getn_eq in H | rewrite modn_eq in H
               | progress cbn beta iota delta [fst snd lift] in H].

(** Whether the next allocation succeeds. *)
Definition alloc_ok : M bool := fun h =>
  match h_fail h with
  | [] => Ret true h
  | b :: l => Ret (negb b) (mk_heap (h_node h) (h_free h) (h_next h) (h_buf h) (h_nmem h) l)
  end.

(** *** Buffers *)

Definition buf_get (h : heap) (b : buf) : option bytes :=
  match b with
  | BSmall _ _ => Some (default (replicate 64 0) (h_buf h !! b))
  | _ => h_buf h !! b
  end.

(** The [n] bytes at [p]; nothing is read when [n] is 0. *)
Definition str_at (h : heap) (p : ptr) (n : Z) : option bytes :=
  if Z.eqb n 0 then Some [] else '(b, o) ← p; m ← buf_get h b; mem_read m o n.

Definition read_str (p : ptr) (n : Z) : M bytes := fun h =>
  match str_at h p n with Some s => Ret s h | None => Crash end.

(** [memcpy(p, s, len s)] *)
Definition write_str (p : ptr) (s : bytes) : M unit := fun h =>
  match (if Z.eqb (len s) 0 then Some h
         else '(b, o) ← p; m ← buf_get h b; m' ← mem_write m o s; Some (set_buf (<[b := m']> (h_buf h)) h)) with
  | Some h' => Ret tt h'
  | None => Crash
  end.

(** The size of the block [UcMemManager::Alloc] hands out for [sz] bytes (MemPool.v). *)
Definition block_size (sz : Z) : Z := match get_magic sz with Some i => if Z.ltb i 0 then sz else magic_sz i | None => sz end.

(** A new block.  Its content is not defined; zeros here. *)
Definition new_block (sz : Z) : M Z := fun h =>
  Ret (h_nmem h) (mk_heap (h_node h) (h_free h) (h_next h)
    (<[BMem (h_nmem h) := replicate (Z.to_nat (block_size sz)) 0]> (h_buf h)) (h_nmem h + 1) (h_fail h)).

(** [UcMemManager::Alloc(sz)] *)
Definition mem_alloc (sz : Z) : M (option Z) :=
  b ← alloc_ok;
  if (b : bool) then i ← new_block sz; mret (Some i) else mret None.

(** [UcMemManager::Free(mem)] *)
Definition mem_free (m : option Z) : M unit := fun h =>
  match m with
  | Some i => Ret tt (set_buf (delete (BMem i) (h_buf h)) h)
  | None => Ret tt h
  end.

(** [mem->GetAllocSize()] *)
Definition mem_size (i : Z) : M Z := fun h => Ret (len (default [] (h_buf h !! BMem i))) h.

(** ** Dynamic data

    A node has two of them: that of its value and that of its key. *)

Inductive dyn_of := OfVal (n : nid) | OfKey (n : nid).

Definition small_buf (d : dyn_of) : buf :=
  match d with OfVal n => BSmall n false | OfKey n => BSmall n true end.
Definition get_dyn (d : dyn_of) : M dyn_data :=
  match d with
  | OfVal n => x ← getn n; mret (n_dyn x)
  | OfKey n => x ← getn n; mret (k_dyn (n_key x))
  end.
Definition put_dyn (d : dyn_of) (y : dyn_data) : M unit :=
  match d with
  | OfVal n => modn n (set_dyn y)
  | OfKey n => modn n (fun x => set_key (mk_key (k_type (n_key x)) (k_len (n_key x)) (k_val (n_key x)) y) x)
  end.

(** The pointer returned, NULL when out of memory. *)
(** Models [knv_dynamic_data_t::alloc] (src/knv/knv_node.cc:56-85). *)
Definition dyn_alloc (d : dyn_of) (req_sz : Z) : M ptr :=
  y ← get_dyn d;
  if Z.leb req_sz 64 then
    mem_free (d_mem y);;
    put_dyn d (mk_dyn 64 (Some (small_buf d, 0)) None);;
    mret (Some (small_buf d, 0))
  else if bool_decide (d_data y = None) || Z.ltb (d_sz y) req_sz || Z.ltb (u32 (Z.shiftl req_sz 10)) (d_sz y) then
    m ← mem_alloc req_sz;
    match m with
    | None => mret None
    | Some i =>
        mem_free (d_mem y);;
        sz ← mem_size i;
        put_dyn d (mk_dyn (if Z.eqb (u32 sz) 0 then req_sz else u32 sz) (Some (BMem i, 0)) (Some i));;
        mret (Some (BMem i, 0))
    end
  else mret (d_data y).

(** Models [knv_dynamic_data_t::assign] (src/knv/knv_node.cc:87-104). *)
Definition dyn_assign (d : dyn_of) (m : option Z) (size : Z) : M ptr :=
  y ← get_dyn d;
  mem_free (d_mem y);;
  match m with
  | Some i =>
      sz ← mem_size i;
      put_dyn d (mk_dyn (if Z.eqb (u32 sz) 0 then size else u32 sz) (Some (BMem i, 0)) (Some i));;
      mret (Some (BMem i, 0))
  | None => put_dyn d (mk_dyn (d_sz y) (d_data y) None);; mret None
  end.

(** Models [knv_dynamic_data_t::free] (src/knv/knv_node.cc:106-115). *)
Definition dyn_free (d : dyn_of) : M unit :=
  y ← get_dyn d;
  mem_free (d_mem y);;
  put_dyn d dyn0.

(** ** Keys *)

(** Models [knv_key_t::assign] (src/knv/knv_node.h:87-87). *)
Definition key_assign (n : nid) (ktype klen : Z) (p : ptr) : M unit :=
  modn n (fun x => set_key (mk_key ktype klen p (k_dyn (n_key x))) x).

(** The length is a [uint16_t]. *)
(** Models [knv_key_t::init] (src/knv/knv_node.cc:341-388). *)
Definition key_init (n : nid) (ktype : Z) (kval : option kval) (own_buf : bool) : M Z :=
  match kval with
  | Some v =>
      if Z.eqb ktype KNV_STRING then
        let l := u16 (kv_len v) in
        if own_buf then
          p ← dyn_alloc (OfKey n) l;
          match p with
          | None => modn n (fun x => set_key (mk_key (k_type (n_key x)) 0 None (k_dyn (n_key x))) x);; mret (-1)
          | Some _ =>
              s ← read_str (kv_ptr v) l;
              write_str p s;;
              key_assign n KNV_STRING l p;; mret 0
          end
        else key_assign n KNV_STRING l (kv_ptr v);; mret 0
      else if Z.eqb ktype KNV_FIXED32 then
        p ← dyn_alloc (OfKey n) 4;
        write_str p (le_split 4 (kv_i32 v));;
        key_assign n KNV_FIXED32 4 p;; mret 0
      else if Z.eqb ktype KNV_VARINT || Z.eqb ktype KNV_FIXED64 then
        p ← dyn_alloc (OfKey n) 8;
        write_str p (le_split 8 (kv_i64 v));;
        key_assign n ktype 8 p;; mret 0
      else key_assign n ktype 0 None;; mret 0
  | None => key_assign n ktype 0 None;; mret 0
  end.

(** The content of a key. *)
Definition key_bytes (h : heap) (k : knv_key_t) : option bytes := str_at h (k_val k) (k_len k).

(** Models [knv_key_t::GetValue] (src/knv/knv_node.h:90-94). *)
Definition key_GetValue (k : knv_key_t) : M kval :=
  if Z.eqb (k_type k) KNV_STRING then mret (kv_str (k_len k) (k_val k))
  else if bool_decide (k_val k = None) then mret (kv_int 0)
  else s ← read_str (k_val k) (Z.min (k_len k) 8); mret (kv_int (le_combine s)).

(** [memcmp(p, q, l) == 0] *)
Definition same_str (p q : ptr) (l : Z) : M bool :=
  s ← read_str p l; t ← read_str q l; mret (bool_decide (s = t)).

(** Models [knv_key_t::operator==] (src/knv/knv_node.h:83-83). *)
Definition key_eq (k k' : knv_key_t) : M bool :=
  if Z.eqb (k_type k) (k_type k') && Z.eqb (k_len k) (k_len k')
  then same_str (k_val k) (k_val k') (k_len k) else mret false.

(** ** Hash table *)

Fixpoint hash_words (fuel : nat) (k : bytes) (t : Z) : Z * bytes :=
  match fuel with
  | O => (t, k)
  | S fuel' => if Z.ltb 3 (len k) then hash_words fuel' (drop 4 k) (u32 (t + le_combine (take 4 k))) else (t, k)
  end.

(** At most three bytes are left: the first of them has the highest weight. *)
Fixpoint hash_tail (k : bytes) (t : Z) : Z :=
  match k with
  | [] => t
  | b :: k' => hash_tail k' (u32 (t + u32 (Z.shiftl b (8 * len k'))))
  end.

(** Models [get_keyhash] (src/knv/knv_node.cc:117-128). *)
Definition get_keyhash (t : Z) (k : bytes) (sz : Z) : Z :=
  let '(t, k) := hash_words (length k) k t in Z.land (hash_tail k t) (sz - 1).

(** Where a pointer to a node was found: a slot of the table, or the [ht_next] of a node. *)
(** Models [KnvHt::HtPos] (src/knv/knv_node.h:157-157). *)
Inductive HtPos := PSlot (hi : Z) | PNext (n : nid).

(** Models [KnvHt::clear] (src/knv/knv_node.cc:144-164). *)
Definition ht_clear (p : nid) : M unit :=
  x ← getn p;
  mem_free (ht_mem (n_ht x));;
  modn p (set_ht ht0).

(** Models [KnvNode::IsMatch] (src/knv/knv_node.h:505-508). *)
Definition IsMatch (c : nid) (t : Z) (k : ptr) (klen : Z) : M bool :=
  x ← getn c;
  if Z.eqb t (n_tag x) && Z.eqb (k_len (n_key x)) klen then same_str (k_val (n_key x)) k klen else mret false.

(** Walks a chain; also gives the position of the node found. *)
(** Models [KnvHt::get] (src/knv/knv_node.cc:187-211). *)
Fixpoint ht_walk (fuel : nat) (c : option nid) (pos : HtPos) (t : Z) (k : ptr) (klen : Z) : M (option (nid * HtPos)) :=
  match c with
  | None => mret None
  | Some c =>
      match fuel with
      | O => spin
      | S fuel' =>
          b ← IsMatch c t k klen;
          if (b : bool) then mret (Some (c, pos))
          else x ← getn c; ht_walk fuel' (n_ht_next x) (PNext c) t k klen
      end
  end.

Section ht.
Context (fuel : nat).

(** Models [KnvHt::get] (src/knv/knv_node.cc:170-211). *)
Definition ht_get (p : nid) (tag : Z) (k : ptr) (klen : Z) : M (option (nid * HtPos)) :=
  x ← getn p;
  s ← read_str k klen;
  let hi := get_keyhash tag s (ht_sz (n_ht x)) in
  match ht_slot (n_ht x) !! hi with
  | Some c => ht_walk fuel c (PSlot hi) tag k klen
  | None => mret None
  end.

(** The hash of a node, from its tag and key. *)
Definition node_hash (n : nid) (sz : Z) : M Z :=
  x ← getn n;
  s ← read_str (k_val (n_key x)) (k_len (n_key x));
  mret (get_keyhash (n_tag x) s sz).

(** Puts a node in front of the chain of its slot. *)
Definition slot_push (m : gmap Z (option nid)) (hi : Z) (c : nid) : M (gmap Z (option nid)) :=
  modn c (set_ht_next (default None (m !! hi)));;
  mret (<[hi := Some c]> m).

(** Moves a chain of the old table into the new one. *)
(** Models [KnvHt::increase] (src/knv/knv_node.cc:247-267). *)
Fixpoint move_chain (fuel : nat) (c : option nid) (new_sz : Z) (m : gmap Z (option nid)) (new_nr : Z)
    : M (gmap Z (option nid) * Z) :=
  match c with
  | None => mret (m, new_nr)
  | Some c =>
      match fuel with
      | O => spin
      | S fuel' =>
          hi ← node_hash c new_sz;
          x ← getn c;
          m' ← slot_push m hi c;
          move_chain fuel' (n_ht_next x) new_sz m' (new_nr + 1)
      end
  end.

(** The slots from [i] on. *)
(** Models [KnvHt::increase] (src/knv/knv_node.cc:243-269). *)
Fixpoint move_slots (l : list Z) (old : gmap Z (option nid)) (new_sz : Z) (m : gmap Z (option nid)) (new_nr : Z)
    : M (gmap Z (option nid) * Z) :=
  match l with
  | [] => mret (m, new_nr)
  | i :: l' =>
      match old !! i with
      | None => move_slots l' old new_sz m new_nr
      | Some c => '(m', nr') ← move_chain fuel c new_sz m new_nr; move_slots l' old new_sz m' nr'
      end
  end.

(** Models [KnvHt::increase] (src/knv/knv_node.cc:214-280). *)
Definition ht_increase (p : nid) : M Z :=
  x ← getn p;
  let ht := n_ht x in
  if Z.leb 8192 (ht_sz ht) then mret 0
  else
    let new_sz := if Z.ltb (ht_sz ht) 256 then 256 else 8192 in
    m ← mem_alloc ((new_sz + (new_sz + 63) / 64) * 8);
    match m with
    | None => mret (-1)
    | Some i =>
        '(slots, nr) ← move_slots (seqZ 0 (ht_sz ht)) (ht_slot ht) new_sz ∅ 0;
        mem_free (ht_mem ht);;
        modn p (set_ht (mk_ht nr new_sz (Some i) slots));;
        mret 0
    end.

(** Models [KnvHt::put] (src/knv/knv_node.cc:283-306). *)
Definition ht_put (p : nid) (n : nid) : M Z :=
  x ← getn p;
  r ← (if Z.ltb (ht_sz (n_ht x)) (ht_nr (n_ht x) + 1) then ht_increase p else mret 0);
  if negb (ok r) then mret (-1)
  else
    x ← getn p;
    hi ← node_hash n (ht_sz (n_ht x));
    m ← slot_push (ht_slot (n_ht x)) hi n;
    modn p (fun x => set_ht (mk_ht (ht_nr (n_ht x) + 1) (ht_sz (n_ht x)) (ht_mem (n_ht x)) m) x);;
    mret 0.

(** [*pos = c] *)
Definition store_pos (p : nid) (pos : HtPos) (c : option nid) : M unit :=
  match pos with
  | PSlot hi => modn p (fun x => set_ht (mk_ht (ht_nr (n_ht x)) (ht_sz (n_ht x)) (ht_mem (n_ht x)) (<[hi := c]> (ht_slot (n_ht x)))) x)
  | PNext n => modn n (set_ht_next c)
  end.

Definition ht_count (p : nid) (d : Z) : M unit :=
  modn p (fun x => set_ht (mk_ht (ht_nr (n_ht x) + d) (ht_sz (n_ht x)) (ht_mem (n_ht x)) (ht_slot (n_ht x))) x).

(** Models [KnvHt::remove] (src/knv/knv_node.cc:308-313). *)
Definition ht_remove_pos (p n : nid) (pos : HtPos) : M Z :=
  x ← getn n;
  store_pos p pos (n_ht_next x);;
  ht_count p (-1);;
  mret 0.

(** The position of a node in a chain. *)
Fixpoint chain_pos (fuel : nat) (c : option nid) (pos : HtPos) (n : nid) : M (option HtPos) :=
  match c with
  | None => mret None
  | Some c =>
      match fuel with
      | O => spin
      | S fuel' =>
          if Z.eqb c n then mret (Some pos)
          else x ← getn c; chain_pos fuel' (n_ht_next x) (PNext c) n
      end
  end.

(** Models [KnvHt::remove] (src/knv/knv_node.cc:315-338). *)
Definition ht_remove (p n : nid) : M Z :=
  x ← getn p;
  hi ← node_hash n (ht_sz (n_ht x));
  match ht_slot (n_ht x) !! hi with
  | None => mret (-1)
  | Some c =>
      r ← chain_pos fuel c (PSlot hi) n;
      match r with
      | None => mret (-1)
      | Some pos => ht_remove_pos p n pos
      end
  end.

End ht.
