(* ===== verification/KnvHt.v ===== *)
(** * The hash table of a node is a set of nodes (src/knv/knv_node.cc)

    The chains of [KnvHt] run through the [ht_next] fields of the nodes.  [ht_rep h p S] says that the
    table of [p] is sound and holds exactly the nodes of [S].  The theorems: [get] ends and finds a node
    with the tag and key if there is one, [put] adds a node and, when the table has to grow, keeps all the
    others, [remove] takes out one node. *)

From S2P Require Import Prelude Pb MemPool KnvHeap.

(** ** Heaps *)

Lemma nd_set n x h m : nd (set_node n x h) m = if decide (m = n) then x else nd h m.
Proof.
  unfold nd, set_node; cbn. case_decide as Hd.
  - subst. by rewrite lookup_insert_eq.
  - by rewrite lookup_insert_ne.
Qed.

Lemma nd_set_buf m h n : nd (set_buf m h) n = nd h n.
Proof. done. Qed.

(** Blocks not handed out yet do not exist. *)
Definition heap_ok (h : heap) : Prop := forall i, h_nmem h <= i -> h_buf h !! BMem i = None.

(** [h'] differs from [h] in [ht_next] fields only, those of the nodes of [T]. *)
Record links (T : gset Z) (h h' : heap) : Prop := {
  lk_node : forall m, exists x, nd h' m = set_ht_next x (nd h m);
  lk_out : forall m, m ∉ T -> nd h' m = nd h m;
  lk_rest : h_free h' = h_free h /\ h_next h' = h_next h /\ h_buf h' = h_buf h /\ h_nmem h' = h_nmem h /\ h_fail h' = h_fail h }.

Lemma set_ht_next_twice x y n : set_ht_next x (set_ht_next y n) = set_ht_next x n.
Proof. done. Qed.
Lemma set_ht_next_id n : set_ht_next (n_ht_next n) n = n.
Proof. by destruct n. Qed.

Lemma links_refl T h : links T h h.
Proof. split; [intros m; exists (n_ht_next (nd h m)); by rewrite set_ht_next_id|done|done]. Qed.

Lemma links_trans T h1 h2 h3 : links T h1 h2 -> links T h2 h3 -> links T h1 h3.
Proof.
  intros [A1 B1 C1] [A2 B2 C2]. split.
  - intros m. destruct (A1 m) as [x Hx], (A2 m) as [y Hy]. exists y. by rewrite Hy, Hx.
  - intros m Hm. by rewrite B2, B1.
  - destruct C1 as (?&?&?&?&?), C2 as (?&?&?&?&?). repeat split; congruence.
Qed.

Lemma links_mono T T' h h' : T ⊆ T' -> links T h h' -> links T' h h'.
Proof. intros HT [A B C]. split; [done| |done]. intros m Hm. apply B. set_solver. Qed.

Lemma links_set T n x h : n ∈ T -> links T h (set_node n (set_ht_next x (nd h n)) h).
Proof.
  intros Hn. split; [| |done].
  - intros m. rewrite nd_set. case_decide as Hd.
    + subst. by exists x.
    + exists (n_ht_next (nd h m)). by rewrite set_ht_next_id.
  - intros m Hm. rewrite nd_set, decide_False; [done|]. intros ->. done.
Qed.

(** ** Keys and hashes *)

Definition nkey (h : heap) (n : nid) : option bytes := key_bytes h (n_key (nd h n)).
Definition nhash (h : heap) (n : nid) (sz : Z) : option Z := s ← nkey h n; Some (get_keyhash (n_tag (nd h n)) s sz).

(** The node has the tag and the key. *)
Definition matches (h : heap) (t : Z) (s : bytes) (n : nid) : bool :=
  Z.eqb t (n_tag (nd h n)) && bool_decide (nkey h n = Some s).

Lemma links_key T h h' n : links T h h' -> nkey h' n = nkey h n.
Proof.
  intros [A _ (_&_&Hb&_)]. destruct (A n) as [x Hx]. unfold nkey, key_bytes, str_at, buf_get.
  rewrite Hx, Hb. done.
Qed.

Lemma links_tag T h h' n : links T h h' -> n_tag (nd h' n) = n_tag (nd h n).
Proof. intros [A _ _]. destruct (A n) as [x Hx]. by rewrite Hx. Qed.

Lemma links_hash T h h' n sz : links T h h' -> nhash h' n sz = nhash h n sz.
Proof. intros L. unfold nhash. by rewrite (links_key _ _ _ _ L), (links_tag _ _ _ _ L). Qed.

Lemma str_at_len h p n s : str_at h p n = Some s -> len s = n.
Proof.
  unfold str_at. destruct (Z.eqb_spec n 0) as [->|]; [intros [= <-]; done|].
  destruct p as [[b o]|]; [|done]. cbn. destruct (buf_get h b); [|done]. cbn. apply mem_read_len.
Qed.

Lemma nkey_len h n s : nkey h n = Some s -> len s = k_len (n_key (nd h n)).
Proof. apply str_at_len. Qed.

Lemma node_hash_run h n sz i : nhash h n sz = Some i -> node_hash n sz h = Ret i h.
Proof.
  unfold nhash, nkey, node_hash, key_bytes, read_str. hsimp.
  destruct (str_at _ _ _); cbn; [|done]. intros [= <-]. by hsimp.
Qed.

Lemma IsMatch_run h c t k klen s :
  str_at h k klen = Some s -> is_Some (nkey h c) -> IsMatch c t k klen h = Ret (matches h t s c) h.
Proof.
  intros Hs [u Hu]. unfold IsMatch, matches, same_str, read_str. hsimp.
  pose proof (nkey_len _ _ _ Hu) as Hl. pose proof (str_at_len _ _ _ _ Hs) as Hls.
  rewrite Hu. unfold nkey, key_bytes in Hu.
  destruct (Z.eqb_spec t (n_tag (nd h c))) as [->|]; [cbn [andb]|done].
  destruct (Z.eqb_spec (k_len (n_key (nd h c))) klen) as [He|Hne].
  - hsimp. rewrite <- He at 1. rewrite Hu. hsimp. rewrite Hs. hsimp. f_equal. apply bool_decide_ext. naive_solver.
  - rewrite bool_decide_eq_false_2; [done|]. intros [= ->]. congruence.
Qed.

(** *** Hashes are below the size *)

Lemma land_pow2_range x k : 0 <= k -> 0 <= Z.land x (2 ^ k - 1) < 2 ^ k.
Proof.
  intros Hk. replace (2 ^ k - 1) with (Z.ones k) by (rewrite Z.ones_equiv; lia).
  rewrite Z.land_ones by done. apply Z.mod_pos_bound. lia.
Qed.

Definition ht_size (sz : Z) : Prop := sz = 32 \/ sz = 256 \/ sz = 8192.

Lemma get_keyhash_range t k sz : ht_size sz -> 0 <= get_keyhash t k sz < sz.
Proof.
  intros H. unfold get_keyhash. destruct (hash_words _ _ _) as [t' k'].
  destruct H as [-> | [-> | ->]].
  - apply (land_pow2_range _ 5); lia.
  - apply (land_pow2_range _ 8); lia.
  - apply (land_pow2_range _ 13); lia.
Qed.

Lemma nhash_range h n sz i : ht_size sz -> nhash h n sz = Some i -> 0 <= i < sz.
Proof.
  intros Hs. unfold nhash. destruct (nkey h n); cbn; [|done]. intros [= <-]. by apply get_keyhash_range.
Qed.

(** ** Chains *)

Fixpoint chain (h : heap) (c : option nid) (l : list nid) : Prop :=
  match l with
  | [] => c = None
  | x :: l' => c = Some x /\ chain h (n_ht_next (nd h x)) l'
  end.

Lemma chain_frame h h' c l :
  (forall m, m ∈ l -> n_ht_next (nd h' m) = n_ht_next (nd h m)) -> chain h c l -> chain h' c l.
Proof.
  revert c. induction l as [|x l IH]; intros c Hf; cbn; [done|]. intros [-> Hc]. split; [done|].
  rewrite Hf by constructor. apply IH; [|done]. intros m Hm. apply Hf. by constructor.
Qed.

Lemma chain_links T h h' c l : links T h h' -> (forall m, m ∈ l -> m ∉ T) -> chain h c l -> chain h' c l.
Proof. intros L Hd. apply chain_frame. intros m Hm. by rewrite (lk_out _ _ _ L) by auto. Qed.

(** The first node of a chain that satisfies a test, with its position. *)
Fixpoint chain_find (f : nid -> bool) (l : list nid) (pos : HtPos) : option (nid * HtPos) :=
  match l with
  | [] => None
  | c :: l' => if f c then Some (c, pos) else chain_find f l' (PNext c)
  end.

Lemma ht_walk_run h t k klen s l : forall fuel c pos,
  str_at h k klen = Some s -> (forall m, m ∈ l -> is_Some (nkey h m)) ->
  chain h c l -> (length l <= fuel)%nat ->
  ht_walk fuel c pos t k klen h = Ret (chain_find (matches h t s) l pos) h.
Proof.
  induction l as [|x l IH]; intros fuel c pos Hs Hk Hc Hf; cbn in Hc.
  - subst. by destruct fuel.
  - destruct Hc as [-> Hc]. destruct fuel as [|fuel]; [cbn in Hf; lia|]. cbn [ht_walk chain_find].
    hsimp. rewrite (IsMatch_run _ _ _ _ _ s Hs) by (apply Hk; constructor).
    destruct (matches h t s x); [done|]. hsimp. apply IH; try done.
    + intros m Hm. apply Hk. by constructor.
    + cbn in Hf. lia.
Qed.

Lemma chain_find_some f l pos c q : chain_find f l pos = Some (c, q) -> c ∈ l /\ f c = true.
Proof.
  revert pos. induction l as [|x l IH]; intros pos; cbn; [done|].
  destruct (f x) eqn:E; [intros [= -> ->]; split; [constructor|done]|].
  intros H. destruct (IH _ H). split; [by constructor|done].
Qed.

Lemma chain_find_none f l pos : chain_find f l pos = None -> forall c, c ∈ l -> f c = false.
Proof.
  revert pos. induction l as [|x l IH]; intros pos; cbn; [by intros _ c ?%elem_of_nil|].
  destruct (f x) eqn:E; [done|]. intros H c Hc. apply elem_of_cons in Hc as [->|Hc]; [done|]. eauto.
Qed.

(** ** Tables *)

(** [slots] are the heads of the chains [B], which hold the nodes of [S], each under its hash. *)
Record tbl (h : heap) (sz : Z) (slots : gmap Z (option nid)) (B : gmap Z (list nid)) (S : gset Z) : Prop := {
  t_chain : forall i, match slots !! i, B !! i with
                      | Some c, Some l => chain h c l | None, None => True | _, _ => False end;
  t_hash : forall i l n, B !! i = Some l -> n ∈ l -> nhash h n sz = Some i;
  t_nodup : forall i l, B !! i = Some l -> NoDup l;
  t_mem : forall n, n ∈ S <-> exists i l, B !! i = Some l /\ n ∈ l }.

Lemma tbl_empty h sz : tbl h sz ∅ ∅ ∅.
Proof. split; try (intros *; rewrite ?lookup_empty; naive_solver). set_solver. Qed.

Lemma tbl_links T h h' sz slots B S : links T h h' -> S ## T -> tbl h sz slots B S -> tbl h' sz slots B S.
Proof.
  intros L Hd [A H N M]. split; [| |done|done].
  - intros i. specialize (A i). destruct (slots !! i), (B !! i) as [l|] eqn:E; try done.
    apply (chain_links _ _ _ _ _ L); [|done]. intros m Hm. assert (m ∈ S) by (apply M; eauto). set_solver.
  - intros i l n Hi Hn. rewrite (links_hash _ _ _ _ _ L). eauto.
Qed.

Lemma tbl_member h sz slots B S n :
  tbl h sz slots B S -> n ∈ S -> exists i l, B !! i = Some l /\ n ∈ l /\ nhash h n sz = Some i.
Proof. intros T Hn. destruct (proj1 (t_mem _ _ _ _ _ T n) Hn) as (i & l & Hi & Hl). eauto 6 using t_hash. Qed.

Lemma slot_push_run h sz slots B S n hi :
  tbl h sz slots B S -> n ∉ S -> nhash h n sz = Some hi ->
  exists m' B' h', slot_push slots hi n h = Ret m' h' /\ links {[n]} h h' /\ tbl h' sz m' B' ({[n]} ∪ S).
Proof.
  intros T Hn Hh. unfold slot_push. hsimp.
  eexists _, (<[hi := n :: default [] (B !! hi)]> B), _. split; [done|].
  pose proof (links_set {[n]} n (default None (slots !! hi)) h ltac:(set_solver)) as L.
  split; [exact L|]. set (h' := set_node _ _ _) in *.
  pose proof (tbl_links _ _ _ _ _ _ S L ltac:(set_solver) T) as T'. destruct T as [A H N M].
  split.
  - intros i. destruct (decide (i = hi)) as [->|Hi].
    + rewrite !lookup_insert_eq. cbn. split; [done|]. subst h'. rewrite nd_set, decide_True by done. cbn.
      pose proof (t_chain _ _ _ _ _ T' hi) as Hc. destruct (slots !! hi), (B !! hi); done.
    + rewrite !lookup_insert_ne by done. apply (t_chain _ _ _ _ _ T').
  - intros i l m. destruct (decide (i = hi)) as [->|Hi].
    + rewrite lookup_insert_eq. intros [= <-] Hm. apply elem_of_cons in Hm as [->|Hm].
      * by rewrite (links_hash _ _ _ _ _ L).
      * destruct (B !! hi) as [l|] eqn:E; [|by apply elem_of_nil in Hm]. eapply (t_hash _ _ _ _ _ T'); eauto.
    + rewrite lookup_insert_ne by done. apply (t_hash _ _ _ _ _ T').
  - intros i l. destruct (decide (i = hi)) as [->|Hi].
    + rewrite lookup_insert_eq. intros [= <-]. constructor.
      * destruct (B !! hi) eqn:E; [|apply not_elem_of_nil]. intros Hl. apply Hn, M. eauto.
      * destruct (B !! hi) eqn:E; [eauto|constructor].
    + rewrite lookup_insert_ne by done. apply N.
  - intros m. rewrite elem_of_union, elem_of_singleton, M. split.
    + intros [->|(i & l & Hi & Hl)].
      * exists hi. eexists. rewrite lookup_insert_eq. split; [done|]. constructor.
      * destruct (decide (i = hi)) as [->|Hne].
        -- exists hi. eexists. rewrite lookup_insert_eq. split; [done|]. rewrite Hi. by constructor.
        -- exists i, l. by rewrite lookup_insert_ne.
    + intros (i & l & Hi & Hl). destruct (decide (i = hi)) as [->|Hne].
      * rewrite lookup_insert_eq in Hi. injection Hi as <-. apply elem_of_cons in Hl as [->|Hl]; [by left|right].
        destruct (B !! hi) eqn:E; [eauto|by apply elem_of_nil in Hl].
      * rewrite lookup_insert_ne in Hi by done. eauto.
Qed.

(** ** Growing *)

Lemma nhash_other h n sz sz' i : nhash h n sz = Some i -> exists j, nhash h n sz' = Some j.
Proof. unfold nhash. destruct (nkey h n); cbn; [eauto|done]. Qed.

Lemma size_add_list (l : list nid) (S : gset Z) :
  NoDup l -> (forall x, x ∈ l -> x ∉ S) -> Z.of_nat (size (list_to_set l ∪ S : gset Z)) = len l + Z.of_nat (size S).
Proof.
  intros Hn Hd. rewrite size_union, size_list_to_set by (set_solver || done). unfold len. lia.
Qed.

Lemma move_chain_run sz l : forall fuel c h m nr B S,
  chain h c l -> NoDup l -> (forall x, x ∈ l -> x ∉ S) -> (length l <= fuel)%nat ->
  tbl h sz m B S -> (forall x, x ∈ l -> exists i, nhash h x sz = Some i) ->
  exists m' B' h', move_chain fuel c sz m nr h = Ret (m', nr + len l) h' /\
    links (list_to_set l) h h' /\ tbl h' sz m' B' (list_to_set l ∪ S).
Proof.
  induction l as [|x l IH]; intros fuel c h m nr B S Hc Hn Hd Hf T Hh; cbn [chain] in Hc.
  - subst. exists m, B, h. split; [destruct fuel; cbn; hsimp; rewrite len_nil, Z.add_0_r; done|].
    split; [apply links_refl|]. replace (list_to_set [] ∪ S) with S by set_solver. done.
  - destruct Hc as [-> Hc]. apply NoDup_cons in Hn as [Hx Hn]. destruct fuel as [|fuel]; [cbn in Hf; lia|].
    cbn [move_chain]. hsimp. destruct (Hh x) as [hi Hi]; [constructor|].
    rewrite (node_hash_run _ _ _ _ Hi). hsimp.
    destruct (slot_push_run h sz m B S x hi) as (m1 & B1 & h1 & E1 & L1 & T1); [done|apply Hd; constructor|done|].
    rewrite E1. hsimp. cbn in Hf.
    destruct (IH fuel (n_ht_next (nd h x)) h1 m1 (nr + 1) B1 ({[x]} ∪ S)) as (m2 & B2 & h2 & E2 & L2 & T2);
      try done; try lia.
    + apply (chain_links _ _ _ _ _ L1); [|done]. intros y Hy. apply not_elem_of_singleton. by intros ->.
    + intros y Hy. pose proof (Hd y ltac:(by constructor)). set_solver.
    + intros y Hy. destruct (Hh y) as [j Hj]; [by constructor|]. exists j. by rewrite (links_hash _ _ _ _ _ L1).
    + exists m2, B2, h2. rewrite E2, len_cons. split; [f_equal; f_equal; lia|]. split.
      * eapply links_trans; [eapply links_mono; [|exact L1]; set_solver|].
        eapply links_mono; [|exact L2]; set_solver.
      * replace (list_to_set (x :: l) ∪ S) with (list_to_set l ∪ ({[x]} ∪ S)) by set_solver. done.
Qed.

(** What is left of the old table [old], of size [osz], when the slots of [l] are still to be moved. *)
Record remains (h : heap) (osz : Z) (old : gmap Z (option nid)) (Bo : gmap Z (list nid)) (l : list Z) (S : gset Z) : Prop := {
  r_chain : forall i, i ∈ l -> match old !! i, Bo !! i with
                               | Some c, Some lc => chain h c lc | None, None => True | _, _ => False end;
  r_hash : forall i lc n, Bo !! i = Some lc -> n ∈ lc -> nhash h n osz = Some i;
  r_nodup : forall i lc, Bo !! i = Some lc -> NoDup lc;
  r_new : forall i lc n, i ∈ l -> Bo !! i = Some lc -> n ∈ lc -> n ∉ S }.

Lemma remains_step h h' osz old Bo i l lc S :
  NoDup (i :: l) -> Bo !! i = Some lc -> remains h osz old Bo (i :: l) S -> links (list_to_set lc) h h' ->
  remains h' osz old Bo l (list_to_set lc ∪ S).
Proof.
  intros Hn Hi R L. apply NoDup_cons in Hn as [Hn _].
  assert (Hdis : forall j lj x, j ∈ l -> Bo !! j = Some lj -> x ∈ lj -> x ∉ lc).
  { intros j lj x Hj Hb Hx Hc. apply Hn.
    assert (Some i = Some j) as [= ->]; [|done].
    rewrite <- (r_hash _ _ _ _ _ _ R _ _ _ Hi Hc). by apply (r_hash _ _ _ _ _ _ R) with lj. }
  split.
  - intros j Hj. pose proof (r_chain _ _ _ _ _ _ R j ltac:(by constructor)) as Hc.
    destruct (old !! j), (Bo !! j) as [lj|] eqn:E; try done.
    apply (chain_links _ _ _ _ _ L); [|done]. intros x Hx. rewrite elem_of_list_to_set. eauto.
  - intros j lj n Hj Hx. rewrite (links_hash _ _ _ _ _ L). by apply (r_hash _ _ _ _ _ _ R) with lj.
  - apply (r_nodup _ _ _ _ _ _ R).
  - intros j lj n Hj Hb Hx. rewrite not_elem_of_union, elem_of_list_to_set. split; [eauto|].
    apply (r_new _ _ _ _ _ _ R) with j lj; try done. by constructor.
Qed.

Lemma move_slots_run fuel osz sz old Bo l : forall h m nr B S,
  NoDup l -> remains h osz old Bo l S -> tbl h sz m B S -> nr = Z.of_nat (size S) ->
  (forall i lc, Bo !! i = Some lc -> (length lc <= fuel)%nat) ->
  exists m' B' S' h', move_slots fuel l old sz m nr h = Ret (m', Z.of_nat (size S')) h' /\ tbl h' sz m' B' S' /\
    links S' h h' /\ (forall x, x ∈ S' <-> x ∈ S \/ exists i lc, i ∈ l /\ Bo !! i = Some lc /\ x ∈ lc).
Proof.
  induction l as [|i l IH]; intros h m nr B S Hn R T -> Hf; cbn [move_slots].
  - exists m, B, S, h. split_and!; [by hsimp|done|apply links_refl|].
    intros x. split; [by left|]. intros [?|(j & lc & Hj & _)]; [done|by apply elem_of_nil in Hj].
  - pose proof (r_chain _ _ _ _ _ _ R i ltac:(constructor)) as Hc.
    assert (Hnl : NoDup l) by (by apply NoDup_cons in Hn as [_ ?]).
    destruct (old !! i) as [c|] eqn:Eo; destruct (Bo !! i) as [lc|] eqn:Eb; try done.
    + destruct (move_chain_run sz lc fuel c h m (Z.of_nat (size S)) B S) as (m1 & B1 & h1 & E1 & L1 & T1); try done.
      * by apply (r_nodup _ _ _ _ _ _ R i).
      * intros x Hx. apply (r_new _ _ _ _ _ _ R) with i lc; try done. constructor.
      * eauto.
      * intros x Hx. eapply nhash_other, (r_hash _ _ _ _ _ _ R); eauto.
      * hsimp. rewrite E1. hsimp.
        destruct (IH h1 m1 (Z.of_nat (size S) + len lc) B1 (list_to_set lc ∪ S)) as (m2 & B2 & S2 & h2 & E2 & T2 & L2 & M2);
          try done.
        -- by apply (remains_step h h1 osz old Bo i l lc S).
        -- rewrite size_add_list; [lia|by apply (r_nodup _ _ _ _ _ _ R i)|].
           intros x Hx. apply (r_new _ _ _ _ _ _ R) with i lc; try done. constructor.
        -- exists m2, B2, S2, h2. split_and!; try done.
           ++ eapply links_trans; [|exact L2]. eapply links_mono; [|exact L1]; set_solver.
           ++ intros x. rewrite M2, elem_of_union, elem_of_list_to_set. setoid_rewrite elem_of_cons. naive_solver.
    + destruct (IH h m (Z.of_nat (size S)) B S) as (m2 & B2 & S2 & h2 & E2 & T2 & L2 & M2); try done.
      * destruct R as [A H N D]. split; try done; [intros j Hj; apply A|intros j lj x Hj; apply D]; by constructor.
      * exists m2, B2, S2, h2. split_and!; try done. intros x. rewrite M2. setoid_rewrite elem_of_cons. naive_solver.
Qed.

(** ** The table of a node *)

(** A key does not lie in a block of the pool. *)
Definition key_outside (h : heap) (n : nid) (i : Z) : Prop :=
  k_len (n_key (nd h n)) <> 0 -> forall o, k_val (n_key (nd h n)) <> Some (BMem i, o).

(** The table of [p] is sound and holds the nodes of [S]. *)
Record ht_rep (h : heap) (p : nid) (S : gset Z) : Prop := {
  hr_sz : ht_size (ht_sz (n_ht (nd h p)));
  hr_tbl : exists B, tbl h (ht_sz (n_ht (nd h p))) (ht_slot (n_ht (nd h p))) B S;
  hr_nr : ht_nr (n_ht (nd h p)) = Z.of_nat (size S);
  hr_self : p ∉ S;
  hr_mem : forall i, ht_mem (n_ht (nd h p)) = Some i -> i < h_nmem h /\ forall n, n ∈ S -> key_outside h n i }.

(** What an operation on the table of [p] changes: [ht_next] in the nodes of [T], the table of [p], and
    the block of its table. *)
Record ht_frame (p : nid) (T : gset Z) (h h' : heap) : Prop := {
  hf_node : forall m, m <> p -> exists x, nd h' m = set_ht_next x (nd h m);
  hf_out : forall m, m <> p -> m ∉ T -> nd h' m = nd h m;
  hf_self : exists t, nd h' p = set_ht t (nd h p);
  hf_buf : forall b, (forall i, b = BMem i -> ht_mem (n_ht (nd h p)) <> Some i /\ i < h_nmem h) ->
           h_buf h' !! b = h_buf h !! b;
  hf_mem : forall i, ht_mem (n_ht (nd h' p)) = Some i -> ht_mem (n_ht (nd h p)) = Some i \/ h_nmem h <= i;
  hf_nmem : h_nmem h <= h_nmem h';
  hf_rest : h_free h' = h_free h /\ h_next h' = h_next h /\ (h_fail h = [] -> h_fail h' = []) }.

Lemma tbl_agree h h' sz slots B S :
  (forall n, n ∈ S -> n_ht_next (nd h' n) = n_ht_next (nd h n) /\ n_tag (nd h' n) = n_tag (nd h n) /\
     (is_Some (nkey h n) -> nkey h' n = nkey h n)) ->
  tbl h sz slots B S -> tbl h' sz slots B S.
Proof.
  intros Ha [A H N M]. split; [| |done|done].
  - intros i. specialize (A i). destruct (slots !! i), (B !! i) as [l|] eqn:E; try done.
    apply (chain_frame h); [|done]. intros m Hm. apply Ha, M. eauto.
  - intros i l n Hi Hn. specialize (H _ _ _ Hi Hn). destruct (Ha n) as (_ & Ht & Hk); [apply M; eauto|].
    unfold nhash in *. rewrite Ht. destruct (nkey h n) eqn:E; [|done]. rewrite Hk by done. done.
Qed.

Lemma bucket_len h sz slots B S i l : tbl h sz slots B S -> B !! i = Some l -> (length l <= size S)%nat.
Proof.
  intros T Hi. rewrite <- (size_list_to_set (C:=gset Z)) by (eapply (t_nodup _ _ _ _ _ T); eauto).
  apply subseteq_size. intros x Hx%elem_of_list_to_set. apply (t_mem _ _ _ _ _ T). eauto.
Qed.

Lemma key_grow h b v n :
  h_buf h !! b = None -> is_Some (nkey h n) ->
  forall h', nd h' n = nd h n -> h_buf h' = <[b := v]> (h_buf h) -> (forall m k, b <> BSmall m k) ->
  nkey h' n = nkey h n.
Proof.
  intros Hb [s Hs] h' Hn Hh Hbs. unfold nkey, key_bytes, str_at in *. rewrite Hn.
  destruct (Z.eqb _ 0); [done|]. destruct (k_val _) as [[b' o]|]; [|done]. cbn in *.
  assert (buf_get h' b' = buf_get h b') as ->; [|done].
  destruct b'; cbn in *; rewrite Hh; rewrite ?lookup_insert_ne; try done; intros ->; by rewrite Hb in Hs.
Qed.

Lemma key_shrink h i n :
  key_outside h n i -> forall h', nd h' n = nd h n -> h_buf h' = delete (BMem i) (h_buf h) -> nkey h' n = nkey h n.
Proof.
  intros Ho h' Hn Hh. unfold nkey, key_bytes, str_at. rewrite Hn.
  destruct (Z.eqb_spec (k_len (n_key (nd h n))) 0) as [|Hl]; [done|].
  destruct (k_val _) as [[b' o]|] eqn:E; [|done]. cbn.
  assert (buf_get h' b' = buf_get h b') as ->; [|done].
  destruct b'; cbn; rewrite Hh, ?lookup_delete_ne; try done. intros [= ->]. by apply (Ho Hl o).
Qed.

(** The heap after a block of [sz] bytes was handed out. *)
Definition alloc_heap (sz : Z) (h : heap) : heap :=
  mk_heap (h_node h) (h_free h) (h_next h)
    (<[BMem (h_nmem h) := replicate (Z.to_nat (block_size sz)) 0]> (h_buf h)) (h_nmem h + 1) (tail (h_fail h)).
Definition fail_heap (h : heap) : heap :=
  mk_heap (h_node h) (h_free h) (h_next h) (h_buf h) (h_nmem h) (tail (h_fail h)).

(** The next allocation fails. *)
Definition will_fail (h : heap) : bool := match h_fail h with b :: _ => b | [] => false end.

Lemma mem_alloc_run sz h :
  mem_alloc sz h = if will_fail h then Ret None (fail_heap h) else Ret (Some (h_nmem h)) (alloc_heap sz h).
Proof.
  unfold mem_alloc, alloc_ok, will_fail, new_block, alloc_heap, fail_heap. hsimp.
  destruct h as [a b c d e [|[] f]]; done.
Qed.

Lemma heap_ok_alloc sz h : heap_ok h -> heap_ok (alloc_heap sz h).
Proof. intros H i Hi. cbn in *. rewrite lookup_insert_ne by (intros [= ?]; lia). apply H. lia. Qed.

Lemma heap_ok_sub h h' : h_nmem h <= h_nmem h' -> (forall b, h_buf h !! b = None -> h_buf h' !! b = None) -> heap_ok h -> heap_ok h'.
Proof. intros Hn Hb H i Hi. apply Hb, H. lia. Qed.

Lemma ht_frame_refl p T h : ht_frame p T h h.
Proof.
  split; try done; [|exists (n_ht (nd h p)); by destruct (nd h p)|by left]. intros m _.
  exists (n_ht_next (nd h m)). by rewrite set_ht_next_id.
Qed.

Lemma key_outside_fresh h n i : h_buf h !! BMem i = None -> is_Some (nkey h n) -> key_outside h n i.
Proof.
  intros Hb [s Hs] Hl o Ho. unfold nkey, key_bytes, str_at in Hs. rewrite Ho, (proj2 (Z.eqb_neq _ _) Hl) in Hs.
  cbn in Hs. by rewrite Hb in Hs.
Qed.

Lemma tbl_key h sz slots B S n : tbl h sz slots B S -> n ∈ S -> is_Some (nkey h n).
Proof.
  intros T Hn. destruct (tbl_member _ _ _ _ _ _ T Hn) as (i & l & _ & _ & Hh). unfold nhash in Hh.
  destruct (nkey h n); [eauto|done].
Qed.

(** The old table as something still to be moved. *)
Lemma tbl_remains h sz slots B S : ht_size sz -> tbl h sz slots B S -> remains h sz slots B (seqZ 0 sz) ∅.
Proof.
  intros Hs [A H N M]. split; [intros i _; apply A|done|done|]. set_solver.
Qed.

Lemma mem_free_run m h :
  mem_free m h = Ret tt (set_buf (match m with Some i => delete (BMem i) (h_buf h) | None => h_buf h end) h).
Proof. destruct m; [done|]. by destruct h. Qed.

Lemma alloc_tbl sz h sz' slots B S : heap_ok h -> tbl h sz' slots B S -> tbl (alloc_heap sz h) sz' slots B S.
Proof.
  intros Hok T. apply (tbl_agree h); [|done]. intros n Hn. split_and!; [done|done|]. intros Hk.
  eapply (key_grow h (BMem (h_nmem h))); try done. apply Hok; lia.
Qed.

(** The heap [h2] after the chains were moved, with the new table in place. *)
Definition grow_heap (h h2 : heap) (p : nid) (t : KnvHt) : heap :=
  set_node p (set_ht t (nd h2 p))
    (set_buf (match ht_mem (n_ht (nd h p)) with Some i => delete (BMem i) (h_buf h2) | None => h_buf h2 end) h2).

Lemma nd_grow h h2 p t m : nd (grow_heap h h2 p t) m = if decide (m = p) then set_ht t (nd h2 p) else nd h2 m.
Proof. unfold grow_heap. rewrite nd_set, nd_set_buf. case_decide; by subst. Qed.

Lemma buf_grow h h2 p t :
  h_buf (grow_heap h h2 p t) = match ht_mem (n_ht (nd h p)) with Some i => delete (BMem i) (h_buf h2) | None => h_buf h2 end.
Proof. done. Qed.

Lemma grow_rep h h2 p S sz' m2 B2 :
  heap_ok h -> ht_rep h p S -> ht_size sz' -> (forall m, exists x, nd h2 m = set_ht_next x (nd h m)) ->
  tbl h2 sz' m2 B2 S -> h_nmem h < h_nmem h2 ->
  ht_rep (grow_heap h h2 p (mk_ht (Z.of_nat (size S)) sz' (Some (h_nmem h)) m2)) p S.
Proof.
  intros Hok [Rs [B RT] Rn Rp Rm] Hs' Hl T2 Hn.
  assert (Hk : forall n, n_key (nd h2 n) = n_key (nd h n)) by (intros n; destruct (Hl n) as [x ->]; done).
  assert (Hnp : forall n, n ∈ S -> n <> p) by (by intros n Hx ->).
  split.
  - by rewrite nd_grow, decide_True.
  - exists B2. rewrite nd_grow, decide_True by done. cbn. apply (tbl_agree h2); [|done].
    intros n Hx. rewrite nd_grow, decide_False by auto. split_and!; [done|done|]. intros Hkey.
    destruct (ht_mem (n_ht (nd h p))) as [i|] eqn:Em.
    + apply (key_shrink h2 i).
      * destruct (Rm i eq_refl) as [_ Ho]. intros Hz o. rewrite Hk in *. by apply (Ho n Hx).
      * rewrite nd_grow, decide_False by auto. done.
      * by rewrite buf_grow, Em.
    + unfold nkey, key_bytes, str_at, buf_get. rewrite nd_grow, decide_False, buf_grow, Em by auto. done.
  - by rewrite nd_grow, decide_True.
  - done.
  - intros i. rewrite nd_grow, decide_True by done. cbn. intros [= <-]. split; [done|]. intros n Hx Hz o.
    rewrite nd_grow, decide_False, Hk in * by auto. revert Hz o. apply key_outside_fresh; [apply Hok; lia|].
    by eapply tbl_key.
Qed.

Lemma grow_frame h h2 p S t :
  (forall m, exists x, nd h2 m = set_ht_next x (nd h m)) -> (forall m, m ∉ S -> nd h2 m = nd h m) -> p ∉ S ->
  (forall b, (forall i, b = BMem i -> i < h_nmem h) -> h_buf h2 !! b = h_buf h !! b) ->
  ht_mem t = Some (h_nmem h) -> h_nmem h <= h_nmem h2 ->
  (h_free h2 = h_free h /\ h_next h2 = h_next h /\ (h_fail h = [] -> h_fail h2 = [])) ->
  ht_frame p S h (grow_heap h h2 p t).
Proof.
  intros Hl Ho Hp Hb Ht Hn Hr. split; [| | | | |done|done].
  - intros m Hm. rewrite nd_grow, decide_False by done. apply Hl.
  - intros m Hm Hs. rewrite nd_grow, decide_False by done. auto.
  - rewrite nd_grow, decide_True by done. exists t. by rewrite Ho.
  - intros b Hi. rewrite buf_grow. destruct (ht_mem (n_ht (nd h p))) as [i|]; [|apply Hb; naive_solver].
    rewrite lookup_delete_ne by (intros <-; naive_solver). apply Hb. naive_solver.
  - intros i. rewrite nd_grow, decide_True by done. cbn. rewrite Ht. intros [= <-]. by right.
Qed.

Lemma ht_increase_run fuel p h S :
  heap_ok h -> ht_rep h p S -> (size S <= fuel)%nat ->
  exists r h', ht_increase fuel p h = Ret r h' /\ heap_ok h' /\ ht_rep h' p S /\ ht_frame p S h h' /\
    (r = 0 \/ r = -1 /\ will_fail h = true).
Proof.
  intros Hok R Hf. unfold ht_increase. hsimp.
  destruct (Z.leb_spec 8192 (ht_sz (n_ht (nd h p)))) as [Hbig|Hsm].
  { exists 0, h. split_and!; eauto using ht_frame_refl. }
  set (sz' := if Z.ltb (ht_sz (n_ht (nd h p))) 256 then 256 else 8192).
  assert (Hsz' : ht_size sz') by (unfold ht_size, sz'; destruct (Z.ltb _ _); auto).
  hsimp. rewrite mem_alloc_run. destruct (will_fail h) eqn:Ew.
  { exists (-1), (fail_heap h). split_and!; auto.
    - destruct R as [Rs [B RT] Rn Rp Rm]. split; try done. exists B. by apply (tbl_agree h).
    - destruct (ht_frame_refl p S h) as [A B C D E F G].
      split; [exact A|exact B|exact C|exact D|exact E|exact F|]. split_and!; [done|done|]. cbn. by intros ->. }
  destruct R as [Rs [B RT] Rn Rp Rm]. pose proof (alloc_tbl ((sz' + (sz' + 63) / 64) * 8) h _ _ _ _ Hok RT) as T1.
  set (h1 := alloc_heap _ h) in *.
  destruct (move_slots_run fuel (ht_sz (n_ht (nd h p))) sz' (ht_slot (n_ht (nd h p))) B (seqZ 0 (ht_sz (n_ht (nd h p)))) h1 ∅ 0 ∅ ∅)
    as (m2 & B2 & S2 & h2 & E2 & T2 & L2 & M2).
  - apply NoDup_seqZ.
  - by eapply tbl_remains.
  - apply tbl_empty.
  - done.
  - intros i lc Hi. etrans; [by eapply bucket_len|done].
  - assert (S2 = S) as ->.
    { apply set_eq. intros x. rewrite M2. split.
      - intros [?|(i & lc & _ & Hi & Hx)]; [set_solver|]. apply (t_mem _ _ _ _ _ RT). eauto.
      - intros Hx. right. destruct (tbl_member _ _ _ _ _ _ RT Hx) as (i & l & Hi & Hl & Hh).
        exists i, l. rewrite elem_of_seqZ. pose proof (nhash_range _ _ _ _ Rs Hh). split_and!; try done; lia. }
    cbn beta iota. hsimp. rewrite E2. hsimp. rewrite mem_free_run. hsimp. rewrite nd_set_buf.
    assert (Hp2 : nd h2 p = nd h p) by (by rewrite (lk_out _ _ _ L2 p Rp)).
    destruct (lk_rest _ _ _ L2) as (_ & _ & Hb2 & Hm2 & _).
    eexists 0, _. split; [done|]. split_and!; [| | |by left].
    + apply (heap_ok_sub h2); [cbn; lia| |].
      * intros b. cbn. destruct (ht_mem _); [|done]. intros H. destruct (decide (b = BMem z)) as [->|].
        -- by rewrite lookup_delete_eq.
        -- by rewrite lookup_delete_ne.
      * apply (heap_ok_sub h1); [lia|by rewrite Hb2|by apply heap_ok_alloc].
    + apply (grow_rep h h2 p S sz' m2 B2); [done|by split; eauto|done|exact (lk_node _ _ _ L2)|done|].
      rewrite Hm2. subst h1. cbn. lia.
    + apply (grow_frame h h2 p S);
        [exact (lk_node _ _ _ L2)|exact (lk_out _ _ _ L2)|done| |done|rewrite Hm2; subst h1; cbn; lia|].
      2: { destruct (lk_rest _ _ _ L2) as (-> & -> & _ & _ & ->). subst h1. cbn. split_and!; [done|done|by intros ->]. }
      intros b Hb. rewrite Hb2. subst h1. cbn. rewrite lookup_insert_ne; [done|].
      intros <-. specialize (Hb _ eq_refl). lia.
Qed.

(** ** put *)

Lemma frame_key p T h h' n :
  heap_ok h -> ht_frame p T h h' -> n <> p -> is_Some (nkey h n) ->
  (forall i, ht_mem (n_ht (nd h p)) = Some i -> key_outside h n i) -> nkey h' n = nkey h n.
Proof.
  intros Hok F Hn [s Hs] Ho. destruct (hf_node _ _ _ _ F n Hn) as [x Hx].
  unfold nkey, key_bytes, str_at in *. rewrite Hx. cbn [n_key set_ht_next].
  destruct (Z.eqb_spec (k_len (n_key (nd h n))) 0) as [|Hl]; [done|].
  destruct (k_val _) as [[b o]|] eqn:E; [|done]. cbn [mbind option_bind] in *.
  assert (buf_get h' b = buf_get h b) as ->; [|done].
  assert (h_buf h' !! b = h_buf h !! b) as He.
  { apply (hf_buf _ _ _ _ F). intros i ->. split.
    - intros Hm. by apply (Ho i Hm Hl o).
    - destruct (Z.lt_ge_cases i (h_nmem h)); [done|]. cbn in Hs. by rewrite Hok in Hs by done. }
  destruct b; cbn; by rewrite He.
Qed.

(** The last step of [put], in a heap where the table has room. *)
Definition put_heap (h1 : heap) (p : nid) (m : gmap Z (option nid)) : heap :=
  let t := n_ht (nd h1 p) in
  set_node p (set_ht (mk_ht (ht_nr t + 1) (ht_sz t) (ht_mem t) m) (nd h1 p)) h1.

Lemma put_rep h h1 p n S m B :
  ht_rep h p S -> n ∉ S -> n <> p -> (forall i, ht_mem (n_ht (nd h p)) = Some i -> key_outside h n i) ->
  links {[n]} h h1 -> tbl h1 (ht_sz (n_ht (nd h p))) m B ({[n]} ∪ S) ->
  ht_rep (put_heap h1 p m) p ({[n]} ∪ S).
Proof.
  intros [Rs _ Rn Rp Rm] Hn Hnp Ho L T. unfold put_heap.
  assert (Hp : nd h1 p = nd h p) by (apply (lk_out _ _ _ L); set_solver).
  destruct (lk_rest _ _ _ L) as (_ & _ & Hb & Hm & _). rewrite Hp.
  assert (Hnd : forall x, x ∈ {[n]} ∪ S -> x <> p) by set_solver.
  assert (Hk : forall x, x <> p -> forall y, n_key (nd (set_node p y h1) x) = n_key (nd h x)).
  { intros x Hx y. rewrite nd_set, decide_False by done. destruct (lk_node _ _ _ L x) as [z ->]. done. }
  split; rewrite ?nd_set, ?decide_True by done; cbn [n_ht set_ht ht_sz ht_slot ht_nr ht_mem].
  - done.
  - exists B. apply (tbl_agree h1); [|done]. intros x Hx. rewrite nd_set, decide_False by auto.
    split_and!; try done. intros _. unfold nkey. rewrite nd_set, decide_False by auto. done.
  - rewrite size_union, size_singleton, Rn by set_solver. lia.
  - set_solver.
  - intros i Hi. destruct (Rm i Hi) as [Hlt Hout]. cbn. rewrite Hm. split; [done|]. intros x Hx Hz o.
    rewrite Hk in * by auto. apply elem_of_union in Hx as [->%elem_of_singleton|Hx]; [by apply (Ho i Hi)|by apply (Hout x Hx)].
Qed.

Lemma set_ht_id x : set_ht (n_ht x) x = x.
Proof. by destruct x. Qed.

Lemma ht_frame_trans p T h1 h2 h3 : ht_frame p T h1 h2 -> ht_frame p T h2 h3 -> ht_frame p T h1 h3.
Proof.
  intros [A1 B1 C1 D1 E1 F1 G1] [A2 B2 C2 D2 E2 F2 G2].
  split; [| | | | |lia|destruct G1 as (?&?&?), G2 as (?&?&?); split_and!; [congruence|congruence|auto]].
  - intros m Hm. destruct (A1 m Hm) as [x Hx], (A2 m Hm) as [y ->]. exists y. by rewrite Hx.
  - intros m Hm Ht. by rewrite B2, B1.
  - destruct C1 as [x Hx], C2 as [y ->]. exists y. by rewrite Hx.
  - intros b Hb. rewrite D2; [auto|]. intros i ->. destruct (Hb i eq_refl) as [Hm Hl]. split; [|lia].
    intros H. apply E1 in H as [?|?]; [done|lia].
  - intros i Hi. apply E2 in Hi as [Hi|Hi]; [auto|right; lia].
Qed.

Lemma ht_frame_mono p T T' h h' : T ⊆ T' -> ht_frame p T h h' -> ht_frame p T' h h'.
Proof. intros HT [A B C D E F]. split; try done. intros m Hm Hx. apply B; [done|]. set_solver. Qed.

Lemma links_frame p T h h' : links T h h' -> p ∉ T -> ht_frame p T h h'.
Proof.
  intros L Hp. pose proof (lk_out _ _ _ L p Hp) as Hpp. destruct L as [A B (G1&G2&C&D&G3)].
  split; [intros m _; apply A|intros m _; apply B| | | |lia|by rewrite G1, G2, G3].
  - exists (n_ht (nd h p)). by rewrite set_ht_id.
  - intros b _. by rewrite C.
  - rewrite Hpp. by left.
Qed.

Lemma set_ht_frame p T t h :
  ht_mem t = ht_mem (n_ht (nd h p)) -> ht_frame p T h (set_node p (set_ht t (nd h p)) h).
Proof.
  intros Ht. split; [| | |done| |done|done].
  - intros m Hm. rewrite nd_set, decide_False by done. exists (n_ht_next (nd h m)). by rewrite set_ht_next_id.
  - intros m Hm _. by rewrite nd_set, decide_False.
  - exists t. by rewrite nd_set, decide_True.
  - intros i. rewrite nd_set, decide_True by done. cbn. rewrite Ht. by left.
Qed.

Lemma ht_put_room p n h S :
  ht_rep h p S -> n ∉ S -> n <> p -> is_Some (nkey h n) ->
  (forall i, ht_mem (n_ht (nd h p)) = Some i -> key_outside h n i) ->
  exists h', (hi ← node_hash n (ht_sz (n_ht (nd h p))); m ← slot_push (ht_slot (n_ht (nd h p))) hi n;
     modn p (fun x => set_ht (mk_ht (ht_nr (n_ht x) + 1) (ht_sz (n_ht x)) (ht_mem (n_ht x)) m) x);; mret 0) h = Ret 0 h' /\
    ht_frame p ({[n]} ∪ S) h h' /\ ht_rep h' p ({[n]} ∪ S) /\ h_buf h' = h_buf h /\ h_nmem h' = h_nmem h.
Proof.
  intros R Hn Hnp [s Hs] Ho. pose proof R as [Rs [B RT] Rn Rp Rm].
  assert (Hh : nhash h n (ht_sz (n_ht (nd h p))) = Some (get_keyhash (n_tag (nd h n)) s (ht_sz (n_ht (nd h p)))))
    by (unfold nhash; by rewrite Hs).
  hsimp. rewrite (node_hash_run _ _ _ _ Hh). hsimp.
  destruct (slot_push_run _ _ _ _ _ _ _ RT Hn Hh) as (m & B' & h1 & E & L & T). rewrite E. hsimp.
  eexists. split; [done|]. fold (put_heap h1 p m). split_and!.
  - eapply ht_frame_trans; [eapply ht_frame_mono; [|apply (links_frame p _ _ _ L)]; set_solver|].
    by apply set_ht_frame.
  - by eapply put_rep.
  - apply (lk_rest _ _ _ L).
  - apply (lk_rest _ _ _ L).
Qed.

Lemma ht_put_run fuel p n h S :
  heap_ok h -> ht_rep h p S -> n ∉ S -> n <> p -> is_Some (nkey h n) ->
  (forall i, ht_mem (n_ht (nd h p)) = Some i -> key_outside h n i) -> (size S <= fuel)%nat ->
  exists r h', ht_put fuel p n h = Ret r h' /\ heap_ok h' /\ ht_frame p ({[n]} ∪ S) h h' /\
    (r = 0 /\ ht_rep h' p ({[n]} ∪ S) \/ r = -1 /\ will_fail h = true /\ ht_rep h' p S).
Proof.
  intros Hok R Hn Hnp Hk Ho Hf. unfold ht_put. hsimp.
  assert (exists r h1, (if Z.ltb (ht_sz (n_ht (nd h p))) (ht_nr (n_ht (nd h p)) + 1) then ht_increase fuel p else mret 0) h = Ret r h1 /\
    heap_ok h1 /\ ht_rep h1 p S /\ ht_frame p S h h1 /\ (r = 0 \/ r = -1 /\ will_fail h = true))
    as (r & h1 & E & Hok1 & R1 & F1 & Hr).
  { destruct (Z.ltb _ _); [by apply ht_increase_run|]. exists 0, h. hsimp. eauto 6 using ht_frame_refl. }
  rewrite E. hsimp. destruct Hr as [-> | [-> Hw]]; cbn [ok negb Z.eqb].
  2: { exists (-1), h1. split_and!; [by hsimp|done| |by right]. eapply ht_frame_mono; [|done]. set_solver. }
  hsimp. pose proof (frame_key p S h h1 n Hok F1 Hnp Hk Ho) as Hk1.
  assert (Hn1 : nd h1 n = nd h n) by (by apply (hf_out _ _ _ _ F1)).
  destruct (ht_put_room p n h1 S) as (h2 & E2 & F2 & R2 & Hb2 & Hm2); try done.
  - by rewrite Hk1.
  - intros i Hi. unfold key_outside. rewrite Hn1. destruct (hf_mem _ _ _ _ F1 i Hi) as [Hi'|Hge]; [by apply Ho|].
    apply key_outside_fresh; [by apply Hok|done].
  - hsimp_in E2. rewrite E2. exists 0, h2. split_and!; try done; [| |by left].
    + apply (heap_ok_sub h1); [lia|by rewrite Hb2|done].
    + eapply ht_frame_trans; [|done]. eapply ht_frame_mono; [|done]. set_solver.
Qed.

(** ** get *)

(** The pointer at [pos] is a link to [c]. *)
Definition is_pos (h : heap) (p : nid) (S : gset Z) (c : nid) (pos : HtPos) : Prop :=
  match pos with
  | PSlot hi => ht_slot (n_ht (nd h p)) !! hi = Some (Some c)
  | PNext y => y ∈ S /\ n_ht_next (nd h y) = Some c
  end.

Lemma chain_find_pos h f l : forall c pos x q,
  chain h c l -> chain_find f l pos = Some (x, q) ->
  (q = pos /\ c = Some x) \/ exists y, q = PNext y /\ y ∈ l /\ n_ht_next (nd h y) = Some x.
Proof.
  induction l as [|z l IH]; intros c pos x q Hc; cbn; [done|]. destruct Hc as [-> Hc].
  destruct (f z); [intros [= -> ->]; by left|]. intros H. right.
  destruct (IH _ _ _ _ Hc H) as [[-> Hz]|(y & -> & Hy & Hn)].
  - exists z. split_and!; [done|constructor|done].
  - exists y. split_and!; [done|by constructor|done].
Qed.

Lemma ht_get_run fuel p t k klen s h S :
  ht_rep h p S -> str_at h k klen = Some s -> (size S <= fuel)%nat ->
  exists r, ht_get fuel p t k klen h = Ret r h /\
    match r with
    | Some (c, pos) => c ∈ S /\ matches h t s c = true /\ is_pos h p S c pos
    | None => forall c, c ∈ S -> matches h t s c = false
    end.
Proof.
  intros [Rs [B T] Rn Rp Rm] Hs Hf. unfold ht_get, read_str. hsimp. rewrite Hs. hsimp.
  set (hi := get_keyhash t s _). pose proof (t_chain _ _ _ _ _ T hi) as Hc.
  assert (Hin : forall c, c ∈ S -> matches h t s c = true -> exists l, B !! hi = Some l /\ c ∈ l).
  { intros c Hx Hm. destruct (tbl_member _ _ _ _ _ _ T Hx) as (i & l & Hi & Hl & Hh).
    unfold matches in Hm. apply andb_true_iff in Hm as [Ht Hk%bool_decide_eq_true]. apply Z.eqb_eq in Ht.
    unfold nhash in Hh. rewrite Hk in Hh. injection Hh as <-. exists l. subst hi. rewrite Ht. done. }
  destruct (ht_slot (n_ht (nd h p)) !! hi) as [c|] eqn:Es; destruct (B !! hi) as [l|] eqn:Eb; try done.
  - eexists. split.
    + apply (ht_walk_run _ _ _ _ s l); try done.
      * intros m Hm. eapply tbl_key; [exact T|]. apply (t_mem _ _ _ _ _ T). eauto.
      * etrans; [by eapply bucket_len|done].
    + destruct (chain_find _ _ _) as [[x q]|] eqn:Ef.
      * destruct (chain_find_some _ _ _ _ _ Ef) as [Hx Hmx].
        split_and!; [apply (t_mem _ _ _ _ _ T); eauto|done|].
        destruct (chain_find_pos _ _ _ _ _ _ _ Hc Ef) as [[-> ->]|(y & -> & Hy & Hn)]; cbn; [done|].
        split; [|done]. apply (t_mem _ _ _ _ _ T). eauto.
      * intros x Hx. destruct (matches h t s x) eqn:Em; [|done]. destruct (Hin x Hx Em) as (l' & [= <-] & Hl).
        by rewrite (chain_find_none _ _ _ Ef) in Em.
  - exists None. split; [by hsimp|]. intros x Hx. destruct (matches h t s x) eqn:Em; [|done].
    by destruct (Hin x Hx Em) as (l' & ? & _).
Qed.

(** ** remove *)

Lemma chain_pos_run h n l : forall fuel c pos, chain h c l -> (length l <= fuel)%nat ->
  chain_pos fuel c pos n h = Ret (snd <$> chain_find (Z.eqb n) l pos) h.
Proof.
  induction l as [|x l IH]; intros fuel c pos Hc Hf; cbn in Hc.
  - subst. by destruct fuel.
  - destruct Hc as [-> Hc]. destruct fuel as [|fuel]; [cbn in Hf; lia|]. cbn [chain_pos chain_find].
    rewrite Z.eqb_sym. destruct (Z.eqb n x); [done|]. hsimp. apply IH; [done|]. cbn in Hf. lia.
Qed.

Lemma chain_suffix h l1 : forall c x l2, chain h c (l1 ++ x :: l2) -> chain h (n_ht_next (nd h x)) l2.
Proof. induction l1 as [|y l1 IH]; intros c x l2; cbn; intros [_ H]; [done|eauto]. Qed.

(** [c] is taken out of the middle of a chain. *)
Lemma chain_cut h y c l1 l3 : forall a,
  NoDup (l1 ++ y :: c :: l3) -> chain h a (l1 ++ y :: c :: l3) ->
  chain (set_node y (set_ht_next (n_ht_next (nd h c)) (nd h y)) h) a (l1 ++ y :: l3).
Proof.
  induction l1 as [|x l1 IH]; intros a; cbn [app chain].
  - intros Hn [-> [Hy Hc]]. split; [done|]. rewrite nd_set, decide_True by done. cbn.
    apply (chain_frame h); [|done]. intros m Hm. rewrite nd_set, decide_False; [done|].
    intros ->. apply NoDup_cons in Hn as [Hn _]. apply Hn. by constructor.
  - intros Hn [-> Hc]. apply NoDup_cons in Hn as [Hx Hn]. split; [done|].
    rewrite nd_set, decide_False; [by apply IH|]. intros ->. apply Hx. set_solver.
Qed.

Lemma NoDup_cut (l1 : list nid) y c l3 :
  NoDup (l1 ++ y :: c :: l3) ->
  NoDup (l1 ++ y :: l3) /\ forall x, x ∈ l1 ++ y :: l3 <-> x ∈ l1 ++ y :: c :: l3 /\ x <> c.
Proof.
  intros Hn. assert (l1 ++ y :: c :: l3 ≡ₚ c :: l1 ++ y :: l3) as Hp by solve_Permutation.
  rewrite Hp in Hn. apply NoDup_cons in Hn as [Hc Hn]. split; [done|]. intros x.
  rewrite Hp, elem_of_cons. split; [|naive_solver]. intros Hx. split; [by right|]. by intros ->.
Qed.

Lemma tbl_remove h h' sz slots slots' B S i l l' c T :
  tbl h sz slots B S -> B !! i = Some l -> c ∈ l -> NoDup l' -> (forall x, x ∈ l' <-> x ∈ l /\ x <> c) ->
  links T h h' -> (forall x, x ∈ T -> x ∈ l) -> (forall j, j <> i -> slots' !! j = slots !! j) ->
  (exists a, slots' !! i = Some a /\ chain h' a l') ->
  tbl h' sz slots' (<[i := l']> B) (S ∖ {[c]}).
Proof.
  intros [A H N M] Hi Hc Hn Hl L HT Hs [a [Ha Hch]].
  assert (Hdis : forall j lj x, B !! j = Some lj -> x ∈ lj -> x ∈ l -> j = i).
  { intros j lj x Hj Hx Hx'. pose proof (H _ _ _ Hj Hx) as E. rewrite (H _ _ _ Hi Hx') in E. by injection E. }
  split.
  - intros j. destruct (decide (j = i)) as [->|Hj]; [by rewrite lookup_insert_eq, Ha|].
    rewrite lookup_insert_ne, Hs by done. specialize (A j). destruct (slots !! j), (B !! j) as [lj|] eqn:E; try done.
    apply (chain_links _ _ _ _ _ L); [|done]. intros x Hx HxT. apply Hj. eapply Hdis; eauto.
  - intros j lj x. rewrite (links_hash _ _ _ _ _ L). destruct (decide (j = i)) as [->|Hj].
    + rewrite lookup_insert_eq. intros [= <-] Hx. apply Hl in Hx as [Hx _]. eauto.
    + rewrite lookup_insert_ne by done. eauto.
  - intros j lj. destruct (decide (j = i)) as [->|Hj].
    + rewrite lookup_insert_eq. by intros [= <-].
    + rewrite lookup_insert_ne by done. eauto.
  - intros x. rewrite elem_of_difference, elem_of_singleton, M. split.
    + intros [(j & lj & Hj & Hx) Hne]. destruct (decide (j = i)) as [->|Hji].
      * exists i, l'. rewrite lookup_insert_eq. split; [done|]. apply Hl. simplify_eq. done.
      * exists j, lj. by rewrite lookup_insert_ne.
    + intros (j & lj & Hj & Hx). destruct (decide (j = i)) as [->|Hji].
      * rewrite lookup_insert_eq in Hj. injection Hj as <-. apply Hl in Hx as [Hx Hne]. eauto.
      * rewrite lookup_insert_ne in Hj by done. split; [eauto|]. intros ->. apply Hji. eauto.
Qed.

Lemma shrink_rep h h1 h' p c S T slots' B' :
  ht_rep h p S -> c ∈ S -> links T h h1 -> p ∉ T -> T ⊆ S ->
  tbl h1 (ht_sz (n_ht (nd h p))) slots' B' (S ∖ {[c]}) ->
  (forall m, m <> p -> nd h' m = nd h1 m) ->
  h_free h' = h_free h1 /\ h_next h' = h_next h1 /\ h_fail h' = h_fail h1 ->
  nd h' p = set_ht (mk_ht (ht_nr (n_ht (nd h p)) - 1) (ht_sz (n_ht (nd h p))) (ht_mem (n_ht (nd h p))) slots') (nd h p) ->
  h_buf h' = h_buf h1 -> h_nmem h' = h_nmem h1 ->
  ht_rep h' p (S ∖ {[c]}) /\ ht_frame p S h h'.
Proof.
  intros [Rs _ Rn Rp Rm] Hc L Hp HT T' Hn (Hg1 & Hg2 & Hg3) Hpp Hb Hm.
  pose proof (lk_rest _ _ _ L) as (Hk1 & Hk2 & Hb1 & Hm1 & Hk3).
  split.
  - split; rewrite ?Hpp; cbn [n_ht set_ht ht_sz ht_slot ht_nr ht_mem].
    + done.
    + exists B'. apply (tbl_agree h1); [|done]. intros x Hx. rewrite Hn by set_solver. split_and!; try done.
      intros _. unfold nkey, key_bytes, str_at, buf_get. rewrite Hn by set_solver. by rewrite Hb.
    + rewrite size_difference, size_singleton, Rn by set_solver.
      assert (size S <> 0%nat) by (apply size_non_empty_iff; set_solver). lia.
    + set_solver.
    + intros i Hi. destruct (Rm i Hi) as [Hlt Ho]. split; [rewrite Hm, Hm1; done|].
      intros x Hx. unfold key_outside. rewrite Hn by set_solver. destruct (lk_node _ _ _ L x) as [z ->].
      apply Ho. set_solver.
  - split.
    + intros m Hmp. rewrite Hn by done. apply (lk_node _ _ _ L).
    + intros m Hmp Hs. rewrite Hn by done. apply (lk_out _ _ _ L). set_solver.
    + eauto.
    + intros b _. by rewrite Hb, Hb1.
    + rewrite Hpp. by left.
    + lia.
    + rewrite Hg1, Hg2, Hg3, Hk1, Hk2, Hk3. done.
Qed.

Lemma ht_remove_pos_run p c pos h S :
  ht_rep h p S -> c ∈ S -> is_pos h p S c pos ->
  exists h', ht_remove_pos p c pos h = Ret 0 h' /\ ht_rep h' p (S ∖ {[c]}) /\ ht_frame p S h h' /\
    h_buf h' = h_buf h /\ h_nmem h' = h_nmem h.
Proof.
  intros R Hc Hpos. pose proof R as [Rs [B T] Rn Rp Rm]. unfold ht_remove_pos, store_pos, ht_count. hsimp.
  destruct pos as [hi|y]; cbn [is_pos] in Hpos; hsimp.
  - eexists. split; [done|]. rewrite <- Logic.and_assoc. split; [|by split].
    pose proof (t_chain _ _ _ _ _ T hi) as Hch. rewrite Hpos in Hch.
    destruct (B !! hi) as [l|] eqn:Eb; [|done]. destruct l as [|x l]; [done|]. destruct Hch as [[= <-] Hch].
    pose proof (t_nodup _ _ _ _ _ T _ _ Eb) as Hnd. apply NoDup_cons in Hnd as [Hx Hnd].
    apply (shrink_rep h h _ p c S ∅ (<[hi := n_ht_next (nd h c)]> (ht_slot (n_ht (nd h p)))) (<[hi := l]> B));
      try done; try set_solver; [apply links_refl| | |].
    + apply (tbl_remove h h _ _ _ _ _ hi (c :: l) l c ∅ T); try done; [constructor| |apply links_refl| |].
      * intros y. rewrite elem_of_cons. split; [|naive_solver]. intros Hy. split; [by right|]. by intros ->.
      * intros j Hj. by rewrite lookup_insert_ne.
      * eexists. rewrite lookup_insert_eq. done.
    + intros m Hm. by rewrite !nd_set, !decide_False.
    + rewrite !nd_set, !decide_True by done. done.
  - destruct Hpos as [Hy Hnext]. assert (Hyp : y <> p) by set_solver.
    eexists. split; [done|]. rewrite <- Logic.and_assoc. split; [|by split].
    destruct (tbl_member _ _ _ _ _ _ T Hy) as (i & l & Hi & Hl & _).
    apply list_elem_of_split in Hl as (l1 & l2 & ->).
    pose proof (t_chain _ _ _ _ _ T i) as Hch. rewrite Hi in Hch.
    destruct (ht_slot (n_ht (nd h p)) !! i) as [a|] eqn:Ea; [|done].
    pose proof (chain_suffix _ _ _ _ _ Hch) as Hs. rewrite Hnext in Hs. destruct l2 as [|x l3]; [done|].
    destruct Hs as [[= <-] Hs]. pose proof (t_nodup _ _ _ _ _ T _ _ Hi) as Hnd.
    pose proof (links_set S y (n_ht_next (nd h c)) h Hy) as L.
    apply (shrink_rep h (set_node y (set_ht_next (n_ht_next (nd h c)) (nd h y)) h) _ p c S {[y]} (ht_slot (n_ht (nd h p))) (<[i := l1 ++ y :: l3]> B));
      try done; try set_solver.
    + apply links_set. set_solver.
    + eapply (tbl_remove h _ _ _ _ _ _ i (l1 ++ y :: c :: l3) (l1 ++ y :: l3) c {[y]} T); try done; try set_solver.
      * by apply (NoDup_cut l1 y c l3).
      * by apply (NoDup_cut l1 y c l3).
      * apply links_set. set_solver.
      * exists a. split; [done|]. by apply chain_cut.
    + intros m Hm. rewrite !nd_set. by rewrite !(decide_False (P:=m = p)).
    + rewrite !nd_set, !decide_True by done. rewrite decide_False by done. done.
Qed.

Lemma ht_remove_run fuel p n h S :
  ht_rep h p S -> is_Some (nkey h n) -> (size S <= fuel)%nat ->
  exists r h', ht_remove fuel p n h = Ret r h' /\ ht_rep h' p (S ∖ {[n]}) /\ ht_frame p S h h' /\
    h_buf h' = h_buf h /\ h_nmem h' = h_nmem h /\ r = (if decide (n ∈ S) then 0 else -1).
Proof.
  intros R [s Hs] Hf. pose proof R as [Rs [B T] Rn Rp Rm]. unfold ht_remove. hsimp.
  assert (nhash h n (ht_sz (n_ht (nd h p))) = Some (get_keyhash (n_tag (nd h n)) s (ht_sz (n_ht (nd h p))))) as Hh
    by (unfold nhash; by rewrite Hs).
  rewrite (node_hash_run _ _ _ _ Hh). hsimp. set (hi := get_keyhash _ _ _) in *.
  assert (Hout : n ∉ S -> exists r h', (mret (-1) : M Z) h = Ret r h' /\ ht_rep h' p (S ∖ {[n]}) /\ ht_frame p S h h' /\
    h_buf h' = h_buf h /\ h_nmem h' = h_nmem h /\ r = (if decide (n ∈ S) then 0 else -1)).
  { intros Hn. exists (-1), h. rewrite decide_False by done. split_and!; try done; [|apply ht_frame_refl].
    by replace (S ∖ {[n]}) with S by set_solver. }
  pose proof (t_chain _ _ _ _ _ T hi) as Hc.
  destruct (ht_slot (n_ht (nd h p)) !! hi) as [c|] eqn:Es; destruct (B !! hi) as [l|] eqn:Eb; try done.
  - hsimp. rewrite (chain_pos_run h n l) by (done || (etrans; [by eapply bucket_len|done])). hsimp.
    destruct (chain_find _ _ _) as [[x q]|] eqn:Ef; cbn [fmap option_fmap option_map snd].
    + destruct (chain_find_some _ _ _ _ _ Ef) as [Hx He%Z.eqb_eq]. subst x.
      assert (Hn : n ∈ S) by (apply (t_mem _ _ _ _ _ T); eauto).
      destruct (ht_remove_pos_run p n q h S) as (h' & E & R' & F & Hb & Hm); try done.
      * destruct (chain_find_pos _ _ _ _ _ _ _ Hc Ef) as [[-> ->]|(y & -> & Hy & Hn')]; cbn; [done|].
        split; [|done]. apply (t_mem _ _ _ _ _ T). eauto.
      * exists 0, h'. rewrite decide_True by done. done.
    + apply Hout. intros Hn. destruct (tbl_member _ _ _ _ _ _ T Hn) as (i & l' & Hi & Hl & Hh').
      assert (i = hi) as -> by congruence. rewrite Eb in Hi. injection Hi as <-.
      pose proof (chain_find_none _ _ _ Ef n Hl) as He. rewrite Z.eqb_refl in He. done.
  - apply Hout. intros Hn. destruct (tbl_member _ _ _ _ _ _ T Hn) as (i & l' & Hi & Hl & Hh').
    assert (i = hi) as -> by congruence. by rewrite Eb in Hi.
Qed.

(** ** The theorems *)

Lemma ht_rep_empty h p : n_ht (nd h p) = ht0 -> ht_rep h p ∅.
Proof.
  intros E. split; rewrite ?E; cbn [ht0 ht_sz ht_slot ht_nr ht_mem]; try done; [by left|].
  exists ∅. apply tbl_empty.
Qed.

(** A heap with a node 1 and its children 2 and 3, of tags 11 and 43, which share a slot. *)
Definition sample_heap : heap :=
  mk_heap (<[1 := set_tag 1 node0]> (<[2 := set_tag 11 node0]> (<[3 := set_tag 43 node0]> ∅))) [] 4 ∅ 0 [].

Lemma sample_ok : heap_ok sample_heap.
Proof. intros i _. done. Qed.

(** The same with both children in the table of node 1. *)
Definition sample_table : heap :=
  Eval vm_compute in (match (ht_put 5 1 2;; ht_put 5 1 3) sample_heap with Ret _ h => h | _ => sample_heap end).

Lemma table_sample_rep : ht_rep sample_table 1 ({[3]} ∪ ({[2]} ∪ ∅)).
Proof.
  destruct (ht_put_run 5 1 2 sample_heap ∅) as (r & h1 & E1 & Hok1 & F1 & H1); try exact sample_ok; try lia; try done.
  - by apply ht_rep_empty.
  - vm_compute. lia.
  - vm_compute in E1. injection E1 as <- <-. destruct H1 as [[_ R1]|(? & _)]; [|done].
    destruct (ht_put_run 5 1 3 _ _ Hok1 R1) as (r & h2 & E2 & Hok2 & F2 & H2); try done; try set_solver.
    vm_compute in E2. injection E2 as <- <-. destruct H2 as [[_ R2]|(? & _)]; [exact R2|done].
Qed.

(** C23: Looking up a tag and a key in a sound table, with [fuel] at least the number of nodes, ends without
    changing anything; it gives a node of the table with that tag and key and the pointer to it, or NULL
    when there is none. *)
Theorem table_get (fuel : nat) (h : heap) (p : nid) (S : gset Z) (t klen : Z) (k : option (buf * Z)) (s : bytes) :
  ht_rep h p S -> str_at h k klen = Some s -> (size S <= fuel)%nat ->
  exists r, ht_get fuel p t k klen h = Ret r h /\
    match r with
    | Some (c, pos) => c ∈ S /\ matches h t s c = true /\ is_pos h p S c pos
    | None => forall c, c ∈ S -> matches h t s c = false
    end.
Proof. apply ht_get_run. Qed.

Lemma table_get_witness :
  exists r, ht_get 5 1 11 None 0 sample_table = Ret r sample_table /\
    match r with
    | Some (c, pos) => c ∈ ({[3]} ∪ ({[2]} ∪ ∅) : gset Z) /\ matches sample_table 11 [] c = true /\
                       is_pos sample_table 1 ({[3]} ∪ ({[2]} ∪ ∅)) c pos
    | None => forall c, c ∈ ({[3]} ∪ ({[2]} ∪ ∅) : gset Z) -> matches sample_table 11 [] c = false
    end.
Proof.
  apply (table_get 5 sample_table 1 ({[3]} ∪ ({[2]} ∪ ∅)) 11 0 None []); [exact table_sample_rep|done|].
  vm_compute. lia.
Defined.

(** C22: Adding a node with a readable key to a sound table adds exactly that node: the nodes that were there
    stay, also when the table has to grow, and nothing but chain pointers and the table itself changes.
    The only failure is that the block for a larger table cannot be allocated; then the table is as before. *)
Theorem table_put (fuel : nat) (h : heap) (p n : nid) (S : gset Z) :
  heap_ok h -> ht_rep h p S -> n ∉ S -> n <> p -> is_Some (nkey h n) ->
  (forall i, ht_mem (n_ht (nd h p)) = Some i -> key_outside h n i) -> (size S <= fuel)%nat ->
  exists r h', ht_put fuel p n h = Ret r h' /\ heap_ok h' /\ ht_frame p ({[n]} ∪ S) h h' /\
    (r = 0 /\ ht_rep h' p ({[n]} ∪ S) \/ r = -1 /\ will_fail h = true /\ ht_rep h' p S).
Proof. apply ht_put_run. Qed.

Lemma table_put_witness :
  exists r h', ht_put 5 1 2 sample_heap = Ret r h' /\ heap_ok h' /\ ht_frame 1 ({[2]} ∪ ∅) sample_heap h' /\
    (r = 0 /\ ht_rep h' 1 ({[2]} ∪ ∅) \/ r = -1 /\ will_fail sample_heap = true /\ ht_rep h' 1 ∅).
Proof.
  apply (table_put 5 sample_heap 1 2 ∅); [exact sample_ok|by apply ht_rep_empty|done|done|by exists []|done|].
  vm_compute. lia.
Defined.

(** C24: Removing a node from a sound table takes out exactly that node; a node that is not in the table is
    reported, and the table is unchanged. *)
Theorem table_remove (fuel : nat) (h : heap) (p n : nid) (S : gset Z) :
  ht_rep h p S -> is_Some (nkey h n) -> (size S <= fuel)%nat ->
  exists r h', ht_remove fuel p n h = Ret r h' /\ ht_rep h' p (S ∖ {[n]}) /\ ht_frame p S h h' /\
    h_buf h' = h_buf h /\ h_nmem h' = h_nmem h /\ r = (if decide (n ∈ S) then 0 else -1).
Proof. apply ht_remove_run. Qed.

Lemma table_remove_witness :
  exists r h', ht_remove 5 1 2 sample_table = Ret r h' /\ ht_rep h' 1 (({[3]} ∪ ({[2]} ∪ ∅)) ∖ {[2]}) /\
    ht_frame 1 ({[3]} ∪ ({[2]} ∪ ∅)) sample_table h' /\ h_buf h' = h_buf sample_table /\
    h_nmem h' = h_nmem sample_table /\ r = (if decide (2 ∈ ({[3]} ∪ ({[2]} ∪ ∅) : gset Z)) then 0 else -1).
Proof.
  apply (table_remove 5 sample_table 1 2 ({[3]} ∪ ({[2]} ∪ ∅))); [exact table_sample_rep|by exists []|].
  vm_compute. lia.
Defined.
