(* ===== verification/KnvNode.v ===== *)
(** * Nodes of the tree library (src/knv/knv_node.h, src/knv/knv_node.cc)

    The operations of [KnvNode] on one node and its children: creation and release, expansion of a
    message into children ([InnerExpand]) and the way back ([Fold], [Serialize]), sizes
    ([EvaluateSize] and the running totals [eval_sz]), values, removal of children and metas.
    Copies, insertion and the field functions are in KnvFields.v.  Error texts are left out.  [int]
    sizes are unbounded integers; the lengths stored in a [uint32_t] wrap around. *)

From S2P Require Import Prelude Pb MemPool KnvHeap.

Definition when (b : bool) (m : M unit) : M unit := if b then m else mret tt.

(** Runs over a list. *)
Fixpoint each {A} (f : A -> M unit) (l : list A) : M unit :=
  match l with [] => mret tt | a :: l' => f a;; each f l' end.

(** ** The node pool *)

Definition pool_take : M (option nid) := fun h =>
  match h_free h with
  | c :: l => Ret (Some c) (KnvHeap.set_free l h)
  | [] => Ret None h
  end.
Definition new_node : M nid := fun h =>
  Ret (h_next h) (mk_heap (<[h_next h := node0]> (h_node h)) (h_free h) (h_next h + 1) (h_buf h) (h_nmem h) (h_fail h)).

(** [nodepool->New()]: a node of the free list as it was left, or a new one. *)
Definition pool_New : M (option nid) :=
  r ← pool_take;
  match r with
  | Some c => mret (Some c)
  | None => b ← alloc_ok; if (b : bool) then c ← new_node; mret (Some c) else mret None
  end.

Definition pool_give (l : list nid) : M unit := fun h => Ret tt (KnvHeap.set_free (l ++ h_free h) h).

(** Models [KnvNode::ReleaseNode] (src/knv/knv_node.cc:493-505). *)
Definition ReleaseNode (n : nid) : M unit :=
  modn n (fun x => set_key (mk_key (k_type (n_key x)) 0 None (k_dyn (n_key x))) (set_child_num (-1) (set_dirty false x)));;
  dyn_free (OfKey n);;
  ht_clear n;;
  modn n (fun x => set_val (mk_kval 0 None) (set_tag 0 x));;
  dyn_free (OfVal n).

(** One level of the tree is released; the result lists the nodes of the next one. *)
(** Models [KnvNode::ReleaseKnvNodeList] (src/knv/knv_node.cc:517-537). *)
Fixpoint release_level (clist cclist : list nid) : M (list nid) :=
  match clist with
  | [] => mret cclist
  | c :: l =>
      x ← getn c;
      ReleaseNode c;;
      release_level l (if Z.leb 0 (n_child_num x) then n_childlist x ++ n_metalist x ++ cclist else cclist)
  end.

(** Models [KnvNode::ReleaseKnvNodeList] (src/knv/knv_node.cc:514-541). *)
Fixpoint release_levels (fuel : nat) (clist fclist : list nid) : M (list nid) :=
  match clist with
  | [] => mret fclist
  | _ :: _ =>
      match fuel with
      | O => spin
      | S fuel' => cclist ← release_level clist []; release_levels fuel' cclist (clist ++ fclist)
      end
  end.

Section node.
Context (fuel : nat).

(** Models [KnvNode::ReleaseKnvNodeList] (src/knv/knv_node.cc:507-547). *)
Definition ReleaseKnvNodeList (l : list nid) : M unit :=
  fclist ← release_levels fuel l [];
  pool_give fclist.

(** Models [KnvNode::ReleaseObject] (src/knv/knv_node.cc:549-564). *)
Definition ReleaseObject (n : nid) : M unit :=
  x ← getn n;
  if Z.ltb (n_child_num x) 0 then ReleaseNode n
  else
    ReleaseKnvNodeList (n_metalist x);;
    modn n (set_metalist []);;
    ReleaseKnvNodeList (n_childlist x);;
    modn n (set_childlist []);;
    ReleaseNode n.

(** [nodepool->Delete(n)] *)
(** Models [KnvNode::Delete] (src/knv/knv_node.cc:777-780). *)
Definition Delete (tree : nid) : M unit := ReleaseObject tree;; pool_give [tree].

Definition delete_opt (o : option nid) : M unit := match o with Some n => Delete n | None => mret tt end.

(** [nodepool->Delete(first, n)]: the list without [n].  A node that is in no list has no [prev]. *)
Definition list_delete (l : list nid) (n : nid) : M (list nid) :=
  if bool_decide (n ∈ l) then Delete n;; mret (filter (.≠ n) l) else crash.

(** [if(first) nodepool->DeleteAll(first)] *)
Definition DeleteAll (l : list nid) : M unit := each ReleaseObject l;; pool_give l.

(** ** Creation *)

(** Models [KnvNode::InitChildList] (src/knv/knv_node.cc:782-787). *)
Definition InitChildList (n : nid) (childnum : Z) : M unit :=
  modn n (fun x => set_metalist [] (set_childlist [] (set_child_num childnum x))).

(** [data] as a message: the first field, and whether there is one. *)
Definition first_field (p : ptr) (dlen : Z) : M (bool * pb_field_t) :=
  data ← read_str p dlen;
  lift (pb_begin f_undef data (s32 dlen)).

(** The value of the field under the cursor, for a message that starts at [base]. *)
Definition field_val (base : ptr) (f : pb_field_t) : kval :=
  mk_kval (v_word (f_val f))
    (if Z.eqb (f_type f) KNV_STRING then ptr_add base (f_ptr f - str_len (f_val f)) else None).

(** The value of [InitNode]: the length of the string, or out of memory. *)
(** Models [KnvNode::InitNode] (src/knv/knv_node.cc:402-449). *)
Definition init_val (n : nid) (_type : Z) (value : option kval) (own_buf : bool) : M (option Z) :=
  match value with
  | Some v =>
      if own_buf && Z.eqb _type KNV_NODE then
        if negb (Z.eqb (kv_len v) 0) then
          pdata ← dyn_alloc (OfVal n) (kv_len v);
          match pdata with
          | None => mret None
          | Some _ =>
              s ← read_str (kv_ptr v) (kv_len v);
              write_str pdata s;;
              modn n (fun x => set_val (kv_set_str (kv_len v) pdata (n_val x)) x);;
              mret (Some (kv_len v))
          end
        else modn n (fun x => set_val (kv_set_str 0 None (n_val x)) x);; mret (Some 0)
      else if Z.eqb _type KNV_NODE
      then modn n (fun x => set_val (kv_set_str (kv_len v) (kv_ptr v) (n_val x)) x);; mret (Some (kv_len v))
      else modn n (fun x => set_val (mk_kval (kv_i64 v) (kv_ptr (n_val x))) x);; mret (Some 0)
  | None => modn n (set_val (mk_kval 0 None));; mret (Some 0)
  end.

(** The key of [InitNode], when the value is a message; gives the number of children. *)
(** Models [KnvNode::InitNode] (src/knv/knv_node.cc:451-479). *)
Definition init_key (n : nid) (str_len : Z) (force_no_key : bool) : M Z :=
  x ← getn n;
  if negb (Z.eqb str_len 0) then
    if negb force_no_key then
      '(b, f) ← first_field (kv_ptr (n_val x)) (kv_len (n_val x));
      if (b : bool) && Z.eqb (f_tag f) 1
      then key_init n (f_type f) (Some (field_val (kv_ptr (n_val x)) f)) false;; mret (-1)
      else key_init n KNV_NODE None false;; mret (if b then -1 else 0)
    else key_init n KNV_NODE None false;; mret (-1)
  else key_init n KNV_NODE None false;; mret 0.

(** Models [KnvNode::InitNode] (src/knv/knv_node.cc:400-491). *)
Definition InitNode (n : nid) (_tag _type : Z) (value : option kval) (own_buf update_eval : bool)
    (field_sz : Z) (force_no_key : bool) : M Z :=
  modn n (fun x => set_parent None (set_type _type (set_tag _tag x)));;
  r ← init_val n _type value own_buf;
  match r with
  | None => mret (-1)
  | Some str_len =>
      ch_nr ← (if update_eval then
                 modn n (fun x => set_eval_sz (if Z.ltb 0 field_sz then field_sz else eval_len _tag _type (n_val x))
                                    (set_eval_val_sz str_len x));;
                 init_key n str_len force_no_key
               else modn n (fun x => set_eval_sz 0 (set_eval_val_sz 0 x));; mret 0);
      modn n (set_no_key (force_no_key || negb (Z.eqb _type KNV_NODE)));;
      InitChildList n ch_nr;;
      mret 0
  end.

(** ** Expansion *)

(** [child_num = 0; DeleteAll(childlist); DeleteAll(metalist)]; the hash table is left as it is. *)
(** Models [KnvNode::InnerExpand] (src/knv/knv_node.cc:879-884). *)
Definition drop_children (n : nid) (childnum : Z) : M unit :=
  modn n (set_child_num childnum);;
  x ← getn n;
  DeleteAll (n_childlist x);;
  DeleteAll (n_metalist x);;
  modn n (fun x => set_metalist [] (set_childlist [] x)).

(** One field of the message becomes a meta or a child.  [ht.put] may fail: its result is not looked at. *)
(** Models [KnvNode::InnerExpand] (src/knv/knv_node.cc:816-875). *)
Definition expand_field (n : nid) (base : ptr) (f : pb_field_t) (field_sz : Z) (force_no_key : bool) : M Z :=
  r ← pool_New;
  if Z.leb (f_tag f) UC_MAX_META_NUM then
    modn n (fun x => if bool_decide (n_metalist x = []) then set_metas ∅ x else x);;
    match r with
    | None => drop_children n 0;; mret (-1)
    | Some m =>
        modn n (fun x => set_metalist (n_metalist x ++ [m]) x);;
        r ← InitNode m (f_tag f) (f_type f) (Some (field_val base f)) false true field_sz true;
        if negb (ok r) then drop_children n 0;; mret (-2)
        else
          modn m (set_parent (Some n));;
          modn n (fun x => set_metas (<[f_tag f := m]> (n_metas x)) x);;
          mret 0
    end
  else
    match r with
    | None => drop_children n 0;; mret (-3)
    | Some c =>
        modn n (fun x => set_childlist (n_childlist x ++ [c]) x);;
        r ← InitNode c (f_tag f) (f_type f) (Some (field_val base f)) false true field_sz force_no_key;
        if negb (ok r) then drop_children n 0;; mret (-4)
        else
          y ← getn c;
          when (Z.ltb 0 (k_len (n_key y))) (modn n (set_child_has_key true));;
          modn c (set_parent (Some n));;
          ht_put fuel n c;;
          modn n (fun x => set_child_num (n_child_num x + 1) x);;
          mret 0
    end.

(** The [do ... while]; every turn consumes input, so the bytes left bound the turns. *)
(** Models [KnvNode::InnerExpand] (src/knv/knv_node.cc:809-876). *)
Fixpoint expand_loop (turns : nat) (n : nid) (base : ptr) (prev_pos : Z) (f : pb_field_t) (force_no_key : bool)
    : M (Z * pb_field_t) :=
  r ← expand_field n base f (f_ptr f - prev_pos) force_no_key;
  if negb (ok r) then mret (r, f)
  else
    '(b, f') ← lift (pb_next f);
    if (b : bool) then
      match turns with
      | O => spin
      | S turns' => expand_loop turns' n base (f_ptr f) f' force_no_key
      end
    else mret (0, f').

(** Models [KnvNode::InnerExpand] (src/knv/knv_node.cc:789-886). *)
Definition InnerExpand (n : nid) (force_no_key : bool) : M Z :=
  x ← getn n;
  if Z.leb 0 (n_child_num x) then mret 0
  else
    InitChildList n 0;;
    modn n (set_child_has_key false);;
    if negb (Z.eqb (n_type x) KNV_NODE) then mret 0
    else
      k ← match n_parent x with
          | Some p => y ← getn p; mret (k_len (n_key y))
          | None => mret 0
          end;
      if Z.eqb (n_tag x) 1 && negb (Z.eqb k 0) then mret 0
      else
        '(b, f) ← first_field (kv_ptr (n_val x)) (kv_len (n_val x));
        if negb (b : bool) then mret 0
        else
          '(r, f') ← expand_loop (Z.to_nat (f_left f)) n (kv_ptr (n_val x)) 0 f force_no_key;
          if negb (ok r) then mret r
          else
            modn n (set_dirty false);;
            when (Z.eqb (f_eom f') 0) (drop_children n 0);;
            mret 0.

(** Models [KnvNode::Expand] (src/knv/knv_node.cc:888-897). *)
Definition Expand (n : nid) : M Z :=
  x ← getn n;
  if Z.eqb (n_tag x) 0 then mret (-1) else InnerExpand n false.

End node.

(** ** Sizes and serialization *)

(** Models [KnvNode::IsBufferValid] (src/knv/knv_node.h:289-289). *)
Definition IsBufferValid (x : node) : bool :=
  Z.ltb 0 (kv_len (n_val x)) && negb (bool_decide (kv_ptr (n_val x) = None)).

(** Not a tree: a leaf, or not expanded. *)
(** Models [KnvNode::EvaluateSize] (src/knv/knv_node.cc:906-906). *)
Definition leafish (x : node) : bool :=
  negb (Z.eqb (n_type x) KNV_NODE) || Z.ltb (n_child_num x) 0
  || (Z.eqb (n_child_num x) 0 && bool_decide (n_metalist x = [])).

(** [val] holds the whole node: a leaf, not expanded, or folded and not changed since. *)
(** Models [KnvNode::EvaluateSize] (src/knv/knv_node.cc:906-907). *)
Definition by_value (x : node) : bool := leafish x || (IsBufferValid x && negb (n_dirty x)).

(** The key is written apart from the metas. *)
(** Models [KnvNode::EvaluateSize] (src/knv/knv_node.cc:917-917). *)
Definition has_key (x : node) : bool :=
  negb (n_no_key x) && Z.ltb 0 (k_len (n_key x)) && negb (bool_decide (k_val (n_key x) = None)).

(** The metas that are written: the first one is left out when it is the key. *)
(** Models [KnvNode::EvaluateSize] (src/knv/knv_node.cc:924-931). *)
Definition written_metas (keyed : bool) (l : list nid) : M (list nid) :=
  match l with
  | [] => mret []
  | f :: l' => y ← getn f; mret (if keyed && Z.eqb (n_tag y) 1 then l' else l)
  end.

Fixpoint sum_list (f : nid -> M Z) (l : list nid) (acc : Z) : M Z :=
  match l with
  | [] => mret acc
  | n :: l' => z ← f n; sum_list f l' (acc + z)
  end.

(** Models [KnvNode::EvaluateSize] (src/knv/knv_node.cc:900-945). *)
Fixpoint EvaluateSize (fuel : nat) (n : nid) : M Z :=
  x ← getn n;
  if Z.leb 0 (n_eval_sz x) then mret (n_eval_sz x)
  else if by_value x then
    let sz := eval_len (n_tag x) (n_type x) (n_val x) in
    modn n (fun x => set_eval_sz sz (set_eval_val_sz (if Z.eqb (n_type x) KNV_NODE then kv_len (n_val x) else 0) x));;
    mret sz
  else
    match fuel with
    | O => spin
    | S fuel' =>
        v ← (if has_key x then v ← key_GetValue (n_key x); mret (eval_len 1 (k_type (n_key x)) v) else mret 0);
        metas ← written_metas (has_key x) (n_metalist x);
        v ← sum_list (EvaluateSize fuel') metas v;
        v ← sum_list (EvaluateSize fuel') (n_childlist x) v;
        let sz := eval_len (n_tag x) (n_type x) (kv_str v None) in
        modn n (fun x => set_eval_sz sz (set_eval_val_sz v x));;
        mret sz
    end.

(** [knv_add_field_val(b, tag, type, &v)] *)
Definition add_field_val (b : pb_buff_t) (tag type : Z) (v : kval) : M (Z * pb_buff_t) := fun h =>
  let s := if Z.eqb type KNV_STRING then default [] (str_at h (kv_ptr v) (kv_len v)) else [] in
  match pb_add_field_val b tag type (mk_val (kv_word v) s) with
  | Some r => Ret r h
  | None => Crash
  end.

(** The nodes of a list one after the other, from [cur_len] on in a buffer of [sz] bytes. *)
(** Models [KnvNode::Serialize] (src/knv/knv_node.cc:1087-1110). *)
Fixpoint ser_list (ser : nid -> bytes -> Z -> M (Z * Z * bytes)) (l : list nid) (buf : bytes) (sz cur_len : Z)
    : M (Z * Z * bytes) :=
  match l with
  | [] => mret (0, cur_len, buf)
  | n :: l' =>
      '(r, used, tl) ← ser n (drop (Z.to_nat cur_len) buf) (sz - cur_len);
      let buf' := take (Z.to_nat cur_len) buf ++ tl in
      if negb (ok r) then mret (r, cur_len, buf') else ser_list ser l' buf' sz (cur_len + used)
  end.

(** [buf] is the memory from the pointer on; the result is the code, the new [len] and the memory. *)
(** Models [KnvNode::Serialize] (src/knv/knv_node.cc:1003-1120). *)
Fixpoint Serialize (fuel : nat) (n : nid) (buf : bytes) (len_ : Z) (with_header : bool) : M (Z * Z * bytes) :=
  x ← getn n;
  if Z.eqb (n_tag x) 0 then mret (-1, len_, buf)
  else
    let sz := len_ in
    let '(ret, b) := pb_init_buff (mk_buff [] 0 0 0 None) buf sz in
    if negb (ok ret) then mret (-2, len_, buf)
    else if by_value x then
      if with_header then
        '(ret, b) ← add_field_val b (n_tag x) (n_type x) (n_val x);
        if negb (ok ret) then mret (-3, len_, b_start b)
        else mret (0, pb_get_encoded_length b, b_start b)
      else if Z.eqb (n_type x) KNV_STRING then
        if Z.ltb (s32 (kv_len (n_val x))) len_ then
          s ← read_str (kv_ptr (n_val x)) (kv_len (n_val x));
          m ← lift (mem_write buf 0 s);
          mret (0, s32 (kv_len (n_val x)), m)
        else mret (-4, len_, buf)
      else mret (-5, len_, buf)
    else
      match fuel with
      | O => spin
      | S fuel' =>
          evalsize ← EvaluateSize fuel n;
          x ← getn n;
          '(ret, b) ← (if with_header then lift (pb_add_string_head b (n_tag x) (u64 (n_eval_val_sz x))) else mret (0, b));
          if negb (ok ret) then mret (-6, len_, b_start b)
          else
            '(ret, b) ← (if has_key x
                         then v ← key_GetValue (n_key x); add_field_val b 1 (k_type (n_key x)) v
                         else mret (0, b));
            if negb (ok ret) then mret (-7, len_, b_start b)
            else
              metas ← written_metas (has_key x) (n_metalist x);
              '(ret, cur_len, buf) ←
                ser_list (fun c buf room => Serialize fuel' c buf room true) metas (b_start b) sz (pb_get_encoded_length b);
              if negb (ok ret) then mret (-8, len_, buf)
              else
                '(ret, cur_len, buf) ←
                  ser_list (fun c buf room => Serialize fuel' c buf room true) (n_childlist x) buf sz cur_len;
                if negb (ok ret) then mret (-9, len_, buf)
                else
                  y ← getn n;
                  if (with_header && negb (Z.eqb cur_len evalsize))
                     || (negb with_header && negb (Z.eqb cur_len (n_eval_val_sz y)))
                  then mret (-10, len_, buf)
                  else mret (0, cur_len, buf)
      end.

Section fold.
Context (fuel : nat).

(** [m]'s block filled by [Serialize(buff, pack_len, false)]; gives the code and [pack_len]. *)
Definition serialize_block (n : nid) (i : Z) : M (Z * Z) :=
  pack_len ← mem_size i;
  buff ← read_str (Some (BMem i, 0)) pack_len;
  '(ret, pack_len, buff) ← Serialize fuel n buff (s32 pack_len) false;
  write_str (Some (BMem i, 0)) buff;;
  mret (ret, pack_len).

(** Models [KnvNode::Fold] (src/knv/knv_node.cc:949-1001). *)
Definition Fold (n : nid) : M Z :=
  x ← getn n;
  if Z.eqb (n_tag x) 0 then mret (-1)
  else if leafish x then mret 0
  else if IsBufferValid x && negb (n_dirty x) then mret 0
  else
    sz ← EvaluateSize fuel n;
    m ← mem_alloc sz;
    match m with
    | None => mret (-2)
    | Some i =>
        '(ret, pack_len) ← serialize_block n i;
        if negb (ok ret) then mem_free m;; mret (- ret - 100)
        else
          y ← getn n;
          if negb (Z.eqb (n_eval_val_sz y) pack_len) then mem_free m;; mret (-4)
          else
            p ← dyn_assign (OfVal n) m pack_len;
            modn n (fun x => set_child_num (-1) (set_dirty false (set_val (kv_set_str pack_len p (n_val x)) x)));;
            x ← getn n;
            DeleteAll fuel (n_metalist x);;
            DeleteAll fuel (n_childlist x);;
            modn n (fun x => set_metalist [] (set_childlist [] x));;
            mret 0
    end.

(** Whether it is a leaf. *)
(** Models [KnvNode::GetValue] (src/knv/knv_node.cc:1122-1128). *)
Definition GetValue (n : nid) : M bool := r ← Fold n; mret (ok r).

(** The string is resized to [EvaluateSize()] first. *)
(** Models [KnvNode::Serialize] (src/knv/knv_node.cc:1131-1152). *)
Definition SerializeString (n : nid) : M (Z * bytes) :=
  eval_len ← EvaluateSize fuel n;
  let out := replicate (Z.to_nat eval_len) 0 in
  '(ret, pack_len, out) ← Serialize fuel n out eval_len true;
  if negb (ok ret) then mret (-2, out)
  else if negb (Z.eqb eval_len pack_len) then mret (-3, out)
  else mret (0, out).

(** ** Running totals *)

(** Models [UPDATE_EVAL_SZ] (src/knv/knv_node.cc:1154-1163). *)
Definition UPDATE_EVAL_SZ (n : nid) (offset : Z) : M Z :=
  if Z.eqb offset 0 then mret 0
  else
    x ← getn n;
    let v := n_eval_val_sz x + offset in
    let new_eval_sz := eval_len (n_tag x) (n_type x) (kv_str v None) in
    modn n (fun x => set_eval_sz new_eval_sz (set_eval_val_sz v x));;
    mret (new_eval_sz - n_eval_sz x).

(** Models [SET_VALUE_DIRTY] (src/knv/knv_node.cc:1165-1165). *)
Definition SET_VALUE_DIRTY (n : nid) : M unit :=
  modn n (fun x => set_dirty true (set_val (kv_set_len 0 (n_val x)) x)).

(** Models [KnvNode::UpdateParentEvalueAndSetDirty] (src/knv/knv_node.cc:1476-1505). *)
Fixpoint update_parents (fuel : nat) (p : option nid) (updatedirty updateeval : bool) (offset : Z) : M unit :=
  match p with
  | None => mret tt
  | Some p =>
      if updatedirty || updateeval then
        match fuel with
        | O => spin
        | S fuel' =>
            x ← getn p;
            '(updateeval, offset) ←
              (if updateeval then
                 if Z.ltb (n_eval_sz x) 0 || Z.eqb offset 0 then mret (false, offset)
                 else o ← UPDATE_EVAL_SZ p offset; mret (true, o)
               else mret (false, offset));
            updatedirty ←
              (if updatedirty then
                 if n_dirty x then mret false else SET_VALUE_DIRTY p;; mret true
               else mret false);
            update_parents fuel' (n_parent x) updatedirty updateeval offset
        end
      else mret tt
  end.

(** Models [KnvNode::UpdateParentEvalueAndSetDirty] (src/knv/knv_node.cc:1476-1505). *)
Definition UpdateParentEvalueAndSetDirty (n : nid) (offset : Z) : M unit :=
  x ← getn n;
  update_parents fuel (n_parent x) true (negb (Z.eqb offset 0)) offset.

(** What an operation that changed the lists of [n] by [offset] bytes does last. *)
Definition changed (n : nid) (offset : Z) : M unit :=
  x ← getn n;
  offset ← (if Z.leb 0 (n_eval_sz x) then UPDATE_EVAL_SZ n offset else mret offset);
  SET_VALUE_DIRTY n;;
  UpdateParentEvalueAndSetDirty n offset.

(** ** Values *)

(** [k] stays empty, so the comparison of [k] with [key] is never made and [key] itself is overwritten. *)
(** Models [KnvNode::SetValue] (src/knv/knv_node.cc:1182-1205). *)
Definition set_value_key (n : nid) (str_val : ptr) (len_ : Z) : M unit :=
  x ← getn n;
  when ((Z.ltb 0 (n_child_num x) || (Z.eqb (n_child_num x) 0 && bool_decide (n_metalist x = []))) && has_key x)
    ('(b, f) ← first_field str_val len_;
     (if (b : bool) && negb (Z.eqb (f_tag f) 1)
      then key_init n (f_type f) (Some (field_val str_val f)) false
      else key_init n KNV_NODE None false);;
     mret tt).
End fold.

Section ops.
Context (fuel : nat).

(** Models [KnvNode::SetValue] (src/knv/knv_node.cc:1167-1258). *)
Definition SetValueStr (n : nid) (str_val : ptr) (len_ : Z) (own_buf : bool) : M Z :=
  x ← getn n;
  if Z.eqb (n_tag x) 0 then mret (-1)
  else if negb (Z.eqb (n_type x) KNV_STRING) then mret (-2)
  else
    set_value_key n str_val len_;;
    b ← (if own_buf && negb (Z.eqb len_ 0) then
           p ← dyn_alloc (OfVal n) len_;
           match p with
           | None => modn n (fun x => set_val (mk_kval (kv_word (n_val x)) None) x);; mret false
           | Some _ =>
               modn n (fun x => set_val (kv_set_str len_ p (n_val x)) x);;
               s ← read_str str_val len_;
               write_str p s;;
               mret true
           end
         else modn n (fun x => set_val (kv_set_str len_ (if Z.eqb len_ 0 then None else str_val) (n_val x)) x);; mret true);
    if negb (b : bool) then mret (-4)
    else
      x ← getn n;
      when (has_key x)
        (match n_parent x with Some p => ht_remove fuel p n;; mret tt | None => mret tt end;;
         '(b, f) ← first_field (kv_ptr (n_val x)) len_;
         (if (b : bool) && Z.eqb (f_tag f) 1
          then key_init n (f_type f) (Some (field_val (kv_ptr (n_val x)) f)) false
          else key_init n KNV_NODE None false);;
         match n_parent x with Some p => ht_put fuel p n;; mret tt | None => mret tt end);;
      x ← getn n;
      when (Z.leb 0 (n_child_num x)) (drop_children fuel n (-1));;
      modn n (set_dirty true);;
      x ← getn n;
      offset ← (if Z.leb 0 (n_eval_sz x) then UPDATE_EVAL_SZ n (s32 (u32 (kv_len (n_val x) - n_eval_val_sz x))) else mret 0);
      UpdateParentEvalueAndSetDirty fuel n offset;;
      mret 0.

(** Models [KnvNode::SetValue] (src/knv/knv_node.cc:1260-1286). *)
Definition SetValueInt (n : nid) (int_val : Z) : M Z :=
  x ← getn n;
  if Z.eqb (n_tag x) 0 then mret (-1)
  else if negb (Z.eqb (n_type x) KNV_VARINT || Z.eqb (n_type x) KNV_FIXED64 || Z.eqb (n_type x) KNV_FIXED32) then mret (-2)
  else
    let v := mk_kval int_val (kv_ptr (n_val x)) in
    let sz := eval_len (n_tag x) (n_type x) v in
    modn n (fun x => set_dirty true (set_eval_sz sz (set_eval_val_sz 0 (set_val v x))));;
    UpdateParentEvalueAndSetDirty fuel n (sz - n_eval_sz x);;
    mret 0.

(** Models [KnvNode::SetValue] (src/knv/knv_node.h:510-513). *)
Definition SetValue (n : nid) (_type : Z) (new_val : kval) (own_buf : bool) : M Z :=
  if Z.eqb _type KNV_STRING then SetValueStr n (kv_ptr new_val) (kv_len new_val) own_buf
  else SetValueInt n (kv_i64 new_val).

(** Models [KnvNode::SetTag] (src/knv/knv_node.cc:1288-1329). *)
Definition SetTag (n : nid) (t : Z) : M Z :=
  if Z.eqb t 0 then mret (-1)
  else
    x ← getn n;
    if Z.eqb (n_tag x) 0 then mret (-2)
    else
      match n_parent x with Some p => ht_remove fuel p n;; mret tt | None => mret tt end;;
      modn n (set_tag t);;
      match n_parent x with Some p => ht_put fuel p n;; mret tt | None => mret tt end;;
      x ← getn n;
      offset ← (if Z.leb 0 (n_eval_sz x) then
                  let sz := eval_len t (n_type x) (if Z.eqb (n_type x) KNV_NODE then kv_str (n_eval_val_sz x) None else n_val x) in
                  modn n (set_eval_sz sz);; mret (sz - n_eval_sz x)
                else mret 0);
      modn n (set_dirty true);;
      UpdateParentEvalueAndSetDirty fuel n offset;;
      mret 0.

(** ** Children *)

(** Models [KnvNode::GetChildNum] (src/knv/knv_node.h:339-339). *)
Definition GetChildNum (n : nid) : M Z :=
  Expand fuel n;;
  x ← getn n;
  mret (if Z.ltb (n_child_num x) 0 then 0 else n_child_num x).

(** Models [KnvNode::FindChild] (src/knv/knv_node.cc:1332-1346). *)
Definition FindChild (n : nid) (t : Z) (k : ptr) (klen : Z) : M (option (nid * HtPos)) :=
  x ← getn n;
  if Z.eqb (n_tag x) 0 then mret None
  else
    r ← Expand fuel n;
    x ← getn n;
    if negb (ok r) || Z.leb (n_child_num x) 0 then mret None else ht_get fuel n t k klen.

(** The first node of a list with a tag. *)
Fixpoint find_tag (l : list nid) (t : Z) : M (option nid) :=
  match l with
  | [] => mret None
  | c :: l' => x ← getn c; if Z.eqb (n_tag x) t then mret (Some c) else find_tag l' t
  end.

(** Models [KnvNode::FindChildByTag] (src/knv/knv_node.cc:1402-1457). *)
Definition FindChildByTag (n : nid) (t : Z) : M (option nid) :=
  x ← getn n;
  if Z.eqb (n_tag x) 0 then mret None
  else
    nr ← GetChildNum n;
    if Z.leb nr 0 then mret None
    else
      x ← getn n;
      if n_child_has_key x then find_tag (n_childlist x) t
      else r ← ht_get fuel n t None 0; mret (fst <$> r).

(** [child_num--], the totals and the dirty flags, after a child went. *)
Definition child_gone (n : nid) (l : list nid) (offset : Z) : M bool :=
  modn n (fun x => set_childlist l (set_child_num (n_child_num x - 1) x));;
  changed fuel n offset;;
  mret true.

(** What a child takes away from the total. *)
Definition minus_size (n c : nid) : M Z :=
  x ← getn n;
  if Z.leb 0 (n_eval_sz x) then z ← EvaluateSize fuel c; mret (- z) else mret 0.

(** [nodepool->Detach] takes the child out of the list and gives it back to nobody; its [parent] stays. *)
(** Models [KnvNode::DetachChild] (src/knv/knv_node.cc:1348-1371). *)
Definition DetachChild (n c : nid) : M bool :=
  offset ← minus_size n c;
  ht_remove fuel n c;;
  x ← getn n;
  if bool_decide (c ∈ n_childlist x) then child_gone n (filter (.≠ c) (n_childlist x)) offset else crash.

(** Models [KnvNode::RemoveChildByPos] (src/knv/knv_node.cc:1373-1399). *)
Definition RemoveChildByPos (n c : nid) (pos : option HtPos) : M bool :=
  offset ← minus_size n c;
  match pos with None => ht_remove fuel n c | Some pos => ht_remove_pos n c pos end;;
  x ← getn n;
  l ← list_delete fuel (n_childlist x) c;
  child_gone n l offset.

(** Models [KnvNode::RemoveChild] (src/knv/knv_node.cc:1840-1848). *)
Definition RemoveChild (n : nid) (t : Z) (k : ptr) (klen : Z) : M bool :=
  r ← FindChild n t k klen;
  match r with
  | None => mret false
  | Some (c, pos) => RemoveChildByPos n c (Some pos)
  end.

(** Models [KnvNode::RemoveChildrenByTag] (src/knv/knv_node.cc:1867-1891). *)
Fixpoint remove_tagged (n : nid) (t : Z) (l : list nid) (match_nr offset : Z) : M (Z * Z) :=
  match l with
  | [] => mret (match_nr, offset)
  | c :: l' =>
      y ← getn c;
      if Z.eqb (n_tag y) t then
        o ← minus_size n c;
        ht_remove fuel n c;;
        x ← getn n;
        cs ← list_delete fuel (n_childlist x) c;
        modn n (fun x => set_childlist cs (set_child_num (n_child_num x - 1) x));;
        remove_tagged n t l' (match_nr + 1) (offset + o)
      else remove_tagged n t l' match_nr offset
  end.

(** Models [KnvNode::RemoveChildrenByTag] (src/knv/knv_node.cc:1850-1902). *)
Definition RemoveChildrenByTag (n : nid) (t : Z) : M Z :=
  x ← getn n;
  if Z.eqb (n_tag x) 0 then mret (-1)
  else
    nr ← GetChildNum n;
    if Z.leb nr 0 then mret 0
    else
      x ← getn n;
      '(match_nr, offset) ← remove_tagged n t (n_childlist x) 0 0;
      when (negb (Z.eqb match_nr 0)) (changed fuel n offset);;
      mret match_nr.

End ops.

Section metas.
Context (fuel : nat).

(** ** Metas *)

(** Models [KnvNode::GetMeta] (src/knv/knv_node.cc:1460-1472). *)
Definition GetMeta (n : nid) (t : Z) : M (option nid) :=
  x ← getn n;
  if Z.eqb (n_tag x) 0 || Z.ltb UC_MAX_META_NUM t then mret None
  else
    r ← (if Z.ltb (n_child_num x) 0 then Expand fuel n else mret 0);
    x ← getn n;
    if negb (ok r) || bool_decide (n_metalist x = []) then mret None else mret (n_metas x !! t).

(** The value of an existing meta; the string goes to the node's own [dyn_data], not to the meta's. *)
(** Models [KnvNode::SetMeta] (src/knv/knv_node.cc:1553-1587). *)
Definition overwrite_meta (n m : nid) (_tag _type : Z) (_data : option kval) (own_buf : bool) : M Z :=
  modn m (set_type _type);;
  r ← match _data with
      | Some v =>
          if Z.eqb _type KNV_STRING && own_buf then
            p ← dyn_alloc (OfVal n) (kv_len v);
            match p with
            | None => modn m (fun y => set_val (kv_set_str 0 None (n_val y)) y);; mret (-6)
            | Some _ =>
                s ← read_str (kv_ptr v) (kv_len v);
                write_str p s;;
                modn m (fun y => set_val (kv_set_str (kv_len v) p (n_val y)) y);;
                mret 0
            end
          else modn m (set_val v);; mret 0
      | None => modn m (set_val (mk_kval 0 None));; mret 0
      end;
  if negb (ok r) then mret r
  else
    y ← getn m;
    x ← getn n;
    when (Z.leb 0 (n_child_num y)) (drop_children fuel m (if negb (n_no_key x) && Z.eqb _tag 1 then 0 else -1));;
    mret 0.

(** Models [KnvNode::SetMeta] (src/knv/knv_node.cc:1534-1551). *)
Definition new_meta (n : nid) (_tag _type : Z) (_data : option kval) (own_buf : bool) : M (Z * option nid) :=
  modn n (fun x => if bool_decide (n_metalist x = []) then set_metas ∅ x else x);;
  r ← pool_New;
  match r with
  | None => mret (-5, None)
  | Some m =>
      modn n (fun x => set_metalist (if Z.eqb _tag 1 then m :: n_metalist x else n_metalist x ++ [m]) x);;
      r ← InitNode m _tag _type _data own_buf true 0 true;
      if negb (ok r) then
        x ← getn n;
        l ← list_delete fuel (n_metalist x) m;
        modn n (set_metalist l);;
        mret (-6, None)
      else
        modn m (set_parent (Some n));;
        modn n (fun x => set_metas (<[_tag := m]> (n_metas x)) x);;
        mret (0, Some m)
  end.

(** Models [KnvNode::SetMeta] (src/knv/knv_node.cc:1507-1612). *)
Definition InnerSetMeta (n : nid) (_tag _type : Z) (_data : option kval) (own_buf update_parent : bool) : M Z :=
  x ← getn n;
  if Z.eqb (n_tag x) 0 then mret (-1)
  else if negb (Z.eqb (n_type x) KNV_NODE) then mret (-2)
  else if Z.ltb UC_MAX_META_NUM _tag then mret (-3)
  else
    r ← (if Z.ltb (n_child_num x) 0 then Expand fuel n else mret 0);
    if negb (ok r) then mret (-4)
    else
      m ← GetMeta n _tag;
      old_sz ← match m with Some m => EvaluateSize fuel m | None => mret 0 end;
      '(r, m) ← match m with
                | None => new_meta n _tag _type _data own_buf
                | Some m => r ← overwrite_meta n m _tag _type _data own_buf; mret (r, Some m)
                end;
      match m with
      | None => mret r
      | Some m =>
          if negb (ok r) then mret r
          else
            modn m (fun y => set_eval_sz (eval_len _tag _type (n_val y))
                               (set_eval_val_sz (if Z.eqb _type KNV_NODE then kv_len (n_val y) else 0) y));;
            y ← getn m;
            if negb update_parent
            then modn n (fun x => set_eval_val_sz (n_eval_val_sz x + (n_eval_sz y - old_sz)) x);; mret 0
            else
              x ← getn n;
              changed fuel n (if Z.leb 0 (n_eval_sz x) then n_eval_sz y - old_sz else 0);;
              mret 0
      end.

(** Models [KnvNode::InnerRemoveMeta] (src/knv/knv_node.cc:1614-1652). *)
Definition InnerRemoveMeta (n : nid) (_tag : Z) : M Z :=
  x ← getn n;
  if Z.eqb (n_tag x) 0 then mret (-1)
  else if Z.ltb UC_MAX_META_NUM _tag then mret (-2)
  else
    r ← (if Z.ltb (n_child_num x) 0 then Expand fuel n else mret 0);
    if negb (ok r) then mret (-3)
    else
      x ← getn n;
      match (if bool_decide (n_metalist x = []) then None else n_metas x !! _tag) with
      | None => mret 0
      | Some m =>
          offset ← minus_size fuel n m;
          x ← getn n;
          l ← list_delete fuel (n_metalist x) m;
          modn n (fun x => set_metas (delete _tag (n_metas x)) (set_metalist l x));;
          changed fuel n offset;;
          mret 0
      end.

(** Models [KnvNode::SetKey] (src/knv/knv_node.cc:641-679). *)
Definition SetKey (n : nid) (_keytype : Z) (_key : option kval) (own_buf : bool) : M Z :=
  x ← getn n;
  match n_parent x with Some p => ht_remove fuel p n;; mret tt | None => mret tt end;;
  ret ← (r ← key_init n _keytype _key own_buf;
         if negb (ok r) then mret (-1)
         else
           x ← getn n;
           r ← (if negb (Z.eqb (k_len (n_key x)) 0)
                then v ← key_GetValue (n_key x);
                     r ← InnerSetMeta n 1 _keytype (Some v) false true; mret (if Z.ltb r 0 then -2 else 0)
                else r ← InnerRemoveMeta n 1; mret (if Z.ltb r 0 then -3 else 0));
           when (ok r) (modn n (set_no_key false));;
           mret r);
  match n_parent x with Some p => ht_put fuel p n;; mret tt | None => mret tt end;;
  mret ret.

(** Models [KnvNode::SetMeta] (src/knv/knv_node.h:620-626). *)
Definition SetMeta (n : nid) (_tag _type : Z) (_data : option kval) : M Z :=
  x ← getn n;
  if negb (n_no_key x) && Z.eqb _tag 1 then SetKey n _type _data true
  else InnerSetMeta n _tag _type _data true true.

(** Models [KnvNode::RemoveMeta] (src/knv/knv_node.h:643-649). *)
Definition RemoveMeta (n : nid) (_tag : Z) : M Z :=
  x ← getn n;
  if Z.eqb _tag 1 then SetKey n (k_type (n_key x)) None true else InnerRemoveMeta n _tag.

(** Models [KnvNode::AddMeta] (src/knv/knv_node.cc:1654-1685). *)
Definition AddMeta (n : nid) (_tag _type : Z) (_data : option kval) : M Z :=
  r ← GetMeta n _tag;
  match r with
  | None => SetMeta n _tag _type _data
  | Some _ =>
      r ← pool_New;
      match r with
      | None => mret (-1)
      | Some m =>
          modn n (fun x => set_metalist (n_metalist x ++ [m]) x);;
          r ← InitNode m _tag _type _data true true 0 true;
          if negb (ok r) then
            x ← getn n;
            l ← list_delete fuel (n_metalist x) m;
            modn n (set_metalist l);;
            mret (-2)
          else
            modn m (set_parent (Some n));;
            y ← getn m;
            x ← getn n;
            changed fuel n (if Z.leb 0 (n_eval_sz x) then eval_len _tag _type (n_val y) else 0);;
            mret 0
      end
  end.

(** Models [KnvNode::RemoveMetaByTag] (src/knv/knv_node.cc:1718-1733). *)
Fixpoint remove_metas (n : nid) (t : Z) (l : list nid) (offset : Z) : M Z :=
  match l with
  | [] => mret offset
  | m :: l' =>
      y ← getn m;
      if Z.eqb (n_tag y) t then
        o ← minus_size fuel n m;
        x ← getn n;
        ms ← list_delete fuel (n_metalist x) m;
        modn n (set_metalist ms);;
        remove_metas n t l' (offset + o)
      else remove_metas n t l' offset
  end.

(** Models [KnvNode::RemoveMetaByTag] (src/knv/knv_node.cc:1687-1744). *)
Definition RemoveMetaByTag (n : nid) (_tag : Z) : M Z :=
  x ← getn n;
  if Z.eqb (n_tag x) 0 then mret (-1)
  else if Z.ltb UC_MAX_META_NUM _tag then mret (-2)
  else
    r ← (if Z.ltb (n_child_num x) 0 then Expand fuel n else mret 0);
    if negb (ok r) then mret (-3)
    else
      x ← getn n;
      match (if bool_decide (n_metalist x = []) then None else n_metas x !! _tag) with
      | None => mret 0
      | Some _ =>
          r ← (if negb (n_no_key x) && Z.eqb _tag 1 then SetKey n (k_type (n_key x)) None true else mret 0);
          if Z.ltb r 0 then mret r
          else
            x ← getn n;
            offset ← remove_metas n _tag (n_metalist x) 0;
            modn n (fun x => set_metas (delete _tag (n_metas x)) x);;
            changed fuel n offset;;
            mret 0
      end.

(** ** New nodes *)

(** Models [KnvNode::New] (src/knv/knv_node.cc:566-593). *)
Definition NewBin (data : ptr) (data_len : Z) (own_buf : bool) : M (option nid) :=
  '(b, f) ← first_field data data_len;
  if negb (b : bool) then mret None
  else
    r ← pool_New;
    match r with
    | None => mret None
    | Some n =>
        r ← InitNode n (f_tag f) (f_type f) (Some (field_val data f)) own_buf true (f_ptr f) false;
        if negb (ok r) then Delete fuel n;; mret None else mret (Some n)
    end.

(** Models [KnvNode::New] (src/knv/knv_node.cc:596-639). *)
Definition New (_tag _type _keytype : Z) (_key _val : option kval) (own_buf : bool) : M (option nid) :=
  if Z.eqb _tag 0 then mret None
  else
    r ← pool_New;
    match r with
    | None => mret None
    | Some n =>
        r ← InitNode n _tag _type _val own_buf true 0 false;
        if negb (ok r) then Delete fuel n;; mret None
        else
          match _key with
          | None => mret (Some n)
          | Some _ =>
              r ← key_init n _keytype _key own_buf;
              if negb (ok r) then Delete fuel n;; mret None
              else
                x ← getn n;
                r ← (if negb (Z.eqb (k_len (n_key x)) 0)
                     then v ← key_GetValue (n_key x); InnerSetMeta n 1 _keytype (Some v) false true
                     else mret 0);
                if Z.ltb r 0 then Delete fuel n;; mret None else mret (Some n)
          end
    end.

(** Models [KnvNode::NewTree] (src/knv/knv_node.h:487-490). *)
Definition NewTree (_tag : Z) (_key : option knv_key_t) : M (option nid) :=
  match _key with
  | None => New _tag KNV_NODE KNV_STRING None None true
  | Some k => v ← key_GetValue k; New _tag KNV_NODE (k_type k) (Some v) None true
  end.

(** Models [KnvNode::NewFromMessage] (src/knv/knv_node.h:497-503). *)
Definition NewFromMessage (msg : ptr) (msg_len _tag : Z) : M (option nid) :=
  New _tag KNV_STRING KNV_STRING None (Some (kv_str msg_len msg)) true.

(** Models [KnvNode::New] (src/knv/knv_node.h:465-475). *)
Definition NewMem (_tag _type : Z) (mem : Z) (length : Z) : M (option nid) :=
  r ← New _tag _type KNV_STRING None (Some (kv_str length (Some (BMem mem, 0)))) false;
  match r with
  | None => mret None
  | Some p => dyn_assign (OfVal p) (Some mem) length;; mret (Some p)
  end.

End metas.
