(* ===== verification/KnvSize.v ===== *)
(** * Sizes and serialization of trees (src/knv/knv_node.cc)

    [tree_enc k h n body whole]: the tree of height at most [k] at [n] stands for the message [body], and
    [whole] is that message as a field with the tag of [n].  A node written from its value stands for the
    value; any other node for its key, its metas and its children one after the other.  The sizes kept in
    [eval_sz] and [eval_val_sz] are either unknown or right.  Theorems: [EvaluateSize] returns the size of
    [whole], and [Serialize] writes exactly [whole], or fails without writing past its buffer when there is
    no room. *)

From S2P Require Import Prelude Pb KnvHeap KnvNode KnvHt.

(** ** Values *)

(** What a value holds, read at a wire type. *)
Definition val_at (h : heap) (type : Z) (v : kval) : option pb_value :=
  if Z.eqb type KNV_VARINT then Some (VInt (kv_i64 v))
  else if Z.eqb type KNV_FIXED64 then Some (VFix64 (kv_i64 v))
  else if Z.eqb type KNV_STRING then VStr <$> str_at h (kv_ptr v) (kv_len v)
  else if Z.eqb type KNV_FIXED32 then Some (VFix32 (kv_i32 v))
  else None.

(** The content of a string value; nothing for the others. *)
Definition body_of (p : pb_value) : bytes := match p with VStr s => s | _ => [] end.

Ltac wire_type ty H :=
  unfold val_at in H;
  destruct (Z.eqb_spec ty KNV_VARINT) as [->|]; [|
  destruct (Z.eqb_spec ty KNV_FIXED64) as [->|]; [|
  destruct (Z.eqb_spec ty KNV_STRING) as [->|]; [|
  destruct (Z.eqb_spec ty KNV_FIXED32) as [->|]; [|discriminate H]]]].

Lemma val_at_type h ty v p : val_at h ty v = Some p -> type_of p = ty.
Proof.
  intros H. wire_type ty H; try (injection H as <-; done).
  destruct (str_at _ _ _); [|done]. by injection H as <-.
Qed.

Lemma val_at_len h v s : val_at h KNV_STRING v = Some (VStr s) -> len s = kv_len v /\ str_at h (kv_ptr v) (kv_len v) = Some s.
Proof. cbn. destruct (str_at _ _ _) eqn:E; [|done]. intros [= <-]. split; [by eapply str_at_len|done]. Qed.

Lemma val_at_eval h t ty v p : val_at h ty v = Some p -> field_ok (t, p) -> eval_len t ty v = len (enc_field (t, p)).
Proof.
  intros H Hok. rewrite <- (pb_eval_field_length_enc _ Hok). unfold eval_len. cbn [fst snd].
  wire_type ty H; try (injection H as <-; done).
  - destruct (str_at _ _ _) as [s|] eqn:E; [|done]. injection H as <-. pose proof (str_at_len _ _ _ _ E) as Hl.
    unfold pb_eval_field_length. cbn [type_of Z.eqb PB_WT_STRING PB_WT_VARINT PB_WT_FIXED64 PB_WT_FIXED32 Pos.eqb].
    rewrite str_len_val_of by apply Hok. unfold str_len. cbn [v_word]. unfold kv_len in Hl. by rewrite Hl.
Qed.

Lemma pb_add_str_same b t w s l : str_len (mk_val w s) = len s -> str_len (val_of (VStr s)) = len s -> l = mk_val w s ->
  pb_add_field_val b t PB_WT_STRING l = pb_add_field_val b t PB_WT_STRING (val_of (VStr s)).
Proof.
  intros H1 H2 ->. unfold pb_add_field_val. cbn [Z.eqb PB_WT_STRING PB_WT_VARINT PB_WT_FIXED64 Pos.eqb].
  rewrite H1, H2. done.
Qed.

Lemma val_at_add h b t ty v p :
  val_at h ty v = Some p -> field_ok (t, p) ->
  add_field_val b t ty v h =
    match pb_add_field_val b t (type_of p) (val_of p) with Some r => Ret r h | None => Crash end.
Proof.
  intros H Hok. unfold add_field_val. wire_type ty H; try (injection H as <-).
  - done.
  - done.
  - destruct (str_at _ _ _) as [s|] eqn:E; [|done]. injection H as <-. pose proof (str_at_len _ _ _ _ E) as Hl.
    cbn [Z.eqb PB_WT_STRING Pos.eqb default type_of].
    by erewrite pb_add_str_same; [|unfold str_len; cbn [v_word]; unfold kv_len in Hl; by rewrite Hl|apply str_len_val_of, Hok|done].
  - cbn [Z.eqb PB_WT_STRING PB_WT_FIXED32 Pos.eqb type_of]. unfold pb_add_field_val.
    cbn [Z.eqb PB_WT_STRING PB_WT_VARINT PB_WT_FIXED64 PB_WT_FIXED32 Pos.eqb].
    unfold val_of, i32, kv_i32. cbn [v_word]. rewrite (u32_small (u32 _)) by apply u32_range. done.
Qed.

(** ** Keys *)

(** [key.GetValue()] *)
Definition key_kval (h : heap) (k : knv_key_t) : option kval :=
  if Z.eqb (k_type k) KNV_STRING then Some (kv_str (k_len k) (k_val k))
  else if bool_decide (k_val k = None) then Some (kv_int 0)
  else s ← str_at h (k_val k) (Z.min (k_len k) 8); Some (kv_int (le_combine s)).

Lemma key_GetValue_run k h : key_GetValue k h = match key_kval h k with Some v => Ret v h | None => Crash end.
Proof.
  unfold key_GetValue, key_kval. destruct (Z.eqb _ _); [done|]. case_bool_decide; [done|].
  unfold read_str. hsimp. by destruct (str_at _ _ _).
Qed.

(** The key as it is written in front of the metas. *)
Definition key_part (h : heap) (x : node) (kb : bytes) : Prop :=
  if has_key x then
    exists v p, key_kval h (n_key x) = Some v /\ val_at h (k_type (n_key x)) v = Some p /\ field_ok (1, p) /\ kb = enc_field (1, p)
  else kb = [].

(** The metas written after the key. *)
Definition wmetas (h : heap) (x : node) : list nid :=
  match n_metalist x with
  | f :: l => if has_key x && Z.eqb (n_tag (nd h f)) 1 then l else f :: l
  | [] => []
  end.

Lemma written_metas_run h x : written_metas (has_key x) (n_metalist x) h = Ret (wmetas h x) h.
Proof. unfold wmetas. by destruct (n_metalist x). Qed.

(** ** Trees *)

Definition sz_ok (x : node) (body whole : bytes) : Prop :=
  n_eval_sz x < 0 \/ n_eval_sz x = len whole /\ n_eval_val_sz x = len body.

Fixpoint tree_enc (k : nat) (h : heap) (n : nid) (body whole : bytes) : Prop :=
  match k with
  | O => False
  | S k' =>
      let x := nd h n in
      sz_ok x body whole /\
      if by_value x then
        exists p, val_at h (n_type x) (n_val x) = Some p /\ field_ok (n_tag x, p) /\
                  body = body_of p /\ whole = enc_field (n_tag x, p)
      else
        exists kb es1 es2, key_part h x kb /\
          Forall2 (fun c e => exists b, tree_enc k' h c b e) (wmetas h x) es1 /\
          Forall2 (fun c e => exists b, tree_enc k' h c b e) (n_childlist x) es2 /\
          body = kb ++ concat es1 ++ concat es2 /\ field_ok (n_tag x, VStr body) /\
          whole = enc_field (n_tag x, VStr body)
  end.

Lemma not_by_value_string x : by_value x = false -> n_type x = KNV_STRING.
Proof.
  unfold by_value, leafish. intros H. apply orb_false_iff in H as [H _]. apply orb_false_iff in H as [H _].
  apply orb_false_iff in H as [H _]. apply negb_false_iff, Z.eqb_eq in H. done.
Qed.

Lemma key_part_fun h x a b : key_part h x a -> key_part h x b -> a = b.
Proof. unfold key_part. destruct (has_key x); [|congruence]. intros (v & p & ? & ? & ? & ->) (v' & p' & ? & ? & ? & ->). congruence. Qed.

Lemma tree_enc_fun k : forall k' h n b w b' w', tree_enc k h n b w -> tree_enc k' h n b' w' -> b = b' /\ w = w'.
Proof.
  induction k as [|k IH]; intros k' h n b w b' w'; [done|]. destruct k' as [|k']; [done|]. cbn [tree_enc].
  intros [_ H] [_ H']. destruct (by_value (nd h n)).
  - destruct H as (p & E & _ & -> & ->), H' as (p' & E' & _ & -> & ->). simplify_eq. done.
  - destruct H as (kb & es1 & es2 & K & F1 & F2 & -> & _ & ->), H' as (kb' & fs1 & fs2 & K' & G1 & G2 & -> & _ & ->).
    assert (forall l es fs, Forall2 (fun c e => exists b, tree_enc k h c b e) l es ->
              Forall2 (fun c e => exists b, tree_enc k' h c b e) l fs -> es = fs) as Hu.
    { intros l es fs F. revert fs. induction F as [|c e l es [b He] _ IHl]; intros fs G.
      - by inversion G.
      - inversion G as [|? f ? fs' [b' Hf] G']; subst. f_equal; [by eapply IH|by apply IHl]. }
    rewrite (key_part_fun _ _ _ _ K K'), (Hu _ _ _ F1 G1), (Hu _ _ _ F2 G2). done.
Qed.

(** *** Heaps with the same trees *)

(** [h'] differs from [h] in the sizes kept only. *)
Definition same_core (h h' : heap) : Prop :=
  (forall m, exists a c, nd h' m = set_eval_sz a (set_eval_val_sz c (nd h m))) /\
  h_buf h' = h_buf h /\ h_free h' = h_free h /\ h_next h' = h_next h /\ h_nmem h' = h_nmem h /\ h_fail h' = h_fail h.

Lemma str_at_buf h h' p n : h_buf h' = h_buf h -> str_at h' p n = str_at h p n.
Proof. intros H. unfold str_at, buf_get. by rewrite H. Qed.

Lemma val_at_buf h h' ty v : h_buf h' = h_buf h -> val_at h' ty v = val_at h ty v.
Proof. intros H. unfold val_at. by rewrite (str_at_buf h h'). Qed.

Lemma tree_enc_core h h' :
  same_core h h' -> (forall m k b w, tree_enc k h m b w -> sz_ok (nd h' m) b w) ->
  forall k n b w, tree_enc k h n b w -> tree_enc k h' n b w.
Proof.
  intros [Hc [Hb _]] Hs k. induction k as [|k IH]; intros n b w H; [done|].
  pose proof (Hs _ _ _ _ H) as Hsz. cbn [tree_enc] in *. split; [done|]. destruct H as [_ H].
  destruct (Hc n) as (a & c & E). rewrite E in *. clear E.
  change (by_value (set_eval_sz a (set_eval_val_sz c (nd h n)))) with (by_value (nd h n)).
  destruct (by_value (nd h n)).
  - destruct H as (p & Hp & H). exists p. by rewrite (val_at_buf h h').
  - assert (Hf : forall l es, Forall2 (fun c e => exists b, tree_enc k h c b e) l es ->
                              Forall2 (fun c e => exists b, tree_enc k h' c b e) l es).
    { intros l es F. eapply Forall2_impl; [exact F|]. intros ? ? [b' ?]. exists b'. by apply IH. }
    destruct H as (kb & es1 & es2 & K & F1 & F2 & H). exists kb, es1, es2. split_and!; try apply H.
    + unfold key_part in *. change (has_key (set_eval_sz a (set_eval_val_sz c (nd h n)))) with (has_key (nd h n)).
      destruct (has_key (nd h n)); [|done]. destruct K as (v & p & Hv & Hp & K). exists v, p. split_and!; try apply K.
      * rewrite <- Hv. unfold key_kval. cbn [n_key set_eval_sz set_eval_val_sz]. by rewrite (str_at_buf h h').
      * by rewrite (val_at_buf h h').
    + apply Hf. replace (wmetas h' (set_eval_sz a (set_eval_val_sz c (nd h n)))) with (wmetas h (nd h n)); [done|].
      unfold wmetas. cbn [n_metalist set_eval_sz set_eval_val_sz].
      change (has_key (set_eval_sz a (set_eval_val_sz c (nd h n)))) with (has_key (nd h n)).
      destruct (n_metalist (nd h n)) as [|f l]; [done|]. by destruct (Hc f) as (? & ? & ->).
    + by apply Hf.
Qed.

(** *** Evaluation *)

(** [h'] is [h] after the sizes of some trees, unknown in [h], were worked out. *)
Record evals (h h' : heap) : Prop := {
  ev_core : same_core h h';
  ev_node : forall n, nd h' n = nd h n \/
    n_eval_sz (nd h n) < 0 /\ exists k b w, tree_enc k h n b w /\ sz_ok (nd h' n) b w }.

Lemma tree_enc_sz k h n b w : tree_enc k h n b w -> sz_ok (nd h n) b w.
Proof. destruct k; [done|]. by intros [H _]. Qed.

Lemma evals_fwd h h' : evals h h' -> forall k n b w, tree_enc k h n b w -> tree_enc k h' n b w.
Proof.
  intros [Hc Hn]. apply tree_enc_core; [done|]. intros m k b w H.
  destruct (Hn m) as [->|(_ & k' & b' & w' & H' & Hs)]; [by eapply tree_enc_sz|].
  by destruct (tree_enc_fun _ _ _ _ _ _ _ _ H H') as [-> ->].
Qed.

Lemma same_core_sym h h' : same_core h h' -> same_core h' h.
Proof.
  intros (A & B & C & D & E & F). split; [|by split_and!]. intros m. destruct (A m) as (a & c & ->).
  exists (n_eval_sz (nd h m)), (n_eval_val_sz (nd h m)). by destruct (nd h m).
Qed.

Lemma same_core_trans h1 h2 h3 : same_core h1 h2 -> same_core h2 h3 -> same_core h1 h3.
Proof.
  intros (A & B) (A' & B'). split; [|destruct B as (?&?&?&?&?), B' as (?&?&?&?&?); split_and!; congruence]. intros m.
  destruct (A m) as (a & c & Hm), (A' m) as (a' & c' & Hm'). exists a', c'. by rewrite Hm', Hm.
Qed.

Lemma same_core_refl h : same_core h h.
Proof. split; [|done]. intros m. exists (n_eval_sz (nd h m)), (n_eval_val_sz (nd h m)). by destruct (nd h m). Qed.

Lemma evals_bwd h h' : evals h h' -> forall k n b w, tree_enc k h' n b w -> tree_enc k h n b w.
Proof.
  intros [Hc Hn]. apply tree_enc_core; [by apply same_core_sym|]. intros m k b w H.
  destruct (Hn m) as [<-|(Hl & _)]; [by eapply tree_enc_sz|by left].
Qed.

Lemma evals_refl h : evals h h.
Proof. split; [apply same_core_refl|]. by left. Qed.

Lemma evals_trans h1 h2 h3 : evals h1 h2 -> evals h2 h3 -> evals h1 h3.
Proof.
  intros E1 E2. split; [eapply same_core_trans; [apply E1|apply E2]|]. intros n.
  destruct (ev_node _ _ E2 n) as [->|(Hl & k & b & w & H & Hs)]; [apply E1|].
  right. apply (evals_bwd _ _ E1) in H. split; [|by exists k, b, w].
  destruct (ev_node _ _ E1 n) as [<-|(? & _)]; done.
Qed.

(** Writing the right sizes into a node. *)
Lemma evals_set k h n b w :
  tree_enc k h n b w -> n_eval_sz (nd h n) < 0 ->
  evals h (set_node n (set_eval_sz (len w) (set_eval_val_sz (len b) (nd h n))) h).
Proof.
  intros H Hl. split.
  - split; [|done]. intros m. rewrite nd_set. case_decide; subst; [by eexists _, _|].
    exists (n_eval_sz (nd h m)), (n_eval_val_sz (nd h m)). by destruct (nd h m).
  - intros m. rewrite nd_set. case_decide; subst; [|by left]. right. split; [done|]. exists k, b, w. split; [done|]. by right.
Qed.

(** The size of a message as a field, from its length. *)
Lemma eval_len_message t b : field_ok (t, VStr b) -> eval_len t KNV_STRING (kv_str (len b) None) = len (enc_field (t, VStr b)).
Proof.
  intros Hok. rewrite <- (pb_eval_field_length_enc _ Hok). cbn [fst snd type_of]. unfold eval_len, pb_eval_field_length.
  cbn [Z.eqb PB_WT_STRING PB_WT_VARINT PB_WT_FIXED64 PB_WT_FIXED32 Pos.eqb].
  rewrite str_len_val_of by apply Hok. unfold str_len, kv_str. cbn [v_word kv_word].
  destruct Hok as [_ Hok]. cbn [value_ok snd] in Hok. pose proof (len_nonneg b).
  assert (u32 (u32 (len b)) = len b) as -> by (rewrite (u32_small (len b)) by lia; apply u32_small; lia). done.
Qed.

Lemma sum_list_run fuel k h0 l : forall h acc es,
  (forall n b w h, tree_enc k h n b w -> exists h', EvaluateSize fuel n h = Ret (len w) h' /\ evals h h') ->
  Forall2 (fun c e => exists b, tree_enc k h0 c b e) l es -> evals h0 h ->
  exists h', sum_list (EvaluateSize fuel) l acc h = Ret (acc + len (concat es)) h' /\ evals h0 h'.
Proof.
  induction l as [|c l IH]; intros h acc es Hev F E; inversion F as [|? e ? es' [b He] F']; subst; cbn [sum_list concat].
  - exists h. hsimp. split; [f_equal; len_lia|done].
  - hsimp. destruct (Hev c b e h) as (h1 & Hr & E1); [by apply (evals_fwd _ _ E)|]. rewrite Hr. hsimp.
    destruct (IH h1 (acc + len e) es') as (h2 & Hr2 & E2); try done; [by eapply evals_trans|].
    exists h2. rewrite Hr2. split; [f_equal; len_lia|done].
Qed.

Lemma EvaluateSize_run k : forall fuel n b w h,
  (k <= fuel)%nat -> tree_enc k h n b w ->
  exists h', EvaluateSize fuel n h = Ret (len w) h' /\ evals h h' /\
    n_eval_sz (nd h' n) = len w /\ n_eval_val_sz (nd h' n) = len b.
Proof.
  induction k as [|k IH]; intros fuel n b w h Hf H; [done|]. destruct fuel as [|fuel]; [lia|].
  pose proof (tree_enc_sz _ _ _ _ _ H) as [Hl|[Hs Hv]].
  2: { exists h. cbn [EvaluateSize]. hsimp. rewrite Hs, (proj2 (Z.leb_le _ _)) by apply len_nonneg.
       split_and!; [done|apply evals_refl|done|done]. }
  pose proof H as [_ Hb]. cbn [EvaluateSize]. hsimp. rewrite (proj2 (Z.leb_gt _ _)) by done.
  destruct (by_value (nd h n)) eqn:Eb.
  - destruct Hb as (p & Hp & Hok & -> & ->). hsimp. rewrite (val_at_eval h _ _ _ p Hp Hok).
    replace (if Z.eqb (n_type (nd h n)) KNV_NODE then kv_len (n_val (nd h n)) else 0) with (len (body_of p)).
    + eexists. split; [done|]. split; [by eapply evals_set|]. by rewrite nd_set, decide_True.
    + pose proof (val_at_type _ _ _ _ Hp) as Ht. rewrite <- Ht in *. destruct p; try done.
      apply val_at_len in Hp as [Hp _]. cbn [body_of]. by rewrite Hp.
  - destruct Hb as (kb & es1 & es2 & K & F1 & F2 & Hbody & Hok & Hw).
    pose proof (not_by_value_string _ Eb) as Ht.
    assert (exists v, (if has_key (nd h n) then v ← key_GetValue (n_key (nd h n)); mret (eval_len 1 (k_type (n_key (nd h n))) v) else mret 0) h
              = Ret v h /\ v = len kb) as (v0 & E0 & ->).
    { unfold key_part in K. destruct (has_key (nd h n)); [|exists 0; subst; by hsimp].
      destruct K as (v & p & Hv & Hp & Hpk & ->). eexists. hsimp. rewrite key_GetValue_run, Hv. hsimp.
      split; [done|]. by apply (val_at_eval h). }
    hsimp. rewrite E0. hsimp. rewrite written_metas_run. hsimp.
    assert (Hev : forall n b w h, tree_enc k h n b w -> exists h', EvaluateSize fuel n h = Ret (len w) h' /\ evals h h').
    { intros m b' w' h' H'. destruct (IH fuel m b' w' h' ltac:(lia) H') as (h2 & ? & ? & _). eauto. }
    destruct (sum_list_run fuel k h _ h (len kb) es1 Hev F1 (evals_refl h)) as (h1 & E1 & V1). rewrite E1. hsimp.
    destruct (sum_list_run fuel k h _ h1 (len kb + len (concat es1)) es2 Hev F2 V1) as (h2 & E2 & V2). rewrite E2. hsimp.
    assert (len kb + len (concat es1) + len (concat es2) = len b) as -> by (subst b; len_lia).
    assert (eval_len (n_tag (nd h n)) (n_type (nd h n)) (kv_str (len b) None) = len w) as -> by (rewrite Hw, Ht; by apply eval_len_message).
    eexists. split; [done|].
    assert (Hsame : n_eval_sz (nd h2 n) < 0 \/ n_eval_sz (nd h2 n) = len w /\ n_eval_val_sz (nd h2 n) = len b)
      by (apply (tree_enc_sz (S k)), (evals_fwd _ _ V2), H).
    split; [|by rewrite nd_set, decide_True].
    destruct Hsame as [Hl2|[Ha Hc]].
    + eapply evals_trans; [exact V2|]. eapply evals_set; [by apply (evals_fwd _ _ V2)|done].
    + eapply evals_trans; [exact V2|]. split; [split; [|done]|]; intros m; rewrite nd_set; case_decide; subst; try (by left).
      * by eexists _, _.
      * exists (n_eval_sz (nd h2 m)), (n_eval_val_sz (nd h2 m)). by destruct (nd h2 m).
      * left. rewrite <- Ha, <- Hc. by destruct (nd h2 n).
Qed.

(** ** Serialization *)

(** The outcome of writing [x] where there is [room], [post] lying after it: [x] at the front of the room,
    or an error code with the memory after the room untouched. *)
Definition ser_ok (x room post : bytes) (len_ : Z) (r : Z * Z * bytes) : Prop :=
  if decide (len x <= len room) then r = (0, len x, x ++ drop (length x) room ++ post)
  else exists c room', c <> 0 /\ len room' = len room /\ r = (c, len_, room' ++ post).

(** The same for one call of the encoder, after [pre]. *)
Definition wrote (pre room post x : bytes) (b : pb_buff_t) (r : Z * pb_buff_t) : Prop :=
  if decide (len x <= len room)
  then r.1 = 0 /\ b_size r.2 = b_size b /\ bcursor r.2 (pre ++ x) (drop (length x) room) post
  else r.1 <> 0 /\ exists y room', b_start r.2 = pre ++ y ++ room' ++ post /\ len y + len room' = len room.

Lemma wrote_of_writes pre room post x b o :
  writes b pre room post x o -> exists r, o = Some r /\ wrote pre room post x b r.
Proof.
  unfold writes, wrote. case_decide.
  - intros (b' & -> & Hs & Hb). exists (0, b'). done.
  - intros (c & b' & y & room' & -> & Hc & Hs & Hl & (Hst & _)). exists (c, b'). split; [done|]. cbn [fst snd].
    split; [lia|]. exists y, room'. by rewrite Hst, <- !app_assoc.
Qed.

Lemma wrote_nil pre room post b : bcursor b pre room post -> wrote pre room post [] b (0, b).
Proof. intros H. unfold wrote. rewrite decide_True by len_lia. cbn [fst snd length]. by rewrite app_nil_r, drop_0. Qed.

Lemma wrote_head pre room post b t (n : Z) s :
  field_ok (t, VStr s) -> n = len s -> bcursor b pre room post ->
  exists r, pb_add_string_head b t (u64 n) = Some r /\
    wrote pre room post (enc_vint (tag_word PB_WT_STRING t) ++ enc_vint (len s)) b r.
Proof.
  intros Hok -> Hb. apply wrote_of_writes. unfold pb_add_string_head.
  pose proof (proj2 Hok) as Hs. cbn [snd value_ok] in Hs. rewrite u64_small by len_lia.
  apply writes_seq; [apply (writes_tag _ _ _ _ (t, VStr s) Hok Hb)|lia|].
  intros b1 Hb1. apply writes_vint; [len_lia|done].
Qed.

Lemma enc_length b pre room post total :
  bcursor b pre room post -> b_size b = total -> total = len pre + len room -> 0 <= total < 2 ^ 31 ->
  pb_get_encoded_length b = len pre.
Proof.
  intros (_ & _ & Hl & _) Hs Ht Hr. unfold pb_get_encoded_length. rewrite Hs, Hl.
  pose proof (len_nonneg pre). pose proof (len_nonneg room). rewrite u64_small, s32_small; lia.
Qed.

Lemma len_drop_le {A} (x : list A) n : (n <= length x)%nat -> len (drop n x) = len x - Z.of_nat n.
Proof. intros. unfold len. rewrite length_drop. lia. Qed.

Section ser_list.
Context (k : nat) (h0 : heap) (ser : nid -> bytes -> Z -> M (Z * Z * bytes)).
Context (Hser : forall c b e h room post, tree_enc k h c b e -> len room < 2 ^ 31 ->
  exists r h', ser c (room ++ post) (len room) h = Ret r h' /\ evals h h' /\ ser_ok e room post (len room) r).

Lemma ser_list_run l : forall es h pre room post,
  Forall2 (fun c e => exists b, tree_enc k h0 c b e) l es -> evals h0 h -> len room < 2 ^ 31 ->
  exists r h', ser_list ser l (pre ++ room ++ post) (len pre + len room) (len pre) h = Ret r h' /\ evals h0 h' /\
    (if decide (len (concat es) <= len room)
     then r = (0, len pre + len (concat es), pre ++ concat es ++ drop (length (concat es)) room ++ post)
     else exists c n room', c <> 0 /\ len room' = len room /\ r = (c, n, pre ++ room' ++ post)).
Proof.
  induction l as [|c l IH]; intros es h pre room post F E Hr; inversion F as [|? e ? es' [b He] F']; subst;
    cbn [ser_list concat].
  - eexists _, h. hsimp. split; [done|]. split; [done|]. rewrite decide_True by len_lia.
    by rewrite (@len_nil Z), Z.add_0_r.
  - hsimp. replace (drop (Z.to_nat (len pre)) (pre ++ room ++ post)) with (room ++ post).
    2: { unfold len. by rewrite Nat2Z.id, drop_app_length. }
    replace (take (Z.to_nat (len pre)) (pre ++ room ++ post)) with pre.
    2: { unfold len. by rewrite Nat2Z.id, take_app_length. }
    replace (len pre + len room - len pre) with (len room) by lia.
    destruct (Hser c b e h room post) as (r & h1 & E1 & V1 & Hok); [by apply (evals_fwd _ _ E)|done|].
    rewrite E1. hsimp. unfold ser_ok in Hok. case_decide as Hd.
    + subst r. cbn [ok Z.eqb negb].
      assert (Hl1 : len (drop (length e) room) = len room - len e) by (apply len_drop_le; unfold len in Hd; lia).
      destruct (IH es' h1 (pre ++ e) (drop (length e) room) post) as (r2 & h2 & E2 & V2 & H2);
        try done; [by eapply evals_trans|len_lia|].
      rewrite len_app in E2. replace (len pre + len e + len (drop (length e) room)) with (len pre + len room) in E2 by lia.
      rewrite <- !app_assoc in E2. hsimp. rewrite E2. eexists _, _. split; [done|]. split; [done|].
      rewrite Hl1 in H2. rewrite len_app. case_decide as Hd2.
      * rewrite decide_True by lia. subst r2. rewrite length_app, <- drop_drop, !app_assoc, len_app. f_equal. f_equal. lia.
      * rewrite decide_False by lia. destruct H2 as (cc & n & room' & Hc & Hl & ->).
        exists cc, n, (e ++ room'). split; [done|]. split; [rewrite len_app; lia|]. by rewrite <- !app_assoc.
    + destruct Hok as (cc & room' & Hc & Hl & ->). cbn beta iota. unfold ok. rewrite (proj2 (Z.eqb_neq cc 0)) by done.
      cbn [negb]. eexists _, _. hsimp. split; [done|]. split; [by eapply evals_trans|].
      rewrite decide_False by len_lia. by exists cc, (len pre), room'.
Qed.
End ser_list.

(** The cursor at the start of [Serialize]. *)
Lemma init_cursor room post : len room < 2 ^ 31 ->
  exists b0, pb_init_buff (mk_buff [] 0 0 0 None) (room ++ post) (len room) = (0, b0) /\
    bcursor b0 [] room post /\ b_size b0 = len room.
Proof.
  intros Hr. pose proof (len_nonneg room). eexists. split; [done|]. unfold bcursor; cbn [b_start b_ptr b_left b_size].
  rewrite s32_small, u64_small by lia. done.
Qed.

Lemma ser_value fuel h n b w room post :
  by_value (nd h n) = true -> tree_enc 1 h n b w -> len room < 2 ^ 31 ->
  exists r, Serialize fuel n (room ++ post) (len room) true h = Ret r h /\ ser_ok w room post (len room) r.
Proof.
  intros Hb [_ H] Hr. rewrite Hb in H. destruct H as (p & Hp & Hok & _ & Hw).
  assert (Hu : forall f, Serialize f n (room ++ post) (len room) true h =
    (let '(ret, b) := pb_init_buff (mk_buff [] 0 0 0 None) (room ++ post) (len room) in
     '(ret, b) ← add_field_val b (n_tag (nd h n)) (n_type (nd h n)) (n_val (nd h n));
     if negb (ok ret) then mret (-3, len room, b_start b) else mret (0, pb_get_encoded_length b, b_start b)) h).
  { intros f. destruct f; cbn [Serialize]; hsimp; rewrite (proj2 (Z.eqb_neq _ 0)) by (destruct Hok; cbn in *; lia);
      by rewrite Hb. }
  rewrite Hu. destruct (init_cursor room post Hr) as (b0 & -> & Hc & Hs). hsimp.
  rewrite (val_at_add _ _ _ _ _ p Hp Hok).
  destruct (wrote_of_writes _ _ _ _ _ _ (pb_add_field_val_writes b0 [] room post (n_tag (nd h n), p) Hok Hc)) as ([ret b1] & E & W).
  cbn [fst snd] in E. rewrite E. hsimp. rewrite <- Hw in W. unfold wrote in W. cbn [fst snd] in W. unfold ser_ok.
  pose proof (len_nonneg room). case_decide as Hd.
  - destruct W as (-> & Hs1 & Hc1). cbn [ok Z.eqb negb]. eexists. split; [by hsimp|].
    assert (Hl : len (drop (length w) room) = len room - len w) by (apply len_drop_le; unfold len in Hd; lia).
    rewrite (enc_length _ ([] ++ w) _ post (len room) Hc1) by (rewrite ?app_nil_l; congruence || lia).
    destruct Hc1 as (Hst & _). by rewrite Hst, <- app_assoc.
  - destruct W as (Hne & y & room' & Hst & Hl). unfold ok. rewrite (proj2 (Z.eqb_neq _ _)) by done. cbn [negb].
    eexists. split; [by hsimp|]. exists (-3), (y ++ room'). split; [done|]. split; [rewrite len_app; lia|].
    by rewrite Hst, app_nil_l, <- app_assoc.
Qed.

(** The header and the key. *)
Definition head_bytes (hd : bool) (t : Z) (b : bytes) : bytes :=
  if hd then enc_vint (tag_word PB_WT_STRING t) ++ enc_vint (len b) else [].

Lemma ser_head h (hd : bool) b0 t n (b room post : bytes) :
  field_ok (t, VStr b) -> n = len b -> bcursor b0 [] room post ->
  exists r, (if hd then lift (pb_add_string_head b0 t (u64 n)) else (mret (0, b0) : M (Z * pb_buff_t))) h = Ret r h /\
    wrote [] room post (head_bytes hd t b) b0 r.
Proof.
  intros Hok Hn Hc. destruct hd; cbn [head_bytes].
  - destruct (wrote_head [] room post b0 t n b Hok Hn Hc) as (r & -> & W). by exists r.
  - exists (0, b0). split; [done|]. by apply wrote_nil.
Qed.

Lemma ser_key h x b1 pre room post kb :
  key_part h x kb -> bcursor b1 pre room post ->
  exists r, (if has_key x then v ← key_GetValue (n_key x); add_field_val b1 1 (k_type (n_key x)) v else mret (0, b1)) h = Ret r h /\
    wrote pre room post kb b1 r.
Proof.
  unfold key_part. intros K Hc. destruct (has_key x).
  - destruct K as (v & p & Hv & Hp & Hok & ->). hsimp. rewrite key_GetValue_run, Hv. hsimp.
    rewrite (val_at_add _ _ _ _ _ p Hp Hok).
    destruct (wrote_of_writes _ _ _ _ _ _ (pb_add_field_val_writes b1 pre room post (1, p) Hok Hc)) as (r & E & W).
    cbn [fst snd] in E. rewrite E. by exists r.
  - subst. exists (0, b1). split; [done|]. by apply wrote_nil.
Qed.

Lemma ok_ne (r : Z) : r <> 0 -> ok r = false.
Proof. apply Z.eqb_neq. Qed.

(** What is written fills the front of the room, step by step. *)
Lemma ser_ok_fail x room post len_ c room' :
  len room < len x -> c <> 0 -> len room' = len room -> ser_ok x room post len_ (c, len_, room' ++ post).
Proof. intros H Hc Hl. unfold ser_ok. rewrite decide_False by lia. by exists c, room'. Qed.

Lemma ser_node k fuel h n b w room post (hd : bool) :
  (forall c b e h room post, tree_enc k h c b e -> len room < 2 ^ 31 ->
     exists r h', Serialize fuel c (room ++ post) (len room) true h = Ret r h' /\ evals h h' /\ ser_ok e room post (len room) r) ->
  by_value (nd h n) = false -> (k <= fuel)%nat -> tree_enc (S k) h n b w -> len room < 2 ^ 31 ->
  exists r h', Serialize (S fuel) n (room ++ post) (len room) hd h = Ret r h' /\ evals h h' /\
    ser_ok (head_bytes hd (n_tag (nd h n)) b ++ b) room post (len room) r.
Proof.
  intros IH Hb Hf H Hr. destruct (EvaluateSize_run (S k) (S fuel) n b w h ltac:(lia) H) as (h1 & E1 & V1 & Hs1 & Hv1).
  pose proof (evals_fwd _ _ V1 _ _ _ _ H) as [_ H1].
  destruct (proj1 (ev_core _ _ V1) n) as (a & c & Hn1).
  assert (Hb1 : by_value (nd h1 n) = false) by (rewrite Hn1; exact Hb).
  rewrite Hb1 in H1. destruct H1 as (kb & es1 & es2 & K & F1 & F2 & Hbody & Hok & Hw).
  assert (Ht : n_tag (nd h1 n) = n_tag (nd h n)) by (by rewrite Hn1). rewrite <- Ht.
  cbn [Serialize]. hsimp. rewrite <- Ht, (proj2 (Z.eqb_neq _ 0)) by (destruct Hok; cbn in *; lia).
  destruct (init_cursor room post Hr) as (b0 & -> & Hc0 & Hsz0). cbn [ok Z.eqb negb]. rewrite Hb. hsimp. rewrite E1. hsimp.
  destruct (ser_head h1 hd b0 (n_tag (nd h1 n)) (n_eval_val_sz (nd h1 n)) b room post Hok Hv1 Hc0) as ([r1 b1] & -> & W1).
  hsimp. unfold wrote in W1. cbn [fst snd] in W1. set (hb := head_bytes hd _ b) in *. pose proof (len_nonneg room) as Hr0.
  destruct (decide (len hb <= len room)) as [D1|D1].
  2: { destruct W1 as (Hne & y & room' & Hst & Hl). rewrite ok_ne by done. cbn [negb]. eexists _, _. split; [by hsimp|].
       split; [done|]. rewrite Hst, app_nil_l, app_assoc. apply ser_ok_fail; [len_lia|done|len_lia]. }
  destruct W1 as (-> & Hsz1 & Hc1). cbn [ok Z.eqb negb]. hsimp. rewrite app_nil_l in Hc1.
  assert (L1 : len (drop (length hb) room) = len room - len hb) by (apply len_drop_le; unfold len in D1; lia).
  set (room1 := drop (length hb) room) in *.
  destruct (ser_key h1 (nd h1 n) b1 hb room1 post kb K Hc1) as ([r2 b2] & -> & W2).
  hsimp. unfold wrote in W2. cbn [fst snd] in W2.
  destruct (decide (len kb <= len room1)) as [D2|D2].
  2: { destruct W2 as (Hne & y & room' & Hst & Hl). rewrite ok_ne by done. cbn [negb]. eexists _, _. split; [by hsimp|].
       split; [done|]. rewrite Hst, !app_assoc. rewrite <- (app_assoc (hb ++ y)). rewrite app_assoc.
       apply ser_ok_fail; [subst b; len_lia|done|len_lia]. }
  destruct W2 as (-> & Hsz2 & Hc2). cbn [ok Z.eqb negb]. hsimp. rewrite written_metas_run. hsimp.
  assert (L2 : len (drop (length kb) room1) = len room1 - len kb) by (apply len_drop_le; unfold len in D2; lia).
  set (room2 := drop (length kb) room1) in *.
  rewrite (enc_length _ _ _ _ (len room) Hc2) by (rewrite ?len_app; congruence || lia).
  destruct Hc2 as (Hst2 & _). rewrite Hst2.
  destruct (ser_list_run k h1 (fun c buf room => Serialize fuel c buf room true) IH _ es1 h1 (hb ++ kb) room2 post F1 (evals_refl h1))
    as (r3 & h3 & E3 & V3 & W3); [len_lia|].
  replace (len (hb ++ kb) + len room2) with (len room) in E3 by len_lia. rewrite E3. hsimp.
  destruct (decide (len (concat es1) <= len room2)) as [D3|D3].
  2: { destruct W3 as (cc & nn & room' & Hcc & Hl & ->). rewrite ok_ne by done. cbn [negb]. eexists _, _. split; [by hsimp|].
       split; [by eapply evals_trans|]. rewrite app_assoc. apply ser_ok_fail; [subst b; len_lia|done|len_lia]. }
  subst r3. cbn [ok Z.eqb negb]. hsimp.
  assert (L3 : len (drop (length (concat es1)) room2) = len room2 - len (concat es1)) by (apply len_drop_le; unfold len in D3; lia).
  set (room3 := drop (length (concat es1)) room2) in *.
  rewrite (app_assoc (hb ++ kb)). rewrite <- len_app.
  destruct (ser_list_run k h1 (fun c buf room => Serialize fuel c buf room true) IH _ es2 h3 ((hb ++ kb) ++ concat es1) room3 post F2 V3)
    as (r4 & h4 & E4 & V4 & W4); [len_lia|].
  replace (len ((hb ++ kb) ++ concat es1) + len room3) with (len room) in E4 by len_lia. rewrite E4. hsimp.
  destruct (decide (len (concat es2) <= len room3)) as [D4|D4].
  2: { destruct W4 as (cc & nn & room' & Hcc & Hl & ->). rewrite ok_ne by done. cbn [negb]. eexists _, _. split; [by hsimp|].
       split; [by eapply evals_trans|]. rewrite app_assoc. apply ser_ok_fail; [subst b; len_lia|done|len_lia]. }
  subst r4. cbn [ok Z.eqb negb]. hsimp.
  assert (Hn4 : nd h4 n = nd h1 n).
  { destruct (ev_node _ _ V4 n) as [?|[? _]]; [done|]. rewrite Hs1 in *. pose proof (len_nonneg w). lia. }
  rewrite Hn4, Hv1.
  assert (Hfin : len ((hb ++ kb) ++ concat es1) + len (concat es2) = len hb + len b) by (subst b; len_lia).
  rewrite Hfin. replace ((hd && _) || _)%bool with false.
  2: { symmetry. destruct hd; cbn [andb orb negb]; rewrite ?orb_false_r; apply negb_false_iff, Z.eqb_eq.
       - rewrite Hw. unfold enc_field. subst hb. cbn [head_bytes fst snd type_of enc_value]. len_lia.
       - subst hb. cbn [head_bytes]. len_lia. }
  eexists _, _. split; [by hsimp|]. split; [by eapply evals_trans|].
  unfold ser_ok. rewrite decide_True by (subst b; len_lia). rewrite len_app. f_equal.
  rewrite Hbody, !length_app, <- !drop_drop, <- !app_assoc. done.
Qed.

Lemma Serialize_run k : forall fuel n b w h room post (hd : bool),
  (k <= fuel)%nat -> tree_enc k h n b w -> len room < 2 ^ 31 -> hd = true \/ by_value (nd h n) = false ->
  exists r h', Serialize fuel n (room ++ post) (len room) hd h = Ret r h' /\ evals h h' /\
    ser_ok (if hd then w else b) room post (len room) r.
Proof.
  induction k as [|k IH]; intros fuel n b w h room post hd Hf H Hr Hhd; [done|].
  destruct (by_value (nd h n)) eqn:Eb.
  - destruct Hhd as [-> |?]; [|done].
    destruct (ser_value fuel h n b w room post Eb) as (r & E & W).
    + destruct H as [Hs H]. split; [done|]. rewrite Eb in *. done.
    + done.
    + exists r, h. split_and!; [done|apply evals_refl|done].
  - destruct fuel as [|fuel]; [lia|].
    destruct (ser_node k fuel h n b w room post hd) as (r & h' & E & V & W); try done; try lia.
    + intros c b' e h' room' post' H' Hr'. destruct (IH fuel c b' e h' room' post' true ltac:(lia) H' Hr' (or_introl eq_refl))
        as (r & h2 & ? & ? & ?). eauto.
    + exists r, h'. split_and!; try done. destruct H as [_ H]. rewrite Eb in H.
      destruct H as (kb & es1 & es2 & _ & _ & _ & _ & _ & ->). destruct hd; [|done].
      unfold head_bytes in W. rewrite <- app_assoc in W. exact W.
Qed.

Lemma evals_value h h' n : evals h h' -> by_value (nd h' n) = by_value (nd h n).
Proof. intros [[Hc _] _]. destruct (Hc n) as (a & c & ->). done. Qed.

Lemma serialize_string_run (fuel k : nat) (h : heap) (n : nid) (b w : bytes) :
  tree_enc k h n b w -> (k <= fuel)%nat ->
  exists h', SerializeString fuel n h = Ret (0, w) h' /\ evals h h'.
Proof.
  intros H Hf. unfold SerializeString.
  destruct (EvaluateSize_run k fuel n b w h Hf H) as (h1 & E1 & V1 & _). hsimp. rewrite E1. hsimp.
  assert (Hw : len w < 2 ^ 31).
  { destruct k as [|k]; [done|]. destruct H as [_ H]. pose proof (evals_refl h).
    assert (exists p, field_ok p /\ w = enc_field p) as (p & Hok & ->).
    { destruct (by_value (nd h n)); [destruct H as (p & _ & ? & _ & ->)|destruct H as (? & ? & ? & _ & _ & _ & _ & ? & ->)]; eauto. }
    pose proof (enc_vint_len (tag_word (type_of p.2) p.1)). unfold enc_field.
    destruct Hok as [_ Hv]. destruct p as [t [z|z|s|z]]; cbn [snd enc_value value_ok] in *;
      rewrite ?len_app, ?len_le_split; [pose proof (enc_vint_len z)| |pose proof (enc_vint_len (len s))|]; lia. }
  set (room := replicate (Z.to_nat (len w)) 0).
  assert (Hl : len room = len w) by (unfold room, len; rewrite length_replicate; lia).
  destruct (Serialize_run k fuel n b w h1 room [] true Hf (evals_fwd _ _ V1 _ _ _ _ H) ltac:(lia) (or_introl eq_refl))
    as (r & h2 & E2 & V2 & W2). rewrite app_nil_r in E2. rewrite Hl in E2. rewrite E2. hsimp.
  unfold ser_ok in W2. rewrite decide_True in W2 by lia. subst r. cbn [ok Z.eqb negb]. hsimp. rewrite Z.eqb_refl. cbn [negb].
  exists h2. hsimp. rewrite drop_ge by (unfold len in Hl; lia). rewrite !app_nil_r. split; [done|].
  by eapply evals_trans.
Qed.

(** ** The theorems *)

(** For a tree whose values are well formed and of height at most [fuel], [EvaluateSize] ends and
    returns the length of the tree's encoding; it changes nothing but sizes that were unknown, and every
    tree keeps its meaning. *)
Theorem evaluate_size_exact (fuel k : nat) (h : heap) (n : nid) (b w : bytes) :
  tree_enc k h n b w -> (k <= fuel)%nat ->
  exists h', EvaluateSize fuel n h = Ret (len w) h' /\ same_core h h' /\
    n_eval_sz (nd h' n) = len w /\ n_eval_val_sz (nd h' n) = len b /\
    (forall j m b' w', tree_enc j h m b' w' -> tree_enc j h' m b' w').
Proof.
  intros H Hf. destruct (EvaluateSize_run k fuel n b w h Hf H) as (h' & E & V & Hs & Hv).
  exists h'. split_and!; [done|apply V|done|done|by apply evals_fwd].
Qed.

(** C21: [Serialize] of such a tree into a buffer of [len room] bytes: if the encoding fits, it is
    written at the front of the buffer, the new length is its length and the code is 0, so the check of
    the evaluated size never fails; if not, the call fails and the memory behind the buffer is untouched.
    Without the header the same holds for the message alone, except for a node written from its value. *)
Theorem serialize_exact (fuel k : nat) (h : heap) (n : nid) (b w room post : bytes) (hd : bool) :
  tree_enc k h n b w -> (k <= fuel)%nat -> len room < 2 ^ 31 -> hd = true \/ by_value (nd h n) = false ->
  exists r h', Serialize fuel n (room ++ post) (len room) hd h = Ret r h' /\ same_core h h' /\
    (if decide (len (if hd then w else b) <= len room)
     then r = (0, len (if hd then w else b), (if hd then w else b) ++ drop (length (if hd then w else b)) room ++ post)
     else exists c room', c <> 0 /\ len room' = len room /\ r = (c, len room, room' ++ post)) /\
    (forall j m b' w', tree_enc j h m b' w' -> tree_enc j h' m b' w').
Proof.
  intros H Hf Hr Hd. destruct (Serialize_run k fuel n b w h room post hd Hf H Hr Hd) as (r & h' & E & V & W).
  exists r, h'. split_and!; [done|apply V|exact W|by apply evals_fwd].
Qed.

(** [Serialize] into a string of its own: the string is the encoding of the tree. *)
Theorem serialize_string (fuel k : nat) (h : heap) (n : nid) (b w : bytes) :
  tree_enc k h n b w -> (k <= fuel)%nat ->
  exists h', SerializeString fuel n h = Ret (0, w) h'.
Proof. intros H Hf. destruct (serialize_string_run fuel k h n b w H Hf) as (h' & E & _). by exists h'. Qed.

(** A tree with the children 11 (the text "ab") and 12 (the number 300), and a meta 2 (the number 5). *)
Definition sample_leaf (t ty : Z) (v : kval) : node :=
  set_child_num 0 (set_val v (set_type ty (set_tag t node0))).
Definition sample_tree : heap :=
  mk_heap
    (<[1 := set_dirty true (set_child_num 2 (set_childlist [2; 3] (set_metalist [4] (set_tag 1 node0))))]>
    (<[2 := sample_leaf 11 KNV_STRING (kv_str 2 (Some (BExt 0, 1)))]>
    (<[3 := sample_leaf 12 KNV_VARINT (kv_int 300)]>
    (<[4 := sample_leaf 2 KNV_VARINT (kv_int 5)]> ∅)))) [] 5 (<[BExt 0 := txt "xab"]> ∅) 0 [].

Definition sample_body : bytes := enc_fields [(2, VInt 5); (11, VStr (txt "ab")); (12, VInt 300)].
Definition sample_whole : bytes := enc_field (1, VStr sample_body).

Lemma sample_leaf_enc k n p ty v :
  nd sample_tree n = sample_leaf p.1 ty v -> val_at sample_tree ty v = Some p.2 -> field_ok p ->
  exists b, tree_enc (S k) sample_tree n b (enc_field p).
Proof.
  intros E Hv Hok. exists (body_of p.2). cbn [tree_enc]. rewrite E. split; [by left|].
  assert (by_value (sample_leaf p.1 ty v) = true) as ->.
  { unfold by_value, leafish. cbn [sample_leaf n_child_num set_child_num n_metalist n_type]. by rewrite !orb_true_r. }
  exists p.2. by destruct p.
Qed.

Lemma sample_enc : tree_enc 2 sample_tree 1 sample_body sample_whole.
Proof.
  unfold sample_whole, sample_body. cbn [enc_fields mbind list_bind]. split; [by left|].
  change (by_value (nd sample_tree 1)) with false. cbv iota.
  exists [], [enc_field (2, VInt 5)], [enc_field (11, VStr (txt "ab")); enc_field (12, VInt 300)].
  assert (forall t z, 1 <= t < 20 -> 0 <= z < 1000 -> field_ok (t, VInt z)) as Hi by (intros; split; cbn; lia).
  assert (forall t s, 1 <= t < 20 -> len s < 1000 -> field_ok (t, VStr s)) as Hs by (intros; split; cbn; lia).
  split_and!; try done.
  - constructor; [|constructor]. eapply (sample_leaf_enc 0 4 (2, VInt 5)); [done|done|apply Hi; lia].
  - constructor; [eapply (sample_leaf_enc 0 2 (11, VStr (txt "ab"))); [done|done|apply Hs; [lia|vm_compute; done]]|].
    constructor; [|constructor]. eapply (sample_leaf_enc 0 3 (12, VInt 300)); [done|done|apply Hi; lia].
Qed.

Lemma evaluate_size_exact_witness :
  exists h', EvaluateSize 5 1 sample_tree = Ret (len sample_whole) h' /\ same_core sample_tree h' /\
    n_eval_sz (nd h' 1) = len sample_whole /\ n_eval_val_sz (nd h' 1) = len sample_body /\
    (forall j m b' w', tree_enc j sample_tree m b' w' -> tree_enc j h' m b' w').
Proof. apply (evaluate_size_exact 5 2); [exact sample_enc|lia]. Defined.

Lemma serialize_exact_witness :
  exists r h', Serialize 5 1 (replicate 12 7 ++ [9]) (len (replicate 12 7)) false sample_tree = Ret r h' /\ same_core sample_tree h' /\
    (if decide (len sample_body <= len (replicate 12 7))
     then r = (0, len sample_body, sample_body ++ drop (length sample_body) (replicate 12 7) ++ [9])
     else exists c room', c <> 0 /\ len room' = len (replicate 12 7) /\ r = (c, len (replicate 12 7), room' ++ [9])) /\
    (forall j m b' w', tree_enc j sample_tree m b' w' -> tree_enc j h' m b' w').
Proof. apply (serialize_exact 5 2 sample_tree 1 sample_body sample_whole); [exact sample_enc|lia|done|by right]. Defined.

Lemma serialize_string_witness : exists h', SerializeString 5 1 sample_tree = Ret (0, sample_whole) h'.
Proof. apply (serialize_string 5 2 sample_tree 1 sample_body); [exact sample_enc|lia]. Defined.
