(* ===== verification/KnvExpand.v ===== *)
(** * Expanding a message into a tree (src/knv/knv_node.cc)

    [InnerExpand] on a node whose value is an encoded message: every field becomes a meta (tags up to
    10) or a child, in order, with the tag, type and value of the field, and the hash table holds exactly
    the children. *)

From S2P Require Import Prelude Pb KnvHeap KnvNode KnvHt KnvSize.

(** ** Strings inside a message *)

Lemma pb_decode_varint_loop_keeps fuel : forall bitpos acc f c f',
  pb_decode_varint_loop fuel bitpos acc f = Some (c, f') -> f_type f' = f_type f /\ f_start f' = f_start f.
Proof.
  induction fuel as [|fuel IH]; intros bitpos acc f c f'; cbn [pb_decode_varint_loop]; [done|].
  destruct (64 <=? bitpos); [by intros [= <- <-]|]. unfold pb_get_byte. destruct (f_left f <? 1).
  - msimp. cbn [ok Z.eqb negb]. by intros [= <- <-].
  - destruct (mem_read _ _ _); msimp; [|done]. cbn [ok Z.eqb negb]. destruct (Z.eqb _ 0).
    + by intros [= <- <-].
    + intros H. by apply IH in H.
Qed.

Lemma pb_decode_varint_keeps f c f' : pb_decode_varint f = Some (c, f') -> f_type f' = f_type f /\ f_start f' = f_start f.
Proof. apply pb_decode_varint_loop_keeps. Qed.

(** The string of [f] ends at the cursor. *)
Definition string_at (f : pb_field_t) : Prop :=
  mem_read (f_start f) (f_ptr f - str_len (f_val f)) (str_len (f_val f)) = Some (v_data (f_val f)).

Lemma pb_decode_string_at f f' : pb_decode_string f = Some (0, f') -> string_at f'.
Proof.
  unfold pb_decode_string. destruct (pb_decode_varint f) as [[c f1]|]; msimp; [|done].
  unfold ok. destruct (Z.eqb_spec c 0) as [->|]; cbn [negb]; [|intros [= ? ?]; lia].
  destruct (_ <? _); [done|]. set (sz := u32 _). destruct (mem_read _ _ sz) as [d|] eqn:E; msimp; [|done].
  intros [= <-]. unfold string_at. cbn [f_val f_set_val f_advance f_start f_ptr v_data set_str].
  unfold str_len. cbn [v_word set_str]. rewrite low_word_set by apply u32_range.
  by replace (f_ptr f1 + sz - sz) with (f_ptr f1) by lia.
Qed.

Lemma pb_decode_tag_string f f' :
  pb_decode_tag f = Some (0, f') ->
  (f_type f' = PB_WT_VARINT \/ f_type f' = PB_WT_FIXED64 \/ f_type f' = PB_WT_FIXED32) \/
  f_type f' = PB_WT_STRING /\ string_at f'.
Proof.
  unfold pb_decode_tag. destruct (pb_decode_varint f) as [[c f1]|]; msimp; [|done].
  unfold ok. destruct (Z.eqb_spec c 0) as [->|]; cbn [negb]; [|intros [= ? ?]; lia].
  destruct (Z.eqb _ 0); [done|]. set (g := f_set_tag _ _ _).
  destruct (Z.eqb_spec (f_type g) PB_WT_VARINT) as [E|].
  { intros H. apply pb_decode_varint_keeps in H as [H _]. left. rewrite H. auto. }
  destruct (Z.eqb_spec (f_type g) PB_WT_FIXED64) as [E|].
  { unfold pb_decode_fixed64. destruct (pb_get_ddword g true) as [[[r x] f2]|] eqn:Eg; msimp; [|done].
    intros [= -> <-]. cbn [ok Z.eqb]. left. cbn [f_type f_set_val].
    unfold pb_get_ddword in Eg. destruct (_ <? _); [done|]. destruct (mem_read _ _ _); msimp_in Eg; [|done].
    injection Eg as <- <-. cbn [f_type f_advance]. auto. }
  destruct (Z.eqb_spec (f_type g) PB_WT_STRING) as [E|].
  { intros H. right. split; [|by eapply pb_decode_string_at].
    revert H. unfold pb_decode_string. destruct (pb_decode_varint g) as [[c f2]|] eqn:Eg; msimp; [|done].
    apply pb_decode_varint_keeps in Eg as [Hk _].
    destruct (Z.eqb_spec c 0) as [->|]; cbn [ok Z.eqb negb]; [|unfold ok; destruct (Z.eqb_spec c 0); [done|]; cbn [negb]; intros [= ? ?]; lia].
    destruct (_ <? _); [done|]. destruct (mem_read _ _ _); msimp; [|done]. intros [= <-]. cbn. congruence. }
  destruct (Z.eqb_spec (f_type g) PB_WT_FIXED32) as [E|]; [|done].
  unfold pb_decode_fixed32. destruct (pb_get_dword g true) as [[[r x] f2]|] eqn:Eg; msimp; [|done].
  intros [= -> <-]. cbn [ok Z.eqb]. left. cbn [f_type f_set_val].
  unfold pb_get_dword in Eg. destruct (_ <? _); [done|]. destruct (mem_read _ _ _); msimp_in Eg; [|done].
  injection Eg as <- <-. cbn [f_type f_advance]. auto.
Qed.

Lemma mem_read_sub m o n data off l d :
  mem_read m o n = Some data -> mem_read data off l = Some d -> mem_read m (o + off) l = Some d.
Proof.
  unfold mem_read. case_decide as H1; [|done]. intros [= <-]. case_decide as H2; [|done]. intros [= <-].
  unfold len in *. rewrite length_take, length_drop in H2. rewrite decide_True by lia. f_equal.
  rewrite skipn_firstn_comm, firstn_firstn, drop_drop. f_equal; [lia|f_equal; lia].
Qed.

(** The string of a field, as a pointer into the memory its message lies in. *)
Lemma field_str_at h b o data f :
  str_at h (Some (b, o)) (len data) = Some data -> f_start f = data -> string_at f ->
  str_at h (ptr_add (Some (b, o)) (f_ptr f - str_len (f_val f))) (str_len (f_val f)) = Some (v_data (f_val f)).
Proof.
  intros Hb Hs Hf. unfold string_at in Hf. rewrite Hs in Hf. unfold str_at in *. cbn [ptr_add mbind option_bind] in *.
  destruct (Z.eqb_spec (str_len (f_val f)) 0) as [E|E].
  - rewrite E in Hf. apply mem_read_len in Hf. unfold len in Hf. destruct (v_data (f_val f)); [done|cbn in Hf; lia].
  - destruct (Z.eqb_spec (len data) 0) as [E0|_].
    + destruct data; [|unfold len in E0; cbn in E0; lia]. unfold mem_read in Hf. case_decide as Hd; [|done].
      rewrite (@len_nil Z) in Hd. unfold str_len in *. pose proof (u32_range (v_word (f_val f))). lia.
    + destruct (buf_get h b) as [m|]; [|done]. cbn [mbind option_bind] in *. by eapply mem_read_sub.
Qed.

Lemma field_val_at h b o data f :
  str_at h (Some (b, o)) (len data) = Some data -> f_start f = data ->
  (f_type f = PB_WT_STRING -> string_at f) ->
  val_at h (f_type f) (field_val (Some (b, o)) f) = view (f_type f) (f_val f).
Proof.
  intros Hb Hs Hf. unfold val_at, field_val, view.
  destruct (Z.eqb_spec (f_type f) PB_WT_VARINT); [done|]. destruct (Z.eqb_spec (f_type f) PB_WT_FIXED64); [done|].
  destruct (Z.eqb_spec (f_type f) PB_WT_STRING) as [E|]; [|done].
  specialize (Hf E). unfold kv_len. cbn [kv_ptr kv_word].
  change (u32 (v_word (f_val f))) with (str_len (f_val f)). rewrite (field_str_at _ _ _ data) by done.
  cbn. f_equal. f_equal. unfold string_at in Hf. apply mem_read_len in Hf. unfold len in Hf.
  rewrite take_ge; [done|]. lia.
Qed.

(** ** Making a node *)

(** The buffers inside nodes have 64 bytes. *)
Definition small_ok (h : heap) : Prop := forall n k v, h_buf h !! BSmall n k = Some v -> len v = 64.

(** [h'] differs from [h] in the node [c] and in the buffer of its key. *)
Record only_node (c : nid) (h h' : heap) : Prop := {
  on_node : forall m, m <> c -> nd h' m = nd h m;
  on_buf : forall b, b <> BSmall c true -> h_buf h' !! b = h_buf h !! b;
  on_small : small_ok h -> small_ok h';
  on_rest : h_free h' = h_free h /\ h_next h' = h_next h /\ h_nmem h' = h_nmem h /\ h_fail h' = h_fail h }.

Lemma only_node_refl c h : only_node c h h.
Proof. done. Qed.

Lemma only_node_trans c h1 h2 h3 : only_node c h1 h2 -> only_node c h2 h3 -> only_node c h1 h3.
Proof.
  intros [A1 B1 C1 D1] [A2 B2 C2 D2]. split; [intros; rewrite A2; auto|intros; rewrite B2; auto|auto|].
  destruct D1 as (?&?&?&?), D2 as (?&?&?&?). split_and!; congruence.
Qed.

Lemma only_node_set c x h : only_node c h (set_node c x h).
Proof. split; [|done|done|done]. intros m Hm. by rewrite nd_set, decide_False. Qed.

Lemma only_node_str c h h' b o n :
  only_node c h h' -> b <> BSmall c true -> str_at h' (Some (b, o)) n = str_at h (Some (b, o)) n.
Proof. intros O Hb. unfold str_at, buf_get. cbn. by rewrite (on_buf _ _ _ O) by done. Qed.

Lemma nd_set_same c x h : nd (set_node c x h) c = x.
Proof. by rewrite nd_set, decide_True. Qed.

(** [memcpy] of at most 64 bytes to the start of the buffer of a node's key. *)
Lemma write_key_run c s h :
  small_ok h -> len s <= 64 ->
  exists h', write_str (Some (BSmall c true, 0)) s h = Ret tt h' /\ only_node c h h' /\ nd h' c = nd h c /\
    str_at h' (Some (BSmall c true, 0)) (len s) = Some s.
Proof.
  intros Hok Hl. unfold write_str. destruct (Z.eqb_spec (len s) 0) as [E|E].
  - exists h. split_and!; [done|apply only_node_refl|done|]. unfold str_at. rewrite E. destruct s; [done|].
    unfold len in E. cbn in E. lia.
  - set (m := default (replicate 64 0) (h_buf h !! BSmall c true)).
    assert (Hm : len m = 64).
    { subst m. destruct (h_buf h !! BSmall c true) eqn:Eb; [by apply Hok in Eb|done]. }
    cbn [mbind option_bind]. change (buf_get h (BSmall c true)) with (Some m). cbn [mbind option_bind].
    pose proof (mem_write_app [] (take (length s) m) (drop (length s) m) 0 s) as Hw.
    cbn [app] in Hw. rewrite (take_drop (length s) m) in Hw.
    rewrite Hw; [|done|unfold len in *; rewrite length_take; lia].
    cbn [mbind option_bind]. eexists. split; [done|]. split_and!.
    + split; [done| | |done].
      * intros b Hb. cbn. by rewrite lookup_insert_ne.
      * intros Hs n k v. cbn. destruct (decide (BSmall n k = BSmall c true)) as [Heq|Hne].
        -- rewrite Heq, lookup_insert_eq. intros [= <-]. unfold len in *. rewrite length_app, length_drop. lia.
        -- rewrite lookup_insert_ne by done. apply Hs.
    + done.
    + unfold str_at. rewrite (proj2 (Z.eqb_neq _ _) E). cbn. rewrite lookup_insert_eq. cbn.
      pose proof (mem_read_app [] s (drop (length s) m) 0 (len s)) as Hr. cbn [app] in Hr. by apply Hr.
Qed.

(** The bytes of a key made from a value. *)
Definition key_of_value (p : pb_value) : bytes :=
  match p with
  | VStr s => take (Z.to_nat (u16 (len s))) s
  | VFix32 z => le_split 4 z
  | VInt z | VFix64 z => le_split 8 z
  end.

(** Where the bytes of the key of [c] are: in its own buffer, or in [b]. *)
Definition key_in (h : heap) (c : nid) (b : buf) : Prop :=
  k_len (n_key (nd h c)) <> 0 -> exists o, k_val (n_key (nd h c)) = Some (BSmall c true, o) \/ k_val (n_key (nd h c)) = Some (b, o).

Lemma u16_range z : 0 <= u16 z < 2 ^ 16.
Proof. apply Z.mod_pos_bound; lia. Qed.

Lemma str_at_prefix h p n s m : 0 <= m <= n -> str_at h p n = Some s -> str_at h p m = Some (take (Z.to_nat m) s).
Proof.
  intros Hm. unfold str_at. destruct (Z.eqb_spec m 0) as [->|Hne]; [done|]. destruct (Z.eqb_spec n 0) as [->|]; [lia|].
  destruct p as [[b o]|]; [|done]. cbn. destruct (buf_get h b) as [w|]; [|done]. cbn. unfold mem_read.
  case_decide; [|done]. intros [= <-]. rewrite decide_True by lia. f_equal. rewrite take_take. f_equal. lia.
Qed.

Lemma mem_free_none h : mem_free None h = Ret tt h.
Proof. done. Qed.

Lemma key_init_run h c kt v p b :
  small_ok h -> k_dyn (n_key (nd h c)) = dyn0 -> val_at h kt v = Some p ->
  (kt = KNV_STRING -> exists o, kv_ptr v = Some (b, o)) ->
  exists h' k, key_init c kt (Some v) false h = Ret 0 h' /\ only_node c h h' /\ nd h' c = set_key k (nd h c) /\
    nkey h' c = Some (key_of_value p) /\ key_in h' c b.
Proof.
  intros Hok Hd Hv Hp. unfold key_init.
  assert (Hint : forall s, len s <= 64 -> exists h' k,
    (p ← dyn_alloc (OfKey c) (len s); write_str p s;; key_assign c kt (len s) p;; mret 0) h = Ret 0 h' /\
    only_node c h h' /\ nd h' c = set_key k (nd h c) /\ nkey h' c = Some s /\ key_in h' c b).
  { intros s Hs. unfold dyn_alloc, get_dyn, put_dyn. hsimp. rewrite Hd. cbn [d_mem dyn0 mem_free].
    rewrite (proj2 (Z.leb_le _ _)) by done. hsimp. rewrite mem_free_none. hsimp. cbn [small_buf].
    match goal with |- context [set_node c ?x h] => set (h1 := set_node c x h); set (x1 := x) in h1 end.
    destruct (write_key_run c s h1) as (h2 & E2 & O2 & N2 & S2); [done|done|]. rewrite E2. hsimp.
    unfold key_assign. hsimp. rewrite N2. unfold h1. rewrite nd_set_same. unfold x1. cbn [n_key set_key k_dyn].
    eexists _, _. split; [done|]. split; [|split; [by rewrite nd_set_same|split]].
    - eapply only_node_trans; [|eapply only_node_trans; [exact O2|apply only_node_set]]. apply only_node_set.
    - unfold nkey, key_bytes. rewrite nd_set_same. cbn [n_key set_key k_val k_len].
      rewrite (str_at_buf h2) by done. exact S2.
    - intros _. rewrite nd_set_same. cbn. exists 0. by left. }
  wire_type kt Hv; cbn [Z.eqb PB_WT_STRING PB_WT_VARINT PB_WT_FIXED64 PB_WT_FIXED32 Pos.eqb orb].
  - injection Hv as <-. specialize (Hint (le_split 8 (kv_i64 v))). rewrite len_le_split in Hint. apply Hint. lia.
  - injection Hv as <-. specialize (Hint (le_split 8 (kv_i64 v))). rewrite len_le_split in Hint. apply Hint. lia.
  - destruct (str_at h (kv_ptr v) (kv_len v)) as [s|] eqn:E; [|done]. injection Hv as <-.
    unfold key_assign. hsimp. destruct (Hp eq_refl) as [o Ho].
    eexists _, _. split; [done|]. split_and!; [apply only_node_set|by rewrite nd_set_same| |].
    + unfold nkey, key_bytes. rewrite nd_set_same. cbn [n_key set_key k_val k_len].
      rewrite (str_at_buf h) by done. pose proof (str_at_len _ _ _ _ E) as Hl. cbn [key_of_value].
      rewrite Hl. eapply str_at_prefix; [|exact E]. pose proof (u16_range (kv_len v)).
      pose proof (u32_range (kv_word v)). unfold kv_len in *. unfold u16 in *.
      pose proof (Z.mod_le (u32 (kv_word v)) (2 ^ 16)). lia.
    + intros _. rewrite nd_set_same. cbn. exists o. by right.
  - injection Hv as <-. specialize (Hint (le_split 4 (kv_i32 v))). rewrite len_le_split in Hint. apply Hint. lia.
Qed.

(** *** The first field of a message *)

Lemma pb_begin_total s : len s < 2 ^ 31 ->
  exists r f, pb_begin f_undef s (len s) = Some (r, f) /\
    (r = true -> f_start f = s /\ is_Some (view (f_type f) (f_val f)) /\ (f_type f = PB_WT_STRING -> string_at f)).
Proof.
  intros Hl. unfold pb_begin. set (f0 := mk_field _ _ _ _ _ _ _ _ _).
  assert (wf_field f0) as Hw by (apply (f_init_wf f_undef s (len s)); len_lia).
  destruct (pb_decode_tag_safe f0 Hw) as (c & f & E & (Hm & Hs & _) & _). rewrite E. msimp.
  exists (ok c), f. split; [done|]. intros Hc%Z.eqb_eq. subst c. split; [done|].
  destruct (pb_decode_tag_string _ _ E) as [Ht|[Ht Ha]]; unfold view.
  - split; [|intros E1; destruct Ht as [E2|[E2|E2]]; rewrite E2 in E1; done].
    destruct Ht as [-> | [-> | ->]]; cbn; eauto.
  - rewrite Ht. cbn. eauto.
Qed.

Lemma first_field_run h b o s :
  str_at h (Some (b, o)) (len s) = Some s -> len s < 2 ^ 31 ->
  exists r f, first_field (Some (b, o)) (len s) h = Ret (r, f) h /\ pb_begin f_undef s (len s) = Some (r, f) /\
    (r = true -> exists p, view (f_type f) (f_val f) = Some p /\
       val_at h (f_type f) (field_val (Some (b, o)) f) = Some p).
Proof.
  intros Hs Hl. destruct (pb_begin_total s Hl) as (r & f & E & Hf). exists r, f.
  unfold first_field, read_str. hsimp. rewrite Hs. hsimp. rewrite s32_small by len_lia. rewrite E. split_and!; [done|done|].
  intros ->. destruct (Hf eq_refl) as (Hst & [p Hp] & Ha). exists p. split; [done|].
  by rewrite (field_val_at _ _ _ s).
Qed.

(** The key of a node made from the value [v]: the value of the first field, if its tag is 1. *)
Definition first_key (force : bool) (v : pb_value) : bytes :=
  if force || Z.eqb (len (body_of v)) 0 then []
  else
    match pb_begin f_undef (body_of v) (len (body_of v)) with
    | Some (true, f) =>
        if Z.eqb (f_tag f) 1 then default [] (key_of_value <$> view (f_type f) (f_val f)) else []
    | _ => []
    end.

(** The bytes begin with a field. *)
Definition message_start (s : bytes) : bool :=
  negb (Z.eqb (len s) 0) && match pb_begin f_undef s (len s) with Some (b, _) => b | None => false end.

Lemma message_start_enc p rest : field_ok p -> len (enc_field p ++ rest) < 2 ^ 31 -> message_start (enc_field p ++ rest) = true.
Proof.
  intros Hp Hl. unfold message_start. pose proof (enc_field_len_pos p). rewrite (proj2 (Z.eqb_neq (len (enc_field p ++ rest)) 0)) by len_lia.
  unfold pb_begin. set (f0 := mk_field _ _ _ _ _ _ _ _ _).
  destruct (pb_decode_tag_enc p f0 [] rest []) as (f' & Ed & _); [done| |by rewrite Ed].
  unfold cursor, f0. cbn [f_start f_ptr f_left f_init app]. rewrite app_nil_r. len_pos. rewrite s32_small by lia. done.
Qed.

Lemma nkey_none h c k : nd h c = k -> k_len (n_key k) = 0 -> nkey h c = Some [].
Proof. intros <- E. unfold nkey, key_bytes. by rewrite E. Qed.

Lemma init_key_run h c v force b :
  small_ok h -> k_dyn (n_key (nd h c)) = dyn0 -> b <> BSmall c true -> len (body_of v) < 2 ^ 30 ->
  (len (body_of v) <> 0 -> kv_len (n_val (nd h c)) = len (body_of v) /\
     exists o, kv_ptr (n_val (nd h c)) = Some (b, o) /\ str_at h (Some (b, o)) (len (body_of v)) = Some (body_of v)) ->
  exists z h' k, init_key c (len (body_of v)) force h = Ret z h' /\
    (-1 <= z <= 0 /\ (message_start (body_of v) = true -> z = -1)) /\ only_node c h h' /\
    nd h' c = set_key k (nd h c) /\ nkey h' c = Some (first_key force v) /\ key_in h' c b.
Proof.
  intros Hok Hd Hb Hlen Hv. unfold init_key, first_key, message_start. hsimp. set (ms := negb (Z.eqb (len (body_of v)) 0) && _).
  assert (Hnone : forall z, -1 <= z <= 0 /\ (ms = true -> z = -1) -> exists z' h' k,
    (key_init c KNV_NODE None false;; mret z) h = Ret z' h' /\ (-1 <= z' <= 0 /\ (ms = true -> z' = -1)) /\ only_node c h h' /\
    nd h' c = set_key k (nd h c) /\ nkey h' c = Some [] /\ key_in h' c b).
  { intros z Hz. unfold key_init, key_assign. hsimp. eexists _, _, _. split; [done|]. split; [done|].
    split_and!; [apply only_node_set|by rewrite nd_set_same|by eapply nkey_none; [apply nd_set_same|]|].
    intros Hk. by rewrite nd_set_same in Hk. }
  destruct (Z.eqb_spec (len (body_of v)) 0) as [E|E]; cbn [negb].
  { rewrite orb_true_r. apply Hnone. split; [lia|done]. }
  destruct force; cbn [negb orb]; [apply Hnone; lia|].
  destruct (Hv E) as (Hl & o & Hp & Hs). rewrite Hp, Hl.
  destruct (first_field_run h b o (body_of v)) as (r & f & Ef & Eb & Hr); [done|lia|].
  hsimp. rewrite Ef. hsimp. rewrite Eb. destruct r; cbn [andb]; [|apply Hnone; split; [lia|unfold ms; by rewrite Eb]].
  destruct (Z.eqb (f_tag f) 1); [|apply Hnone; lia].
  destruct (Hr eq_refl) as (p & Hw & Ha). rewrite Hw. cbn [fmap option_fmap option_map default].
  destruct (key_init_run h c (f_type f) (field_val (Some (b, o)) f) p b) as (h' & k & Ek & Ho & Hn & Hk & Hi); try done.
  - intros Ht. unfold field_val. rewrite Ht. cbn. eauto.
  - hsimp. rewrite Ek. hsimp. by exists (-1), h', k.
Qed.

(** *** A node for a field *)

(** [c] is a leaf, or a node that was not expanded yet, with the tag, type and value of the field [p]. *)
Record leaf_of (h : heap) (c : nid) (p : pb_pair) : Prop := {
  lf_tag : n_tag (nd h c) = p.1;
  lf_type : n_type (nd h c) = type_of p.2;
  lf_val : val_at h (type_of p.2) (n_val (nd h c)) = Some p.2;
  lf_num : -1 <= n_child_num (nd h c) <= 0;
  lf_msg : message_start (body_of p.2) = true -> n_child_num (nd h c) = -1;
  lf_lists : n_childlist (nd h c) = [] /\ n_metalist (nd h c) = [];
  lf_eval : n_eval_sz (nd h c) = len (enc_field p) /\ n_eval_val_sz (nd h c) = len (body_of p.2);
  lf_ok : field_ok p }.

Lemma leaf_of_enc k h c p : leaf_of h c p -> tree_enc (S k) h c (body_of p.2) (enc_field p).
Proof.
  intros [Ht Hy Hv Hn _ [_ Hm] [He Hb] Hok]. cbn [tree_enc]. split; [by right|].
  assert (by_value (nd h c) = true) as ->.
  { unfold by_value, leafish. rewrite Hm, bool_decide_eq_true_2, andb_true_r by done.
    destruct (Z.ltb_spec (n_child_num (nd h c)) 0); [by rewrite orb_true_r|].
    replace (n_child_num (nd h c)) with 0 by lia. by rewrite !orb_true_r. }
  exists p.2. rewrite Ht, Hy. destruct p. done.
Qed.

Lemma init_val_run h c v w b :
  val_at h (type_of v) w = Some v -> (type_of v = KNV_STRING -> exists o, kv_ptr w = Some (b, o)) ->
  exists x, init_val c (type_of v) (Some w) false h = Ret (Some (len (body_of v))) (set_node c (set_val x (nd h c)) h) /\
    val_at h (type_of v) x = Some v /\
    (len (body_of v) <> 0 -> kv_len x = len (body_of v) /\
       exists o, kv_ptr x = Some (b, o) /\ str_at h (Some (b, o)) (len (body_of v)) = Some (body_of v)).
Proof.
  intros Hv Hp. unfold init_val. hsimp. destruct v as [z|z|s|z]; cbn [type_of body_of] in *.
  all: try (eexists; split; [by hsimp|]; split_and!; [exact Hv|done]).
  destruct (val_at_len _ _ _ Hv) as [Hl Hs]. destruct (Hp eq_refl) as [o Ho].
  cbn [andb Z.eqb PB_WT_STRING KNV_NODE Pos.eqb]. exists (kv_set_str (kv_len w) (kv_ptr w) (n_val (nd h c))).
  assert (Hk : kv_len (kv_set_str (kv_len w) (kv_ptr w) (n_val (nd h c))) = kv_len w).
  { unfold kv_len, kv_set_str. cbn [kv_word]. rewrite low_word_set by apply u32_range. apply u32_small, u32_range. }
  split_and!; [by rewrite Hl; hsimp| |].
  - unfold val_at in *. cbn [Z.eqb PB_WT_STRING Pos.eqb PB_WT_VARINT PB_WT_FIXED64] in *. rewrite Hk. exact Hv.
  - intros _. rewrite Hk, <- Hl. split; [done|]. exists o. cbn. split; [done|]. rewrite <- Ho, Hl. done.
Qed.

Lemma only_node_val c h h' ty w p b :
  only_node c h h' -> b <> BSmall c true -> (ty = KNV_STRING -> kv_len w <> 0 -> exists o, kv_ptr w = Some (b, o)) ->
  val_at h ty w = Some p -> val_at h' ty w = Some p.
Proof.
  intros O Hb Hp. unfold val_at. destruct (Z.eqb ty KNV_VARINT); [done|]. destruct (Z.eqb ty KNV_FIXED64); [done|].
  destruct (Z.eqb_spec ty KNV_STRING) as [E|]; [|done]. destruct (Z.eqb_spec (kv_len w) 0) as [E0|E0].
  - by rewrite E0.
  - destruct (Hp E E0) as [o ->]. by rewrite (only_node_str c h h').
Qed.

(** The string of [c], if it has one, lies in [b]. *)
Definition val_in (h : heap) (c : nid) (b : buf) : Prop :=
  n_type (nd h c) = KNV_STRING -> kv_len (n_val (nd h c)) <> 0 -> exists o, kv_ptr (n_val (nd h c)) = Some (b, o).

(** The node [InitNode] starts from. *)
Definition tagged (t : Z) (v : pb_value) (x : node) : node := set_parent None (set_type (type_of v) (set_tag t x)).

(** [InitNode] once the value [x] is in place, in the heap [h2]: its string lies in [b]. *)
Lemma InitNode_core h h2 c p w own force b d x fsz :
  init_val c (type_of p.2) (Some w) own (set_node c (tagged p.1 p.2 (nd h c)) h) = Ret (Some (len (body_of p.2))) h2 ->
  nd h2 c = set_val x (set_dyn d (tagged p.1 p.2 (nd h c))) ->
  small_ok h2 -> k_dyn (n_key (nd h c)) = dyn0 -> b <> BSmall c true -> field_ok p ->
  val_at h2 (type_of p.2) x = Some p.2 ->
  (len (body_of p.2) <> 0 -> kv_len x = len (body_of p.2) /\
     exists o, kv_ptr x = Some (b, o) /\ str_at h2 (Some (b, o)) (len (body_of p.2)) = Some (body_of p.2)) ->
  fsz = len (enc_field p) ->
  exists h', InitNode c p.1 (type_of p.2) (Some w) own true fsz force h = Ret 0 h' /\ only_node c h2 h' /\
    leaf_of h' c p /\ nkey h' c = Some (first_key force p.2) /\ key_in h' c b /\ val_in h' c b /\
    n_ht (nd h' c) = n_ht (nd h c) /\ n_dyn (nd h' c) = d /\ n_dirty (nd h' c) = n_dirty (nd h c).
Proof.
  intros Ev N2 Hok Hd Hb Hp Hx Hxs ->. destruct p as [t v]; cbn [fst snd] in *. unfold InitNode. hsimp.
  change (set_parent None _) with (tagged t v (nd h c)). rewrite Ev. hsimp.
  pose proof (enc_field_len_pos (t, v)) as Hpos. rewrite (proj2 (Z.ltb_lt _ _)) by lia.
  match goal with |- context [init_key c _ _ ?hh] => set (h3 := hh) end.
  assert (Hlen : len (body_of v) < 2 ^ 30) by (destruct Hp as [_ Hv]; destruct v; cbn in *; len_lia).
  assert (N3 : nd h3 c = set_eval_sz (len (enc_field (t, v))) (set_eval_val_sz (len (body_of v)) (nd h2 c))).
  { unfold h3. by rewrite !nd_set_same. }
  destruct (init_key_run h3 c v force b) as (z & h4 & k & E4 & [Hz Hzm] & O4 & N4 & K4 & I4); try done.
  { rewrite N3, N2. done. }
  { rewrite N3, N2. exact Hxs. }
  rewrite E4. unfold InitChildList. hsimp. eexists. split; [done|].
  match goal with |- only_node c h2 ?hh /\ _ => set (h5 := hh) end.
  assert (O5 : only_node c h2 h5).
  { do 2 (eapply only_node_trans; [|apply only_node_set]). eapply only_node_trans; [|exact O4]. apply only_node_set. }
  assert (N5 : nd h5 c = set_metalist [] (set_childlist [] (set_child_num z
    (set_no_key (force || negb (Z.eqb (type_of v) KNV_NODE)) (nd h4 c))))).
  { unfold h5. by rewrite !nd_set_same. }
  assert (Hk5 : n_key (nd h5 c) = n_key (nd h4 c)) by by rewrite N5.
  assert (Hxp : type_of v = KNV_STRING -> kv_len x <> 0 -> exists o, kv_ptr x = Some (b, o)).
  { intros Ht Hne. destruct v; try done. cbn [body_of] in *.
    destruct (val_at_len _ _ _ Hx) as [Hl _]. destruct Hxs as (_ & o & ? & _); [lia|eauto]. }
  split; [exact O5|]. split; [|split; [|split; [|split]]].
  - assert (Hx5 : val_at h5 (type_of v) x = Some v).
    { apply (only_node_val c h4 _ _ _ _ b); [|done|..].
      - unfold h5. repeat (eapply only_node_trans; [|apply only_node_set]). apply only_node_refl.
      - exact Hxp.
      - by apply (only_node_val c h3 _ _ _ _ b). }
    split; rewrite ?N5; cbn [n_tag n_type n_val n_child_num n_childlist n_metalist n_eval_sz n_eval_val_sz set_metalist
      set_childlist set_child_num set_no_key fst snd]; rewrite ?N4, ?N3, ?N2; try done.
  - unfold nkey, key_bytes in *. rewrite Hk5. exact K4.
  - intros Hne. rewrite Hk5 in *. by apply I4.
  - intros Hy Hl. rewrite N5 in Hy, Hl |- *. cbn in Hy, Hl |- *. rewrite N4, N3, N2 in Hy, Hl |- *. cbn in Hy, Hl |- *.
    by apply Hxp.
  - rewrite N5. cbn. rewrite N4, N3, N2. done.
Qed.

Lemma InitNode_run h c p w force b fsz :
  small_ok h -> k_dyn (n_key (nd h c)) = dyn0 -> b <> BSmall c true -> field_ok p ->
  val_at h (type_of p.2) w = Some p.2 -> (type_of p.2 = KNV_STRING -> exists o, kv_ptr w = Some (b, o)) ->
  fsz = len (enc_field p) ->
  exists h', InitNode c p.1 (type_of p.2) (Some w) false true fsz force h = Ret 0 h' /\ only_node c h h' /\
    leaf_of h' c p /\ nkey h' c = Some (first_key force p.2) /\ key_in h' c b /\ val_in h' c b /\
    n_ht (nd h' c) = n_ht (nd h c) /\ n_dyn (nd h' c) = n_dyn (nd h c) /\ n_dirty (nd h' c) = n_dirty (nd h c).
Proof.
  intros Hok Hd Hb Hp Hw Hs Hf. set (h1 := set_node c (tagged p.1 p.2 (nd h c)) h).
  destruct (init_val_run h1 c p.2 w b Hw Hs) as (x & Ex & Hx & Hxs).
  destruct (InitNode_core h _ c p w false force b (n_dyn (nd h c)) x fsz Ex) as (h' & E & O & H'); try done.
  - unfold h1. rewrite !nd_set_same. unfold tagged. by destruct (nd h c).
  - exists h'. split; [done|]. split; [|done]. do 2 (eapply only_node_trans; [apply only_node_set|]). exact O.
Qed.

(** ** The node pool *)

(** The node was handed out. *)
Definition used (h : heap) (m : nid) : Prop := m < h_next h /\ m ∉ h_free h.

(** As [ReleaseNode] leaves a node. *)
Definition clean (x : node) : Prop :=
  n_ht x = ht0 /\ n_dyn x = dyn0 /\ k_dyn (n_key x) = dyn0 /\ n_dirty x = false.

(** The nodes that are not in use were released or never made. *)
Record pool_ok (h : heap) : Prop := {
  po_nodup : NoDup (h_free h);
  po_free : forall c, c ∈ h_free h -> c < h_next h /\ clean (nd h c);
  po_new : forall c, h_next h <= c -> nd h c = node0 }.

Lemma used_same h h' m : h_free h' = h_free h -> h_next h' = h_next h -> used h' m <-> used h m.
Proof. intros E1 E2. unfold used. by rewrite E1, E2. Qed.

Lemma pool_ok_frame h h' :
  h_free h' = h_free h -> h_next h' = h_next h -> (forall m, ~ used h m -> nd h' m = nd h m) -> pool_ok h -> pool_ok h'.
Proof.
  intros E1 E2 Hn [A B C]. split; rewrite ?E1, ?E2; [done| |].
  - intros c Hc. rewrite Hn by (unfold used; naive_solver). by apply B.
  - intros c Hc. rewrite Hn by (unfold used; lia). by apply C.
Qed.

Lemma pool_New_run h :
  pool_ok h -> h_fail h = [] ->
  exists c h1, pool_New h = Ret (Some c) h1 /\ pool_ok h1 /\ (forall m, nd h1 m = nd h m) /\
    h_buf h1 = h_buf h /\ h_nmem h1 = h_nmem h /\ h_fail h1 = [] /\ clean (nd h c) /\
    ~ used h c /\ (forall m, used h1 m <-> used h m \/ m = c).
Proof.
  intros [A B C] Hf. unfold pool_New, pool_take. hsimp. destruct (h_free h) as [|c l] eqn:E.
  - unfold alloc_ok. hsimp. rewrite Hf. unfold new_node. hsimp. eexists _, _. split; [done|].
    set (h1 := mk_heap _ _ _ _ _ _).
    assert (Hn : forall m, nd h1 m = nd h m).
    { intros m. unfold nd at 1, h1; cbn. destruct (decide (m = h_next h)) as [->|Hm].
      - rewrite lookup_insert_eq. symmetry. apply C. lia.
      - by rewrite lookup_insert_ne. }
    split_and!; try done.
    + split; unfold h1; cbn; rewrite ?E; [constructor|intros c Hc; by apply elem_of_nil in Hc|].
      intros c Hc. etrans; [exact (Hn c)|]. apply C. lia.
    + rewrite C by lia. done.
    + unfold used. lia.
    + intros m. unfold used, h1. cbn. rewrite E. pose proof (not_elem_of_nil m).
      destruct (decide (m = h_next h)); split; naive_solver lia.
  - eexists _, _. split; [done|]. set (h1 := KnvHeap.set_free l h).
    apply NoDup_cons in A as [Hc A]. destruct (B c) as [Hlt Hcl]; [constructor|].
    split_and!; try done.
    + split; unfold h1; cbn; [done|intros m Hm; apply B; by constructor|done].
    + unfold used. rewrite E. set_solver.
    + intros m. unfold used, h1. cbn. rewrite E. destruct (decide (m = c)); set_solver.
Qed.

(** ** The nodes of an expansion *)

(** [c] was made from the field [p] of a message that lies in [b]. *)
Record item (h : heap) (b : buf) (force : bool) (c : nid) (p : pb_pair) : Prop := {
  it_leaf : leaf_of h c p;
  it_key : nkey h c = Some (first_key force p.2);
  it_key_in : key_in h c b;
  it_val_in : val_in h c b;
  it_clean : n_ht (nd h c) = ht0 /\ n_dyn (nd h c) = dyn0 /\ n_dirty (nd h c) = false }.

(** [c] is as before, apart from its place in the tree and in a chain. *)
Definition same_item (h h' : heap) (b : buf) (c : nid) : Prop :=
  (exists x y, nd h' c = set_parent y (set_ht_next x (nd h c))) /\
  buf_get h' b = buf_get h b /\ buf_get h' (BSmall c true) = buf_get h (BSmall c true).

Lemma same_item_trans h1 h2 h3 b c : same_item h1 h2 b c -> same_item h2 h3 b c -> same_item h1 h3 b c.
Proof.
  intros [(x & y & E) [F G]] [(x' & y' & E') [F' G']]. split; [|split; congruence].
  exists x', y'. by rewrite E', E.
Qed.

Lemma same_item_str h h' b c o n : same_item h h' b c -> str_at h' (Some (b, o)) n = str_at h (Some (b, o)) n.
Proof. intros [_ [E _]]. unfold str_at. cbn. by rewrite E. Qed.

Lemma same_item_key h h' b c : same_item h h' b c -> key_in h c b -> nkey h' c = nkey h c /\ key_in h' c b.
Proof.
  intros [(x & y & E) [F G]] K. unfold key_in, nkey, key_bytes in *. rewrite E. cbn [n_key set_parent set_ht_next].
  split; [|done]. unfold str_at. destruct (Z.eqb_spec (k_len (n_key (nd h c))) 0) as [|Hl]; [done|].
  destruct (K Hl) as [o [-> | ->]]; cbn [mbind option_bind]; [by rewrite G|by rewrite F].
Qed.

Lemma same_item_item h h' b force c p : same_item h h' b c -> item h b force c p -> item h' b force c p.
Proof.
  intros S [L K Ki Vi C]. destruct (same_item_key _ _ _ _ S Ki) as [Ek Ki'].
  pose proof S as [(x & y & E) [F G]]. split; try done.
  - destruct L as [l1 l2 l3 l4 lm l5 l6 l7]. split; rewrite ?E; try done. cbn [n_val set_parent set_ht_next].
    clear l4 lm l5 l6. revert l3. unfold val_at. destruct (Z.eqb (type_of p.2) KNV_VARINT); [done|].
    destruct (Z.eqb (type_of p.2) KNV_FIXED64); [done|].
    destruct (Z.eqb_spec (type_of p.2) KNV_STRING) as [Ht|]; [|done].
    destruct (Z.eqb_spec (kv_len (n_val (nd h c))) 0) as [E0|E0]; [by rewrite E0|].
    destruct (Vi ltac:(congruence) E0) as [o ->]. by rewrite (same_item_str _ _ _ _ _ _ S).
  - by rewrite Ek.
  - unfold val_in in *. by rewrite E.
  - by rewrite E.
Qed.

(** The table of [p] is as before. *)
Lemma ht_rep_agree h h' p S :
  n_ht (nd h' p) = n_ht (nd h p) -> h_nmem h <= h_nmem h' ->
  (forall m, m ∈ S -> nd h' m = nd h m /\ nkey h' m = nkey h m) -> ht_rep h p S -> ht_rep h' p S.
Proof.
  intros Ht Hm Ha [A [B T] C D F]. split; rewrite ?Ht; try done.
  - exists B. apply (tbl_agree h); [|done]. intros n Hn. destruct (Ha n Hn) as [E1 E2]. by rewrite E1.
  - intros i Hi. destruct (F i Hi) as [Hlt Ho]. split; [lia|]. intros n Hn. unfold key_outside.
    destruct (Ha n Hn) as [-> _]. by apply Ho.
Qed.

(** A buffer that is there before the expansion. *)
Definition old_buf (h : heap) (b : buf) : Prop :=
  match b with BMem i => i < h_nmem h | BSmall m _ => used h m | BExt _ => True end.

(** [x] with metas and children. *)
Definition with_children (ms cs : list nid) (t : KnvHt) (mt : gmap Z nid) (hk : bool) (x : node) : node :=
  set_metas mt (set_child_has_key hk (set_ht t (set_childlist cs (set_metalist ms (set_child_num (len cs) x))))).

(** The array [metas], for the metas [ms] of the fields [lm]. *)
Definition metas_of (lm : list pb_pair) (ms : list nid) : gmap Z nid := list_to_map (reverse (zip lm.*1 ms)).

(** The heap [h] while [n] is being expanded from the heap [h0]: so far the fields [lm] became the metas
    [ms], and [lc] the children [cs]. *)
Record expanding (h0 h : heap) (n : nid) (b : buf) (ms cs : list nid) (lm lc : list pb_pair) : Prop := {
  ex_pool : pool_ok h;
  ex_heap : heap_ok h;
  ex_small : small_ok h;
  ex_fail : h_fail h = [];
  ex_used : forall m, used h m <-> used h0 m \/ m ∈ ms ++ cs;
  ex_new : NoDup (ms ++ cs) /\ forall m, m ∈ ms ++ cs -> ~ used h0 m;
  ex_node : exists t mt hk, nd h n = with_children ms cs t mt hk (nd h0 n);
  ex_other : forall m, used h0 m -> m <> n -> nd h m = nd h0 m;
  ex_buf : forall b', old_buf h0 b' -> h_buf h !! b' = h_buf h0 !! b';
  ex_nmem : h_nmem h0 <= h_nmem h;
  ex_ht : ht_rep h n (list_to_set cs);
  ex_htm : forall i, ht_mem (n_ht (nd h n)) = Some i -> h_nmem h0 <= i;
  ex_metas : ms <> [] -> n_metas (nd h n) = metas_of lm ms;
  ex_parent : forall c, c ∈ ms ++ cs -> n_parent (nd h c) = Some n;
  ex_ml : Forall2 (item h b true) ms lm;
  ex_cl : Forall2 (item h b false) cs lc;
  ex_hk : n_child_has_key (nd h n) = false -> forall p, p ∈ lc -> first_key false p.2 = [] }.

(** *** One more node *)

(** [h'] is [h] with a new node [c]; of the others, only [n] changed, to [x]. *)
Record added (h h' : heap) (n c : nid) (x : node) : Prop := {
  ad_pool : pool_ok h';
  ad_heap : heap_ok h';
  ad_small : small_ok h';
  ad_fail : h_fail h' = [];
  ad_new : ~ used h c;
  ad_used : forall m, used h' m <-> used h m \/ m = c;
  ad_self : nd h' n = x;
  ad_node : forall m, m <> n -> m <> c -> nd h' m = nd h m;
  ad_buf : forall b', b' <> BSmall c true -> h_buf h' !! b' = h_buf h !! b';
  ad_nmem : h_nmem h' = h_nmem h }.

Lemma pool_ok_set h m x : used h m -> pool_ok h -> pool_ok (set_node m x h).
Proof. intros Hu. apply pool_ok_frame; try done. intros m' Hm. rewrite nd_set, decide_False; [done|]. by intros ->. Qed.

Lemma added_set_self h h' n c x y : used h n -> added h h' n c x -> added h (set_node n y h') n c y.
Proof.
  intros Hu [A B C D E F G H I J]. split; try done.
  - apply pool_ok_set; [|done]. apply F. by left.
  - apply nd_set_same.
  - intros m Hm Hc. rewrite nd_set, decide_False by done. by apply H.
Qed.

Lemma added_set_new h h' n c x y : c <> n -> added h h' n c x -> added h (set_node c y h') n c x.
Proof.
  intros Hn [A B C D E F G H I J]. split; try done.
  - apply pool_ok_set; [|done]. apply F. by right.
  - rewrite nd_set, decide_False by done. done.
  - intros m Hm Hc. rewrite nd_set, decide_False by done. by apply H.
Qed.

(** What the model of [n]'s value says of the field under the cursor. *)
Definition at_field (h0 : heap) (b : buf) (o : Z) (data : bytes) (f : pb_field_t) (p : pb_pair) : Prop :=
  str_at h0 (Some (b, o)) (len data) = Some data /\ f_start f = data /\ got_field f p /\ field_ok p /\
  (f_type f = PB_WT_STRING -> string_at f).

Lemma new_item_run h0 h n b ms cs lm lc o data f p force :
  expanding h0 h n b ms cs lm lc -> used h0 n -> old_buf h0 b ->
  at_field h0 b o data f p ->
  exists c h1, pool_New h = Ret (Some c) h1 /\ c <> n /\ (forall m, nd h1 m = nd h m) /\
  forall x, exists h2,
    InitNode c (f_tag f) (f_type f) (Some (field_val (Some (b, o)) f)) false true (len (enc_field p)) force (set_node n x h1) = Ret 0 h2 /\
    added h h2 n c x /\ item h2 b force c p.
Proof.
  intros X Hn Hb (Hs & Hst & (Ht & Hy & Hv) & Hok & Hsa).
  destruct (pool_New_run h) as (c & h1 & E1 & P1 & N1 & B1 & M1 & F1 & C1 & U1 & A1); [by eapply ex_pool|by eapply ex_fail|].
  exists c, h1. assert (Hun : used h n) by (apply (ex_used _ _ _ _ _ _ _ _ X); by left).
  assert (Hcn : c <> n) by (by intros ->). split_and!; try done. intros x.
  set (h1' := set_node n x h1).
  assert (Hc : nd h1' c = nd h c) by (unfold h1'; rewrite nd_set, decide_False by done; apply N1).
  rewrite Ht, Hy. rewrite Hy in Hv.
  assert (Hbuf : h_buf h !! b = h_buf h0 !! b).
  { by apply (ex_buf _ _ _ _ _ _ _ _ X). }
  assert (Hs1 : str_at h1' (Some (b, o)) (len data) = Some data).
  { rewrite <- Hs. unfold str_at. destruct (Z.eqb (len data) 0); [done|]. cbn.
    destruct b; cbn; by rewrite B1, Hbuf. }
  assert (Hval : val_at h1' (type_of p.2) (field_val (Some (b, o)) f) = Some p.2).
  { rewrite <- Hy in *. rewrite (field_val_at _ _ _ data) by done. done. }
  destruct C1 as (Cd & Ch & Ck & Cx).
  destruct (InitNode_run h1' c p (field_val (Some (b, o)) f) force b (len (enc_field p)))
    as (h2 & E2 & O2 & L2 & K2 & I2 & V2 & R1 & R2 & R3); try done.
  - intros n' k v. unfold h1'. cbn. rewrite B1. apply (ex_small _ _ _ _ _ _ _ _ X).
  - by rewrite Hc.
  - intros ->. apply U1, (ex_used _ _ _ _ _ _ _ _ X). by left.
  - intros Hty. unfold field_val. rewrite Hy, Hty. cbn. eauto.
  - exists h2. rewrite Hc in *. split; [done|].
    destruct O2 as [O2n O2b O2s (O2f & O2x & O2m & O2l)]. split; [split|split]; try done; try congruence.
    + apply (pool_ok_frame h1'); [done|done| |].
      * intros m Hm. apply O2n. intros ->. apply Hm. unfold h1'. apply (used_same h1); [done|done|]. apply A1. by right.
      * apply pool_ok_set; [|done]. apply A1. by left.
    + intros i Hi. rewrite O2b by done. unfold h1'. cbn. rewrite B1. apply (ex_heap _ _ _ _ _ _ _ _ X).
      rewrite <- M1. unfold h1' in O2m. cbn in O2m. lia.
    + apply O2s. intros n' k v. unfold h1'. cbn. rewrite B1. apply (ex_small _ _ _ _ _ _ _ _ X).
    + rewrite O2l. exact F1.
    + intros m. rewrite <- A1. by apply used_same.
    + rewrite O2n by done. apply nd_set_same.
    + intros m Hm Hmc. rewrite O2n by done. unfold h1'. rewrite nd_set, decide_False by done. apply N1.
    + intros b' Hb'. rewrite O2b by done. unfold h1'. cbn. by rewrite B1.
    + rewrite O2m. exact M1.
    + split_and!; congruence.
Qed.

Lemma items_mono h h' b force l ps :
  (forall m, m ∈ l -> same_item h h' b m) -> Forall2 (item h b force) l ps -> Forall2 (item h' b force) l ps.
Proof.
  intros Hs F. induction F as [|c p l ps I _ IH]; constructor.
  - eapply same_item_item; [apply Hs; constructor|done].
  - apply IH. intros m Hm. apply Hs. by constructor.
Qed.

Lemma buf_get_eq h h' b : h_buf h' !! b = h_buf h !! b -> buf_get h' b = buf_get h b.
Proof. intros E. destruct b; cbn; by rewrite E. Qed.

Lemma added_fresh h0 h h' n c x b ms cs lm lc :
  expanding h0 h n b ms cs lm lc -> added h h' n c x -> old_buf h0 b -> b <> BSmall c true.
Proof.
  intros X A Hb ->. apply (ad_new _ _ _ _ _ A), (ex_used _ _ _ _ _ _ _ _ X). by left.
Qed.

Lemma added_same_item h h' n c x b m :
  added h h' n c x -> b <> BSmall c true -> m <> n -> m <> c -> same_item h h' b m.
Proof.
  intros A Hb Hn Hc. split; [|split].
  - exists (n_ht_next (nd h m)), (n_parent (nd h m)). rewrite (ad_node _ _ _ _ _ A) by done. by destruct (nd h m).
  - apply buf_get_eq, (ad_buf _ _ _ _ _ A), Hb.
  - apply buf_get_eq, (ad_buf _ _ _ _ _ A). congruence.
Qed.

Lemma expanding_outside h0 h n b ms cs lm lc m :
  expanding h0 h n b ms cs lm lc -> used h0 n -> m ∈ ms ++ cs -> m <> n /\ used h m.
Proof.
  intros X Hn Hm. split.
  - intros ->. by apply (proj2 (ex_new _ _ _ _ _ _ _ _ X) n).
  - apply (ex_used _ _ _ _ _ _ _ _ X). by right.
Qed.

(** The table of [n] does not notice the new node. *)
Lemma added_table h0 h h' n c x b ms cs lm lc :
  expanding h0 h n b ms cs lm lc -> added h h' n c x -> used h0 n -> old_buf h0 b ->
  n_ht x = n_ht (nd h n) -> ht_rep h' n (list_to_set cs).
Proof.
  intros X A Hn Hb Ht. apply (ht_rep_agree h).
  - by rewrite (ad_self _ _ _ _ _ A).
  - by rewrite (ad_nmem _ _ _ _ _ A).
  - intros m Hm%elem_of_list_to_set. destruct (expanding_outside _ _ _ _ _ _ _ _ m X Hn ltac:(set_solver)) as [Hmn Hu].
    assert (Hmc : m <> c) by (intros ->; by apply (ad_new _ _ _ _ _ A)).
    split; [by apply (ad_node _ _ _ _ _ A)|].
    pose proof (ex_cl _ _ _ _ _ _ _ _ X) as F. apply list_elem_of_lookup in Hm as [i Hi].
    destruct (Forall2_lookup_l _ _ _ _ _ F Hi) as (p & _ & I).
    by apply (same_item_key h h' b), (it_key_in _ _ _ _ _ I); eapply added_same_item; [done|by eapply added_fresh|..].
  - apply (ex_ht _ _ _ _ _ _ _ _ X).
Qed.

(** What every step of the expansion keeps. *)
Lemma added_base h0 h h' n c x b ms cs lm lc :
  expanding h0 h n b ms cs lm lc -> added h h' n c x -> used h0 n ->
  ~ used h0 c /\ c ∉ ms ++ cs /\ (forall m, used h' m <-> used h0 m \/ m ∈ ms ++ cs \/ m = c) /\
  (forall m, used h0 m -> m <> n -> nd h' m = nd h0 m) /\
  (forall b', old_buf h0 b' -> h_buf h' !! b' = h_buf h0 !! b').
Proof.
  intros X A Hn. assert (Hc : ~ used h c) by apply (ad_new _ _ _ _ _ A).
  assert (Hu : forall m, used h m <-> used h0 m \/ m ∈ ms ++ cs) by apply (ex_used _ _ _ _ _ _ _ _ X).
  assert (Hc0 : ~ used h0 c) by (rewrite Hu in Hc; tauto). split_and!; [done|rewrite Hu in Hc; tauto| | |].
  - intros m. rewrite (ad_used _ _ _ _ _ A), Hu. tauto.
  - intros m Hm Hmn. rewrite (ad_node _ _ _ _ _ A); [by apply (ex_other _ _ _ _ _ _ _ _ X)|done|].
    by intros ->.
  - intros b' Hb'. rewrite (ad_buf _ _ _ _ _ A); [by apply (ex_buf _ _ _ _ _ _ _ _ X)|].
    intros ->. done.
Qed.

Lemma metas_of_snoc lm ms p c : length lm = length ms -> metas_of (lm ++ [p]) (ms ++ [c]) = <[p.1 := c]> (metas_of lm ms).
Proof.
  intros Hl. unfold metas_of. rewrite fmap_app, zip_with_app by (by rewrite length_fmap). cbn.
  by rewrite reverse_snoc.
Qed.

Lemma expanding_meta h0 h h' n c b ms cs lm lc t hk p :
  expanding h0 h n b ms cs lm lc -> used h0 n -> old_buf h0 b ->
  n_ht (nd h n) = t -> hk = n_child_has_key (nd h n) ->
  added h h' n c (with_children (ms ++ [c]) cs t (metas_of (lm ++ [p]) (ms ++ [c])) hk (nd h0 n)) ->
  item h' b true c p -> n_parent (nd h' c) = Some n ->
  expanding h0 h' n b (ms ++ [c]) cs (lm ++ [p]) lc.
Proof.
  intros X Hn Hb Ht Hhk A I Hp. destruct (added_base _ _ _ _ _ _ _ _ _ _ _ X A Hn) as (Hc0 & Hcl & Hu & Ho & Hbuf).
  assert (Hsame : forall m, m ∈ ms ++ cs -> same_item h h' b m).
  { intros m Hm. destruct (expanding_outside _ _ _ _ _ _ _ _ m X Hn Hm). eapply added_same_item; [done|by eapply added_fresh|done|]. by intros ->. }
  split; try apply A.
  - intros m. rewrite Hu. set_solver.
  - destruct (ex_new _ _ _ _ _ _ _ _ X) as [Hd Hf]. split.
    + rewrite <- app_assoc, Permutation_app_comm with (l := [c]), app_assoc. apply NoDup_app. split_and!; [done| |apply NoDup_singleton].
      intros m Hm ->%list_elem_of_singleton. done.
    + intros m Hm. assert (m ∈ ms ++ cs \/ m = c) as [Hx | ->] by set_solver; [by apply Hf|done].
  - eexists _, _, _. apply A.
  - exact Ho.
  - exact Hbuf.
  - rewrite (ad_nmem _ _ _ _ _ A). apply (ex_nmem _ _ _ _ _ _ _ _ X).
  - eapply added_table; try done.
  - rewrite (ad_self _ _ _ _ _ A). cbn. rewrite <- Ht. apply (ex_htm _ _ _ _ _ _ _ _ X).
  - intros _. by rewrite (ad_self _ _ _ _ _ A).
  - intros m Hm. assert (m ∈ ms ++ cs \/ m = c) as [Hx | ->] by set_solver; [|done].
    destruct (expanding_outside _ _ _ _ _ _ _ _ m X Hn Hx). rewrite (ad_node _ _ _ _ _ A) by (done || by intros ->).
    by apply (ex_parent _ _ _ _ _ _ _ _ X).
  - apply Forall2_app; [|by apply Forall2_cons_2]. eapply items_mono; [|apply (ex_ml _ _ _ _ _ _ _ _ X)].
    intros m Hm. apply Hsame. set_solver.
  - eapply items_mono; [|apply (ex_cl _ _ _ _ _ _ _ _ X)]. intros m Hm. apply Hsame. set_solver.
  - rewrite (ad_self _ _ _ _ _ A). cbn. rewrite Hhk. apply (ex_hk _ _ _ _ _ _ _ _ X).
Qed.

Lemma nkey_set_other n x h m : m <> n -> nkey (set_node n x h) m = nkey h m.
Proof. intros Hm. unfold nkey, key_bytes. rewrite nd_set, decide_False by done. done. Qed.

Lemma frame_same_item p T h h' b m :
  ht_frame p T h h' -> m <> p -> (forall i, b = BMem i -> ht_mem (n_ht (nd h p)) <> Some i /\ i < h_nmem h) -> same_item h h' b m.
Proof.
  intros F Hm Hb. split; [|split].
  - destruct (hf_node _ _ _ _ F m Hm) as [x E]. exists x, (n_parent (nd h m)). rewrite E. by destruct (nd h m).
  - by apply buf_get_eq, (hf_buf _ _ _ _ F).
  - by apply buf_get_eq, (hf_buf _ _ _ _ F).
Qed.

Lemma set_node_same_item n x h b m : m <> n -> same_item h (set_node n x h) b m.
Proof.
  intros Hm. split; [|done]. exists (n_ht_next (nd h m)), (n_parent (nd h m)).
  rewrite nd_set, decide_False by done. by destruct (nd h m).
Qed.

Lemma item_key_outside h b force c p i : item h b force c p -> b <> BMem i -> key_outside h c i.
Proof. intros I Hb Hl o Ho. destruct (it_key_in _ _ _ _ _ I Hl) as [o' [E|E]]; congruence. Qed.

(** The new node joins the table. *)
Lemma table_join fuel h0 h h1 n c b ms cs lm lc hk p :
  expanding h0 h n b ms cs lm lc -> used h0 n -> old_buf h0 b ->
  added h h1 n c (set_child_has_key hk (set_childlist (cs ++ [c]) (nd h n))) ->
  item h1 b false c p -> (length cs <= fuel)%nat ->
  exists h2, ht_put fuel n c h1 = Ret 0 h2 /\ heap_ok h2 /\ h_fail h2 = [] /\
    ht_frame n ({[c]} ∪ list_to_set cs) h1 h2 /\ ht_rep h2 n (list_to_set (cs ++ [c])) /\
    (forall i, ht_mem (n_ht (nd h1 n)) = Some i -> h_nmem h0 <= i) /\
    (forall i, b = BMem i -> ht_mem (n_ht (nd h1 n)) <> Some i /\ i < h_nmem h1).
Proof.
  intros X Hn Hb A I Hf. destruct (added_base _ _ _ _ _ _ _ _ _ _ _ X A Hn) as (Hc0 & Hcl & Hu & Ho & Hbuf).
  assert (Hmem : forall i, ht_mem (n_ht (nd h1 n)) = Some i -> h_nmem h0 <= i).
  { rewrite (ad_self _ _ _ _ _ A). apply (ex_htm _ _ _ _ _ _ _ _ X). }
  assert (Hbi : forall i, b = BMem i -> i < h_nmem h0).
  { intros i ->. done. }
  assert (Hbm : forall i, b = BMem i -> ht_mem (n_ht (nd h1 n)) <> Some i /\ i < h_nmem h1).
  { intros i E. specialize (Hbi i E). split; [intros Hi; specialize (Hmem i Hi); lia|].
    rewrite (ad_nmem _ _ _ _ _ A). pose proof (ex_nmem _ _ _ _ _ _ _ _ X). lia. }
  destruct (ht_put_run fuel n c h1 (list_to_set cs)) as (r & h2 & E & Hok2 & F & R).
  - apply A.
  - by eapply added_table.
  - rewrite elem_of_list_to_set. set_solver.
  - intros ->. done.
  - rewrite (it_key _ _ _ _ _ I). eauto.
  - intros i Hi. eapply item_key_outside; [done|]. intros E. by apply (Hbm i E).
  - rewrite size_list_to_set; [done|]. pose proof (proj1 (ex_new _ _ _ _ _ _ _ _ X)) as Hd. by apply NoDup_app in Hd as (_ & _ & ?).
  - exists h2. pose proof (ad_fail _ _ _ _ _ A) as Hfl. destruct R as [[-> R]|(_ & Hw & _)]; [|by unfold will_fail in Hw; rewrite Hfl in Hw].
    split_and!; try done.
    + by apply (hf_rest _ _ _ _ F).
    + by replace (list_to_set (cs ++ [c])) with ({[c]} ∪ list_to_set cs : gset Z) by set_solver.
Qed.

Lemma expanding_child h0 h h1 h2 n c b ms cs lm lc hk p :
  expanding h0 h n b ms cs lm lc -> used h0 n -> old_buf h0 b ->
  added h h1 n c (set_child_has_key hk (set_childlist (cs ++ [c]) (nd h n))) ->
  item h1 b false c p -> n_parent (nd h1 c) = Some n ->
  heap_ok h2 -> h_fail h2 = [] -> ht_frame n ({[c]} ∪ list_to_set cs) h1 h2 -> ht_rep h2 n (list_to_set (cs ++ [c])) ->
  (forall i, ht_mem (n_ht (nd h1 n)) = Some i -> h_nmem h0 <= i) ->
  (forall i, b = BMem i -> ht_mem (n_ht (nd h1 n)) <> Some i /\ i < h_nmem h1) ->
  (hk = false -> first_key false p.2 = [] /\ n_child_has_key (nd h n) = false) ->
  expanding h0 (set_node n (set_child_num (n_child_num (nd h2 n) + 1) (nd h2 n)) h2) n b ms (cs ++ [c]) lm (lc ++ [p]).
Proof.
  intros X Hn Hb A I Hp Hok2 Hfl F R Hmem Hbm Hhk.
  destruct (added_base _ _ _ _ _ _ _ _ _ _ _ X A Hn) as (Hc0 & Hcl & Hu & Ho & Hbuf).
  set (h3 := set_node _ _ h2). destruct (hf_rest _ _ _ _ F) as (F1 & F2 & _).
  assert (Hs1 : forall m, m <> n -> same_item h1 h3 b m).
  { intros m Hm. eapply same_item_trans; [by eapply frame_same_item|]. by apply set_node_same_item. }
  assert (Hin : forall m, m ∈ ms ++ cs -> m <> n /\ m <> c).
  { intros m Hm. destruct (expanding_outside _ _ _ _ _ _ _ _ m X Hn Hm). split; [done|]. by intros ->. }
  assert (Hsame : forall m, m ∈ ms ++ cs -> same_item h h3 b m).
  { intros m Hm. destruct (Hin m Hm). eapply same_item_trans; [by eapply added_same_item; [done|by eapply added_fresh|..]|]. by apply Hs1. }
  assert (Hcn : c <> n) by (by intros ->).
  assert (Hpar : forall m, m <> n -> n_parent (nd h3 m) = n_parent (nd h1 m)).
  { intros m Hm. unfold h3. rewrite nd_set, decide_False by done. destruct (hf_node _ _ _ _ F m Hm) as [x ->]. done. }
  destruct (hf_self _ _ _ _ F) as [t Ht]. rewrite (ad_self _ _ _ _ _ A) in Ht.
  destruct (ex_node _ _ _ _ _ _ _ _ X) as (t' & mt & hk' & Et).
  split; try done.
  - apply (pool_ok_frame h1); [done|done| |apply A]. intros m Hm.
    assert (m <> n /\ m ∉ cs /\ m <> c) as (? & ? & ?).
    { rewrite Hu in Hm. split_and!; [by intros ->; tauto|set_solver|tauto]. }
    unfold h3. rewrite nd_set, decide_False by done. apply (hf_out _ _ _ _ F); [done|]. set_solver.
  - intros m k v. unfold h3. cbn. rewrite (hf_buf _ _ _ _ F) by done. apply (ad_small _ _ _ _ _ A).
  - intros m. rewrite (used_same h1), Hu by done. set_solver.
  - destruct (ex_new _ _ _ _ _ _ _ _ X) as [Hd Hf]. rewrite app_assoc. split.
    + apply NoDup_app. split_and!; [done| |apply NoDup_singleton].
      intros m Hm ->%list_elem_of_singleton. done.
    + intros m Hm. assert (m ∈ ms ++ cs \/ m = c) as [Hx | ->] by set_solver; [by apply Hf|done].
  - exists t, mt, hk. unfold h3. rewrite nd_set_same, Ht, Et. unfold with_children. cbn.
    replace (len (cs ++ [c])) with (len cs + 1) by len_lia. done.
  - intros m Hm Hmn. unfold h3. rewrite nd_set, decide_False by done. rewrite (hf_out _ _ _ _ F); [by apply Ho|done|].
    intros Hx. apply elem_of_union in Hx as [->%elem_of_singleton|Hx%elem_of_list_to_set]; [done|].
    apply (proj2 (ex_new _ _ _ _ _ _ _ _ X) m); [set_solver|done].
  - intros b' Hb'. unfold h3. cbn. rewrite (hf_buf _ _ _ _ F); [by apply Hbuf|]. intros i ->. cbn in Hb'.
    split; [intros Hi; specialize (Hmem i Hi); lia|]. rewrite (ad_nmem _ _ _ _ _ A). pose proof (ex_nmem _ _ _ _ _ _ _ _ X). lia.
  - unfold h3. cbn. pose proof (hf_nmem _ _ _ _ F) as Hm. rewrite (ad_nmem _ _ _ _ _ A) in Hm.
    pose proof (ex_nmem _ _ _ _ _ _ _ _ X). lia.
  - apply (ht_rep_agree h2); [unfold h3; by rewrite nd_set_same|done| |done]. intros m Hm.
    assert (m <> n) by (intros ->; by apply (hr_self _ _ _ R)).
    unfold h3. rewrite nkey_set_other, nd_set, decide_False by done. done.
  - intros i. unfold h3. rewrite nd_set_same. cbn. intros Hi. destruct (hf_mem _ _ _ _ F i Hi) as [Hi'|Hi']; [by apply Hmem|].
    rewrite (ad_nmem _ _ _ _ _ A) in Hi'. pose proof (ex_nmem _ _ _ _ _ _ _ _ X). lia.
  - intros Hms. unfold h3. rewrite nd_set_same, Ht. cbn. by apply (ex_metas _ _ _ _ _ _ _ _ X).
  - intros m Hm. assert (m ∈ ms ++ cs \/ m = c) as [Hx | ->] by set_solver.
    + destruct (Hin m Hx). rewrite Hpar, (ad_node _ _ _ _ _ A) by done. by apply (ex_parent _ _ _ _ _ _ _ _ X).
    + by rewrite Hpar.
  - eapply items_mono; [|apply (ex_ml _ _ _ _ _ _ _ _ X)]. intros m Hm. apply Hsame. set_solver.
  - apply Forall2_app; [eapply items_mono; [|apply (ex_cl _ _ _ _ _ _ _ _ X)]; intros m Hm; apply Hsame; set_solver|].
    apply Forall2_cons_2; [|constructor]. eapply same_item_item; [by apply Hs1|done].
  - unfold h3. rewrite nd_set_same, Ht. cbn. intros Hk q Hq. destruct (Hhk Hk) as [Hp1 Hp2].
    apply elem_of_app in Hq as [Hq| ->%list_elem_of_singleton]; [|done]. by apply (ex_hk _ _ _ _ _ _ _ _ X Hp2).
Qed.

(** *** One field *)

(** The fields that become metas, and those that become children. *)
Definition metas_part (l : list pb_pair) : list pb_pair := filter (fun p => p.1 <= 10) l.
Definition children_part (l : list pb_pair) : list pb_pair := filter (fun p => ~ p.1 <= 10) l.

Lemma set_node_twice n x y h : set_node n y (set_node n x h) = set_node n y h.
Proof. unfold set_node. cbn. by rewrite insert_insert_eq. Qed.

Section expand.
Context (fuel : nat) (h0 : heap) (n : nid) (b : buf) (o : Z) (data : bytes).
Context (Hn : used h0 n) (Hb : old_buf h0 b).

Lemma expand_meta_run h f p ms cs lm lc :
  expanding h0 h n b ms cs lm lc -> at_field h0 b o data f p -> p.1 <= 10 ->
  exists c h', expand_field fuel n (Some (b, o)) f (len (enc_field p)) false h = Ret 0 h' /\
    expanding h0 h' n b (ms ++ [c]) cs (lm ++ [p]) lc.
Proof.
  intros X Hf Hp. destruct (new_item_run h0 h n b ms cs lm lc o data f p true X Hn Hb Hf) as (c & h1 & E1 & Hcn & N1 & H2).
  assert (Ht : f_tag f = p.1) by apply Hf.
  unfold expand_field. hsimp. rewrite E1. hsimp. rewrite (proj2 (Z.leb_le (f_tag f) UC_MAX_META_NUM)) by (unfold UC_MAX_META_NUM; lia).
  hsimp. rewrite nd_set_same, set_node_twice.
  match goal with |- context [set_node n ?y h1] => set (x2 := y); destruct (H2 x2) as (h2 & E2 & A2 & I2) end.
  rewrite E2. hsimp. cbn [ok negb Z.eqb]. hsimp. rewrite nd_set, decide_False by done. rewrite (ad_self _ _ _ _ _ A2).
  eexists c, _. split; [done|]. destruct (ex_node _ _ _ _ _ _ _ _ X) as (t & mt & hk & Et).
  match goal with |- expanding _ ?hh _ _ _ _ _ _ => set (h4 := hh) end.
  pose proof (Forall2_length _ _ _ (ex_ml _ _ _ _ _ _ _ _ X)) as Hlen.
  apply (expanding_meta h0 h h4 n c b ms cs lm lc (n_ht (nd h n)) hk); try done.
  - by rewrite Et.
  - unfold h4. assert (Hx : set_metas (<[f_tag f := c]> (n_metas x2)) x2 =
      with_children (ms ++ [c]) cs (n_ht (nd h n)) (metas_of (lm ++ [p]) (ms ++ [c])) hk (nd h0 n)).
    { unfold x2. rewrite N1, metas_of_snoc, Ht by done. pose proof (ex_metas _ _ _ _ _ _ _ _ X) as Hm. rewrite Et in Hm |- *.
      cbn [with_children n_metalist set_metas set_child_has_key set_ht set_childlist set_metalist n_metas] in *.
      destruct ms as [|m ms'].
      - rewrite bool_decide_eq_true_2 by done. destruct lm; [done|done].
      - rewrite bool_decide_eq_false_2 by done. rewrite <- Hm by done. done. }
    rewrite <- Hx. eapply added_set_self; [|apply added_set_new; [done|exact A2]].
    apply (ex_used _ _ _ _ _ _ _ _ X). by left.
  - eapply same_item_item; [|exact I2]. eapply same_item_trans; [|by apply set_node_same_item].
    split; [|done]. exists (n_ht_next (nd h2 c)), (Some n). rewrite nd_set_same. by destruct (nd h2 c).
  - unfold h4. rewrite nd_set, decide_False, nd_set_same by done. done.
Qed.

Lemma nkey_short h c s : nkey h c = Some s -> k_len (n_key (nd h c)) <= 0 -> s = [].
Proof. intros Hs%nkey_len Hk. destruct s; [done|]. rewrite len_cons in Hs. len_pos. lia. Qed.

Lemma expand_child_run h f p ms cs lm lc :
  expanding h0 h n b ms cs lm lc -> at_field h0 b o data f p -> 10 < p.1 -> (length cs <= fuel)%nat ->
  exists c h', expand_field fuel n (Some (b, o)) f (len (enc_field p)) false h = Ret 0 h' /\
    expanding h0 h' n b ms (cs ++ [c]) lm (lc ++ [p]).
Proof.
  intros X Hf Hp Hlen. destruct (new_item_run h0 h n b ms cs lm lc o data f p false X Hn Hb Hf) as (c & h1 & E1 & Hcn & N1 & H2).
  assert (Ht : f_tag f = p.1) by apply Hf.
  unfold expand_field. hsimp. rewrite E1. hsimp. rewrite (proj2 (Z.leb_gt (f_tag f) UC_MAX_META_NUM)) by (unfold UC_MAX_META_NUM; lia).
  hsimp. rewrite N1. destruct (H2 (set_childlist (n_childlist (nd h n) ++ [c]) (nd h n))) as (h2 & E2 & A2 & I2).
  rewrite E2. hsimp. cbn [ok negb Z.eqb]. hsimp.
  destruct (ex_node _ _ _ _ _ _ _ _ X) as (t & mt & hk & Et).
  assert (Hcs : n_childlist (nd h n) = cs) by by rewrite Et. rewrite Hcs in A2.
  assert (Hun : used h n) by (apply (ex_used _ _ _ _ _ _ _ _ X); by left).
  assert (exists h3 hk', when (Z.ltb 0 (k_len (n_key (nd h2 c)))) (modn n (set_child_has_key true)) h2 = Ret tt h3 /\
    added h h3 n c (set_child_has_key hk' (set_childlist (cs ++ [c]) (nd h n))) /\ item h3 b false c p /\
    (hk' = false -> first_key false p.2 = [] /\ n_child_has_key (nd h n) = false)) as (h3 & hk' & E3 & A3 & I3 & K3).
  { unfold when. destruct (Z.ltb_spec 0 (k_len (n_key (nd h2 c)))) as [Hk|Hk].
    - hsimp. eexists _, true. split; [done|]. rewrite (ad_self _ _ _ _ _ A2). split; [by eapply added_set_self|].
      split; [|done]. eapply same_item_item; [by apply set_node_same_item|done].
    - hsimp. exists h2, hk. split; [done|]. split; [rewrite Et in A2 |- *; exact A2|]. split; [done|].
      intros ->. split; [|by rewrite Et]. apply (nkey_short h2 c); [by apply (it_key _ _ _ _ _ I2)|done]. }
  rewrite E3. hsimp. set (h4 := set_node c _ h3).
  assert (A4 : added h h4 n c (set_child_has_key hk' (set_childlist (cs ++ [c]) (nd h n)))) by by apply added_set_new.
  assert (I4 : item h4 b false c p).
  { eapply same_item_item; [|exact I3]. split; [|done]. exists (n_ht_next (nd h3 c)), (Some n). unfold h4.
    rewrite nd_set_same. by destruct (nd h3 c). }
  destruct (table_join fuel h0 h h4 n c b ms cs lm lc hk' p) as (h5 & E5 & Hok5 & F5 & G5 & R5 & M5 & B5); try done.
  rewrite E5. hsimp. eexists c, _. split; [done|].
  eapply expanding_child; try done. unfold h4. by rewrite nd_set_same.
Qed.

(** *** The whole message *)

Lemma expand_field_run h f p ms cs lm lc :
  expanding h0 h n b ms cs lm lc -> at_field h0 b o data f p -> (length cs <= fuel)%nat ->
  exists h' ms' cs', expand_field fuel n (Some (b, o)) f (len (enc_field p)) false h = Ret 0 h' /\
    (length cs' <= 1)%nat /\
    expanding h0 h' n b (ms ++ ms') (cs ++ cs') (lm ++ metas_part [p]) (lc ++ children_part [p]).
Proof.
  intros X Hf Hl. unfold metas_part, children_part. destruct (decide (p.1 <= 10)) as [Hp|Hp].
  - destruct (expand_meta_run h f p ms cs lm lc X Hf Hp) as (c & h' & E & X').
    exists h', [c], []. rewrite filter_cons_True, filter_cons_False by (done || lia). rewrite !filter_nil, !app_nil_r. auto with lia.
  - destruct (expand_child_run h f p ms cs lm lc X Hf) as (c & h' & E & X'); [lia|done|].
    exists h', [], [c]. rewrite filter_cons_False, filter_cons_True by (done || lia). rewrite !filter_nil, !app_nil_r. auto with lia.
Qed.

Lemma next_field f pre l p :
  field_ok p -> cursor f pre (enc_field p ++ enc_fields l) [] -> f_start f = data ->
  str_at h0 (Some (b, o)) (len data) = Some data ->
  exists f', pb_decode_tag f = Some (0, f') /\ at_field h0 b o data f' p /\ f_eom f' = f_eom f /\
    f_ptr f' - f_ptr f = len (enc_field p) /\ cursor f' (pre ++ enc_field p) (enc_fields l) [] /\ f_start f' = data.
Proof.
  intros Hp Hc Hs Hd. destruct (pb_decode_tag_enc p f pre (enc_fields l) [] Hp Hc) as (f' & E & G & He & C').
  exists f'. assert (Hs' : f_start f' = data).
  { rewrite <- Hs. destruct Hc as (-> & _), C' as (-> & _). by rewrite <- !app_assoc. }
  split_and!; try done.
  - split_and!; try done; try apply G. intros Ht. destruct (pb_decode_tag_string _ _ E) as [H|[_ H]]; [|done].
    rewrite Ht in H. destruct H as [H|[H|H]]; done.
  - destruct Hc as (_ & -> & _), C' as (_ & -> & _). rewrite len_app. lia.
Qed.

Lemma expand_loop_run l : forall turns h f prev pre p ms cs lm lc,
  expanding h0 h n b ms cs lm lc -> at_field h0 b o data f p -> cursor f pre (enc_fields l) [] -> f_start f = data ->
  f_ptr f - prev = len (enc_field p) -> Forall field_ok l -> (length (enc_fields l) <= turns)%nat ->
  (length cs + length l <= fuel)%nat ->
  exists f' h' ms' cs', expand_loop fuel turns n (Some (b, o)) prev f false h = Ret (0, f') h' /\ f_eom f' = 1 /\
    expanding h0 h' n b (ms ++ ms') (cs ++ cs') (lm ++ metas_part (p :: l)) (lc ++ children_part (p :: l)).
Proof.
  induction l as [|q l IH]; intros turns h f prev pre p ms cs lm lc X Hf Hc Hs Hp Hl Ht Hfu.
  all: destruct (expand_field_run h f p ms cs lm lc X Hf) as (h1 & ms1 & cs1 & E1 & Hl1 & X1); [cbn in *; lia|].
  - exists (f_set_eom (f_set_err "end-of-buffer" f)), h1, ms1, cs1. split; [|split; [done|exact X1]].
    destruct turns; cbn [expand_loop]; rewrite Hp; hsimp; rewrite E1; hsimp; cbn [ok negb Z.eqb];
      unfold pb_next; rewrite (pb_decode_tag_end f pre [] Hc); msimp; cbn [ok Z.eqb]; by hsimp.
  - apply Forall_cons in Hl as [Hq Hl]. change (enc_fields (q :: l)) with (enc_field q ++ enc_fields l) in *.
    destruct (next_field f pre l q Hq Hc Hs (proj1 Hf)) as (f2 & E2 & Hf2 & He & Hp2 & Hc2 & Hs2).
    pose proof (enc_field_len_pos q) as Hpos. unfold len in Hpos. rewrite length_app in Ht.
    destruct turns as [|turns]; [lia|].
    destruct (IH turns h1 f2 (f_ptr f) _ q (ms ++ ms1) (cs ++ cs1) _ _ X1 Hf2 Hc2 Hs2 Hp2 Hl) as (f' & h' & ms' & cs' & E & He' & X').
    { lia. }
    { rewrite length_app. cbn in Hfu. lia. }
    exists f', h', (ms1 ++ ms'), (cs1 ++ cs'). split; [|split; [done|]].
    + cbn [expand_loop]. rewrite Hp. hsimp. rewrite E1. hsimp. cbn [ok negb Z.eqb]. unfold pb_next. rewrite E2. msimp.
      cbn [ok Z.eqb]. hsimp. exact E.
    + rewrite !app_assoc. unfold metas_part, children_part in *. rewrite <- !app_assoc in X'.
      change (p :: q :: l) with ([p] ++ q :: l). rewrite !filter_app. rewrite <- !app_assoc. exact X'.
Qed.

End expand.

(** ** The theorem *)

(** [n] is the key of a node that has one: it is not expanded. *)
Definition key_node (h : heap) (n : nid) : bool :=
  Z.eqb (n_tag (nd h n)) 1 &&
  match n_parent (nd h n) with Some p => negb (Z.eqb (k_len (n_key (nd h p))) 0) | None => false end.

(** The heap [h] with an empty list of children for [n]. *)
Definition emptied (dirty : bool) (n : nid) (h : heap) : heap :=
  set_node n (set_dirty dirty (set_child_has_key false (set_metalist [] (set_childlist [] (set_child_num 0 (nd h n)))))) h.

(** [n] was not expanded, and its value is the message [data] at the offset [o] of [b]. *)
Record message_node (h : heap) (n : nid) (b : buf) (o : Z) (data : bytes) : Prop := {
  mn_used : used h n;
  mn_num : n_child_num (nd h n) < 0;
  mn_type : n_type (nd h n) = KNV_NODE;
  mn_key : key_node h n = false;
  mn_ht : n_ht (nd h n) = ht0;
  mn_val : kv_len (n_val (nd h n)) = len data /\ kv_ptr (n_val (nd h n)) = Some (b, o);
  mn_data : str_at h (Some (b, o)) (len data) = Some data;
  mn_buf : old_buf h b }.

(** A sound heap in which allocations succeed. *)
Record sound (h : heap) : Prop := {
  so_pool : pool_ok h; so_heap : heap_ok h; so_small : small_ok h; so_fail : h_fail h = [] }.

Lemma expanding_start dirty h n b :
  sound h -> used h n -> n_ht (nd h n) = ht0 -> expanding (emptied dirty n h) (emptied dirty n h) n b [] [] [] [].
Proof.
  intros [P H S F] Hu Ht. split; try done.
  - by apply pool_ok_set.
  - intros m. rewrite app_nil_r. set_solver.
  - split; [constructor|set_solver].
  - unfold emptied. rewrite nd_set_same. eexists _, _, _. unfold with_children.
    cbn [set_metas set_child_has_key set_ht set_childlist set_metalist set_child_num set_dirty]. reflexivity.
  - apply ht_rep_empty. unfold emptied. rewrite nd_set_same. exact Ht.
  - intros i. unfold emptied. rewrite nd_set_same. cbn. by rewrite Ht.
  - intros c Hc. set_solver.
  - intros _ q Hq. by apply elem_of_nil in Hq.
Qed.

Lemma expanding_dirty d d' h0 h n b ms cs lm lc :
  used h0 n ->
  expanding (emptied d n h0) h n b ms cs lm lc ->
  expanding (emptied d' n h0) (set_node n (set_dirty d' (nd h n)) h) n b ms cs lm lc.
Proof.
  intros Hu X. pose proof (fun m => expanding_outside _ _ _ _ _ _ _ _ m X Hu) as Hout.
  assert (Hsame : forall m, m ∈ ms ++ cs -> same_item h (set_node n (set_dirty d' (nd h n)) h) b m).
  { intros m Hm. apply set_node_same_item. by apply Hout. }
  destruct X. split; try done.
  - apply pool_ok_set; [|done]. apply ex_used0. by left.
  - destruct ex_node0 as (t & mt & hk & E). exists t, mt, hk. unfold emptied in *. rewrite nd_set_same in *.
    rewrite E, nd_set_same. reflexivity.
  - intros m Hm Hmn. rewrite nd_set, decide_False by done. rewrite ex_other0 by done. unfold emptied.
    by rewrite !nd_set, !decide_False.
  - apply (ht_rep_agree h); [by rewrite nd_set_same|done| |done]. intros m Hm%elem_of_list_to_set.
    destruct (Hout m); [set_solver|]. by rewrite nkey_set_other, nd_set, decide_False.
  - intros i. rewrite nd_set_same. apply ex_htm0.
  - intros Hm. rewrite nd_set_same. by apply ex_metas0.
  - intros c Hc. rewrite nd_set, decide_False by (by apply Hout). by apply ex_parent0.
  - eapply items_mono; [|done]. intros m Hm. apply Hsame. set_solver.
  - eapply items_mono; [|done]. intros m Hm. apply Hsame. set_solver.
  - rewrite nd_set_same. exact ex_hk0.
Qed.

Lemma InnerExpand_run fuel h n b o p l :
  sound h -> message_node h n b o (enc_fields (p :: l)) -> Forall field_ok (p :: l) -> len (enc_fields (p :: l)) < 2 ^ 31 ->
  (length l <= fuel)%nat ->
  exists h' ms cs, InnerExpand fuel n false h = Ret 0 h' /\
    expanding (emptied false n h) h' n b ms cs (metas_part (p :: l)) (children_part (p :: l)).
Proof.
  intros So [Hu Hnum Hty Hk Ht [Hl Hp] Hd Hb] Hok Hmax Hf. unfold InnerExpand. hsimp.
  rewrite (proj2 (Z.leb_gt _ _)) by lia. unfold InitChildList. hsimp.
  rewrite nd_set_same, set_node_twice. rewrite Hty, Z.eqb_refl. cbn [negb].
  set (x1 := set_child_has_key false (set_metalist [] (set_childlist [] (set_child_num 0 (nd h n))))).
  assert (E1 : set_node n x1 h = emptied (n_dirty (nd h n)) n h) by reflexivity. rewrite E1.
  set (h1 := emptied (n_dirty (nd h n)) n h) in *.
  pose proof (expanding_start (n_dirty (nd h n)) h n b So Hu Ht) as X0. fold h1 in X0.
  assert (exists k, (match n_parent (nd h n) with Some p => y ← getn p; mret (k_len (n_key y)) | None => mret 0 end) h1 = Ret k h1 /\
    Z.eqb (n_tag (nd h n)) 1 && negb (Z.eqb k 0) = false) as (k & E2 & Hk').
  { unfold key_node in Hk. destruct (n_parent (nd h n)) as [q|]; hsimp; [|exists 0; by rewrite andb_false_r].
    eexists. split; [done|]. unfold h1, emptied. rewrite nd_set. case_decide as Hq; [|done]. rewrite Hq in Hk. exact Hk. }
  hsimp. rewrite E2. hsimp. rewrite Hk'. hsimp. rewrite Hp, Hl.
  set (data := enc_fields (p :: l)) in *.
  assert (Hd1 : str_at h1 (Some (b, o)) (len data) = Some data) by exact Hd.
  apply Forall_cons in Hok as [Hpok Hlok].
  unfold first_field, read_str. hsimp. rewrite Hd1. hsimp. rewrite s32_small by len_lia.
  unfold pb_begin. set (f0 := mk_field _ _ _ _ _ _ _ _ _).
  assert (Hc : cursor f0 [] (enc_field p ++ enc_fields l) []).
  { assert (Hm : len (enc_field p ++ enc_fields l) < 2 ^ 31) by exact Hmax.
    pose proof (len_nonneg (enc_field p ++ enc_fields l)) as Hnn.
    unfold cursor, f0. cbn [f_start f_ptr f_left f_init app]. rewrite app_nil_r. split_and!; try done.
    rewrite s32_small by (change data with (enc_field p ++ enc_fields l); lia). done. }
  destruct (next_field h1 b o data f0 [] l p Hpok Hc eq_refl Hd1) as (f & Ef & Hf' & He & Hp' & Hc' & Hs').
  rewrite Ef. msimp. cbn [ok Z.eqb lift]. hsimp. cbn [negb].
  destruct (expand_loop_run fuel h1 n b o data Hu Hb l (Z.to_nat (f_left f)) h1 f 0 _ p [] [] [] [] X0 Hf' Hc' Hs')
    as (f' & h' & ms & cs & El & Heom & X); [rewrite <- Hp'; unfold f0; cbn [f_ptr f_init]; lia|done|destruct Hc' as (_ & _ & -> & _); unfold len; lia|cbn; lia|].
  cbn [app] in El, X. hsimp. rewrite El. hsimp. cbn [ok negb Z.eqb]. hsimp. rewrite Heom. cbn [Z.eqb when]. unfold when. hsimp.
  eexists _, ms, cs. split; [done|]. by eapply expanding_dirty.
Qed.

Lemma item_in h b force cs ps c : Forall2 (item h b force) cs ps -> c ∈ cs -> exists p, p ∈ ps /\ item h b force c p.
Proof.
  intros F Hc. apply list_elem_of_lookup in Hc as [i Hi]. destruct (Forall2_lookup_l _ _ _ _ _ F Hi) as (p & Hp & I).
  exists p. split; [|done]. by eapply list_elem_of_lookup_2.
Qed.

Lemma item_of h b force cs ps p : Forall2 (item h b force) cs ps -> p ∈ ps -> exists c, c ∈ cs /\ item h b force c p.
Proof.
  intros F Hp. apply list_elem_of_lookup in Hp as [i Hi]. destruct (Forall2_lookup_r _ _ _ _ _ F Hi) as (c & Hc & I).
  exists c. split; [|done]. by eapply list_elem_of_lookup_2.
Qed.

Lemma item_matches h b c q t s :
  item h b false c q -> matches h t s c = bool_decide (q.1 = t /\ first_key false q.2 = s).
Proof.
  intros I. unfold matches. rewrite (it_key _ _ _ _ _ I), (lf_tag _ _ _ (it_leaf _ _ _ _ _ I)).
  apply eq_bool_prop_intro. rewrite andb_True, !bool_decide_spec. rewrite Is_true_true, Z.eqb_eq. naive_solver.
Qed.

(** A pointer to [s] that expanding a node does not move. *)
Definition old_str (h : heap) (k : option (buf * Z)) (klen : Z) (s : bytes) : Prop :=
  str_at h k klen = Some s /\ (klen <> 0 -> exists bk ok, k = Some (bk, ok) /\ old_buf h bk).

Lemma old_str_kept d h h' n b ms cs lm lc k klen s :
  expanding (emptied d n h) h' n b ms cs lm lc -> old_str h k klen s -> str_at h' k klen = Some s.
Proof.
  intros X [Hs Ho]. unfold str_at in *. destruct (Z.eqb_spec klen 0) as [|Hk]; [done|].
  destruct (Ho Hk) as (bk & o & -> & Hb). cbn [mbind option_bind] in *.
  assert (buf_get h' bk = buf_get h bk) as ->; [|done].
  apply buf_get_eq, (ex_buf _ _ _ _ _ _ _ _ X). by destruct bk.
Qed.

Lemma FindChild_run fuel h n b o p l t k klen s :
  sound h -> message_node h n b o (enc_fields (p :: l)) -> Forall field_ok (p :: l) -> len (enc_fields (p :: l)) < 2 ^ 31 ->
  n_tag (nd h n) <> 0 -> old_str h k klen s -> (length l < fuel)%nat ->
  exists r h', FindChild fuel n t k klen h = Ret r h' /\
    match r with
    | Some (c, _) => exists q, q ∈ children_part (p :: l) /\ q.1 = t /\ first_key false q.2 = s /\ leaf_of h' c q
    | None => forall q, q ∈ children_part (p :: l) -> ~ (q.1 = t /\ first_key false q.2 = s)
    end.
Proof.
  intros So Mn Hok Hmax Ht Hk Hf. destruct (InnerExpand_run fuel h n b o p l So Mn Hok Hmax) as (h' & ms & cs & E & X); [lia|].
  unfold FindChild, Expand. hsimp. rewrite (proj2 (Z.eqb_neq _ _)) by done. hsimp. rewrite (proj2 (Z.eqb_neq _ _)) by done.
  rewrite E. hsimp. cbn [ok Z.eqb negb orb]. pose proof (ex_cl _ _ _ _ _ _ _ _ X) as F.
  assert (Hcn : n_child_num (nd h' n) = len cs) by (destruct (ex_node _ _ _ _ _ _ _ _ X) as (? & ? & ? & ->); done).
  rewrite Hcn. destruct (Z.leb_spec (len cs) 0) as [E0|_].
  { exists None, h'. split; [by hsimp|]. intros q Hq. destruct (item_of _ _ _ _ _ q F Hq) as (c & Hc & _).
    destruct cs; [by apply elem_of_nil in Hc|]. rewrite len_cons in E0. pose proof (len_nonneg cs). lia. }
  pose proof (old_str_kept _ _ _ _ _ _ _ _ _ _ _ _ X Hk) as Hs.
  destruct (ht_get_run fuel n t k klen s h' (list_to_set cs)) as (r & Er & Hr); [apply (ex_ht _ _ _ _ _ _ _ _ X)|done| |].
  { rewrite size_list_to_set by (pose proof (proj1 (ex_new _ _ _ _ _ _ _ _ X)) as Hd; by apply NoDup_app in Hd as (_ & _ & ?)).
    rewrite (Forall2_length _ _ _ F). unfold children_part. rewrite length_filter. cbn. lia. }
  exists r, h'. split; [done|]. destruct r as [[c pos]|].
  - destruct Hr as (Hc%elem_of_list_to_set & Hm & _). destruct (item_in _ _ _ _ _ c F Hc) as (q & Hq & I).
    rewrite (item_matches _ _ _ _ _ _ I) in Hm. apply bool_decide_eq_true in Hm as [H1 H2].
    exists q. split_and!; try done. apply I.
  - intros q Hq Hx. destruct (item_of _ _ _ _ _ q F Hq) as (c & Hc & I).
    specialize (Hr c ltac:(by apply elem_of_list_to_set)). rewrite (item_matches _ _ _ _ _ _ I) in Hr.
    by apply bool_decide_eq_false in Hr.
Qed.

(** *** Back to a message *)

Lemma enc_fields_app l1 l2 : enc_fields (l1 ++ l2) = enc_fields l1 ++ enc_fields l2.
Proof. apply bind_app. Qed.

Lemma enc_fields_len_perm l l' : l ≡ₚ l' -> len (enc_fields l) = len (enc_fields l').
Proof.
  intros P. induction P as [|p l l' _ IH|p q l|l1 l2 l3 _ IH1 _ IH2]; [done|..].
  - change (enc_fields (p :: l)) with (enc_field p ++ enc_fields l). change (enc_fields (p :: l')) with (enc_field p ++ enc_fields l').
    rewrite !len_app, IH. done.
  - change (enc_fields (q :: p :: l)) with (enc_field q ++ enc_field p ++ enc_fields l).
    change (enc_fields (p :: q :: l)) with (enc_field p ++ enc_field q ++ enc_fields l). rewrite !len_app. lia.
  - congruence.
Qed.

Lemma items_enc k h b force cs ps :
  Forall2 (item h b force) cs ps -> Forall2 (fun c e => exists b, tree_enc (S k) h c b e) cs (enc_field <$> ps).
Proof.
  intros F. induction F as [|c p cs ps I _ IH]; constructor; [|done].
  exists (body_of p.2). apply leaf_of_enc, I.
Qed.

Lemma enc_fields_concat l : enc_fields l = concat (enc_field <$> l).
Proof. induction l as [|p l IH]; [done|]. change (enc_fields (p :: l)) with (enc_field p ++ enc_fields l). by rewrite IH. Qed.

(** If [n] has a key, it is the first field of the message. *)
Definition key_fits (h : heap) (n : nid) (p : pb_pair) : Prop :=
  has_key (nd h n) = true ->
  p.1 = 1 /\ key_part h (nd h n) (enc_field p) /\ exists bk o, k_val (n_key (nd h n)) = Some (bk, o) /\ old_buf h bk.

Lemma key_part_kept h h' x x' bk o kb :
  n_key x' = n_key x -> n_no_key x' = n_no_key x -> k_val (n_key x) = Some (bk, o) -> buf_get h' bk = buf_get h bk ->
  key_part h x kb -> key_part h' x' kb.
Proof.
  intros Ek En Hk Hb. unfold key_part, has_key. rewrite Ek, En. destruct (_ && _); [|done].
  assert (Hs : forall z, str_at h' (k_val (n_key x)) z = str_at h (k_val (n_key x)) z).
  { intros z. unfold str_at. rewrite Hk. cbn. by rewrite Hb. }
  intros (v & p & E & V & Hok & ->). exists v, p. split_and!; try done.
  - unfold key_kval in *. destruct (Z.eqb _ _); [done|]. case_bool_decide; [done|]. by rewrite Hs.
  - unfold key_kval in E. revert V. unfold val_at. destruct (Z.eqb _ KNV_VARINT); [done|]. destruct (Z.eqb _ KNV_FIXED64); [done|].
    destruct (Z.eqb (k_type (n_key x)) KNV_STRING); [|done]. injection E as <-. cbn [kv_ptr kv_str]. by rewrite Hs.
Qed.

Lemma parts_permutation l : metas_part l ++ children_part l ≡ₚ l.
Proof. apply filter_app_complement. Qed.

(** The expanded node once its value is marked as out of date. *)
Lemma expanded_enc d h h' n b ms cs p l :
  expanding (emptied d n h) h' n b ms cs (metas_part (p :: l)) (children_part (p :: l)) -> used h n ->
  n_type (nd h n) = KNV_NODE -> key_fits h n p ->
  field_ok (n_tag (nd h n), VStr (enc_fields (p :: l))) ->
  n_eval_sz (nd h n) < 0 \/ n_eval_sz (nd h n) = len (enc_field (n_tag (nd h n), VStr (enc_fields (p :: l)))) /\
                            n_eval_val_sz (nd h n) = len (enc_fields (p :: l)) ->
  let body := enc_fields (metas_part (p :: l) ++ children_part (p :: l)) in
  tree_enc 2 (set_node n (set_dirty true (set_val (kv_set_len 0 (n_val (nd h' n))) (nd h' n))) h') n
    body (enc_field (n_tag (nd h n), VStr body)).
Proof.
  intros X Hu Hty Hkey Hok Hsz body. set (x := set_dirty true _). set (h2 := set_node n x h').
  destruct (ex_node _ _ _ _ _ _ _ _ X) as (t & mt & hk & Et). unfold emptied in Et. rewrite nd_set_same in Et.
  assert (Hbl : len body = len (enc_fields (p :: l))) by (apply enc_fields_len_perm, parts_permutation).
  assert (Hout : forall m, m ∈ ms ++ cs -> same_item h' h2 b m).
  { intros m Hm. apply set_node_same_item. by destruct (expanding_outside _ _ _ _ _ _ _ _ m X Hu Hm). }
  assert (Fm : Forall2 (item h2 b true) ms (metas_part (p :: l))).
  { eapply items_mono; [|apply (ex_ml _ _ _ _ _ _ _ _ X)]. intros m Hm. apply Hout. set_solver. }
  assert (Fc : Forall2 (item h2 b false) cs (children_part (p :: l))).
  { eapply items_mono; [|apply (ex_cl _ _ _ _ _ _ _ _ X)]. intros m Hm. apply Hout. set_solver. }
  assert (N2 : nd h2 n = x) by apply nd_set_same.
  cbn [tree_enc]. rewrite N2. unfold x. rewrite Et. cbn -[by_value has_key wmetas enc_field len].
  assert (Hnil : ms ++ cs <> []).
  { intros E. apply (f_equal length) in E. rewrite length_app, (Forall2_length _ _ _ Fm), (Forall2_length _ _ _ Fc) in E.
    rewrite <- length_app, (Permutation_length (parts_permutation (p :: l))) in E. done. }
  split.
  - destruct Hsz as [?|[E1 E2]]; [by left|right].
    change (n_eval_sz (nd h n) = len (enc_field (n_tag (nd h n), VStr body)) /\ n_eval_val_sz (nd h n) = len body).
    rewrite E1, E2, Hbl. split; [|done]. unfold enc_field. cbn [fst snd type_of enc_value]. rewrite !len_app, Hbl. done.
  - match goal with |- if by_value ?y then _ else _ => set (y0 := y); assert (by_value y0 = false) as -> end.
    { unfold by_value, leafish, IsBufferValid. cbn -[len]. rewrite Hty. cbn [Z.eqb negb orb KNV_NODE PB_WT_STRING Pos.eqb].
      unfold kv_len. cbn. replace (u32 _) with 0 by (symmetry; pose proof (low_word_set (kv_word (n_val (nd h n))) 0); rewrite Z.add_0_r in *; auto with lia).
      cbn. rewrite orb_false_r. pose proof (len_nonneg cs). rewrite (proj2 (Z.ltb_ge _ _)) by lia.
      destruct cs; [|by rewrite len_cons, (proj2 (Z.eqb_neq _ _)) by (pose proof (len_nonneg cs); lia)].
      cbn. apply bool_decide_eq_false_2. intros ->. done. }
    assert (Hfin : exists kb es1, key_part h2 y0 kb /\
      Forall2 (fun c e => exists b, tree_enc 1 h2 c b e) (wmetas h2 y0) es1 /\ kb ++ concat es1 = enc_fields (metas_part (p :: l))).
    { destruct (has_key (nd h n)) eqn:Ehk.
      - destruct (Hkey Ehk) as (Hp1 & Kp & bk & ko & Hkv & Hold).
        assert (Hmp : metas_part (p :: l) = p :: metas_part l).
        { unfold metas_part. rewrite filter_cons_True; [done|lia]. }
        rewrite Hmp in *. apply Forall2_cons_inv_r in Fm as (m & ms' & Im & Fm & ->).
        exists (enc_field p), (enc_field <$> metas_part l). split_and!.
        + eapply key_part_kept; [..|exact Kp]; [done|done|done|]. apply buf_get_eq, (ex_buf _ _ _ _ _ _ _ _ X). by destruct bk.
        + unfold wmetas. assert (has_key y0 = true) as -> by exact Ehk. change (n_metalist y0) with (m :: ms'). cbn [andb].
          rewrite (lf_tag _ _ _ (it_leaf _ _ _ _ _ Im)), Hp1. by eapply (items_enc 0).
        + change (enc_fields (p :: ?l)) with (enc_field p ++ enc_fields l). by rewrite enc_fields_concat.
      - exists [], (enc_field <$> metas_part (p :: l)). split_and!.
        + unfold key_part. assert (has_key y0 = false) as -> by exact Ehk. done.
        + unfold wmetas. assert (has_key y0 = false) as -> by exact Ehk. change (n_metalist y0) with ms. cbn [andb].
          destruct ms; by eapply (items_enc 0).
        + by rewrite enc_fields_concat. }
    destruct Hfin as (kb & es1 & Kp & F1 & E1). exists kb, es1, (enc_field <$> children_part (p :: l)).
    split_and!; try done.
    + by eapply (items_enc 0).
    + rewrite app_assoc, E1. unfold body. by rewrite !enc_fields_concat, fmap_app, concat_app.
    + destruct Hok as [Ht Hv]. split; [done|]. change (len body < 2 ^ 30). rewrite Hbl. exact Hv.
Qed.

Lemma rebuild_run fuel h n b o p l :
  sound h -> message_node h n b o (enc_fields (p :: l)) -> Forall field_ok (p :: l) -> len (enc_fields (p :: l)) < 2 ^ 31 ->
  field_ok (n_tag (nd h n), VStr (enc_fields (p :: l))) -> key_fits h n p ->
  n_eval_sz (nd h n) < 0 \/ n_eval_sz (nd h n) = len (enc_field (n_tag (nd h n), VStr (enc_fields (p :: l)))) /\
                            n_eval_val_sz (nd h n) = len (enc_fields (p :: l)) ->
  (length l <= fuel)%nat -> (2 <= fuel)%nat ->
  exists h', (InnerExpand fuel n false;; SET_VALUE_DIRTY n;; SerializeString fuel n) h =
    Ret (0, enc_field (n_tag (nd h n), VStr (enc_fields (metas_part (p :: l) ++ children_part (p :: l))))) h'.
Proof.
  intros So Mn Hok Hmax Hnok Hkey Hsz Hf Hf2. destruct (InnerExpand_run fuel h n b o p l So Mn Hok Hmax Hf) as (h1 & ms & cs & E & X).
  hsimp. rewrite E. unfold SET_VALUE_DIRTY. hsimp. destruct Mn as [Hu _ Hty _ _ _ _ _].
  pose proof (expanded_enc _ _ _ _ _ _ _ _ _ X Hu Hty Hkey Hnok Hsz) as T. cbv zeta in T.
  destruct (serialize_string_run fuel 2 _ n _ _ T Hf2) as (h' & E' & _). by exists h'.
Qed.

(** A node of tag 5 that was not expanded.  Its message has the key "k", the field 11, the meta 2 and the
    field 12, itself a message with the key "ab". *)
Definition sample_fields : list pb_pair :=
  [(11, VInt 7); (2, VInt 5); (12, VStr (enc_fields [(1, VStr (txt "ab")); (13, VInt 1)]))].
Definition sample_first : pb_pair := (1, VStr (txt "k")).
Definition sample_data : bytes := Eval vm_compute in enc_fields (sample_first :: sample_fields).

Definition sample_node : node :=
  set_key (mk_key KNV_STRING 1 (Some (BExt 0, 3)) dyn0)
    (set_val (kv_str (len sample_data) (Some (BExt 0, 1))) (set_tag 5 node0)).
Definition sample : heap :=
  mk_heap (<[1 := sample_node]> ∅) [] 2 (<[BExt 0 := 0 :: sample_data]> (<[BExt 1 := txt "ab"]> ∅)) 0 [].

Lemma sample_sound : sound sample.
Proof.
  split; [split| | |done].
  - constructor.
  - intros c Hc. by apply elem_of_nil in Hc.
  - intros c Hc. unfold nd, sample. cbn. rewrite lookup_insert_ne by (cbn in Hc; lia). done.
  - intros i _. done.
  - intros m k v. unfold sample. cbn. rewrite !lookup_insert_ne by done. by rewrite lookup_empty.
Qed.

Lemma sample_data_eq : sample_data = enc_fields (sample_first :: sample_fields).
Proof. vm_compute. done. Qed.

Lemma sample_message : message_node sample 1 (BExt 0) 1 (enc_fields (sample_first :: sample_fields)).
Proof.
  rewrite <- sample_data_eq. split; try done; try (vm_compute; done).
  split; [vm_compute; done|apply not_elem_of_nil].
Qed.

Lemma sample_fields_ok : Forall field_ok (sample_first :: sample_fields).
Proof.
  repeat (apply Forall_cons; split); try apply Forall_nil; try done; split; cbn [fst snd value_ok sample_first]; try lia; vm_compute; done.
Qed.

(** ** The theorems *)



(** [FindChild] on such a node ends; it gives a child that was made from a field with the tag and
    the key asked for, and NULL only if the message has no such field. *)
Theorem expand_find (fuel : nat) (h : heap) (n : nid) (b : buf) (o : Z) (p : pb_pair) (l : list pb_pair)
    (t klen : Z) (k : option (buf * Z)) (s : bytes) :
  sound h -> message_node h n b o (enc_fields (p :: l)) -> Forall field_ok (p :: l) -> len (enc_fields (p :: l)) < 2 ^ 31 ->
  n_tag (nd h n) <> 0 -> old_str h k klen s -> (length l < fuel)%nat ->
  exists r h', FindChild fuel n t k klen h = Ret r h' /\
    match r with
    | Some (c, _) => exists q, q ∈ children_part (p :: l) /\ q.1 = t /\ first_key false q.2 = s /\ leaf_of h' c q
    | None => forall q, q ∈ children_part (p :: l) -> ~ (q.1 = t /\ first_key false q.2 = s)
    end.
Proof. apply FindChild_run. Qed.

Lemma expand_find_witness :
  exists r h', FindChild 9 1 12 (Some (BExt 1, 0)) 2 sample = Ret r h' /\
    match r with
    | Some (c, _) => exists q, q ∈ children_part (sample_first :: sample_fields) /\ q.1 = 12 /\
                       first_key false q.2 = txt "ab" /\ leaf_of h' c q
    | None => forall q, q ∈ children_part (sample_first :: sample_fields) -> ~ (q.1 = 12 /\ first_key false q.2 = txt "ab")
    end.
Proof.
  apply (expand_find 9 sample 1 (BExt 0) 1 sample_first sample_fields 12 2 (Some (BExt 1, 0)) (txt "ab"));
    [exact sample_sound|exact sample_message|exact sample_fields_ok|vm_compute; done|vm_compute; done| |cbn; lia].
  split; [vm_compute; done|]. intros _. by exists (BExt 1), 0.
Defined.

(** C17: Reading a message into a tree and writing the tree from its nodes gives back every field: the
    metas first and then the children, each group in its order.  If the node has a key, the key is the first
    field, and it is written once. *)
Theorem rebuild_message (fuel : nat) (h : heap) (n : nid) (b : buf) (o : Z) (p : pb_pair) (l : list pb_pair) :
  sound h -> message_node h n b o (enc_fields (p :: l)) -> Forall field_ok (p :: l) -> len (enc_fields (p :: l)) < 2 ^ 31 ->
  field_ok (n_tag (nd h n), VStr (enc_fields (p :: l))) -> key_fits h n p ->
  n_eval_sz (nd h n) < 0 \/ n_eval_sz (nd h n) = len (enc_field (n_tag (nd h n), VStr (enc_fields (p :: l)))) /\
                            n_eval_val_sz (nd h n) = len (enc_fields (p :: l)) ->
  (length l <= fuel)%nat -> (2 <= fuel)%nat ->
  exists h', (InnerExpand fuel n false;; SET_VALUE_DIRTY n;; SerializeString fuel n) h =
    Ret (0, enc_field (n_tag (nd h n), VStr (enc_fields (metas_part (p :: l) ++ children_part (p :: l))))) h'.
Proof. apply rebuild_run. Qed.

Lemma rebuild_message_witness :
  exists h', (InnerExpand 9 1 false;; SET_VALUE_DIRTY 1;; SerializeString 9 1) sample =
    Ret (0, enc_field (n_tag (nd sample 1), VStr (enc_fields (metas_part (sample_first :: sample_fields) ++ children_part (sample_first :: sample_fields))))) h'.
Proof.
  apply (rebuild_message 9 sample 1 (BExt 0) 1 sample_first sample_fields);
    [exact sample_sound|exact sample_message|exact sample_fields_ok|vm_compute; done| | |left; vm_compute; done|cbn; lia|lia].
  - split; [vm_compute; intuition congruence|vm_compute; done].
  - intros _. split; [done|]. split; [|by exists (BExt 0), 3].
    unfold key_part. change (has_key (nd sample 1)) with true. cbv iota.
    exists (kv_str 1 (Some (BExt 0, 3))), (VStr (txt "k")). split_and!; [vm_compute; done|vm_compute; done| |done].
    split; [cbn; lia|vm_compute; done].
Defined.
