(* ===== verification/KnvOwn.v ===== *)
(** * Trees made from a buffer (src/knv/knv_node.cc, [KnvNode::New] with [own_buf])

    A tree made from a message with [own_buf] copies the string of its root into dynamic data of its own:
    the 64 bytes inside the node when they are enough, a block of the memory pool otherwise.  The cache
    reads trees this way (Storage.v), so they stay valid when the buffer is used again. *)

From S2P Require Import Prelude Pb MemPool KnvHeap KnvHt KnvNode KnvSize KnvExpand.

(** ** Dynamic data *)

(** [h'] differs from [h] in the node [c], the buffers inside it, and new blocks. *)
Record made (c : nid) (h h' : heap) : Prop := {
  md_node : forall m, m <> c -> nd h' m = nd h m;
  md_buf : forall b, (forall k, b <> BSmall c k) -> (forall i, b = BMem i -> i < h_nmem h) -> h_buf h' !! b = h_buf h !! b;
  md_small : small_ok h -> small_ok h';
  md_heap : heap_ok h -> heap_ok h';
  md_rest : h_free h' = h_free h /\ h_next h' = h_next h /\ h_nmem h <= h_nmem h' /\ h_fail h' = h_fail h }.

Lemma made_refl c h : made c h h.
Proof. split; try done. Qed.

Lemma made_trans c h1 h2 h3 : made c h1 h2 -> made c h2 h3 -> made c h1 h3.
Proof.
  intros [A1 B1 C1 D1 (E1 & F1 & G1 & H1)] [A2 B2 C2 D2 (E2 & F2 & G2 & H2)].
  split; [intros; rewrite A2; auto| |auto|auto|split_and!; congruence || lia].
  intros b Hb Hi. rewrite B2; [by apply B1|done|]. intros i ->. specialize (Hi i eq_refl). lia.
Qed.

Lemma only_node_made c h h' : only_node c h h' -> made c h h'.
Proof.
  intros [A B C (D1 & D2 & D3 & D4)]. split; try done.
  - intros b Hb _. apply B, Hb.
  - intros H i Hi. rewrite B by done. apply H. by rewrite <- D3.
  - split_and!; try done. lia.
Qed.

Lemma made_set c x h : made c h (set_node c x h).
Proof. apply only_node_made, only_node_set. Qed.

Lemma made_str c h h' p n :
  made c h h' -> (n <> 0 -> exists b o, p = Some (b, o) /\ (forall k, b <> BSmall c k) /\ (forall i, b = BMem i -> i < h_nmem h)) ->
  str_at h' p n = str_at h p n.
Proof.
  intros Md Hp. unfold str_at. destruct (Z.eqb_spec n 0) as [|Hn]; [done|]. destruct (Hp Hn) as (b & o & -> & Hb & Hi).
  cbn. rewrite (buf_get_eq h h'); [done|]. by apply (md_buf _ _ _ Md).
Qed.

Lemma block_size_ge sz : sz <= block_size sz.
Proof.
  unfold block_size. destruct (get_magic_smallest sz) as [H1 H2]. destruct (Z.le_gt_cases sz biggest_magic) as [H|H].
  - destruct (H1 H) as (k & -> & Hk & Hle & _). by rewrite (proj2 (Z.ltb_ge _ _)) by lia.
  - by rewrite H2.
Qed.

(** [memcpy] to the start of a buffer that is large enough. *)
Lemma write_str_run b m s h :
  buf_get h b = Some m -> 0 < len s <= len m ->
  exists r, write_str (Some (b, 0)) s h = Ret tt (set_buf (<[b := s ++ r]> (h_buf h)) h) /\ len s + len r = len m.
Proof.
  intros Hm Hl. exists (drop (length s) m). unfold write_str. rewrite (proj2 (Z.eqb_neq _ _)) by lia.
  cbn [mbind option_bind]. rewrite Hm. cbn [mbind option_bind].
  pose proof (mem_write_app [] (take (length s) m) (drop (length s) m) 0 s) as Hw. cbn [app] in Hw.
  rewrite (take_drop (length s) m) in Hw. rewrite Hw; [|done|unfold len in *; rewrite length_take; lia].
  split; [done|]. unfold len in *. rewrite length_drop. lia.
Qed.

Lemma str_at_front h b s r : h_buf h !! b = Some (s ++ r) -> str_at h (Some (b, 0)) (len s) = Some s.
Proof.
  intros Hb. unfold str_at. destruct (Z.eqb_spec (len s) 0) as [E|E].
  { destruct s; [done|]. unfold len in E. cbn in E. lia. }
  cbn. assert (buf_get h b = Some (s ++ r)) as -> by (destruct b; cbn; by rewrite Hb). cbn.
  pose proof (mem_read_app [] s r 0 (len s)) as Hr. by apply Hr.
Qed.

(** The block handed out for [l] bytes by a node that has none: it is in the node, or new. *)
Definition fresh_data (c : nid) (h : heap) (l : Z) (b : buf) : Prop :=
  if Z.leb l 64 then b = BSmall c false else b = BMem (h_nmem h).

Lemma dyn_alloc_run c l h :
  n_dyn (nd h c) = dyn0 -> small_ok h -> heap_ok h -> h_fail h = [] -> 0 < l ->
  exists h' d b m, dyn_alloc (OfVal c) l h = Ret (Some (b, 0)) h' /\ made c h h' /\
    nd h' c = set_dyn d (nd h c) /\ fresh_data c h l b /\ buf_get h' b = Some m /\ l <= len m /\
    (match b with BSmall _ _ => len m = 64 | _ => True end) /\ h_fail h' = [] /\
    (forall i, b = BMem i -> i < h_nmem h').
Proof.
  intros Hd Hs Hh Hf Hl. unfold dyn_alloc, get_dyn, put_dyn, fresh_data. hsimp. rewrite Hd. cbn [d_mem d_data d_sz dyn0].
  destruct (Z.leb_spec l 64).
  - hsimp. rewrite mem_free_none. hsimp. do 4 eexists. split; [done|]. split; [apply made_set|]. split; [by rewrite nd_set_same|].
    split; [done|]. split; [done|]. cbn [small_buf set_node h_buf].
    assert (len (default (replicate 64 0) (h_buf h !! BSmall c false)) = 64).
    { destruct (h_buf h !! BSmall c false) eqn:E; [by apply Hs in E|done]. }
    split_and!; [lia|done|done|done].
  - rewrite bool_decide_eq_true_2 by done. cbn [orb]. hsimp. rewrite mem_alloc_run. unfold will_fail. rewrite Hf.
    hsimp. rewrite mem_free_none. hsimp. unfold mem_size. hsimp.
    do 4 eexists. split; [done|].
    assert (Hlen : len (replicate (Z.to_nat (block_size l)) 0) = block_size l).
    { unfold len. rewrite length_replicate. pose proof (block_size_ge l). lia. }
    split; [|split; [by rewrite nd_set_same|split; [done|split; [by cbn; rewrite lookup_insert_eq|]]]].
    + eapply made_trans; [|apply made_set]. split; cbn; try done.
      * intros b' _ Hi. rewrite lookup_insert_ne; [done|]. intros <-. specialize (Hi _ eq_refl). lia.
      * intros Hs' n k v. cbn. rewrite lookup_insert_ne by done. apply Hs'.
      * intros Hh' i Hi. cbn in Hi |- *. rewrite lookup_insert_ne by (intros [= ?]; lia). apply Hh'. lia.
      * split_and!; try done; [lia|by rewrite Hf].
    + pose proof (block_size_ge l). split_and!; [lia|done|cbn; by rewrite Hf|intros i [= <-]; cbn; lia].
Qed.

(** ** The root of a tree *)

(** [b] is not inside another node than [c]. *)
Definition no_other (c : nid) (b : buf) : Prop := match b with BSmall m _ => m = c | _ => True end.

(** The string of a value lies in a buffer that making [c] does not touch. *)
Definition source_ok (h : heap) (c : nid) (w : kval) : Prop :=
  kv_len w <> 0 -> exists b o, kv_ptr w = Some (b, o) /\ (forall k, b <> BSmall c k) /\ (forall i, b = BMem i -> i < h_nmem h).

Lemma init_val_own_run h c v w :
  n_dyn (nd h c) = dyn0 -> small_ok h -> heap_ok h -> h_fail h = [] ->
  val_at h (type_of v) w = Some v -> (type_of v = KNV_STRING -> source_ok h c w) ->
  exists h2 x d b, init_val c (type_of v) (Some w) true h = Ret (Some (len (body_of v))) h2 /\ made c h h2 /\
    nd h2 c = set_val x (set_dyn d (nd h c)) /\ b <> BSmall c true /\ no_other c b /\ val_at h2 (type_of v) x = Some v /\
    (len (body_of v) <> 0 -> kv_len x = len (body_of v) /\
       exists o, kv_ptr x = Some (b, o) /\ str_at h2 (Some (b, o)) (len (body_of v)) = Some (body_of v)).
Proof.
  intros Hd Hs Hh Hf Hv Hp. unfold init_val.
  assert (Hsame : forall x, set_val x (nd h c) = set_val x (set_dyn (n_dyn (nd h c)) (nd h c))) by (intros x; by destruct (nd h c)).
  destruct v as [z|z|s|z]; cbn [type_of body_of] in *.
  1, 2, 4: hsimp; eexists _, _, (n_dyn (nd h c)), (BExt 0); (split; [done|]); (split; [apply made_set|]);
    (split; [by rewrite nd_set_same, <- Hsame|]); (split; [done|]); (split; [done|]); (split; [exact Hv|done]).
  destruct (val_at_len _ _ _ Hv) as [Hl Hstr]. cbn [andb Z.eqb PB_WT_STRING KNV_NODE Pos.eqb].
  assert (Hkl : forall l p y, 0 <= l < 2 ^ 32 -> kv_len (kv_set_str l p y) = l).
  { intros l p y Hy. unfold kv_len, kv_set_str. cbn [kv_word]. rewrite low_word_set by apply u32_range. by rewrite !u32_small. }
  pose proof (u32_range (kv_word w)) as Hr. change (u32 (kv_word w)) with (kv_len w) in Hr. rewrite Hl.
  destruct (Z.eqb_spec (kv_len w) 0) as [E|E]; cbn [negb]; hsimp.
  { eexists _, _, (n_dyn (nd h c)), (BExt 0). split; [by rewrite E|]. split; [apply made_set|].
    split; [by rewrite nd_set_same, <- Hsame|]. split; [done|]. split; [done|]. rewrite E in *. split; [|done].
    unfold val_at. cbn [Z.eqb PB_WT_STRING Pos.eqb PB_WT_VARINT PB_WT_FIXED64]. rewrite Hkl by lia.
    destruct s; [done|]. unfold len in Hl. cbn in Hl. lia. }
  destruct (dyn_alloc_run c (kv_len w) h) as (h1 & d & b & m & E1 & M1 & N1 & Fr & Hb & Hm & H64 & F1 & Hlt); try done; [lia|].
  rewrite E1. hsimp. unfold read_str. rewrite (made_str c h h1) by (done || intros _; by apply Hp). rewrite Hstr. hsimp.
  destruct (write_str_run b m s h1 Hb) as (r & Ew & Hlr); [lia|]. rewrite Ew. hsimp.
  match goal with |- context [set_node c ?x ?hh] => set (x1 := x); set (h2 := hh) end.
  assert (Hb1 : b <> BSmall c true).
  { unfold fresh_data in Fr. destruct (Z.leb (kv_len w) 64); by subst b. }
  assert (Hown : (forall i, b = BMem i -> h_nmem h <= i)).
  { intros i ->. unfold fresh_data in Fr. destruct (Z.leb (kv_len w) 64); [done|]. injection Fr as ->. lia. }
  assert (Hstr2 : str_at (set_node c x1 h2) (Some (b, 0)) (len s) = Some s).
  { apply (str_at_front _ _ _ r). unfold h2. cbn. by rewrite lookup_insert_eq. }
  eexists _, (kv_set_str (kv_len w) (Some (b, 0)) (n_val (nd h c))), d, b. split; [done|]. split.
  { split.
    - intros q Hq. rewrite nd_set, decide_False by done. exact (md_node _ _ _ M1 q Hq).
    - intros b' Hb' Hi. cbn. rewrite lookup_insert_ne; [by apply (md_buf _ _ _ M1)|]. intros <-.
      unfold fresh_data in Fr. destruct (Z.leb (kv_len w) 64); [by apply (Hb' false)|].
      specialize (Hi _ Fr). specialize (Hown _ Fr). lia.
    - intros _ n k v. cbn. destruct (decide (BSmall n k = b)) as [<-|Hne].
      + rewrite lookup_insert_eq. intros [= <-]. rewrite len_app. lia.
      + rewrite lookup_insert_ne by done. by apply (md_small _ _ _ M1).
    - intros _ i Hi. cbn in Hi |- *. rewrite lookup_insert_ne; [by apply (md_heap _ _ _ M1)|].
      intros ->. specialize (Hlt _ eq_refl). lia.
    - exact (md_rest _ _ _ M1). }
  split. { rewrite nd_set_same. unfold x1. change (nd (set_buf _ h1) c) with (nd h1 c). by rewrite N1. }
  split; [done|]. split. { unfold fresh_data in Fr. destruct (Z.leb (kv_len w) 64); by subst b. } split.
  - unfold val_at. cbn [Z.eqb PB_WT_STRING Pos.eqb PB_WT_VARINT PB_WT_FIXED64]. rewrite Hkl by lia. cbn [kv_set_str kv_ptr].
    by rewrite <- Hl, Hstr2.
  - intros _. rewrite Hkl by lia. split; [done|]. exists 0. rewrite <- Hl. done.
Qed.

(** [InitNode] with [own_buf]. *)
Lemma InitNode_own_run h c p w force fsz :
  clean (nd h c) -> small_ok h -> heap_ok h -> h_fail h = [] -> field_ok p ->
  val_at h (type_of p.2) w = Some p.2 -> (type_of p.2 = KNV_STRING -> source_ok h c w) -> fsz = len (enc_field p) ->
  exists h', InitNode c p.1 (type_of p.2) (Some w) true true fsz force h = Ret 0 h' /\ made c h h' /\
    leaf_of h' c p /\ nkey h' c = Some (first_key force p.2) /\ n_ht (nd h' c) = ht0 /\ exists b, val_in h' c b /\ no_other c b.
Proof.
  intros (Ht & Hd & Hk & Hdi) Hs Hh Hf Hp Hv Hw Hfs. set (h1 := set_node c (tagged p.1 p.2 (nd h c)) h).
  destruct (init_val_own_run h1 c p.2 w) as (h2 & x & d & b & E & M2 & N2 & Hb & Ho & Hx & Hxs); try done.
  { unfold h1. by rewrite nd_set_same. }
  destruct (InitNode_core h h2 c p w true force b d x fsz E) as (h' & E' & O & L & K & _ & Vi & Eh & _); try done.
  - rewrite N2. unfold h1. by rewrite nd_set_same.
  - by apply (md_small _ _ _ M2).
  - exists h'. split; [done|]. split; [|split_and!; [done|done|by rewrite Eh|by exists b]].
    eapply made_trans; [apply (made_set c (tagged p.1 p.2 (nd h c)))|]. eapply made_trans; [exact M2|by apply only_node_made].
Qed.

(** ** A tree from a message *)

Lemma first_field_enc h b o p rest :
  field_ok p -> str_at h (Some (b, o)) (len (enc_field p ++ rest)) = Some (enc_field p ++ rest) ->
  len (enc_field p ++ rest) < 2 ^ 31 ->
  exists f, first_field (Some (b, o)) (len (enc_field p ++ rest)) h = Ret (true, f) h /\ got_field f p /\
    f_ptr f = len (enc_field p) /\ val_at h (f_type f) (field_val (Some (b, o)) f) = Some p.2.
Proof.
  intros Hp Hs Hl. destruct (first_field_run h b o _ Hs Hl) as (r & f & E & Eb & Hr). exists f.
  unfold pb_begin in Eb. set (f0 := mk_field _ _ _ _ _ _ _ _ _) in Eb.
  destruct (pb_decode_tag_enc p f0 [] rest []) as (f' & Ed & G & _ & C); [done| |].
  { unfold cursor, f0. cbn [f_start f_ptr f_left f_init app]. rewrite app_nil_r. len_pos. rewrite s32_small by lia. done. }
  rewrite Ed in Eb. cbn in Eb. injection Eb as <- <-. destruct (Hr eq_refl) as (v & Hv & Ha).
  destruct G as (G1 & G2 & G3). rewrite G3 in Hv. injection Hv as <-.
  split; [done|]. split; [done|]. split; [|done]. destruct C as (_ & -> & _). done.
Qed.

(** What [New] gives for a message that begins with the field [p]: a node for [p] whose bytes are its own,
    in a heap where the nodes in use and the buffers of the others are as before. *)
Lemma NewBin_own_run fuel h b o p rest :
  sound h -> field_ok p -> str_at h (Some (b, o)) (len (enc_field p ++ rest)) = Some (enc_field p ++ rest) ->
  len (enc_field p ++ rest) < 2 ^ 31 -> old_buf h b ->
  exists c h', NewBin fuel (Some (b, o)) (len (enc_field p ++ rest)) true h = Ret (Some c) h' /\
    ~ used h c /\ leaf_of h' c p /\ nkey h' c = Some (first_key false p.2) /\ sound h' /\
    (forall m, used h' m <-> used h m \/ m = c) /\ (forall m, m <> c -> nd h' m = nd h m) /\
    (forall b, (forall k, b <> BSmall c k) -> (forall i, b = BMem i -> i < h_nmem h) -> h_buf h' !! b = h_buf h !! b) /\
    n_ht (nd h' c) = ht0 /\ exists b, val_in h' c b /\ no_other c b.
Proof.
  intros [Po Ho Sm Fa] Hp Hs Hl Hb. unfold NewBin. hsimp.
  destruct (first_field_enc h b o p rest Hp Hs Hl) as (f & Ef & (G1 & G2 & _) & Hptr & Hv). rewrite Ef. hsimp. cbn [negb]. hsimp.
  destruct (pool_New_run h Po Fa) as (c & h1 & E1 & Po1 & N1 & B1 & M1 & F1 & Cl & Hu & Hu1). rewrite E1. hsimp.
  rewrite G1, G2, Hptr in *.
  assert (Hbuf : forall x n, str_at h1 x n = str_at h x n) by (intros; by apply str_at_buf).
  assert (Hv1 : val_at h1 (type_of p.2) (field_val (Some (b, o)) f) = Some p.2).
  { rewrite <- Hv. unfold val_at. by rewrite Hbuf. }
  destruct (InitNode_own_run h1 c p (field_val (Some (b, o)) f) false (len (enc_field p))) as (h' & E' & Md & L & K & Hht & Vi); try done.
  - by rewrite N1.
  - intros n k v. rewrite B1. apply Sm.
  - intros i Hi. rewrite B1. apply Ho. by rewrite <- M1.
  - intros Ht Hn. unfold field_val in Hn |- *. rewrite G2, Ht, Z.eqb_refl in *. cbn [kv_ptr ptr_add mbind option_bind]. eexists _, _.
    split; [done|]. split.
    + intros k ->. cbn in Hb. done.
    + intros i ->. cbn in Hb. by rewrite M1.
  - rewrite E'. hsimp. cbn [ok Z.eqb negb]. exists c, h'. split; [done|]. split; [done|]. split; [done|]. split; [done|].
    pose proof Md as [MdN MdB MdS MdH (MdF & MdX & MdM & MdL)].
    assert (Hu' : forall m, used h' m <-> used h m \/ m = c) by (intros m; rewrite <- Hu1; by apply used_same).
    split; [|split; [done|split; [|split; [|done]]]].
    + split.
      * apply (pool_ok_frame h1); try done. intros m Hm. apply MdN. intros ->. apply Hm, Hu1. by right.
      * apply MdH. intros i Hi. rewrite B1. apply Ho. by rewrite <- M1.
      * apply MdS. intros n k v. rewrite B1. apply Sm.
      * congruence.
    + intros m Hm. rewrite MdN by done. apply N1.
    + intros b' H1 H2. rewrite MdB by (done || intros i Hi; rewrite M1; by apply H2). by rewrite B1.
Qed.

Lemma field_small p : field_ok p -> 1 <= len (enc_field p) < 2 ^ 31 - 2 ^ 16.
Proof.
  intros [_ Hv]. pose proof (len_enc_field p). pose proof (enc_field_len_pos p).
  destruct p as [t [z|z|s|z]]; cbn [snd value_ok] in *; lia.
Qed.

(** The root of the message [p], whose value is the message of the fields [q :: l], before it is expanded. *)
Lemma NewBin_message fuel h b o t q l :
  sound h -> old_buf h b -> t <> 1 -> field_ok (t, VStr (enc_fields (q :: l))) -> field_ok q ->
  str_at h (Some (b, o)) (len (enc_field (t, VStr (enc_fields (q :: l))))) = Some (enc_field (t, VStr (enc_fields (q :: l)))) ->
  exists c h' b' o', NewBin fuel (Some (b, o)) (len (enc_field (t, VStr (enc_fields (q :: l))))) true h = Ret (Some c) h' /\
    n_tag (nd h' c) = t /\ sound h' /\ message_node h' c b' o' (enc_fields (q :: l)).
Proof.
  intros So Hb Ht Hok Hq Hs. pose proof (field_small _ Hok) as Hsm. set (m := enc_fields (q :: l)) in *.
  destruct (NewBin_own_run fuel h b o (t, VStr m) [] So Hok) as
    (c & h1 & E & Hu & L & K & So1 & Hus & Hn & Hbuf & Hht & b1 & Vi & No); [by rewrite app_nil_r|rewrite app_nil_r; lia|done|].
  rewrite app_nil_r in E. exists c, h1, b1. destruct L as [Lt Ly Lv _ Lm _ _ _]. cbn [fst snd type_of body_of] in *.
  destruct (val_at_len _ _ _ Lv) as [El Es]. pose proof (enc_field_len_pos q) as Hpos.
  assert (Hml : len m = len (enc_field q) + len (enc_fields l)) by (unfold m; change (enc_fields (q :: l)) with (enc_field q ++ enc_fields l); len_lia).
  assert (Hne : kv_len (n_val (nd h1 c)) <> 0) by (rewrite <- El; len_lia).
  destruct (Vi Ly Hne) as [o1 Ho]. exists o1. split; [done|]. split; [done|]. split; [done|].
  assert (Hstr : str_at h1 (Some (b1, o1)) (len m) = Some m) by (by rewrite El, <- Ho). split; try done.
  - apply Hus. by right.
  - rewrite Lm; [lia|]. apply message_start_enc; [done|]. destruct Hok as [_ Hv]. cbn [snd value_ok] in Hv. change (len m < 2 ^ 31). lia.
  - unfold key_node. by rewrite Lt, (proj2 (Z.eqb_neq t 1)).
  - destruct b1 as [i|n k|i]; [|apply Hus; by right; cbn in No; subst n|done]. cbn. destruct (Z.le_gt_cases (h_nmem h1) i) as [Hi|Hi]; [|done].
    unfold str_at in Hstr. rewrite El, (proj2 (Z.eqb_neq _ _)) in Hstr by done. cbn in Hstr. by rewrite (so_heap _ So1 i Hi) in Hstr.
Qed.
