(* ===== verification/Storage.v ===== *)
(** * The cache (src/storage.h, src/storage.cc)

    [UcStorage] stores trees in a [MultiHashTable], one tree for each key.  The tables are passed around as
    values; trees, keys and the two read buffers of the thread live in the heap of KnvHeap.v.  The member
    [key] of a [UcStorage] is the key of a node number that no tree has, so that the operations on
    keys are those of KnvHeap.v.  [malloc] fails as the allocations of the heap do.

    [knv_key_t::FreeDynData], which storage.h calls, is not in the repository: it is a parameter.
    Error texts, the printing functions and the [float] percentages are left out. *)

From S2P Require Import Prelude Pb LinkTable MultiHashTable MemPool KnvHeap KnvNode KnvHt KnvSize KnvExpand KnvOwn ForceSet.

(** Models [MAX_HT_SHM_NUM] (src/storage.h:18-18). *)
Definition MAX_HT_SHM_NUM : Z := 16.
(** Models [SMALL_BUFFER_SIZE] (src/storage.cc:76-76). *)
Definition SMALL_BUFFER_SIZE : Z := 10 * 1024 * 1024.
(** Models [HUGE_BUFFER_SIZE] (src/storage.cc:77-77). *)
Definition HUGE_BUFFER_SIZE : Z := HASH_MAX_DATA_LENGTH.

(** [mht_thread_data] *)
Definition small_buffer : buf := BExt (-1).
Definition huge_buffer : buf := BExt (-2).

(** The tables, the counter of [InitWrite], the lock file, and which of the two buffers there are. *)
(** Models [mht_thread_data] (src/storage.cc:79-83). *)
Record tables := mk_tables {
  mht : gmap Z MultiHashTable; create_idx : Z; lock_fd : Z; has_small : bool; has_huge : bool }.

Definition set_mht (i : Z) (m : MultiHashTable) (u : tables) : tables :=
  mk_tables (<[i := m]> (mht u)) (create_idx u) (lock_fd u) (has_small u) (has_huge u).
Definition set_small (b : bool) (u : tables) : tables := mk_tables (mht u) (create_idx u) (lock_fd u) b (has_huge u).
Definition set_huge (b : bool) (u : tables) : tables := mk_tables (mht u) (create_idx u) (lock_fd u) (has_small u) b.

(** Models [UcStorage] (src/storage.h:27-32). *)
Record UcStorage := mk_storage {
  s_key : nid; auto_delete : bool; tree : option nid; tAccessTime : Z; storage_idx : Z }.

Definition set_tree (auto : bool) (t : option nid) (st : UcStorage) : UcStorage :=
  mk_storage (s_key st) auto t (tAccessTime st) (storage_idx st).
Definition set_access (o : option Z) (st : UcStorage) : UcStorage :=
  mk_storage (s_key st) (auto_delete st) (tree st) (default (tAccessTime st) o) (storage_idx st).

Section storage.
Context (fuel : nat) (FreeDynData : nid -> M unit).

(** ** Trees *)

(** Models [UcStorage::Delete] (src/storage.h:43-43). *)
Definition Delete (st : UcStorage) : M UcStorage :=
  (if auto_delete st then delete_opt fuel (tree st) else mret tt);;
  FreeDynData (s_key st);;
  mret (set_tree (auto_delete st) None st).

(** Models [UcStorage::Attach] (src/storage.h:58-61). *)
Definition Attach (st : UcStorage) (tr : nid) (auto_del : bool) : M UcStorage :=
  st ← Delete st;
  x ← getn tr;
  v ← key_GetValue (n_key x);
  key_init (s_key st) (k_type (n_key x)) (Some v) true;;
  mret (set_tree auto_del (Some tr) st).

(** Models [UcStorage::Detach] (src/storage.h:62-65). *)
Definition Detach (st : UcStorage) : option nid * UcStorage :=
  if auto_delete st then (tree st, set_tree false (tree st) st) else (None, st).

(** Models [UcStorage::HasData] (src/storage.h:85-85). *)
Definition HasData (st : UcStorage) : M bool :=
  match tree st with None => mret false | Some t => x ← getn t; mret (negb (Z.eqb (n_tag x) 0)) end.

(** ** Reading *)

(** [k.GetData()] *)
(** Models [knv_key_t::GetData] (src/knv/knv_node.h:99-99). *)
Definition key_GetData (k : knv_key_t) : M (option bytes) :=
  if Z.eqb (k_len k) 0 then mret None else s ← read_str (k_val k) (k_len k); mret (Some s).

Definition put_buf (b : buf) (s : bytes) : M unit := fun h => Ret tt (set_buf (<[b := s]> (h_buf h)) h).
Definition drop_buf (b : buf) : M unit := fun h => Ret tt (set_buf (delete b (h_buf h)) h).

(** [malloc] of a buffer, with any content; zeros here. *)
Definition malloc_buf (b : buf) (sz : Z) : M bool :=
  ok ← alloc_ok;
  if (ok : bool) then put_buf b (replicate (Z.to_nat sz) 0);; mret true else mret false.

(** [mht[st.GetFd()].GetData(k.GetData(), k.GetLength(), b, l, true, &access_time)] *)
Definition table_read (e : MultiHashTable.env) (st : UcStorage) (b : buf) (l : Z) (u : tables) : M (Z * Z * UcStorage * tables) :=
  m ← lift (mht u !! storage_idx st);
  x ← getn (s_key st);
  k ← key_GetData (n_key x);
  data ← (fun h => lift (buf_get h b) h);
  '(ret, data, l, last, m) ← lift (MultiHashTable.GetData e m k (k_len (n_key x)) (Some data) l true);
  put_buf b data;;
  mret (ret, l, set_access last st, set_mht (storage_idx st) m u).

(** Data too long for the small buffer is read again into the huge one. *)
(** Models [ReadCache] (src/storage.cc:118-141). *)
Definition read_huge (e : MultiHashTable.env) (st : UcStorage) (u : tables) : M (Z * ptr * UcStorage * tables) :=
  b ← (if has_huge u then mret true else malloc_buf huge_buffer HUGE_BUFFER_SIZE);
  if negb (b : bool) then mret (-1, None, st, u)
  else
    '(ret, l, st, u) ← table_read e st huge_buffer HUGE_BUFFER_SIZE (set_huge true u);
    if Z.ltb ret 0 then drop_buf huge_buffer;; mret (ret, None, st, set_huge false u)
    else mret (l, Some (huge_buffer, 0), st, u).

(** The length of the data, or a negative code, and where the data is. *)
(** Models [ReadCache] (src/storage.cc:102-157). *)
Definition ReadCache (e : MultiHashTable.env) (st : UcStorage) (u : tables) : M (Z * ptr * UcStorage * tables) :=
  b ← (if has_small u then mret true else malloc_buf small_buffer SMALL_BUFFER_SIZE);
  if negb (b : bool) then mret (-1, None, st, u)
  else
    '(ret, l, st, u) ← table_read e st small_buffer SMALL_BUFFER_SIZE (set_small true u);
    if Z.ltb ret 0 then
      if Z.eqb ret (-22) then read_huge e st u else mret (ret, None, st, u)
    else mret (l, Some (small_buffer, 0), st, u).

(** Models [UcStorage::Read] (src/storage.cc:159-197). *)
Definition Read (e : MultiHashTable.env) (own_buf : bool) (st : UcStorage) (u : tables) : M (Z * UcStorage * tables) :=
  '(ret, data, st, u) ← ReadCache e st u;
  if Z.eqb ret 0 then mret (-1, st, u)
  else if Z.ltb ret 0 then mret (-2, st, u)
  else
    st ← Delete st;
    t ← NewBin fuel data ret own_buf;
    match t with
    | None => mret (-3, set_tree (auto_delete st) None st, u)
    | Some _ => mret (0, set_tree true t st, u)
    end.

(** ** Writing *)

(** Models [UcStorage::Write] (src/storage.cc:204-227). *)
Definition Write (e : MultiHashTable.env) (auto_remove : bool) (st : UcStorage) (u : tables) : M (Z * tables) :=
  b ← HasData st;
  match tree st with
  | Some t =>
      if negb (b : bool) then mret (-1, u)
      else
        '(ret, s) ← SerializeString fuel t;
        if negb (Z.eqb ret 0) then mret (-2, u)
        else
          x ← getn (s_key st);
          k ← key_GetData (n_key x);
          m ← lift (mht u !! storage_idx st);
          '(ret, m) ← lift (MultiHashTable.SetData e m k (k_len (n_key x)) (Some s) (len s) auto_remove);
          mret (if Z.ltb ret 0 then ret else 0, set_mht (storage_idx st) m u)
  | None => mret (-1, u)
  end.

(** Models [UcStorage::Erase] (src/storage.cc:229-239). *)
Definition Erase (e : MultiHashTable.env) (st : UcStorage) (u : tables) : M (Z * tables) :=
  x ← getn (s_key st);
  k ← key_GetData (n_key x);
  m ← lift (mht u !! storage_idx st);
  '(ret, m) ← lift (MultiHashTable.EraseData e m k (k_len (n_key x)));
  mret (ret, set_mht (storage_idx st) m u).

(** Models [UcStorage::FixHtBadNode] (src/storage.cc:61-64). *)
Definition FixHtBadNode (st : UcStorage) (u : tables) : M (Z * tables) :=
  x ← getn (s_key st);
  k ← key_GetData (n_key x);
  m ← lift (mht u !! storage_idx st);
  '(ret, m) ← lift (MultiHashTable.EraseBadNode m k (k_len (n_key x)));
  mret (ret, set_mht (storage_idx st) m u).

(** ** Start and end *)

(** Models [UcStorage::ThreadExit] (src/storage.cc:85-97). *)
Definition ThreadExit (u : tables) : M tables :=
  (if has_small u then drop_buf small_buffer else mret tt);;
  (if has_huge u then drop_buf huge_buffer else mret tt);;
  mret (set_huge false (set_small false u)).

End storage.

(** [open(DB_LOCK_FILE, ...)] gives [fd], [flock] gives [r] (called only with a descriptor). *)
(** Models [UcStorage::ShmLock] (src/storage.cc:32-51). *)
Definition ShmLock (fd : Z) (r : bool -> bool -> Z) (iUnlocking trylock : bool) (u : tables) : Z * tables :=
  let lfd := if Z.leb (lock_fd u) 0 then fd else lock_fd u in
  let u' := mk_tables (mht u) (create_idx u) lfd (has_small u) (has_huge u) in
  if Z.ltb lfd 0 then (-1, u')
  else if Z.ltb (r iUnlocking (trylock && negb iUnlocking)) 0 then (-2, u')
  else (0, u').

(** The parameters of the table, from those of [InitWrite] and the memory of the machine. *)
(** Models [UcStorage::InitWrite] (src/storage.cc:279-291). *)
Definition write_param (total_mem shmkey shmsz_percent max_keylen row_num avg_blocknum block_size : Z) (use_access_seq : bool)
    : MhtInitParam :=
  let ratio := if negb (Z.eqb avg_blocknum 0) then 100 / avg_blocknum else 150 in
  mk_param shmkey
    (u64 (u64 (u64 (total_mem * shmsz_percent) / 100 + 2048 * 1024 - 1) / (2048 * 1024) * (1024 * 2048)))
    (u16 max_keylen) row_num (if Z.eqb ratio 0 then 1 else ratio) block_size false use_access_seq None.

(** Models [UcStorage::InitWrite] (src/storage.cc:270-303). *)
Definition InitWrite (sys : shm_calls) (total_mem shmkey shmsz_percent max_keylen row_num avg_blocknum block_size : Z)
    (use_access_seq : bool) (u : tables) : option (Z * tables) :=
  let idx := create_idx u in
  let u := mk_tables (mht u) (idx + 1) (lock_fd u) (has_small u) (has_huge u) in
  if Z.leb MAX_HT_SHM_NUM idx then Some (-1, u)
  else
    m ← mht u !! idx;
    '(ret, m) ← CreateFromShm sys m (write_param total_mem shmkey shmsz_percent max_keylen row_num avg_blocknum block_size use_access_seq);
    Some (if negb (Z.eqb ret 0) then -4 else idx, set_mht idx m u).

(** The result is 0, not the index: only the first table can be read with it. *)
(** Models [UcStorage::InitRead] (src/storage.cc:305-323). *)
Definition InitRead (sys : shm_calls) (shmkey : Z) (u : tables) : option (Z * tables) :=
  let idx := create_idx u in
  let u := mk_tables (mht u) (idx + 1) (lock_fd u) (has_small u) (has_huge u) in
  if Z.leb MAX_HT_SHM_NUM idx then Some (-1, u)
  else
    m ← mht u !! idx;
    let '(ret, m) := InitFromShm sys m shmkey None in
    Some (if Z.ltb ret 0 then ret else 0, set_mht idx m u).

(** Models [UcStorage::Destroy] (src/storage.cc:199-202). *)
Definition Destroy (idx : Z) (u : tables) : option tables :=
  m ← mht u !! idx; Some (set_mht idx (MultiHashTable.Destroy m) u).

(** ** Trees in the cache *)

(** A tree's encoding is that of one field, with the tag of its root. *)
Lemma tree_enc_field k h n b w :
  tree_enc k h n b w -> exists v, field_ok (n_tag (nd h n), v) /\ w = enc_field (n_tag (nd h n), v) /\ b = body_of v.
Proof.
  destruct k; [done|]. intros [_ H]. destruct (by_value _).
  - destruct H as (v & _ & Hok & -> & ->). eauto.
  - destruct H as (kb & es1 & es2 & _ & _ & _ & _ & Hok & ->). by exists (VStr b).
Qed.

(** The storage's key is [k], and its bytes are not in a read buffer. *)
Record key_is (h : heap) (n : nid) (k : bytes) : Prop := {
  ki_used : used h n;
  ki_key : nkey h n = Some k;
  ki_len : 0 < len k < 256;
  ki_apart : forall o, k_val (n_key (nd h n)) <> Some (small_buffer, o) /\ k_val (n_key (nd h n)) <> Some (huge_buffer, o) }.

(** The read buffers of the thread that are marked as there have their sizes. *)
Record buffers_ok (h : heap) (u : tables) : Prop := {
  bo_small : has_small u = true -> exists s, h_buf h !! small_buffer = Some s /\ len s = SMALL_BUFFER_SIZE;
  bo_huge : has_huge u = true -> exists s, h_buf h !! huge_buffer = Some s /\ len s = HUGE_BUFFER_SIZE }.

(** [knv_key_t::FreeDynData] gives back what the key owns: no other node and no memory of the caller
    changes. *)
Definition frees_key (FreeDynData : nid -> M unit) : Prop := forall n h, exists h',
  FreeDynData n h = Ret tt h' /\ (forall m, m <> n -> nd h' m = nd h m) /\
  (forall i, h_buf h' !! BExt i = h_buf h !! BExt i) /\ h_free h' = h_free h /\ h_next h' = h_next h /\
  (used h n -> sound h -> sound h').

Lemma key_is_data h n k :
  key_is h n k -> key_GetData (n_key (nd h n)) h = Ret (Some k) h /\ k_len (n_key (nd h n)) = len k.
Proof.
  intros [_ Hk Hl _]. unfold nkey, key_bytes in Hk. pose proof (str_at_len _ _ _ _ Hk) as E.
  unfold key_GetData. rewrite (proj2 (Z.eqb_neq _ _)) by lia. unfold read_str. hsimp. rewrite Hk. done.
Qed.

(** *** Heaps that differ in the read buffers *)

Definition ext_change (h h' : heap) : Prop :=
  (forall b, b <> small_buffer -> b <> huge_buffer -> h_buf h' !! b = h_buf h !! b) /\
  h_node h' = h_node h /\ h_free h' = h_free h /\ h_next h' = h_next h /\ h_nmem h' = h_nmem h /\ h_fail h' = h_fail h.

Lemma ext_change_refl h : ext_change h h.
Proof. done. Qed.
Lemma ext_change_trans h1 h2 h3 : ext_change h1 h2 -> ext_change h2 h3 -> ext_change h1 h3.
Proof. intros (A & B & C & D & E & F) (A' & B' & C' & D' & E' & F'). split_and!; try congruence. intros b H1 H2. by rewrite A', A. Qed.
Lemma ext_change_put b s h : b = small_buffer \/ b = huge_buffer -> ext_change h (set_buf (<[b := s]> (h_buf h)) h).
Proof. intros Hb. split; [|done]. intros b' H1 H2. cbn. rewrite lookup_insert_ne; [done|]. intros <-. naive_solver. Qed.

Lemma ext_change_nd h h' n : ext_change h h' -> nd h' n = nd h n.
Proof. intros (_ & E & _). unfold nd. by rewrite E. Qed.

Lemma ext_change_sound h h' : ext_change h h' -> sound h -> sound h'.
Proof.
  intros X [Po Ho Sm Fa]. pose proof X as (B & _ & F & Nx & Nm & Fl). split.
  - apply (pool_ok_frame h); try done. intros m _. by apply ext_change_nd.
  - intros i Hi. rewrite B by done. apply Ho. by rewrite <- Nm.
  - intros n k v. rewrite B by done. apply Sm.
  - congruence.
Qed.

Lemma ext_change_key h h' n k : ext_change h h' -> key_is h n k -> key_is h' n k.
Proof.
  intros X [Hu Hk Hl Ha]. pose proof X as (B & _ & F & Nx & _). split; rewrite ?(ext_change_nd h h' n X); try done.
  - by apply (used_same h).
  - unfold nkey, key_bytes, str_at in *. rewrite (ext_change_nd h h' n X).
    destruct (Z.eqb (k_len (n_key (nd h n))) 0); [done|]. destruct (k_val (n_key (nd h n))) as [[b o]|]; [|done].
    cbn in *. destruct (Ha o) as [H1 H2]. rewrite (buf_get_eq h h'); [done|]. apply B; congruence.
Qed.

(** *** Reading *)

Lemma table_read_run e st b l u h m k data ret data' l' last m' :
  key_is h (s_key st) k -> mht u !! storage_idx st = Some m -> h_buf h !! b = Some data -> (exists i, b = BExt i) ->
  MultiHashTable.GetData e m (Some k) (len k) (Some data) l true = Some (ret, data', l', last, m') ->
  table_read e st b l u h
    = Ret (ret, l', set_access last st, set_mht (storage_idx st) m' u) (set_buf (<[b := data']> (h_buf h)) h).
Proof.
  intros Hk Hm Hb [i ->] Hg. destruct (key_is_data _ _ _ Hk) as [Hd Hl]. unfold table_read. hsimp. rewrite Hm. hsimp.
  rewrite Hd. hsimp. cbn [buf_get]. rewrite Hb. hsimp. rewrite Hl, Hg. hsimp. done.
Qed.

(** A read buffer once it is there. *)
Lemma buffer_run h b sz (has : bool) :
  h_fail h = [] -> (b = small_buffer \/ b = huge_buffer) -> 0 < sz ->
  (has = true -> exists s, h_buf h !! b = Some s /\ len s = sz) ->
  exists h' s, (if has then mret true else malloc_buf b sz) h = Ret true h' /\ ext_change h h' /\
    h_buf h' !! b = Some s /\ len s = sz /\ (forall b', b' <> b -> h_buf h' !! b' = h_buf h !! b').
Proof.
  intros Hf Hb Hsz Hh. destruct has.
  - destruct (Hh eq_refl) as (s & E & L). exists h, s. hsimp. split_and!; done.
  - unfold malloc_buf, alloc_ok. hsimp. rewrite Hf. hsimp. unfold put_buf. hsimp. eexists _, _. split; [done|].
    split; [by apply ext_change_put|]. cbn. rewrite lookup_insert_eq. split; [done|].
    split; [unfold len; rewrite length_replicate; lia|]. intros b' Hne. by rewrite lookup_insert_ne.
Qed.

Lemma GetData_loop_len fuel : forall t p buf n max r buf' n',
  GetData_loop fuel t p buf n max = Some (r, buf', n') -> len buf' = len buf.
Proof.
  induction fuel as [|fuel IH]; intros t p buf n max r buf' n' H; [done|]. cbn [GetData_loop] in H.
  destruct (Z.eqb p 0); [by simplify_eq|]. destruct (_ <=? p); [by simplify_eq|]. destruct (max <? _); [by simplify_eq|].
  destruct (LT_ELE_AT t p); [|done]. cbn [mbind option_bind] in H. destruct (mem_read _ _ _) as [c|]; [|done].
  cbn [mbind option_bind] in H. destruct (mem_write buf n c) as [w|] eqn:Ew; [|done]. cbn [mbind option_bind] in H.
  apply IH in H. rewrite H. by eapply mem_write_len.
Qed.

(** [GetData] changes access times, not the link table, and fills the buffer without growing it. *)
Lemma GetData_keeps e m k kl b l upd r b' l' last m' :
  MultiHashTable.GetData e m k kl (Some b) l upd = Some (r, b', l', last, m') -> lt m' = lt m /\ len b' = len b.
Proof.
  unfold MultiHashTable.GetData. destruct k as [k|]; [|by intros; simplify_eq].
  destruct (_ || _); [by intros; simplify_eq|]. destruct (header m) as [hd|]; [|by intros; simplify_eq].
  destruct (hash_of m k kl) as [hash|]; [|done]. cbn [mbind option_bind].
  destruct (Search m k kl hash) as [[sr m1]|] eqn:Es; [|done]. cbn [mbind option_bind].
  assert (lt m1 = lt m) as <-.
  { revert Es. unfold Search. destruct (header m); [|done]. cbn [mbind option_bind].
    destruct (search_rows _ _ _ _ _ _ _ _ _ _); [|done]. cbn. by intros [= _ <-]. }
  destruct (s_node sr) as [i|]; [|by intros; simplify_eq]. destruct (header m1) as [h1|]; [|done]. cbn [mbind option_bind].
  destruct (ht m1 !! i) as [x|]; [|done]. cbn [mbind option_bind].
  destruct (hnode_eq _ _ _) as [[]|]; cbn [mbind option_bind negb]; [|by intros; simplify_eq|done].
  destruct (LinkTable.GetData _ _ _ _) as [[[rt bf] n]|] eqn:Eg; [|done]. cbn. intros; simplify_eq. split; [done|].
  revert Eg. unfold LinkTable.GetData. destruct (lt _) as [t|]; [|done]. cbn [mbind option_bind].
  destruct (l <? _); [by intros; simplify_eq|]. apply GetData_loop_len.
Qed.

(** What one read of the table gives: nothing, the data, or a buffer that is too small. *)
Definition found (M : gmap (list Z) bytes) (m : MultiHashTable) (k : bytes) (sz : Z) : option (option bytes) :=
  match M !! k with
  | None => Some None
  | Some d => if decide (block_data_len m * nblocks (block_data_len m) d <= sz) then Some (Some d) else None
  end.

Lemma read_step e st b sz u h m M k data :
  key_is h (s_key st) k -> mht u !! storage_idx st = Some m -> map_rep m M ->
  h_buf h !! b = Some data -> len data = sz -> b = small_buffer \/ b = huge_buffer ->
  block_data_len m <= sz -> 1 <= sz < 2 ^ 31 - 2 ^ 16 ->
  exists ret l last m' h', table_read e st b sz u h = Ret (ret, l, set_access last st, set_mht (storage_idx st) m' u) h' /\
    ext_change h h' /\ (map_rep m' M /\ block_data_len m' = block_data_len m) /\ (forall b', b' <> b -> h_buf h' !! b' = h_buf h !! b') /\
    (exists data', h_buf h' !! b = Some data' /\ len data' = sz) /\
    match found M m k sz with
    | Some None => ret = 0 /\ l = 0
    | Some (Some d) => ret = 0 /\ l = len d /\ exists r, h_buf h' !! b = Some (d ++ r)
    | None => ret = -22
    end.
Proof.
  intros Hk Hm HM Hb Hl Hbs Hblk Hsz. assert (Hext : exists i, b = BExt i) by (destruct Hbs as [-> | ->]; by eexists).
  pose proof (GetData_map e m M k data true HM (ki_len _ _ _ Hk) ltac:(lia) ltac:(lia)) as G. rewrite Hl in G.
  assert (Hbdl : forall r b' l' last m', MultiHashTable.GetData e m (Some k) (len k) (Some data) sz true = Some (r, b', l', last, m') ->
    block_data_len m' = block_data_len m /\ len b' = sz).
  { intros * Hg. destruct (GetData_keeps _ _ _ _ _ _ _ _ _ _ _ _ Hg) as [E1 E2]. unfold block_data_len. rewrite E1. split; [done|lia]. }
  unfold found. destruct (M !! k) as [d|].
  - destruct G as (last & m' & HM' & G). destruct (decide _) as [Hfit|Hfit].
    + pose proof (table_read_run e st b sz u h m k data _ _ _ _ _ Hk Hm Hb Hext G) as E.
      do 5 eexists. split; [exact E|]. split; [by apply ext_change_put|]. split; [split; [done|by eapply Hbdl]|].
      split; [intros b' Hne; cbn; by rewrite lookup_insert_ne|]. cbn. rewrite lookup_insert_eq. split; [|eauto].
      eexists. split; [done|by eapply Hbdl].
    + destruct G as (buf' & G). pose proof (table_read_run e st b sz u h m k data _ _ _ _ _ Hk Hm Hb Hext G) as E.
      do 5 eexists. split; [exact E|]. split; [by apply ext_change_put|]. split; [split; [done|by eapply Hbdl]|].
      split; [intros b' Hne; cbn; by rewrite lookup_insert_ne|]. cbn. rewrite lookup_insert_eq. split; [|done].
      eexists. split; [done|by eapply Hbdl].
  - pose proof (table_read_run e st b sz u h m k data _ _ _ _ _ Hk Hm Hb Hext G) as E.
    do 5 eexists. split; [exact E|]. split; [by apply ext_change_put|]. split; [split; [done|by eapply Hbdl]|].
    split; [intros b' Hne; cbn; by rewrite lookup_insert_ne|]. cbn. rewrite lookup_insert_eq. split; [|done]. eexists. split; [done|by eapply Hbdl].
Qed.

(** The result of a read: [u'] is [u] with a table that stands for the same map. *)
Record read_result (st st' : UcStorage) (u u' : tables) (M : gmap (list Z) bytes) (h' : heap) : Prop := {
  rr_st : s_key st' = s_key st /\ auto_delete st' = auto_delete st /\ tree st' = tree st /\ storage_idx st' = storage_idx st;
  rr_mht : exists m', mht u' !! storage_idx st = Some m' /\ map_rep m' M;
  rr_others : forall i, i <> storage_idx st -> mht u' !! i = mht u !! i;
  rr_buffers : buffers_ok h' u' }.

Section read.
Context (e : MultiHashTable.env) (st : UcStorage) (u : tables) (h : heap).
Context (m : MultiHashTable) (M : gmap (list Z) bytes) (k : bytes).
Context (So : sound h) (Hk : key_is h (s_key st) k) (Hm : mht u !! storage_idx st = Some m) (HM : map_rep m M).
Context (Hb : buffers_ok h u) (Hbd : block_data_len m <= SMALL_BUFFER_SIZE).

Lemma ReadCache_run :
  exists ret p st' u' h', ReadCache e st u h = Ret (ret, p, st', u') h' /\ ext_change h h' /\ read_result st st' u u' M h' /\
    match M !! k with
    | None => ret = 0
    | Some d =>
        if decide (block_data_len m * nblocks (block_data_len m) d <= HUGE_BUFFER_SIZE)
        then ret = len d /\ exists b r, p = Some (b, 0) /\ (b = small_buffer \/ b = huge_buffer) /\ h_buf h' !! b = Some (d ++ r)
        else ret = -22
    end.
Proof.
  unfold ReadCache. hsimp.
  destruct (buffer_run h small_buffer SMALL_BUFFER_SIZE (has_small u) (so_fail _ So) ltac:(by left) eq_refl (bo_small _ _ Hb))
    as (h1 & s1 & E1 & X1 & B1 & L1 & O1). rewrite E1. hsimp. cbn [negb]. hsimp.
  destruct (read_step e st small_buffer SMALL_BUFFER_SIZE (set_small true u) h1 m M k s1)
    as (ret & l & last & m1 & h2 & E2 & X2 & [HM1 Hbd1] & O2 & (s2 & B2 & L2) & F); try done; [by eapply ext_change_key|by left|].
  rewrite E2. hsimp. pose proof (ext_change_trans _ _ _ X1 X2) as X12.
  assert (Hbig : block_data_len m * nblocks (block_data_len m) (default [] (M !! k)) <= SMALL_BUFFER_SIZE ->
    block_data_len m * nblocks (block_data_len m) (default [] (M !! k)) <= HUGE_BUFFER_SIZE).
  { change SMALL_BUFFER_SIZE with 10485760. change HUGE_BUFFER_SIZE with 104857600. lia. }
  assert (Hhuge : has_huge u = true -> exists s, h_buf h2 !! huge_buffer = Some s /\ len s = HUGE_BUFFER_SIZE).
  { intros Hh. rewrite O2, O1 by done. by apply (bo_huge _ _ Hb). }
  assert (Hres : ret = 0 -> read_result st (set_access last st) u (set_mht (storage_idx st) m1 (set_small true u)) M h2).
  { intros ->. split; [done|exists m1; cbn; by rewrite lookup_insert_eq|intros i Hi; cbn; by rewrite lookup_insert_ne|].
    split; cbn; [intros _; eauto|done]. }
  unfold found in F. destruct (M !! k) as [d|] eqn:EM; cbn [default] in Hbig.
  2: { destruct F as [-> ->]. cbn [Z.ltb Z.compare]. hsimp. do 5 eexists. split; [done|]. split; [done|]. split; [by apply Hres|done]. }
  destruct (decide (_ <= SMALL_BUFFER_SIZE)) as [Hfit|Hfit].
  { destruct F as (-> & -> & r & Br). cbn [Z.ltb Z.compare]. hsimp. do 5 eexists. split; [done|]. split; [done|]. split; [by apply Hres|].
    rewrite decide_True by auto. split; [done|]. exists small_buffer, r. split; [done|]. split; [by left|done]. }
  subst ret. cbn [Z.ltb Z.compare Z.eqb Pos.eqb]. unfold read_huge. hsimp.
  destruct (buffer_run h2 huge_buffer HUGE_BUFFER_SIZE (has_huge u)) as (h3 & s3 & E3 & X3 & B3 & L3 & O3); try done;
    [by apply (so_fail _ (ext_change_sound _ _ X12 So))|by right|].
  cbn [has_huge set_mht set_small]. rewrite E3. hsimp. cbn [negb]. hsimp.
  pose proof (ext_change_trans _ _ _ X12 X3) as X13.
  set (st1 := set_access last st). set (u1 := set_huge true _).
  assert (Hm1 : mht u1 !! storage_idx st1 = Some m1) by (cbn; by rewrite lookup_insert_eq).
  destruct (read_step e st1 huge_buffer HUGE_BUFFER_SIZE u1 h3 m1 M k s3)
    as (ret2 & l2 & last2 & m2 & h4 & E4 & X4 & [HM2 _] & O4 & (s4 & B4 & L4) & F4); try done;
    [by eapply (ext_change_key h)|by right| |].
  { rewrite Hbd1. change SMALL_BUFFER_SIZE with 10485760 in Hbd. change HUGE_BUFFER_SIZE with 104857600. lia. }
  rewrite E4. hsimp. pose proof (ext_change_trans _ _ _ X13 X4) as X14.
  assert (Hsmall : h_buf h4 !! small_buffer = Some s2) by (by rewrite O4, O3).
  unfold found in F4. rewrite EM, Hbd1 in F4. destruct (decide (_ <= HUGE_BUFFER_SIZE)) as [Hfit2|Hfit2].
  - destruct F4 as (-> & -> & r & Br). cbn [Z.ltb Z.compare]. hsimp. do 5 eexists. split; [done|]. split; [done|]. split.
    + split; [done|exists m2; cbn; by rewrite lookup_insert_eq|intros i Hi; cbn; by rewrite !lookup_insert_ne|].
      split; cbn; [intros _|intros _]; [|eauto]. exists s2. done.
    + split; [done|]. exists huge_buffer, r. split; [done|]. split; [by right|done].
  - subst ret2. cbn [Z.ltb Z.compare]. unfold drop_buf. hsimp. do 5 eexists. split; [done|]. split.
    { eapply ext_change_trans; [exact X14|]. split; [|done]. intros b H1 H2. cbn. by rewrite lookup_delete_ne. }
    split; [|done].
    split; [done|exists m2; cbn; by rewrite lookup_insert_eq|intros i Hi; cbn; by rewrite !lookup_insert_ne|].
    split; cbn; [intros _|done]. exists s2. rewrite lookup_delete_ne by done. done.
Qed.
End read.

Section operations.
Context (fuel : nat) (FreeDynData : nid -> M unit) (HFree : frees_key FreeDynData).

Lemma Read_run e st u h m M k q :
  sound h -> key_is h (s_key st) k -> tree st = None -> mht u !! storage_idx st = Some m -> map_rep m M ->
  buffers_ok h u -> block_data_len m <= SMALL_BUFFER_SIZE ->
  M !! k = enc_field <$> q -> (forall p, q = Some p -> field_ok p) ->
  exists ret st' u' h', Read fuel FreeDynData e true st u h = Ret (ret, st', u') h' /\
    (exists m', mht u' !! storage_idx st = Some m' /\ map_rep m' M) /\
    (forall i, i <> storage_idx st -> mht u' !! i = mht u !! i) /\
    match q with
    | None => ret = -1 /\ tree st' = None
    | Some p =>
        if decide (block_data_len m * nblocks (block_data_len m) (enc_field p) <= HUGE_BUFFER_SIZE)
        then ret = 0 /\ exists c, tree st' = Some c /\ auto_delete st' = true /\ leaf_of h' c p /\ ~ used h c /\ sound h' /\
          (forall n, n <> c -> n <> s_key st -> nd h' n = nd h n)
        else ret = -2 /\ tree st' = None
    end.
Proof.
  intros So Hk Ht Hm HM Hb Hbd HMk Hq. unfold Read. hsimp.
  destruct (ReadCache_run e st u h m M k So Hk Hm HM Hb Hbd) as (ret & p & st1 & u1 & h1 & E1 & X1 & [(S1 & S2 & S3 & S4) R2 R3 R4] & F).
  rewrite E1. hsimp. rewrite HMk in F. destruct q as [v|]; cbn [fmap option_fmap option_map] in F.
  2: { subst ret. cbn [Z.eqb]. hsimp. do 4 eexists. split; [done|]. split_and!; try done. congruence. }
  pose proof (Hq _ eq_refl) as Hv. pose proof (field_small v Hv) as Hl.
  destruct (decide _) as [Hfit|Hfit].
  2: { subst ret. cbn [Z.eqb Z.ltb Z.compare]. hsimp. do 4 eexists. split; [done|]. split_and!; try done. congruence. }
  destruct F as (-> & b & r & -> & Hbs & Hbr).
  rewrite (proj2 (Z.eqb_neq _ 0)), (proj2 (Z.ltb_ge _ 0)) by lia. hsimp.
  unfold Delete. hsimp. rewrite S3, Ht.
  assert (forall x : bool, (if x then delete_opt fuel None else mret tt) h1 = Ret tt h1) as -> by by intros [].
  hsimp. destruct (HFree (s_key st1) h1) as (h2 & E2 & N2 & B2 & F2 & X2 & So2). rewrite E2. hsimp.
  pose proof (ext_change_key _ _ _ _ X1 Hk) as Hk1. pose proof (ext_change_sound _ _ X1 So) as Hso1.
  assert (sound h2) as Hso2 by (apply So2; [rewrite S1; apply Hk1|done]).
  assert (exists i, b = BExt i) as [i ->] by (destruct Hbs as [-> | ->]; by eexists).
  assert (Hstr : str_at h2 (Some (BExt i, 0)) (len (enc_field v ++ [])) = Some (enc_field v ++ [])).
  { rewrite app_nil_r. apply (str_at_front _ _ _ r). by rewrite B2. }
  destruct (NewBin_own_run fuel h2 (BExt i) 0 v [] Hso2 Hv Hstr) as (c & h3 & E3 & Hu & L & _ & Hso3 & _ & N3 & _);
    [rewrite app_nil_r; lia|done|].
  rewrite app_nil_r in E3. rewrite E3. hsimp. do 4 eexists. split; [done|]. split; [done|]. split; [done|].
  split; [done|]. exists c. split_and!; try done.
  - intros Hc. apply Hu. apply (used_same h h2); [|  |done]; destruct X1 as (_ & _ & ? & ? & _); congruence.
  - intros n Hn Hns. rewrite N3, N2 by congruence. by apply ext_change_nd.
Qed.

Lemma key_is_core h h' n k : same_core h h' -> key_is h n k -> key_is h' n k.
Proof.
  intros (Hc & Hb & Hf & Hn & _) [Hu Hk Hl Ha]. destruct (Hc n) as (x & y & E).
  split; rewrite ?E; try done; [by apply (used_same h)|].
  unfold nkey, key_bytes in *. rewrite E. by rewrite (str_at_buf h h').
Qed.

Lemma Write_run e st u h m M k t j b w :
  key_is h (s_key st) k -> tree st = Some t -> tree_enc j h t b w -> (j <= fuel)%nat -> n_tag (nd h t) <> 0 ->
  mht u !! storage_idx st = Some m -> map_rep m M -> len k <= max_key_len m ->
  nblocks (block_data_len m) w <= MAX_BLOCK_COUNT -> nblocks (block_data_len m) w < free_blocks m -> 0 <= MultiHashTable.e_lock e ->
  exists rc m' M' h', Write fuel e true st u h = Ret (rc, set_mht (storage_idx st) m' u) h' /\ evals h h' /\ evicted k M M' /\
    ((rc = 0 /\ map_rep m' (<[k := w]> M')) \/ (rc = -8 /\ map_rep m' M' /\ (M' = M -> ~ free_list_ok m))).
Proof.
  intros Hk Ht Henc Hj Htag Hm HM Hkm Hmax Hfree Hlock. unfold Write, HasData. hsimp. rewrite Ht. hsimp.
  rewrite (proj2 (Z.eqb_neq _ 0)) by done. cbn [negb].
  destruct (serialize_string_run fuel j h t b w Henc Hj) as (h1 & E1 & V1). hsimp. rewrite E1. hsimp. cbn [Z.eqb negb]. hsimp.
  pose proof (key_is_core _ _ _ _ (ev_core _ _ V1) Hk) as Hk1.
  destruct (key_is_data _ _ _ Hk1) as [Hd Hl]. rewrite Hd. hsimp. rewrite Hm. hsimp. rewrite Hl.
  destruct (tree_enc_field _ _ _ _ _ Henc) as (v & Hv & -> & _). pose proof (field_small _ Hv) as Hlw.
  destruct (ForceSet_run e m M k (enc_field (n_tag (nd h t), v)) HM (ki_len _ _ _ Hk) Hkm) as (rc & m' & M' & -> & Hev & Hcase);
    try done; [intros E; rewrite E, (@len_nil Z) in Hlw; lia|lia|].
  hsimp. exists (if Z.ltb rc 0 then rc else 0), m', M', h1. split; [done|]. split; [done|]. split; [done|].
  destruct Hcase as [[-> ?]|[-> ?]]; [by left|by right].
Qed.

Lemma Erase_run e st u h m M k :
  key_is h (s_key st) k -> mht u !! storage_idx st = Some m -> map_rep m M -> 0 <= MultiHashTable.e_lock e ->
  exists m', Erase e st u h = Ret (if decide (is_Some (M !! k)) then 1 else 0, set_mht (storage_idx st) m' u) h /\
    map_rep m' (delete k M).
Proof.
  intros Hk Hm HM He. unfold Erase. hsimp. destruct (key_is_data _ _ _ Hk) as [Hd Hl]. rewrite Hd. hsimp. rewrite Hm. hsimp.
  rewrite Hl. destruct (EraseData_map e m M k HM (ki_len _ _ _ Hk) He) as (m' & -> & HM'). hsimp. by exists m'.
Qed.

End operations.

(** ** A small cache *)

(** What the library does for the dynamic data of a node's value, done for its key. *)
Lemma frees_key_dyn_free : frees_key (fun n => dyn_free (OfKey n)).
Proof.
  intros n h. unfold dyn_free, get_dyn, put_dyn. hsimp.
  set (d := d_mem (k_dyn (n_key (nd h n)))).
  set (bs := match d with Some i => delete (BMem i) (h_buf h) | None => h_buf h end).
  assert (mem_free d h = Ret tt (set_buf bs h)) as -> by (unfold bs; destruct d; [done|by destruct h]).
  hsimp. eexists. split; [done|].
  assert (Hbs : forall b v, bs !! b = Some v -> h_buf h !! b = Some v).
  { intros b v. unfold bs. destruct d; [|done]. by intros [_ ?]%lookup_delete_Some. }
  split_and!; try done.
  - intros m Hm. by rewrite nd_set, decide_False.
  - intros i. cbn. unfold bs. destruct d; [|done]. by rewrite lookup_delete_ne.
  - intros Hu [Po Ho Sm Fa]. split; [| | |done].
    + apply (pool_ok_frame h); try done. intros m Hm. rewrite nd_set, decide_False; [done|]. by intros ->.
    + intros i Hi. cbn in Hi |- *. destruct (bs !! BMem i) as [v|] eqn:E; [|done]. apply Hbs in E. by rewrite Ho in E.
    + intros m k v. cbn. intros E%Hbs. by eapply Sm.
Qed.

(** Node 1 is a tree with the string "abc", node 2 the key "k1" of a storage. *)
Definition cache_heap : heap :=
  mk_heap (<[1 := set_val (kv_str 3 (Some (BExt 0, 0))) (set_tag 5 node0)]>
            (<[2 := set_key (mk_key KNV_STRING 2 (Some (BExt 1, 0)) dyn0) node0]> ∅))
    [] 3 (<[BExt 0 := txt "abc"]> (<[BExt 1 := txt "k1"]> ∅)) 0 [].

Lemma cache_heap_sound : sound cache_heap.
Proof.
  split; [|by intros i _|by intros n k v|done]. split; [constructor|by intros c Hc%elem_of_nil|].
  intros c Hc. unfold nd, cache_heap in *. cbn in *. by rewrite !lookup_insert_ne by lia.
Qed.

Lemma cache_heap_key : key_is cache_heap 2 (txt "k1").
Proof. split; [by split; [|apply not_elem_of_nil]|done|done|done]. Qed.

Lemma cache_heap_tree : tree_enc 1 cache_heap 1 (txt "abc") (enc_field (5, VStr (txt "abc"))).
Proof. split; [by left|]. cbn. by exists (VStr (txt "abc")). Qed.

Definition cache_tables : tables := mk_tables {[ 0 := sample_mht 8 (Some (LinkTable.sample 6)) ]} 1 0 false false.

Lemma cache_buffers h : buffers_ok h cache_tables.
Proof. by split. Qed.

(** ** Properties *)





(** [Erase] removes the key, and says whether it was there. *)
Theorem cache_erase (e : MultiHashTable.env) (st : UcStorage) (u : tables) (h : heap) (m : MultiHashTable)
    (M : gmap (list Z) bytes) (k : bytes) :
  key_is h (s_key st) k -> mht u !! storage_idx st = Some m -> map_rep m M -> 0 <= MultiHashTable.e_lock e ->
  exists m', Erase e st u h = Ret (if decide (is_Some (M !! k)) then 1 else 0, set_mht (storage_idx st) m' u) h /\
    map_rep m' (delete k M).
Proof. apply Erase_run. Qed.
