(* ===== verification/KnvFields.v ===== *)
(** * Children and fields of nodes (src/knv/knv_node.h, src/knv/knv_node.cc)

    Copies of nodes, insertion of children, the walk over children and metas, and the functions that read and write
    the fields of a message by tag.  The functions for [float] and [double] fields are left out. *)

From S2P Require Import Prelude Pb MemPool KnvHeap KnvNode.

Section children.
Context (fuel : nat).

(** ** Copies *)

(** Models [KnvNode::InnerDuplicate] (src/knv/knv_node.cc:681-739). *)
Definition InnerDuplicate (n : nid) (own_buf force_no_key : bool) : M (option nid) :=
  x ← getn n;
  v ← (if Z.eqb (n_type x) KNV_NODE && Z.eqb (kv_len (n_val x)) 0 && Z.leb 0 (n_child_num x) then
         sz ← EvaluateSize fuel n;
         m ← mem_alloc sz;
         match m with
         | None => mret None
         | Some i =>
             '(ret, pack_len) ← serialize_block fuel n i;
             y ← getn n;
             if negb (ok ret) || negb (Z.eqb (n_eval_val_sz y) pack_len) then mem_free m;; mret None
             else mret (Some (kv_str pack_len (Some (BMem i, 0)), m))
         end
       else mret (Some (n_val x, None)));
  match v with
  | None => mret None
  | Some (v, m) =>
      r ← pool_New;
      match r with
      | None => mem_free m;; mret None
      | Some c =>
          x ← getn n;
          r ← InitNode c (n_tag x) (n_type x) (Some v)
                (match m with Some _ => false | None => own_buf end) true (n_eval_sz x) force_no_key;
          if negb (ok r) then mem_free m;; Delete fuel c;; mret None
          else
            match m with Some _ => dyn_assign (OfVal c) m (kv_len v);; mret tt | None => mret tt end;;
            mret (Some c)
      end
  end.

(** Models [KnvNode::Duplicate] (src/knv/knv_node.cc:742-750). *)
Definition Duplicate (n : nid) (own_buf : bool) : M (option nid) :=
  x ← getn n;
  if Z.eqb (n_tag x) 0 then mret None else InnerDuplicate n own_buf false.

(** Models [KnvNode::DupEmptyNode] (src/knv/knv_node.cc:752-775). *)
Definition DupEmptyNode (n : nid) : M (option nid) :=
  r ← pool_New;
  match r with
  | None => mret None
  | Some c =>
      x ← getn n;
      r ← InitNode c (n_tag x) (n_type x) None false false 0 false;
      if negb (ok r) then Delete fuel c;; mret None
      else
        key_assign c (k_type (n_key x)) (k_len (n_key x)) (k_val (n_key x));;
        dyn_free (OfKey c);;
        when (Z.ltb 0 (k_len (n_key x)))
          (v ← key_GetValue (n_key x); modn c (set_eval_val_sz (eval_len 1 (k_type (n_key x)) v)));;
        mret (Some c)
  end.

(** ** Insertion *)

(** Models [INSERT_CHILD] (src/knv/knv_node.cc:1746-1776). *)
Definition INSERT_CHILD (n c : nid) (at_tail : bool) : M unit :=
  modn n (fun x => set_childlist (if at_tail then n_childlist x ++ [c] else c :: n_childlist x) x);;
  ht_put fuel n c;;
  y ← getn c;
  when (negb (Z.eqb (k_len (n_key y)) 0)) (modn n (set_child_has_key true));;
  modn n (fun x => set_child_num (n_child_num x + 1) x).

(** Models [KnvNode::InnerInsertChild] (src/knv/knv_node.cc:1778-1812). *)
Definition InnerInsertChild (n child : nid) (take_ownership own_buf update_parent at_tail : bool) : M Z :=
  c ← (if take_ownership then mret (Some child)
       else if update_parent then InnerDuplicate child own_buf false
       else InnerDuplicate child false true);
  match c with
  | None => mret (-1)
  | Some c =>
      modn c (set_parent (Some n));;
      INSERT_CHILD n c at_tail;;
      if negb update_parent then
        z ← EvaluateSize fuel c;
        modn n (fun x => set_eval_val_sz (n_eval_val_sz x + z) x);;
        mret 0
      else
        x ← getn n;
        offset ← (if Z.leb 0 (n_eval_sz x) then EvaluateSize fuel c else mret 0);
        changed fuel n offset;;
        mret 0
  end.

(** Models [KnvNode::InsertChild] (src/knv/knv_node.cc:1814-1838). *)
Definition InsertChild (n : nid) (child : option nid) (take_ownership own_buf at_tail : bool) : M Z :=
  x ← getn n;
  if Z.eqb (n_tag x) 0 then mret (-2)
  else if negb (Z.eqb (n_type x) KNV_NODE) then mret (-3)
  else
    r ← (if Z.ltb (n_child_num x) 0 then Expand fuel n else mret 0);
    if negb (ok r) then mret (-4)
    else match child with
         | Some c => InnerInsertChild n c take_ownership own_buf true at_tail
         | None => mret (-5)
         end.

(** What the functions that create a child do with it. *)
(** Models [KnvNode::InsertChild] (src/knv/knv_node.h:515-529). *)
Definition insert_new (n : nid) (c : option nid) (own_buf : bool) : M (option nid) :=
  match c with
  | None => mret None
  | Some c =>
      r ← InsertChild n (Some c) true own_buf true;
      if negb (ok r) then Delete fuel c;; mret None else mret (Some c)
  end.

(** Models [KnvNode::InsertChild] (src/knv/knv_node.h:515-529). *)
Definition InsertChildVal (n : nid) (_tag _type : Z) (_data : option kval) (own_buf : bool) : M (option nid) :=
  c ← New fuel _tag _type KNV_STRING None _data own_buf;
  insert_new n c false.

(** Models [KnvNode::InsertChild] (src/knv/knv_node.h:531-545). *)
Definition InsertChildKey (n : nid) (_tag _type : Z) (_key : knv_key_t) (_data : option kval) (own_buf : bool) : M (option nid) :=
  v ← key_GetValue _key;
  c ← New fuel _tag _type (k_type _key) (Some v) _data own_buf;
  insert_new n c false.

(** Models [KnvNode::InsertSubNode] (src/knv/knv_node.h:547-561). *)
Definition InsertSubNode (n : nid) (_tag : Z) (_key : option knv_key_t) : M (option nid) :=
  c ← NewTree fuel _tag _key;
  insert_new n c true.

(** Models [KnvNode::InsertIntLeaf] (src/knv/knv_node.h:563-567). *)
Definition InsertIntLeaf (n : nid) (_tag _val : Z) : M (option nid) :=
  InsertChildVal n _tag KNV_VARINT (Some (kv_int _val)) true.

(** Models [KnvNode::InsertStrLeaf] (src/knv/knv_node.h:569-575). *)
Definition InsertStrLeaf (n : nid) (_tag : Z) (_val : ptr) (_len : Z) : M (option nid) :=
  InsertChildVal n _tag KNV_STRING (Some (kv_str _len _val)) true.

(** ** Walking *)

(** Models [KnvNode::GetFirstChild] (src/knv/knv_node.cc:1904-1912). *)
Definition GetFirstChild (n : nid) : M (option nid) :=
  r ← Expand fuel n;
  x ← getn n;
  mret (if negb (ok r) || Z.leb (n_child_num x) 0 then None else head (n_childlist x)).

(** Models [KnvNode::GetLastChild] (src/knv/knv_node.cc:1914-1922). *)
Definition GetLastChild (n : nid) : M (option nid) :=
  r ← Expand fuel n;
  x ← getn n;
  mret (if negb (ok r) then None else last (n_childlist x)).

(** Models [KnvNode::GetFirstMeta] (src/knv/knv_node.cc:1938-1946). *)
Definition GetFirstMeta (n : nid) : M (option nid) :=
  r ← Expand fuel n;
  x ← getn n;
  mret (if negb (ok r) || Z.ltb (n_child_num x) 0 then None else head (n_metalist x)).

Fixpoint succ_of (l : list nid) (n : nid) : option nid :=
  match l with
  | [] => None
  | c :: l' => if Z.eqb c n then head l' else succ_of l' n
  end.

(** The list a node is in: that of its parent's children or metas. *)
Definition my_list (n : nid) : M (list nid) :=
  x ← getn n;
  match n_parent x with
  | None => mret [n]
  | Some p =>
      y ← getn p;
      mret (if bool_decide (n ∈ n_childlist y) then n_childlist y
            else if bool_decide (n ∈ n_metalist y) then n_metalist y else [])
  end.

(** The [next] of the node's list; also [GetNextMeta]. *)
(** Models [KnvNode::GetSibling] (src/knv/knv_node.cc:1925-1929). *)
Definition GetSibling (n : nid) : M (option nid) := l ← my_list n; mret (succ_of l n).

(** The [prev] of the first node of a list is the last one. *)
(** Models [KnvNode::GetPrevSibling] (src/knv/knv_node.cc:1931-1935). *)
Definition GetPrevSibling (n : nid) : M (option nid) :=
  l ← my_list n;
  mret (match succ_of (reverse l) n with
        | Some p => Some p
        | None => if bool_decide (n ∈ l) then last l else None
        end).

(** The first node with the tag, from [c] on. *)
Fixpoint skip_to_tag (steps : nat) (c : option nid) (t : Z) : M (option nid) :=
  match c with
  | None => mret None
  | Some c =>
      y ← getn c;
      if Z.eqb (n_tag y) t then mret (Some c)
      else match steps with
           | O => spin
           | S steps' => c' ← GetSibling c; skip_to_tag steps' c' t
           end
  end.

(** Models [KnvNode::GetFirstField] (src/knv/knv_node.h:958-977). *)
Definition GetFirstField (n : nid) (t : Z) : M (option nid) :=
  if negb (Z.eqb t 0) then
    c ← (if Z.leb t UC_MAX_META_NUM then GetFirstMeta n else GetFirstChild n);
    skip_to_tag fuel c t
  else
    c ← GetFirstMeta n;
    match c with Some c => mret (Some c) | None => GetFirstChild n end.

(** Models [KnvNode::GetNextField] (src/knv/knv_node.h:979-997). *)
Definition GetNextField (n : nid) (cur : option nid) (t : Z) : M (option nid) :=
  match cur with
  | None => mret None
  | Some c =>
      if negb (Z.eqb t 0) then c' ← GetSibling c; skip_to_tag fuel c' t
      else
        c' ← GetSibling c;
        match c' with
        | Some c' => mret (Some c')
        | None => x ← getn n; if bool_decide (last (n_metalist x) = Some c) then GetFirstChild n else mret None
        end
  end.

(** ** Reading fields *)

(** Models [KnvNode::GetIntVal] (src/knv/knv_node.h:587-593). *)
Definition GetIntVal (n : nid) : M Z :=
  x ← getn n;
  mret (if Z.eqb (n_type x) KNV_VARINT || Z.eqb (n_type x) KNV_FIXED64 then kv_i64 (n_val x)
        else if Z.eqb (n_type x) KNV_FIXED32 then kv_i32 (n_val x) else 0).

(** Models [KnvNode::GetStrVal] (src/knv/knv_node.h:595-604). *)
Definition GetStrVal (n : nid) : M bytes :=
  l ← GetValue fuel n;
  x ← getn n;
  if (l : bool) && Z.eqb (n_type x) KNV_STRING then read_str (kv_ptr (n_val x)) (kv_len (n_val x)) else mret [].

Definition int_of (c : option nid) : M Z := match c with Some c => GetIntVal c | None => mret 0 end.
Definition str_of (c : option nid) : M bytes := match c with Some c => GetStrVal c | None => mret [] end.

(** Models [KnvNode::GetMetaInt] (src/knv/knv_node.h:606-611). *)
Definition GetMetaInt (n : nid) (t : Z) : M Z := c ← GetMeta fuel n t; int_of c.
(** Models [KnvNode::GetMetaStr] (src/knv/knv_node.h:613-618). *)
Definition GetMetaStr (n : nid) (t : Z) : M bytes := c ← GetMeta fuel n t; str_of c.
(** Models [KnvNode::GetChildInt] (src/knv/knv_node.h:666-672). *)
Definition GetChildInt (n : nid) (t : Z) : M Z := c ← FindChildByTag fuel n t; int_of c.
(** Models [KnvNode::GetChildStr] (src/knv/knv_node.h:674-680). *)
Definition GetChildStr (n : nid) (t : Z) : M bytes := c ← FindChildByTag fuel n t; str_of c.

(** Models [KnvNode::GetField] (src/knv/knv_node.h:753-759). *)
Definition GetField (n : nid) (t : Z) : M (option nid) :=
  if Z.leb t UC_MAX_META_NUM then GetMeta fuel n t else FindChildByTag fuel n t.
(** Models [KnvNode::GetFieldInt] (src/knv/knv_node.h:727-733). *)
Definition GetFieldInt (n : nid) (t : Z) : M Z :=
  if Z.leb t UC_MAX_META_NUM then GetMetaInt n t else GetChildInt n t.
(** Models [KnvNode::GetFieldSInt] (src/knv/knv_node.h:735-739). *)
Definition GetFieldSInt (n : nid) (t : Z) : M Z := i ← GetFieldInt n t; mret (pb_uint2int i).
(** Models [KnvNode::GetFieldStr] (src/knv/knv_node.h:918-924). *)
Definition GetFieldStr (n : nid) (t : Z) : M bytes :=
  if Z.leb t UC_MAX_META_NUM then GetMetaStr n t else GetChildStr n t.

(** The loop of the [GetFields] functions; [body] gives what is pushed, if anything. *)
(** Models [KnvNode::GetFields] (src/knv/knv_node.h:845-856). *)
Fixpoint fields_loop {A} (steps : nat) (n : nid) (f : option nid) (t : Z) (body : nid -> M (option A)) : M (list A) :=
  match f with
  | None => mret []
  | Some c =>
      match steps with
      | O => spin
      | S steps' =>
          v ← body c;
          f' ← GetNextField n (Some c) t;
          l ← fields_loop steps' n f' t body;
          mret (match v with Some a => a :: l | None => l end)
      end
  end.

Definition fields {A} (n : nid) (t : Z) (body : nid -> M (option A)) : M (list A) :=
  f ← GetFirstField n t; fields_loop fuel n f t body.

(** Models [KnvNode::GetFields] (src/knv/knv_node.h:845-856). *)
Definition GetFields (n : nid) (t : Z) : M (list nid) := fields n t (fun c => mret (Some c)).
(** Models [KnvNode::GetFieldsInt] (src/knv/knv_node.h:761-775). *)
Definition GetFieldsInt (n : nid) (t : Z) : M (list Z) :=
  fields n t (fun c => x ← getn c; mret (if Z.eqb (n_type x) KNV_STRING then None else Some (kv_i64 (n_val x)))).
(** Models [KnvNode::GetFieldsSInt] (src/knv/knv_node.h:777-791). *)
Definition GetFieldsSInt (n : nid) (t : Z) : M (list Z) :=
  fields n t (fun c => x ← getn c; mret (if Z.eqb (n_type x) KNV_VARINT then Some (pb_uint2int (kv_i64 (n_val x))) else None)).
(** Models [KnvNode::GetFieldsStr] (src/knv/knv_node.h:829-843). *)
Definition GetFieldsStr (n : nid) (t : Z) : M (list bytes) :=
  fields n t (fun c => x ← getn c; if Z.eqb (n_type x) KNV_STRING then s ← GetStrVal c; mret (Some s) else mret None).

(** ** Writing fields *)

(** Models [KnvNode::SetChild] (src/knv/knv_node.h:682-705). *)
Definition SetChild (n : nid) (_tag _type : Z) (v : kval) : M Z :=
  c ← FindChildByTag fuel n _tag;
  match c with
  | Some c =>
      y ← getn c;
      if (Z.eqb _type KNV_STRING && negb (Z.eqb (n_type y) _type))
         || (negb (Z.eqb _type KNV_STRING) && Z.eqb (n_type y) KNV_STRING) then mret (-2)
      else r ← SetValue fuel c _type v true; mret (if negb (ok r) then -1 else 0)
  | None =>
      c ← InsertChildVal n _tag _type (Some v) true;
      mret (match c with Some _ => 0 | None => -3 end)
  end.

(** Models [KnvNode::AddChild] (src/knv/knv_node.h:707-710). *)
Definition AddChild (n : nid) (_tag _type : Z) (v : kval) : M Z :=
  c ← InsertChildVal n _tag _type (Some v) true; mret (match c with Some _ => 0 | None => -1 end).

(** Models [KnvNode::SetFieldInt] (src/knv/knv_node.h:926-932). *)
Definition SetFieldInt (n : nid) (t x : Z) : M Z :=
  if Z.leb t UC_MAX_META_NUM then SetMeta fuel n t KNV_VARINT (Some (kv_int x)) else SetChild n t KNV_VARINT (kv_int x).
(** Models [KnvNode::SetFieldSInt] (src/knv/knv_node.h:858-862). *)
Definition SetFieldSInt (n : nid) (t x : Z) : M Z := SetFieldInt n t (pb_int2uint x).
(** Models [KnvNode::SetFieldStr] (src/knv/knv_node.h:934-940). *)
Definition SetFieldStr (n : nid) (t l : Z) (p : ptr) : M Z :=
  if Z.leb t UC_MAX_META_NUM then SetMeta fuel n t KNV_STRING (Some (kv_str l p)) else SetChild n t KNV_STRING (kv_str l p).
(** Models [KnvNode::AddFieldInt] (src/knv/knv_node.h:942-948). *)
Definition AddFieldInt (n : nid) (t x : Z) : M Z :=
  if Z.leb t UC_MAX_META_NUM then AddMeta fuel n t KNV_VARINT (Some (kv_int x)) else AddChild n t KNV_VARINT (kv_int x).
(** Models [KnvNode::AddFieldStr] (src/knv/knv_node.h:950-956). *)
Definition AddFieldStr (n : nid) (t l : Z) (p : ptr) : M Z :=
  if Z.leb t UC_MAX_META_NUM then AddMeta fuel n t KNV_STRING (Some (kv_str l p)) else AddChild n t KNV_STRING (kv_str l p).
(** Models [KnvNode::RemoveField] (src/knv/knv_node.h:910-916). *)
Definition RemoveField (n : nid) (t : Z) : M Z :=
  if Z.leb t UC_MAX_META_NUM then RemoveMetaByTag fuel n t else RemoveChildrenByTag fuel n t.

(** Models [KnvNode::Remove] (src/knv/knv_node.h:1000-1014). *)
Definition Remove (n : nid) : M Z :=
  x ← getn n;
  match n_parent x with
  | None => Delete fuel n;; mret 0
  | Some p => b ← RemoveChildByPos fuel p n None; mret (if (b : bool) then 0 else -1)
  end.

(** Models [KnvNode::Detach] (src/knv/knv_node.h:1017-1027). *)
Definition Detach (n : nid) : M Z :=
  x ← getn n;
  match n_parent x with
  | None => mret 0
  | Some p => b ← DetachChild fuel p n; mret (if (b : bool) then 0 else -1)
  end.

End children.
