(* ===== verification/KnvFloat.v ===== *)
(** * Floating-point fields, and the short forms of the field functions (src/knv/knv_node.h)

    A [float] or [double] is its bits, a number of 32 or 64 bits.  The only function that computes with one is the
    conversion of a [uint64_t] in AddFieldFloat and AddFieldDouble, which rounds to the nearest number and, between two, to
    the even one.  Also here: the functions that make a value for another one, the key constructors and the order of keys. *)

From S2P Require Import Prelude Pb MemPool KnvHeap KnvHt KnvNode KnvFields.

(** ** Conversion *)

(** The bits of the floating-point number for [n], with [p] bits after the point and the exponent [bias]. *)
Definition float_bits (p bias n : Z) : Z :=
  if Z.eqb n 0 then 0
  else
    let e := Z.log2 n in
    let d := e - p in
    let q := if Z.leb d 0 then n * 2 ^ (- d) else n / 2 ^ d in
    let r := if Z.leb d 0 then 0 else n mod 2 ^ d in
    let half := if Z.leb d 0 then 1 else 2 ^ d in
    let up := Z.ltb half (2 * r) || (Z.eqb half (2 * r) && Z.odd q) in
    (e + bias) * 2 ^ p + (if up then q + 1 else q) - 2 ^ p.
Definition float_of_uint : Z -> Z := float_bits 23 127.
Definition double_of_uint : Z -> Z := float_bits 52 1023.

(** The number that the bits of a number that is not below 1 and has no part after the point stand for. *)
Definition float_value (p bias b : Z) : Z :=
  let e := b / 2 ^ p - bias - p in
  let m := b mod 2 ^ p + 2 ^ p in
  if Z.ltb e 0 then m / 2 ^ (- e) else m * 2 ^ e.

(** A number with no more than [p + 1] bits is converted exactly. *)
Lemma float_bits_exact p bias n : 0 <= p -> 0 < n < 2 ^ (p + 1) -> float_value p bias (float_bits p bias n) = n.
Proof.
  intros Hp Hn. unfold float_bits. rewrite (proj2 (Z.eqb_neq n 0)) by lia. set (e := Z.log2 n).
  assert (He : 0 <= e <= p). { split; [apply Z.log2_nonneg|]. apply Z.lt_succ_r, Z.log2_lt_pow2; [lia|]. replace (Z.succ p) with (p + 1) by lia. lia. }
  rewrite (proj2 (Z.leb_le (e - p) 0)) by lia. change (2 * 0) with 0. cbn [Z.ltb Z.eqb Z.compare orb andb].
  destruct (Z.log2_spec n ltac:(lia)) as [H1 H2]. fold e in H1, H2. replace (- (e - p)) with (p - e) by lia.
  assert (Hpow : 2 ^ p = 2 ^ e * 2 ^ (p - e)) by (rewrite <- Z.pow_add_r by lia; f_equal; lia).
  assert (0 < 2 ^ (p - e)) by lia. rewrite Z.pow_succ_r in H2 by lia.
  set (q := n * 2 ^ (p - e)). assert (Hq : 2 ^ p <= q < 2 * 2 ^ p) by (unfold q; nia). unfold float_value.
  replace ((e + bias) * 2 ^ p + q - 2 ^ p) with ((q - 2 ^ p) + (e + bias) * 2 ^ p) by lia.
  assert (0 < 2 ^ p) by lia. rewrite Z.div_add, (Z.div_small (q - 2 ^ p)), Z.mod_add, Z.mod_small by lia.
  replace (q - 2 ^ p + 2 ^ p) with q by lia. replace (0 + (e + bias) - bias - p) with (e - p) by lia.
  destruct (Z.ltb_spec (e - p) 0).
  - replace (- (e - p)) with (p - e) by lia. unfold q. apply Z.div_mul. lia.
  - assert (e = p) as E by lia. unfold q. rewrite E, Z.sub_diag. cbn. lia.
Qed.

Example some_floats : (float_of_uint 1, float_of_uint 16777217, float_of_uint 16777219, double_of_uint 3) =
  (0x3f800000, 0x4b800000, 0x4b800002, 0x4008000000000000).
Proof. reflexivity. Qed.

Section float_fields.
Context (fuel : nat).

(** ** Short forms *)

(** Models [KnvNode::New] (src/knv/knv_node.h:477-480). *)
Definition New_string (bin : ptr) (length : Z) (own_buf : bool) : M (option nid) := NewBin fuel bin length own_buf.
(** Models [KnvNode::New] (src/knv/knv_node.h:482-485). *)
Definition New_key (_tag _type : Z) (_key : knv_key_t) (_val : option kval) (own_buf : bool) : M (option nid) :=
  v ← key_GetValue _key; New fuel _tag _type (k_type _key) (Some v) _val own_buf.
(** Models [KnvNode::New] (src/knv/knv_node.h:492-495). *)
Definition New_leaf (l : nid) (own_buf : bool) : M (option nid) :=
  x ← getn l; New fuel (n_tag x) (n_type x) KNV_STRING None (Some (n_val x)) own_buf.

(** Models [KnvNode::AddChildInt] (src/knv/knv_node.h:577-580). *)
Definition AddChildInt (n : nid) (_tag _val : Z) : M Z :=
  c ← InsertIntLeaf fuel n _tag _val; mret (match c with Some _ => 0 | None => -1 end).
(** Models [KnvNode::AddChildStr] (src/knv/knv_node.h:582-585). *)
Definition AddChildStr (n : nid) (_tag _len : Z) (_val : ptr) : M Z :=
  c ← InsertStrLeaf fuel n _tag _val _len; mret (match c with Some _ => 0 | None => -1 end).
(** Models [KnvNode::SetMetaInt] (src/knv/knv_node.h:628-633). *)
Definition SetMetaInt (n : nid) (_tag _val : Z) : M Z := SetMeta fuel n _tag KNV_VARINT (Some (kv_int _val)).
(** Models [KnvNode::SetMetaStr] (src/knv/knv_node.h:635-641). *)
Definition SetMetaStr (n : nid) (_tag _len : Z) (_val : ptr) : M Z := SetMeta fuel n _tag KNV_STRING (Some (kv_str _len _val)).
(** Models [KnvNode::AddMetaInt] (src/knv/knv_node.h:651-656). *)
Definition AddMetaInt (n : nid) (_tag _val : Z) : M Z := AddMeta fuel n _tag KNV_VARINT (Some (kv_int _val)).
(** Models [KnvNode::AddMetaStr] (src/knv/knv_node.h:658-664). *)
Definition AddMetaStr (n : nid) (_tag _len : Z) (_val : ptr) : M Z := AddMeta fuel n _tag KNV_STRING (Some (kv_str _len _val)).
(** Models [KnvNode::SetChildInt] (src/knv/knv_node.h:712-717). *)
Definition SetChildInt (n : nid) (_tag _val : Z) : M Z := SetChild fuel n _tag KNV_VARINT (kv_int _val).
(** Models [KnvNode::SetChildStr] (src/knv/knv_node.h:719-725). *)
Definition SetChildStr (n : nid) (_tag _len : Z) (_val : ptr) : M Z := SetChild fuel n _tag KNV_STRING (kv_str _len _val).
(** Models [KnvNode::AddFieldSInt] (src/knv/knv_node.h:884-888). *)
Definition AddFieldSInt (n : nid) (_tag _val : Z) : M Z := AddFieldInt fuel n _tag (pb_int2uint _val).

(** ** Floating-point fields *)

(** The first four bytes of the number read. *)
(** Models [KnvNode::GetFieldFloat] (src/knv/knv_node.h:741-745). *)
Definition GetFieldFloat (n : nid) (_tag : Z) : M Z := i ← GetFieldInt fuel n _tag; mret (u32 i).
(** Models [KnvNode::GetFieldDouble] (src/knv/knv_node.h:747-751). *)
Definition GetFieldDouble (n : nid) (_tag : Z) : M Z := i ← GetFieldInt fuel n _tag; mret (u64 i).
(** Models [KnvNode::GetFieldsFloat] (src/knv/knv_node.h:793-809). *)
Definition GetFieldsFloat (n : nid) (_tag : Z) : M (list Z) :=
  fields fuel n _tag (fun c => x ← getn c; mret (if Z.eqb (n_type x) KNV_FIXED32 then Some (u32 (kv_i32 (n_val x))) else None)).
(** Models [KnvNode::GetFieldsDouble] (src/knv/knv_node.h:811-827). *)
Definition GetFieldsDouble (n : nid) (_tag : Z) : M (list Z) :=
  fields fuel n _tag (fun c => x ← getn c; mret (if Z.eqb (n_type x) KNV_FIXED64 then Some (u64 (kv_i64 (n_val x))) else None)).

Definition set_field (n : nid) (_tag _type : Z) (v : kval) : M Z :=
  if Z.leb _tag UC_MAX_META_NUM then SetMeta fuel n _tag _type (Some v) else SetChild fuel n _tag _type v.
Definition add_field (n : nid) (_tag _type : Z) (v : kval) : M Z :=
  if Z.leb _tag UC_MAX_META_NUM then AddMeta fuel n _tag _type (Some v) else AddChild fuel n _tag _type v.

(** Models [KnvNode::SetFieldFloat] (src/knv/knv_node.h:864-872). *)
Definition SetFieldFloat (n : nid) (_tag _val : Z) : M Z := set_field n _tag KNV_FIXED32 (kv_int (u32 _val)).
(** Models [KnvNode::SetFieldDouble] (src/knv/knv_node.h:874-882). *)
Definition SetFieldDouble (n : nid) (_tag _val : Z) : M Z := set_field n _tag KNV_FIXED64 (kv_int (u64 _val)).
(** The parameter is a [uint64_t]: it is converted to a [float], not taken for the bits of one. *)
(** Models [KnvNode::AddFieldFloat] (src/knv/knv_node.h:890-898). *)
Definition AddFieldFloat (n : nid) (_tag _val : Z) : M Z := add_field n _tag KNV_FIXED32 (kv_int (float_of_uint (u64 _val))).
(** Models [KnvNode::AddFieldDouble] (src/knv/knv_node.h:900-908). *)
Definition AddFieldDouble (n : nid) (_tag _val : Z) : M Z := add_field n _tag KNV_FIXED64 (kv_int (double_of_uint (u64 _val))).

End float_fields.

(** ** Keys *)

(** Models [knv_key_t::GetIntVal] (src/knv/knv_node.h:95-95). *)
Definition key_GetIntVal (k : knv_key_t) : M Z :=
  if bool_decide (k_val k = None) then mret 0 else s ← read_str (k_val k) (Z.min (k_len k) 8); mret (le_combine s).
(** Models [knv_key_t::GetStrVal] (src/knv/knv_node.h:96-96). *)
Definition key_GetStrVal (k : knv_key_t) : M bytes := read_str (k_val k) (k_len k).

(** [memcmp(a, b, n) < 0] *)
Fixpoint less (a b : bytes) : bool :=
  match a, b with
  | x :: a, y :: b => Z.ltb x y || (Z.eqb x y && less a b)
  | _, _ => false
  end.

(** As many bytes of the second key are compared as the first one has. *)
(** Models [knv_key_t::operator<] (src/knv/knv_node.h:82-82). *)
Definition key_lt (k k' : knv_key_t) : M bool :=
  if Z.ltb (k_type k) (k_type k') || Z.ltb (k_len k) (k_len k') then mret true
  else if Z.eqb (k_len k) 0 then mret false
  else a ← read_str (k_val k) (k_len k); b ← read_str (k_val k') (k_len k); mret (less a b).

(** ** Examples *)

Definition with_bytes (l : list (Z * bytes)) : heap :=
  mk_heap ∅ [] 1 (list_to_map ((fun p => (BExt p.1, p.2)) <$> l)) 0 [].
Definition ext_key (i l : Z) : knv_key_t := mk_key KNV_STRING l (Some (BExt i, 0)) dyn0.

(** Of two keys each can be less than the other, and a shorter key is read past its end. *)
Example key_order :
  let h := with_bytes [(1, txt "b"); (2, txt "aa")] in
  key_lt (ext_key 1 1) (ext_key 2 2) h = Ret true h /\ key_lt (ext_key 2 2) (ext_key 1 1) h = Crash /\
  let h := with_bytes [(1, txt "bx"); (2, txt "aa")] in
  key_lt (ext_key 1 1) (ext_key 2 2) h = Ret true h /\ key_lt (ext_key 2 2) (ext_key 1 1) h = Ret true h.
Proof. vm_compute. split_and!; reflexivity. Qed.

(** What is set is read; what is added as the bits of 1.5 is read as the bits of 1069547520. *)
Example float_fields_read :
  match (t ← NewTree 9 50 None;
         match t with
         | Some t => SetFieldFloat 9 t 20 0x3fc00000;; SetFieldDouble 9 t 2 0x3ff8000000000000;; AddFieldFloat 9 t 30 0x3fc00000;;
                     a ← GetFieldFloat 9 t 20; b ← GetFieldDouble 9 t 2; c ← GetFieldFloat 9 t 30; l ← GetFieldsFloat 9 t 20; mret (a, b, c, l)
         | None => mret (0, 0, 0, [])
         end) (with_bytes []) with Ret r _ => r | _ => (0, 0, 0, []) end =
  (0x3fc00000, 0x3ff8000000000000, float_of_uint 1069547520, [0x3fc00000]).
Proof. vm_compute. reflexivity. Qed.
