(* ===== verification/ResultSet.v ===== *)
(** * Result sets (src/mysql_proxy_server.cpp: PackResult; src/mysql_proxy_api.cpp: mysql_proxy_fetch_row and the like)

    The server packs a result of the database into a tree, sends the tree as a message, and the client walks the
    tree it makes from the message.  Both sides use the tree library as it is (KnvNode.v, KnvFields.v).  A row that is
    handed out is a list of cells, [None] for a NULL pointer, otherwise the bytes before the final 0. *)

From S2P Require Import Prelude Pb MemPool Keys KnvHeap KnvHt KnvNode KnvSize KnvExpand KnvFields.

(** ** The server's side *)

(** A result of the MySQL client library: for each row its cells and, unless [mysql_fetch_lengths] fails, their
    lengths. *)
Record mysql_res := mk_res {
  mr_num_rows : Z; mr_num_fields : Z; mr_fields : list bytes; mr_rows : list (list (option bytes) * option (list Z)) }.

(** [s] in memory the tree library does not own. *)
Definition foreign : Z := -3.
Definition lend (s : bytes) : M ptr := fun h => Ret (Some (BExt foreign, 0)) (set_buf (<[BExt foreign := s]> (h_buf h)) h).

(** Models [max_row_num_for_each_set] (src/mysql_proxy_server.cpp:726-726). *)
Definition max_row_num_for_each_set : Z := 10000.

Section pack.
Context (fuel : nat).

(** A subnode of [n] whose key is the string [s]. *)
Definition add_named (n : nid) (tag : Z) (s : bytes) : M (option nid) :=
  p ← lend s; InsertSubNode fuel n tag (Some (mk_key KNV_STRING (u16 (len s)) p dyn0)).

(** Models [PackResult] (src/mysql_proxy_server.cpp:758-771). *)
Fixpoint pack_fields (fieldstree : nid) (l : list bytes) : M bool :=
  match l with
  | [] => mret true
  | name :: l' =>
      c ← add_named fieldstree 11 name;
      match c with None => mret false | Some _ => pack_fields fieldstree l' end
  end.

(** [row[i]] for [i] from [i0] on; [None] in place of the lengths when they could not be had. *)
(** Models [PackResult] (src/mysql_proxy_server.cpp:809-819). *)
Fixpoint pack_cells (subtree : nid) (i : Z) (row : list (option bytes)) (lengths : option (list Z)) : M unit :=
  match row with
  | [] => mret tt
  | cell :: row' =>
      match cell with
      | None => mret tt
      | Some s =>
          l ← match lengths with
              | Some ls => lift (head ls)
              | None => mret (len (c_str s))
              end;
          p ← lend s;
          AddFieldStr fuel subtree (11 + i) (u32 l) p;;
          mret tt
      end;;
      pack_cells subtree (i + 1) row' (tail <$> lengths)
  end.

(** Row [r] is put into the current set; the result is the set for the next row. *)
(** Models [PackResult] (src/mysql_proxy_server.cpp:779-825). *)
Definition pack_row (tree : nid) (num_fields r : Z) (settree : option nid) (row : list (option bytes) * option (list Z))
    : M (option (option nid)) :=
  st ← match settree with
       | Some s => mret (Some s)
       | None => add_named tree 12 (txt "set " ++ dec (r / max_row_num_for_each_set))
       end;
  match st with
  | None => mret None
  | Some st =>
      subtree ← add_named st 11 (txt "row " ++ dec r);
      match subtree with
      | None => mret None
      | Some sub =>
          pack_cells sub 0 (take (Z.to_nat num_fields) row.1) row.2;;
          if negb (Z.eqb r 0) && Z.eqb (r mod max_row_num_for_each_set) 0 then
            GetValue fuel st;;
            mret (Some None)
          else mret (Some (Some st))
      end
  end.

(** Models [PackResult] (src/mysql_proxy_server.cpp:775-826). *)
Fixpoint pack_rows (tree : nid) (num_fields r : Z) (settree : option nid) (l : list (list (option bytes) * option (list Z)))
    : M bool :=
  match l with
  | [] => mret true
  | row :: l' =>
      s ← pack_row tree num_fields r settree row;
      match s with None => mret false | Some s => pack_rows tree num_fields (r + 1) s l' end
  end.

(** [reqkey] is the text of the request's key, [now] the time. *)
(** Models [PackResult] (src/mysql_proxy_server.cpp:728-831). *)
Definition PackResult (result : mysql_res) (reqkey : bytes) (now : Z) : M (option nid) :=
  p ← lend reqkey;
  t ← NewTree fuel 1 (Some (mk_key KNV_STRING (u16 (len reqkey)) p dyn0));
  match t with
  | None => mret None
  | Some tree =>
      let num_rows := u32 (mr_num_rows result) in
      let num_fields := u32 (mr_num_fields result) in
      SetFieldInt fuel tree 2 now;;
      SetFieldInt fuel tree 3 num_rows;;
      SetFieldInt fuel tree 4 num_fields;;
      ft ← add_named tree 11 (txt "fields");
      match ft with
      | None => Delete fuel tree;; mret None
      | Some fieldstree =>
          b ← pack_fields fieldstree (mr_fields result);
          if negb (b : bool) then Delete fuel tree;; mret None
          else
            b ← pack_rows tree num_fields 0 None (mr_rows result);
            if negb (b : bool) then Delete fuel tree;; mret None
            else mret (Some tree)
      end
  end.

End pack.

(** ** The client's side *)

(** [all_fields] has [None] where nothing was written. *)
(** Models [MYSQL_PROXY_RES] (src/mysql_proxy_api.cpp:564-581). *)
Record MYSQL_PROXY_RES := mk_result {
  datatree : option nid; current_row : option nid; current_field : option nid;
  current_row_fields : option (list (option bytes)); current_row_lengths : option (list Z);
  all_fields : option (list (option (bytes * Z))); current_field_val : bytes * Z }.

(** Models [mysql_proxy_store_result] (src/mysql_proxy_api.cpp:588-592). *)
Definition new_result (t : nid) : MYSQL_PROXY_RES := mk_result (Some t) None None None None None ([], 0).

Definition set_row (c : option nid) (r : MYSQL_PROXY_RES) : MYSQL_PROXY_RES :=
  mk_result (datatree r) c (current_field r) (current_row_fields r) (current_row_lengths r) (all_fields r) (current_field_val r).
Definition set_field (c : option nid) (r : MYSQL_PROXY_RES) : MYSQL_PROXY_RES :=
  mk_result (datatree r) (current_row r) c (current_row_fields r) (current_row_lengths r) (all_fields r) (current_field_val r).
Definition set_lengths (l : option (list Z)) (r : MYSQL_PROXY_RES) : MYSQL_PROXY_RES :=
  mk_result (datatree r) (current_row r) (current_field r) (current_row_fields r) l (all_fields r) (current_field_val r).
Definition set_cells (l : option (list (option bytes))) (r : MYSQL_PROXY_RES) : MYSQL_PROXY_RES :=
  mk_result (datatree r) (current_row r) (current_field r) l (current_row_lengths r) (all_fields r) (current_field_val r).
Definition set_all (l : option (list (option (bytes * Z)))) (r : MYSQL_PROXY_RES) : MYSQL_PROXY_RES :=
  mk_result (datatree r) (current_row r) (current_field r) (current_row_fields r) (current_row_lengths r) l (current_field_val r).
Definition set_field_val (v : bytes * Z) (r : MYSQL_PROXY_RES) : MYSQL_PROXY_RES :=
  mk_result (datatree r) (current_row r) (current_field r) (current_row_fields r) (current_row_lengths r) (all_fields r) v.

(** Models [mysql_free_result_resource] (src/mysql_proxy_api.cpp:602-628). *)
Definition mysql_free_result_resource (r : MYSQL_PROXY_RES) (free_row free_lengths free_fields : bool) : MYSQL_PROXY_RES :=
  let r := if free_row then set_cells None r else r in
  let r := if free_lengths then set_lengths None r else r in
  if free_fields then set_all None r else r.

(** Models [KNV_FIELDLIST_TAG] (src/mysql_proxy_api.cpp:686-686). *)
Definition KNV_FIELDLIST_TAG : Z := 11.
(** Models [KNV_SETS_TAG] (src/mysql_proxy_api.cpp:688-688). *)
Definition KNV_SETS_TAG : Z := 12.
(** Models [KNV_ROWS_FIELD_START_TAG] (src/mysql_proxy_api.cpp:690-690). *)
Definition KNV_ROWS_FIELD_START_TAG : Z := 11.
(** Models [KNV_ROW_NUM_TAG] (src/mysql_proxy_api.cpp:691-691). *)
Definition KNV_ROW_NUM_TAG : Z := 3.
(** Models [KNV_FIELD_NUM_TAG] (src/mysql_proxy_api.cpp:692-692). *)
Definition KNV_FIELD_NUM_TAG : Z := 4.

Section fetch.
Context (fuel : nat).

(** Models [mysql_proxy_free_result] (src/mysql_proxy_api.cpp:630-642). *)
Definition mysql_proxy_free_result (res : option MYSQL_PROXY_RES) : M unit :=
  match res with
  | None => mret tt
  | Some r => match datatree r with Some t => Delete fuel t | None => mret tt end
  end.

(** Models [mysql_proxy_num_rows] (src/mysql_proxy_api.cpp:694-700). *)
Definition mysql_proxy_num_rows (r : MYSQL_PROXY_RES) : M Z :=
  match datatree r with Some t => v ← GetFieldInt fuel t KNV_ROW_NUM_TAG; mret (u64 v) | None => mret 0 end.

(** Models [mysql_proxy_num_fields] (src/mysql_proxy_api.cpp:809-815). *)
Definition mysql_proxy_num_fields (r : MYSQL_PROXY_RES) : M Z :=
  match datatree r with Some t => v ← GetFieldInt fuel t KNV_FIELD_NUM_TAG; mret (u32 v) | None => mret 0 end.

(** One cell of the row [c]. *)
(** Models [FetchRow] (src/mysql_proxy_api.cpp:716-727). *)
Definition fetch_cell (c : nid) (i : Z) : M (option bytes) :=
  n ← GetField fuel c (KNV_ROWS_FIELD_START_TAG + i);
  match n with Some n => s ← GetStrVal fuel n; mret (Some s) | None => mret None end.

(** [f] for [i], [i + 1] and so on, [k] times. *)
Fixpoint each_index {A} (k : nat) (i : Z) (f : Z -> M A) : M (list A) :=
  match k with
  | O => mret []
  | S k' => a ← f i; l ← each_index k' (i + 1) f; mret (a :: l)
  end.

(** Models [FetchRow] (src/mysql_proxy_api.cpp:702-732). *)
Definition FetchRow (r : MYSQL_PROXY_RES) : M (option (list (option bytes)) * MYSQL_PROXY_RES) :=
  match current_row r with
  | None => mret (None, r)
  | Some c =>
      let r := mysql_free_result_resource r true false false in
      n ← mysql_proxy_num_fields r;
      if Z.eqb n 0 then mret (None, r)
      else
        cells ← each_index (Z.to_nat n) 0 (fetch_cell c);
        mret (Some cells, set_cells (Some cells) r)
  end.

(** The first row of the first set that has one, from [set_tree] on. *)
(** Models [mysql_proxy_fetch_row] (src/mysql_proxy_api.cpp:741-757). *)
Fixpoint first_row (steps : nat) (set_tree : option nid) : M (option nid) :=
  match set_tree with
  | None => mret None
  | Some s =>
      match steps with
      | O => spin
      | S steps' =>
          x ← getn s;
          if negb (Z.eqb (n_tag x) KNV_SETS_TAG) then s' ← GetSibling s; first_row steps' s'
          else
            c ← GetFirstChild fuel s;
            match c with
            | None => s' ← GetSibling s; first_row steps' s'
            | Some c => mret (Some c)
            end
      end
  end.

(** The row after [c]; a set that was read is taken out of the tree. *)
(** Models [mysql_proxy_fetch_row] (src/mysql_proxy_api.cpp:761-801). *)
Definition next_row (c : nid) : M (option nid) :=
  nx ← GetSibling c;
  match nx with
  | Some n => mret (Some n)
  | None =>
      x ← getn c;
      match n_parent x with
      | None => mret None
      | Some s => s' ← GetSibling s; Remove fuel s;; first_row fuel s'
      end
  end.

(** Models [mysql_proxy_fetch_row] (src/mysql_proxy_api.cpp:734-807). *)
Definition mysql_proxy_fetch_row (r : MYSQL_PROXY_RES) : M (option (list (option bytes)) * MYSQL_PROXY_RES) :=
  match datatree r with
  | None => mret (None, r)
  | Some t =>
      c ← match current_row r with
          | None => s ← GetFirstChild fuel t; first_row fuel s
          | Some c => next_row c
          end;
      FetchRow (set_row c r)
  end.

(** [strncpy] into [name], whose last byte is then set to 0. *)
(** Models [FetchField] (src/mysql_proxy_api.cpp:817-828). *)
Definition FetchField (r : MYSQL_PROXY_RES) : M (option (bytes * Z) * MYSQL_PROXY_RES) :=
  match current_field r with
  | None => mret (None, r)
  | Some c =>
      name ← GetFieldStr fuel c 1;
      let v := (take 255 (c_str name), s32 (len name)) in
      mret (Some v, set_field_val v r)
  end.

(** Models [mysql_proxy_fetch_field] (src/mysql_proxy_api.cpp:830-851). *)
Definition mysql_proxy_fetch_field (r : MYSQL_PROXY_RES) : M (option (bytes * Z) * MYSQL_PROXY_RES) :=
  match datatree r with
  | None => mret (None, r)
  | Some t =>
      match current_field r with
      | None =>
          ft ← GetField fuel t KNV_FIELDLIST_TAG;
          match ft with
          | None => mret (None, r)
          | Some ft => c ← GetFirstChild fuel ft; FetchField (set_field c r)
          end
      | Some c => c' ← GetSibling c; FetchField (set_field c' r)
      end
  end.

(** [i] is not compared with the size of the array. *)
(** Models [mysql_proxy_fetch_fields] (src/mysql_proxy_api.cpp:866-871). *)
Fixpoint fields_from (steps : nat) (i : nat) (l : list (option (bytes * Z))) (r : MYSQL_PROXY_RES)
    : M (list (option (bytes * Z)) * MYSQL_PROXY_RES) :=
  match steps with
  | O => spin
  | S steps' =>
      '(f, r) ← mysql_proxy_fetch_field r;
      match f with
      | None => mret (l, r)
      | Some v => if Nat.ltb i (length l) then fields_from steps' (S i) (<[i := Some v]> l) r else crash
      end
  end.

(** Models [mysql_proxy_fetch_fields] (src/mysql_proxy_api.cpp:853-875). *)
Definition mysql_proxy_fetch_fields (r : MYSQL_PROXY_RES) : M (option (list (option (bytes * Z))) * MYSQL_PROXY_RES) :=
  n ← mysql_proxy_num_fields r;
  if Z.leb n 0 then mret (None, r)
  else
    let r := set_field None (mysql_free_result_resource r false false true) in
    '(l, r) ← fields_from fuel 0 (replicate (Z.to_nat n) None) r;
    mret (Some l, set_all (Some l) r).

(** Models [mysql_proxy_fetch_lengths] (src/mysql_proxy_api.cpp:877-902). *)
Definition mysql_proxy_fetch_lengths (r : MYSQL_PROXY_RES) : M (option (list Z) * MYSQL_PROXY_RES) :=
  match current_row r with
  | None => mret (None, r)
  | Some c =>
      let r := set_lengths None r in
      n ← mysql_proxy_num_fields r;
      if Z.leb n 0 then mret (None, r)
      else
        ls ← each_index (Z.to_nat n) 0 (fun i => s ← GetFieldStr fuel c (KNV_ROWS_FIELD_START_TAG + i); mret (len s));
        mret (Some ls, set_lengths (Some ls) r)
  end.

End fetch.

(** ** Reading an expanded node *)

(** What [GetStrVal] gives for a value. *)
Definition str_value (v : pb_value) : bytes := body_of v.

(** The cell of the field [t] in a row with the cells [l]: the first one. *)
Definition cell_of (l : list pb_pair) (t : Z) : option bytes := (fun p => str_value p.2) <$> head (filter (fun p => p.1 = t) l).

(** [n] was expanded into the children [cs], which were made from the fields [lc] of a message in [b]. *)
Record opened (h : heap) (n : nid) (b : buf) (cs : list nid) (lc : list pb_pair) : Prop := {
  op_tag : n_tag (nd h n) <> 0;
  op_num : n_child_num (nd h n) = len cs;
  op_list : n_childlist (nd h n) = cs;
  op_nodup : NoDup cs;
  op_ht : ht_rep h n (list_to_set cs);
  op_items : Forall2 (item h b false) cs lc;
  op_hk : n_child_has_key (nd h n) = false -> forall p, p ∈ lc -> first_key false p.2 = [];
  op_parent : forall c, c ∈ cs -> n_parent (nd h c) = Some n }.

Lemma expanding_opened d h0 h n b ms cs lm lc :
  expanding (emptied d n h0) h n b ms cs lm lc -> n_tag (nd h0 n) <> 0 -> opened h n b cs lc.
Proof.
  intros X Ht. destruct (ex_node _ _ _ _ _ _ _ _ X) as (t & mt & hk & E). unfold emptied in E. rewrite nd_set_same in E.
  split; try (rewrite E; done); try apply X.
  - pose proof (proj1 (ex_new _ _ _ _ _ _ _ _ X)) as Hd. by apply NoDup_app in Hd as (_ & _ & ?).
  - intros c Hc. apply (ex_parent _ _ _ _ _ _ _ _ X). set_solver.
Qed.

Lemma Expand_opened fuel h n b cs lc : opened h n b cs lc -> Expand fuel n h = Ret 0 h.
Proof.
  intros O. unfold Expand, InnerExpand. hsimp. rewrite (proj2 (Z.eqb_neq _ _)) by apply O. hsimp.
  rewrite (op_num _ _ _ _ _ O), (proj2 (Z.leb_le 0 (len cs))) by len_lia. by hsimp.
Qed.

Lemma find_tag_run h b t : forall cs lc, Forall2 (item h b false) cs lc ->
  exists r, find_tag cs t h = Ret r h /\
    match r with
    | Some c => c ∈ cs /\ exists q, q ∈ lc /\ q.1 = t /\ item h b false c q
    | None => forall q, q ∈ lc -> q.1 <> t
    end.
Proof.
  intros cs lc F. induction F as [|c q cs lc I _ (r & E & Hr)]; cbn [find_tag].
  { exists None. split; [by hsimp|]. intros q Hq. by apply elem_of_nil in Hq. }
  hsimp. rewrite (lf_tag _ _ _ (it_leaf _ _ _ _ _ I)). destruct (Z.eqb_spec q.1 t) as [Ht|Ht].
  - exists (Some c). split; [by hsimp|]. split; [by left|]. exists q. split; [by left|done].
  - exists r. split; [done|]. destruct r as [c'|].
    + destruct Hr as (? & q' & ? & ? & ?). split; [by right|]. exists q'. split; [by right|done].
    + intros q' [-> | Hq]%elem_of_cons; [done|by apply Hr].
Qed.

Lemma FindChildByTag_opened fuel h n b cs lc t :
  opened h n b cs lc -> (length lc <= fuel)%nat ->
  exists r, FindChildByTag fuel n t h = Ret r h /\
    match r with
    | Some c => c ∈ cs /\ exists q, q ∈ lc /\ q.1 = t /\ item h b false c q
    | None => forall q, q ∈ lc -> q.1 <> t
    end.
Proof.
  intros O Hf. pose proof (Expand_opened fuel h n b cs lc O) as E. destruct O as [Ht Hn Hl Hd Hh Hi Hk _].
  unfold FindChildByTag, GetChildNum. hsimp. rewrite (proj2 (Z.eqb_neq _ _)) by done. hsimp. rewrite E. hsimp.
  rewrite Hn. assert (0 <= len cs) by len_lia. rewrite (proj2 (Z.ltb_ge (len cs) 0)) by done.
  destruct (Z.leb_spec (len cs) 0) as [H0|_].
  { exists None. split; [by hsimp|]. intros q Hq. destruct (item_of _ _ _ _ _ q Hi Hq) as (c & Hc & _).
    destruct cs; [by apply elem_of_nil in Hc|]. rewrite len_cons in H0. pose proof (len_nonneg cs). lia. }
  hsimp. rewrite Hl. destruct (n_child_has_key (nd h n)); [by apply find_tag_run|].
  destruct (ht_get_run fuel n t None 0 [] h (list_to_set cs) Hh) as (r & Er & Hr); [done| |].
  { rewrite size_list_to_set by done. by rewrite (Forall2_length _ _ _ Hi). }
  hsimp. rewrite Er. hsimp. exists (fst <$> r). split; [done|]. destruct r as [[c pos]|]; cbn.
  - destruct Hr as (Hc%elem_of_list_to_set & Hm & _). destruct (item_in _ _ _ _ _ c Hi Hc) as (q & Hq & I).
    rewrite (item_matches _ _ _ _ _ _ I) in Hm. apply bool_decide_eq_true in Hm as [H1 _]. split; [done|]. by exists q.
  - intros q Hq Hx. destruct (item_of _ _ _ _ _ q Hi Hq) as (c & Hc & I).
    specialize (Hr c ltac:(by apply elem_of_list_to_set)). rewrite (item_matches _ _ _ _ _ _ I) in Hr.
    apply bool_decide_eq_false in Hr. apply Hr. split; [done|]. by apply Hk.
Qed.

Lemma cell_of_in lc q : NoDup lc.*1 -> q ∈ lc -> cell_of lc q.1 = Some (str_value q.2).
Proof.
  intros Hd Hq. unfold cell_of. induction lc as [|p lc IH]; [by apply elem_of_nil in Hq|].
  cbn in Hd. apply NoDup_cons in Hd as [Hp Hd]. apply elem_of_cons in Hq as [->|Hq].
  - by rewrite filter_cons_True.
  - rewrite filter_cons_False; [by apply IH|]. intros E. apply Hp. rewrite E. by apply list_elem_of_fmap_2.
Qed.

Lemma cell_of_none lc t : (forall q, q ∈ lc -> q.1 <> t) -> cell_of lc t = None.
Proof.
  intros H. unfold cell_of. induction lc as [|p lc IH]; [done|]. rewrite filter_cons_False by (apply H; by left).
  apply IH. intros q Hq. apply H. by right.
Qed.

Lemma GetStrVal_item fuel h b c q : item h b false c q -> GetStrVal fuel c h = Ret (str_value q.2) h.
Proof.
  intros I. destruct (it_leaf _ _ _ _ _ I) as [Ht Hy Hv Hn _ [_ Hm] _ [Ho _]].
  unfold GetStrVal, GetValue, Fold. hsimp. rewrite (proj2 (Z.eqb_neq (n_tag (nd h c)) 0)) by (rewrite Ht; lia). hsimp.
  assert (leafish (nd h c) = true) as ->.
  { unfold leafish. rewrite Hm, bool_decide_eq_true_2, andb_true_r by done.
    destruct (Z.ltb_spec (n_child_num (nd h c)) 0); [by rewrite orb_true_r|].
    replace (n_child_num (nd h c)) with 0 by lia. by rewrite !orb_true_r. }
  hsimp. cbn [ok Z.eqb andb]. rewrite Hy. destruct q.2 as [z|z|s|z]; cbn [type_of str_value body_of] in *; try (by hsimp).
  cbn [Z.eqb KNV_STRING PB_WT_STRING Pos.eqb]. destruct (val_at_len _ _ _ Hv) as [_ Hs]. unfold read_str. by rewrite Hs.
Qed.

Lemma fetch_cell_opened fuel h n b cs lc i :
  opened h n b cs lc -> NoDup lc.*1 -> (length lc <= fuel)%nat -> 0 <= i ->
  fetch_cell fuel n i h = Ret (cell_of lc (11 + i)) h.
Proof.
  intros O Hd Hf Hi. unfold fetch_cell, GetField, KNV_ROWS_FIELD_START_TAG, UC_MAX_META_NUM.
  rewrite (proj2 (Z.leb_gt _ _)) by lia. destruct (FindChildByTag_opened fuel h n b cs lc (11 + i) O Hf) as (r & E & Hr).
  hsimp. rewrite E. hsimp. destruct r as [c|].
  - destruct Hr as (_ & q & Hq & <- & I). hsimp. rewrite (GetStrVal_item fuel h b c q I). hsimp. by rewrite cell_of_in.
  - hsimp. by rewrite cell_of_none.
Qed.

Lemma each_index_run {A} (f : Z -> M A) (g : Z -> A) h k : forall i, 0 <= i ->
  (forall j, 0 <= j -> f j h = Ret (g j) h) -> each_index k i f h = Ret (g <$> seqZ i (Z.of_nat k)) h.
Proof.
  induction k as [|k IH]; intros i Hi Hf; [by rewrite seqZ_nil|]. cbn [each_index]. hsimp. rewrite Hf by done. hsimp.
  rewrite IH by (done || lia). hsimp. rewrite (seqZ_cons i) by lia. by replace (Z.pred (Z.of_nat (S k))) with (Z.of_nat k) by lia.
Qed.

(** A cell of an unexpanded node: the node is expanded first. *)
Lemma fetch_cell_expands fuel h h' n i :
  Expand fuel n h = Ret 0 h' -> Expand fuel n h' = Ret 0 h' -> n_tag (nd h n) <> 0 -> n_tag (nd h' n) = n_tag (nd h n) -> 0 <= i ->
  fetch_cell fuel n i h = fetch_cell fuel n i h'.
Proof.
  intros E E' Hz Ht Hi. unfold fetch_cell, GetField, KNV_ROWS_FIELD_START_TAG, UC_MAX_META_NUM. rewrite (proj2 (Z.leb_gt _ _)) by lia.
  rewrite !M_bind_eq. unfold FindChildByTag, GetChildNum. hsimp. rewrite Ht, (proj2 (Z.eqb_neq _ _)) by done. hsimp. by rewrite E, E'.
Qed.

(** ** Rows *)

(** A row: its first field and the others. *)
Definition row := (pb_pair * list pb_pair)%type.
Definition row_fields (r : row) : list pb_pair := r.1 :: r.2.
Definition row_field (r : row) : pb_pair := (11, VStr (enc_fields (row_fields r))).

(** What [fetch_row] gives for it, with [n] fields. *)
Definition cells (n : Z) (r : row) : list (option bytes) := (fun i => cell_of (children_part (row_fields r)) (11 + i)) <$> seqZ 0 n.

Definition message_ok (fuel : nat) (l : list pb_pair) : Prop :=
  Forall field_ok l /\ len (enc_fields l) < 2 ^ 31 /\ (length l <= fuel)%nat.
Definition row_ok (fuel : nat) (r : row) : Prop :=
  message_ok fuel (row_fields r) /\ NoDup (children_part (row_fields r)).*1.

Lemma item_message h b c t q l :
  item h b false c (t, VStr (enc_fields (q :: l))) -> t <> 1 -> used h c -> old_buf h b -> field_ok q ->
  len (enc_fields (q :: l)) < 2 ^ 31 -> exists o, message_node h c b o (enc_fields (q :: l)).
Proof.
  intros I Ht Hu Hb Hq Hl. destruct (it_leaf _ _ _ _ _ I) as [Lt Ly Lv _ Lm _ _ _]. cbn [fst snd type_of body_of] in *.
  destruct (val_at_len _ _ _ Lv) as [El Es]. pose proof (enc_field_len_pos q) as Hpos.
  change (enc_fields (q :: l)) with (enc_field q ++ enc_fields l) in *.
  assert (Hne : kv_len (n_val (nd h c)) <> 0) by (rewrite <- El; len_lia).
  destruct (it_val_in _ _ _ _ _ I Ly Hne) as [o Ho]. exists o. split; try done.
  - rewrite Lm by (by apply message_start_enc). lia.
  - unfold key_node. by rewrite Lt, (proj2 (Z.eqb_neq t 1)).
  - apply I.
  - by rewrite El, <- Ho.
Qed.

(** The root of a result that was expanded, with the meta [m] for the number of fields. *)
Record root_at (h : heap) (t m : nid) (N : Z) : Prop := {
  rt_tag : n_tag (nd h t) <> 0;
  rt_num : 0 <= n_child_num (nd h t);
  rt_list : n_metalist (nd h t) <> [];
  rt_meta : n_metas (nd h t) !! KNV_FIELD_NUM_TAG = Some m;
  rt_val : n_type (nd h m) = KNV_VARINT /\ kv_i64 (n_val (nd h m)) = N }.

Lemma num_fields_run fuel h t m N r :
  root_at h t m N -> datatree r = Some t -> mysql_proxy_num_fields fuel r h = Ret (u32 N) h.
Proof.
  intros [Ht Hn Hl Hm [Hy Hv]] Hd. unfold mysql_proxy_num_fields. rewrite Hd. unfold GetFieldInt, GetMetaInt, GetMeta.
  hsimp. cbn [Z.leb Z.ltb UC_MAX_META_NUM KNV_FIELD_NUM_TAG Z.compare Pos.compare Pos.compare_cont].
  hsimp. rewrite (proj2 (Z.eqb_neq _ _)) by done. cbn [orb]. rewrite (proj2 (Z.ltb_ge _ _)) by done. hsimp.
  cbn [ok Z.eqb negb orb]. rewrite bool_decide_eq_false_2 by done. hsimp. rewrite Hm. cbn [int_of]. unfold GetIntVal. hsimp.
  rewrite Hy, Hv. by hsimp.
Qed.

(** The set [s] while its rows are walked: the children [rest], for the rows [rows], were not read yet. *)
Record walking (h : heap) (t m s : nid) (b : buf) (N : Z) (cs rest : list nid) (rows : list row) : Prop := {
  wk_sound : sound h;
  wk_buf : old_buf h b;
  wk_root : root_at h t m N;
  wk_used : Forall (used h) (t :: m :: s :: cs);
  wk_out : t ∉ cs /\ m ∉ cs /\ s ∉ cs;
  wk_list : n_childlist (nd h s) = cs;
  wk_nodup : NoDup cs;
  wk_parent : forall c, c ∈ cs -> n_parent (nd h c) = Some s;
  wk_items : Forall2 (item h b false) rest (row_field <$> rows);
  wk_suffix : exists before, cs = before ++ rest }.

Lemma expanding_sound h0 h n b ms cs lm lc : expanding h0 h n b ms cs lm lc -> sound h.
Proof. intros X. split; apply X. Qed.

Lemma expanding_old_buf d h0 h n b b' ms cs lm lc :
  expanding (emptied d n h0) h n b ms cs lm lc -> old_buf h0 b' -> old_buf h b'.
Proof.
  intros X Ho. destruct b' as [i|c k|i]; cbn in *; [|apply (ex_used _ _ _ _ _ _ _ _ X); by left|done].
  pose proof (ex_nmem _ _ _ _ _ _ _ _ X) as Hm. cbn in Hm. lia.
Qed.

Lemma expanding_same_item d h0 h n b b' ms cs lm lc c :
  expanding (emptied d n h0) h n b ms cs lm lc -> used h0 c -> c <> n -> old_buf h0 b' -> same_item h0 h b' c.
Proof.
  intros X Hu Hn Hb. assert (E : nd h c = nd h0 c).
  { rewrite (ex_other _ _ _ _ _ _ _ _ X) by done. unfold emptied. by rewrite nd_set, decide_False. }
  split; [|split].
  - exists (n_ht_next (nd h0 c)), (n_parent (nd h0 c)). rewrite E. by destruct (nd h0 c).
  - apply buf_get_eq. by rewrite (ex_buf _ _ _ _ _ _ _ _ X).
  - apply buf_get_eq. by rewrite (ex_buf _ _ _ _ _ _ _ _ X).
Qed.

Lemma expanding_keeps d h0 h n b ms cs lm lc c :
  expanding (emptied d n h0) h n b ms cs lm lc -> used h0 c -> c <> n -> nd h c = nd h0 c /\ used h c.
Proof.
  intros X Hu Hn. split; [|apply (ex_used _ _ _ _ _ _ _ _ X); by left].
  rewrite (ex_other _ _ _ _ _ _ _ _ X) by done. unfold emptied. by rewrite nd_set, decide_False.
Qed.

Lemma root_at_keeps d h0 h n b ms cs lm lc t m N :
  expanding (emptied d n h0) h n b ms cs lm lc -> used h0 t -> used h0 m -> t <> n -> m <> n -> root_at h0 t m N -> root_at h t m N.
Proof.
  intros X Ht Hm Htn Hmn [A B C D E]. destruct (expanding_keeps _ _ _ _ _ _ _ _ _ t X Ht Htn) as [Et _].
  destruct (expanding_keeps _ _ _ _ _ _ _ _ _ m X Hm Hmn) as [Em _]. split; by rewrite ?Et, ?Em.
Qed.

(** Reading the row [c]. *)
Lemma fetch_row_run fuel h t m s b N cs c rest r rows res :
  walking h t m s b N cs (c :: rest) (r :: rows) -> row_ok fuel r -> datatree res = Some t -> current_row res = Some c ->
  0 < N < 2 ^ 32 ->
  exists h' res', FetchRow fuel res h = Ret (Some (cells N r), res') h' /\ walking h' t m s b N cs rest rows /\
    datatree res' = Some t /\ current_row res' = Some c.
Proof.
  intros [So Hb Hr Hu (Ot & Om & Os) Hl Hnd Hp Hi [bef Hs]] [(Hok & Hlen & Hfu) Hdup] Hd Hc HN.
  cbn [fmap list_fmap] in Hi. apply Forall2_cons in Hi as [I Hi].
  apply Forall_cons in Hu as [Ut Hu]. apply Forall_cons in Hu as [Um Hu]. apply Forall_cons in Hu as [Us Hu].
  rewrite Forall_forall in Hu. assert (Hin : c ∈ cs) by (rewrite Hs; set_solver).
  pose proof Hok as Hok'. apply Forall_cons in Hok' as [Hq _].
  destruct (item_message h b c 11 r.1 r.2 I) as [o Mn]; [done|by apply Hu|done|done|done|].
  destruct (InnerExpand_run fuel h c b o r.1 r.2 So Mn Hok Hlen) as (h' & ms & cs' & E & X); [unfold row_fields in Hfu; cbn in Hfu; lia|].
  assert (Htag : n_tag (nd h c) = 11) by apply (lf_tag _ _ _ (it_leaf _ _ _ _ _ I)).
  assert (O : opened h' c b cs' (children_part (row_fields r))) by (eapply expanding_opened; [done|by rewrite Htag]).
  assert (Ex : Expand fuel c h = Ret 0 h') by (unfold Expand; hsimp; rewrite Htag; exact E).
  assert (Htag' : n_tag (nd h' c) = n_tag (nd h c)).
  { destruct (ex_node _ _ _ _ _ _ _ _ X) as (? & ? & ? & ->). unfold emptied. by rewrite nd_set_same. }
  assert (Hflen : (length (children_part (row_fields r)) <= fuel)%nat).
  { unfold children_part. rewrite length_filter. exact Hfu. }
  assert (Hcell : forall i, 0 <= i -> fetch_cell fuel c i h' = Ret (cell_of (children_part (row_fields r)) (11 + i)) h').
  { intros i Hi0. by eapply fetch_cell_opened. }
  exists h'. unfold FetchRow. rewrite Hc. hsimp. rewrite (num_fields_run fuel h t m N) by done. hsimp.
  rewrite u32_small by lia. rewrite (proj2 (Z.eqb_neq N 0)) by lia.
  exists (set_cells (Some (cells N r)) (mysql_free_result_resource res true false false)). split; [|split; [|by split]].
  - assert (Hk : exists k, Z.to_nat N = S k) by (exists (Z.to_nat (N - 1)); lia). destruct Hk as [k Hk]. rewrite Hk. cbn [each_index].
    hsimp. rewrite (fetch_cell_expands fuel h h' c 0 Ex) by (done || (by eapply Expand_opened) || by rewrite Htag). rewrite Hcell by done. hsimp.
    rewrite (each_index_run _ (fun i => cell_of (children_part (row_fields r)) (11 + i))) by done. hsimp.
    unfold cells. replace N with (Z.of_nat (S k)) by lia. rewrite (seqZ_cons 0) by lia.
    replace (Z.pred (Z.of_nat (S k))) with (Z.of_nat k) by lia. reflexivity.
  - assert (Hne : forall x, x ∈ cs \/ x = t \/ x = m \/ x = s -> x <> c -> nd h' x = nd h x /\ used h' x).
    { intros x Hx Hxc. eapply expanding_keeps; [exact X| |done]. destruct Hx as [?|[-> |[-> | ->]]]; auto. }
    assert (Htc : t <> c) by (by intros ->). assert (Hmc : m <> c) by (by intros ->). assert (Hsc : s <> c) by (by intros ->).
    split; try done.
    + by eapply expanding_sound.
    + by eapply expanding_old_buf.
    + by eapply root_at_keeps.
    + repeat (apply Forall_cons; split); try (apply Hne; tauto). apply Forall_forall. intros x Hx.
      apply (ex_used _ _ _ _ _ _ _ _ X). left. by apply Hu.
    + destruct (Hne s) as [-> _]; [tauto|done|done].
    + intros x Hx. destruct (decide (x = c)) as [->|Hxc]; [|destruct (Hne x) as [-> _]; [tauto|done|by apply Hp]].
      destruct (ex_node _ _ _ _ _ _ _ _ X) as (? & ? & ? & ->). unfold emptied. rewrite nd_set_same. by apply Hp.
    + eapply items_mono; [|exact Hi]. intros x Hx. assert (x ∈ cs) by (rewrite Hs; set_solver).
      eapply expanding_same_item; [exact X|by apply Hu| |done]. intros ->.
      rewrite Hs in Hnd. apply NoDup_app in Hnd as (_ & _ & Hnd). by apply NoDup_cons in Hnd as [? _].
    + exists (bef ++ [c]). by rewrite <- app_assoc.
Qed.

Lemma succ_of_next l c c2 l' : NoDup (l ++ c :: c2 :: l') -> succ_of (l ++ c :: c2 :: l') c = Some c2.
Proof.
  induction l as [|a l IH]; cbn [app succ_of]; intros Hd.
  - by rewrite Z.eqb_refl.
  - apply NoDup_cons in Hd as [Ha Hd]. destruct (Z.eqb_spec a c) as [->|]; [|by apply IH]. destruct Ha. set_solver.
Qed.

Lemma GetSibling_next h n c c2 l l' :
  n_parent (nd h c) = Some n -> n_childlist (nd h n) = l ++ c :: c2 :: l' -> NoDup (n_childlist (nd h n)) ->
  GetSibling c h = Ret (Some c2) h.
Proof.
  intros Hp Hl Hd. unfold GetSibling, my_list. hsimp. rewrite Hp. hsimp. rewrite Hl in *.
  rewrite bool_decide_eq_true_2 by set_solver. hsimp. by rewrite succ_of_next.
Qed.

(** Calling [fetch_row] [k] times. *)
Fixpoint fetch_rows (fuel k : nat) (r : MYSQL_PROXY_RES) : M (list (option (list (option bytes))) * MYSQL_PROXY_RES) :=
  match k with
  | O => mret ([], r)
  | S k' => '(row, r) ← mysql_proxy_fetch_row fuel r; '(l, r) ← fetch_rows fuel k' r; mret (row :: l, r)
  end.

Lemma fetch_rows_next fuel t m s b N cs rows : forall h c rest res,
  walking h t m s b N cs rest rows -> (exists before, cs = before ++ c :: rest) -> Forall (row_ok fuel) rows ->
  datatree res = Some t -> current_row res = Some c -> 0 < N < 2 ^ 32 ->
  exists res' h', fetch_rows fuel (length rows) res h = Ret (Some ∘ cells N <$> rows, res') h'.
Proof.
  induction rows as [|r rows IH]; intros h c rest res W [bef Hs] Hok Hd Hc HN; [by eexists res, h|].
  apply Forall_cons in Hok as [Hr Hok]. pose proof (wk_items _ _ _ _ _ _ _ _ _ W) as Hi. destruct rest as [|c2 rest]; [by inversion Hi|].
  destruct (fetch_row_run fuel h t m s b N cs c2 rest r rows (set_row (Some c2) res) W Hr) as (h1 & res1 & E & W1 & Hd1 & Hc1); try done.
  destruct (IH h1 c2 rest res1 W1) as (res' & h' & E'); try done.
  { exists (bef ++ [c]). by rewrite <- app_assoc. }
  exists res', h'. cbn [fetch_rows length]. unfold mysql_proxy_fetch_row, next_row. hsimp. rewrite Hd, Hc. hsimp.
  rewrite (GetSibling_next h s c c2 bef rest).
  - hsimp. rewrite E. hsimp. rewrite E'. by hsimp.
  - apply (wk_parent _ _ _ _ _ _ _ _ _ W). rewrite Hs. set_solver.
  - by rewrite (wk_list _ _ _ _ _ _ _ _ _ W).
  - rewrite (wk_list _ _ _ _ _ _ _ _ _ W). apply W.
Qed.

(** The first set. *)
Lemma first_row_skips fuel h t b cs lc r s post c h' x :
  opened h t b cs lc -> GetFirstChild fuel s h = Ret (Some x) h' ->
  forall pre q l ql steps, cs = l ++ pre ++ s :: post -> lc = ql ++ q ++ (KNV_SETS_TAG, r) :: c ->
  length ql = length l -> length q = length pre -> (forall p, p ∈ q -> p.1 <> KNV_SETS_TAG) -> (length pre < steps)%nat ->
  first_row fuel steps (head (pre ++ s :: post)) h = Ret (Some x) h'.
Proof.
  intros O E. induction pre as [|a pre IH]; intros q l ql steps Hcs Hlc Hql Hq Hne Hst.
  all: pose proof (op_items _ _ _ _ _ O) as F; rewrite Hcs, Hlc in F; apply Forall2_app_inv in F as [_ F]; [|done].
  - destruct q; [|done]. destruct steps as [|steps]; [lia|]. cbn [app head first_row] in *. hsimp.
    apply Forall2_cons in F as [I _]. rewrite (lf_tag _ _ _ (it_leaf _ _ _ _ _ I)). cbn [fst]. rewrite Z.eqb_refl. cbn [negb].
    hsimp. rewrite E. by hsimp.
  - destruct q as [|p q]; [done|]. destruct steps as [|steps]; [cbn in Hst; lia|]. cbn [app head first_row] in *. hsimp.
    apply Forall2_cons in F as [I _].
    rewrite (lf_tag _ _ _ (it_leaf _ _ _ _ _ I)). rewrite (proj2 (Z.eqb_neq _ _)) by (apply Hne; by left). cbn [negb]. hsimp.
    assert (Hn2 : exists s2 post2, pre ++ s :: post = s2 :: post2) by (destruct pre; cbn; eauto). destruct Hn2 as (s2 & post2 & E2).
    rewrite (GetSibling_next h t a s2 l post2); [| |rewrite (op_list _ _ _ _ _ O), Hcs, <- E2; done|rewrite (op_list _ _ _ _ _ O); apply O].
    2: { apply (op_parent _ _ _ _ _ O). rewrite Hcs. set_solver. }
    hsimp. replace (Some s2) with (head (pre ++ s :: post)) by (by rewrite E2).
    apply (IH q (l ++ [a]) (ql ++ [p]) steps); [by rewrite <- app_assoc|by rewrite <- app_assoc|by rewrite !length_app, Hql|by injection Hq| |cbn in Hst; lia].
    intros p' ?. apply Hne. by right.
Qed.

(** ** A whole result *)

(** The message of a result with [N] fields whose first set has the rows [rows]: [q] and [l] are its fields, [sq] and
    [sl] those of the set. *)
Record result_message (fuel : nat) (q : pb_pair) (l : list pb_pair) (N : Z) (sq : pb_pair) (sl : list pb_pair) (rows : list row)
    : Prop := {
  rm_ok : message_ok fuel (q :: l);
  rm_metas : NoDup (metas_part (q :: l)).*1;
  rm_num : (KNV_FIELD_NUM_TAG, VInt N) ∈ metas_part (q :: l) /\ 0 < N < 2 ^ 32;
  rm_sets : exists pre post, children_part (q :: l) = pre ++ (KNV_SETS_TAG, VStr (enc_fields (sq :: sl))) :: post /\
              forall p, p ∈ pre -> p.1 <> KNV_SETS_TAG;
  rm_set : message_ok fuel (sq :: sl);
  rm_rows : children_part (sq :: sl) = row_field <$> rows /\ rows <> [];
  rm_row : Forall (row_ok fuel) rows }.

Lemma meta_at h0 h n b ms cs lm lc t v :
  expanding h0 h n b ms cs lm lc -> NoDup lm.*1 -> (t, v) ∈ lm ->
  exists m, n_metas (nd h n) !! t = Some m /\ m ∈ ms /\ item h b true m (t, v).
Proof.
  intros X Hd Hin. pose proof (ex_ml _ _ _ _ _ _ _ _ X) as F. destruct (item_of _ _ _ _ _ _ F Hin) as (m0 & Hm0 & _).
  apply list_elem_of_lookup in Hin as [i Hi]. destruct (Forall2_lookup_r _ _ _ _ _ F Hi) as (m & Hm & I).
  exists m. assert (m ∈ ms) by (by eapply list_elem_of_lookup_2). split; [|done].
  rewrite (ex_metas _ _ _ _ _ _ _ _ X) by (by intros ->). unfold metas_of. apply elem_of_list_to_map_1.
  - rewrite fmap_reverse, fst_zip; [by rewrite reverse_Permutation|]. rewrite length_fmap. by rewrite (Forall2_length _ _ _ F).
  - apply elem_of_reverse. apply (list_elem_of_lookup_2 _ i). rewrite lookup_zip_with. rewrite list_lookup_fmap, Hi, Hm. done.
Qed.

Lemma GetFirstChild_run fuel h h' n c cs b lc :
  Expand fuel n h = Ret 0 h' -> opened h' n b (c :: cs) lc -> GetFirstChild fuel n h = Ret (Some c) h'.
Proof.
  intros E O. unfold GetFirstChild. hsimp. rewrite E. hsimp. cbn [ok Z.eqb negb orb].
  rewrite (op_num _ _ _ _ _ O), (op_list _ _ _ _ _ O), (proj2 (Z.leb_gt _ _)) by len_lia. by hsimp.
Qed.

Lemma result_rows_run fuel h t b o q l N sq sl rows :
  sound h -> message_node h t b o (enc_fields (q :: l)) -> n_tag (nd h t) <> 0 -> result_message fuel q l N sq sl rows ->
  exists res' h', fetch_rows fuel (length rows) (new_result t) h = Ret (Some ∘ cells N <$> rows, res') h'.
Proof.
  intros So Mn Ht [(Hok & Hlen & Hfu) Hmd [Hmn HN] (pre & post & Hch & Hpre) (Hsok & Hslen & Hsfu) [Hrows Hne] Hrok].
  destruct (InnerExpand_run fuel h t b o q l So Mn Hok Hlen) as (h1 & ms & cs & E1 & X1); [cbn in Hfu; lia|].
  assert (Ex1 : Expand fuel t h = Ret 0 h1) by (unfold Expand; hsimp; by rewrite (proj2 (Z.eqb_neq _ _))).
  pose proof (expanding_opened _ _ _ _ _ _ _ _ _ X1 Ht) as O1.
  pose proof (expanding_sound _ _ _ _ _ _ _ _ X1) as So1.
  pose proof (expanding_old_buf _ _ _ _ _ b _ _ _ _ X1 (mn_buf _ _ _ _ _ Mn)) as Hb1.
  destruct (meta_at _ _ _ _ _ _ _ _ _ _ X1 Hmd Hmn) as (m & Hm & Hmin & Im).
  assert (R1 : root_at h1 t m N).
  { destruct (ex_node _ _ _ _ _ _ _ _ X1) as (tt0 & mt & hk & En). split; [apply O1|rewrite (op_num _ _ _ _ _ O1); len_lia| |done|].
    - rewrite En. cbn. intros ->. by apply elem_of_nil in Hmin.
    - destruct (it_leaf _ _ _ _ _ Im) as [_ Hy Hv _ _ _ _ _]. cbn [fst snd type_of] in *. split; [done|]. cbn in Hv. by injection Hv. }
  pose proof (op_items _ _ _ _ _ O1) as F1. rewrite Hch in F1.
  apply Forall2_app_inv_r in F1 as (cpre & cpost0 & Fpre & F1 & Hcs).
  apply Forall2_cons_inv_r in F1 as (s & cpost & Is & _ & ->).
  assert (Hin1 : forall x, x ∈ ms ++ cs -> used h1 x /\ x <> t).
  { intros x Hx. split; [apply (ex_used _ _ _ _ _ _ _ _ X1); by right|]. intros ->.
    by apply (proj2 (ex_new _ _ _ _ _ _ _ _ X1) t Hx), (mn_used _ _ _ _ _ Mn). }
  assert (Hs : s ∈ cs) by (rewrite Hcs; set_solver).
  destruct (Hin1 s ltac:(set_solver)) as [Us Hst]. destruct (Hin1 m ltac:(set_solver)) as [Um Hmt].
  assert (Hms : m <> s).
  { intros ->. pose proof (proj1 (ex_new _ _ _ _ _ _ _ _ X1)) as Hd. apply NoDup_app in Hd as (_ & Hd & _). by apply (Hd s). }
  assert (Ut : used h1 t) by (apply (ex_used _ _ _ _ _ _ _ _ X1); left; apply Mn).
  pose proof Hsok as Hsok'. apply Forall_cons in Hsok' as [Hsq _].
  destruct (item_message h1 b s 12 sq sl Is) as [os Ms]; [done|done|done|done|done|].
  destruct (InnerExpand_run fuel h1 s b os sq sl So1 Ms Hsok Hslen) as (h2 & ms2 & cs2 & E2 & X2); [cbn in Hsfu; lia|].
  assert (Hstag : n_tag (nd h1 s) = 12) by apply (lf_tag _ _ _ (it_leaf _ _ _ _ _ Is)).
  assert (O2 : opened h2 s b cs2 (children_part (sq :: sl))) by (eapply expanding_opened; [done|by rewrite Hstag]).
  assert (Ex2 : Expand fuel s h1 = Ret 0 h2) by (unfold Expand; hsimp; rewrite Hstag; exact E2).
  assert (Hout : forall x, x ∈ cs2 -> ~ used h1 x).
  { intros x Hx. apply (proj2 (ex_new _ _ _ _ _ _ _ _ X2)). set_solver. }
  assert (W : walking h2 t m s b N cs2 cs2 rows).
  { destruct (expanding_keeps _ _ _ _ _ _ _ _ _ t X2 Ut ltac:(done)) as [_ Ut2].
    destruct (expanding_keeps _ _ _ _ _ _ _ _ _ m X2 Um ltac:(done)) as [_ Um2].
    split; try apply O2.
    - by eapply expanding_sound.
    - by eapply expanding_old_buf.
    - by eapply root_at_keeps.
    - repeat (apply Forall_cons; split; [done|]). apply Forall_cons; split.
      { apply (ex_used _ _ _ _ _ _ _ _ X2). by left. }
      apply Forall_forall. intros x Hx. apply (ex_used _ _ _ _ _ _ _ _ X2). right. set_solver.
    - split_and!; intros Hx; by apply (Hout _ Hx).
    - rewrite <- Hrows. apply O2.
    - by exists []. }
  destruct rows as [|r rows]; [done|]. apply Forall_cons in Hrok as [Hr Hrok].
  destruct cs2 as [|c cs2]; [pose proof (wk_items _ _ _ _ _ _ _ _ _ W) as Hi; by inversion Hi|].
  destruct (fetch_row_run fuel h2 t m s b N (c :: cs2) c cs2 r rows (set_row (Some c) (new_result t)) W Hr) as (h3 & res3 & E3 & W3 & Hd3 & Hc3); try done.
  destruct (fetch_rows_next fuel t m s b N (c :: cs2) rows h3 c cs2 res3 W3) as (res' & h' & E'); try done; [by exists []|].
  exists res', h'. cbn [fetch_rows length]. unfold mysql_proxy_fetch_row. cbn [datatree new_result current_row]. hsimp.
  assert (Hhd : GetFirstChild fuel t h = Ret (head (cpre ++ s :: cpost)) h1).
  { destruct cpre as [|c0 cpre]; cbn [app head] in *; eapply GetFirstChild_run; [done|by rewrite <- Hcs|done|by rewrite <- Hcs]. }
  rewrite Hhd. hsimp.
  rewrite (first_row_skips fuel h1 t b cs (children_part (q :: l)) (VStr (enc_fields (sq :: sl))) s cpost post h2 c O1
    (GetFirstChild_run fuel h1 h2 s c cs2 b _ Ex2 O2) cpre pre [] [] fuel); try done.
  - hsimp. rewrite E3. hsimp. rewrite E'. by hsimp.
  - by rewrite (Forall2_length _ _ _ Fpre).
  - assert (length cpre < length (children_part (q :: l)))%nat.
    { pose proof (Forall2_length _ _ _ Fpre) as Hfl. rewrite Hch, length_app. cbn [length]. unfold pb_pair in *. lia. }
    assert (length (children_part (q :: l)) <= length (q :: l))%nat by (unfold children_part; apply length_filter). lia.
Qed.

(** ** Properties *)

(** C6: for a response whose message is a result of [N] fields, the calls of [mysql_proxy_fetch_row] return the rows of
    its first set, every one, in the order of the message: the cells of a row are the strings of the fields 11 to
    10 + [N] of its message, and NULL where the message has no such field. *)
Theorem result_rows (fuel : nat) (h : heap) (t : nid) (b : buf) (o : Z) (q : pb_pair) (l : list pb_pair) (N : Z)
    (sq : pb_pair) (sl : list pb_pair) (rows : list row) :
  sound h -> message_node h t b o (enc_fields (q :: l)) -> n_tag (nd h t) <> 0 -> result_message fuel q l N sq sl rows ->
  exists res' h', fetch_rows fuel (length rows) (new_result t) h = Ret (Some ∘ cells N <$> rows, res') h'.
Proof. apply result_rows_run. Qed.

(** A heap with one node, the tree of the message [data]. *)
Definition message_heap (data : bytes) : heap :=
  mk_heap (<[1 := set_val (kv_str (len data) (Some (BExt 0, 0))) (set_tag 1 node0)]> ∅) [] 2 (<[BExt 0 := data]> ∅) 0 [].

Lemma message_heap_sound data : sound (message_heap data).
Proof.
  split; [split| | |done].
  - constructor.
  - intros c Hc. by apply elem_of_nil in Hc.
  - intros c Hc. unfold nd, message_heap. cbn. rewrite lookup_insert_ne by (cbn in Hc; lia). done.
  - intros i _. done.
  - intros m k v. unfold message_heap. cbn. rewrite !lookup_insert_ne by done. by rewrite lookup_empty.
Qed.

Definition two_rows : list row :=
  [ ((1, VStr (txt "row 0")), [(11, VStr (txt "a")); (12, VStr (txt "b"))]); ((1, VStr (txt "row 1")), [(12, VStr [])]) ].
Definition two_rows_set : list pb_pair := (1, VStr (txt "set 0")) :: (row_field <$> two_rows).
Definition two_rows_result : list pb_pair :=
  [ (1, VStr (txt "q")); (2, VInt 9); (3, VInt 2); (KNV_FIELD_NUM_TAG, VInt 2);
    (11, VStr (enc_fields [(1, VStr (txt "fields")); (11, VStr (enc_fields [(1, VStr (txt "x"))]));
                           (11, VStr (enc_fields [(1, VStr (txt "y"))]))]));
    (KNV_SETS_TAG, VStr (enc_fields two_rows_set)) ].

Ltac fields_ok :=
  split; [repeat (apply Forall_cons; split); try apply Forall_nil; split; cbn [fst snd value_ok]; try lia; vm_compute; done
         |split; [vm_compute; done|vm_compute; lia]].

Lemma result_rows_witness : exists res' h',
  fetch_rows 9 2 (new_result 1) (message_heap (enc_fields two_rows_result)) =
    Ret ([Some [Some (txt "a"); Some (txt "b")]; Some [None; Some []]], res') h'.
Proof.
  apply (result_rows 9 (message_heap (enc_fields two_rows_result)) 1 (BExt 0) 0 (1, VStr (txt "q")) (tail two_rows_result) 2
    (1, VStr (txt "set 0")) (row_field <$> two_rows) two_rows).
  - apply message_heap_sound.
  - split; try done; try (vm_compute; done). split; [vm_compute; done|apply not_elem_of_nil].
  - vm_compute. done.
  - split.
    + fields_ok.
    + apply (bool_decide_unpack _). vm_compute. exact I.
    + split; [|lia]. change (metas_part ((1, VStr (txt "q")) :: tail two_rows_result)) with (take 4 two_rows_result). unfold two_rows_result.
      cbn [take]. set_solver.
    + exists [(11, VStr (enc_fields [(1, VStr (txt "fields")); (11, VStr (enc_fields [(1, VStr (txt "x"))]));
                           (11, VStr (enc_fields [(1, VStr (txt "y"))]))]))], [].
      split; [reflexivity|]. intros p ->%list_elem_of_singleton. done.
    + fields_ok.
    + split; [reflexivity|done].
    + constructor; [|constructor; [|constructor]]; (split; [fields_ok|apply (bool_decide_unpack _); vm_compute; exact I]).
Defined.

(** ** Examples *)

Definition empty_heap : heap := mk_heap ∅ [] 1 ∅ 0 [].

(** The server packs, the client reads. *)
Definition pack_and_fetch (res : mysql_res) (k : nat) : M (list (option (list (option bytes))) * Z * option (list (option (bytes * Z)))) :=
  t ← PackResult 30 res (txt "key") 7;
  match t with
  | None => crash
  | Some t =>
      s ← GetStrVal 30 t;
      p ← lend s;
      c ← NewFromMessage 30 p (len s) 1;
      match c with
      | None => crash
      | Some c =>
          '(l, r) ← fetch_rows 30 k (new_result c);
          n ← mysql_proxy_num_rows 30 r;
          '(fs, r) ← mysql_proxy_fetch_fields 30 r;
          mret (l, n, fs)
      end
  end.

Definition result_of (a : res (list (option (list (option bytes))) * Z * option (list (option (bytes * Z))))) :=
  match a with Ret x _ => Some x | _ => None end.

(** Three rows with a NULL, an empty string, and a string with a 0 inside; the call after the last row gives NULL. *)
Example pack_then_fetch :
  result_of (pack_and_fetch (mk_res 3 2 [txt "x"; txt "y"]
    [ ([Some (txt "a"); None], Some [1; 0]); ([Some []; Some (txt "b")], Some [0; 1]); ([Some [97; 0; 98]; None], Some [3; 0]) ]) 4 empty_heap) =
  Some ([Some [Some (txt "a"); None]; Some [Some []; Some (txt "b")]; Some [Some [97; 0; 98]; None]; None], 3,
        Some [Some (txt "x", 1); Some (txt "y", 1)]).
Proof. vm_compute. reflexivity. Qed.

(** A response with more field nodes than the number of fields it gives: [fetch_fields] writes past its array. *)
Theorem fetch_fields_overflows :
  mysql_proxy_fetch_fields 9 (new_result 1) (message_heap (enc_fields
    [ (KNV_FIELD_NUM_TAG, VInt 1);
      (11, VStr (enc_fields [(11, VStr (enc_fields [(1, VStr (txt "x"))])); (11, VStr (enc_fields [(1, VStr (txt "y"))]))])) ])) = Crash.
Proof. vm_compute. reflexivity. Qed.
