(* ===== verification/KnvFaults.v ===== *)
(** * Two faults of the tree library, on concrete trees (src/knv/knv_node.cc)

    [Fold] throws the children of a node away and keeps its hash table.  Once the node is expanded again,
    from nodes of the free list, the chains of the table run into themselves.  [SetMeta] copies the string
    of a meta that exists into the buffer of the node, not of the meta. *)

From S2P Require Import Prelude Pb MemPool KnvHeap KnvNode KnvFields.

(** No node, and ten bytes of the caller. *)
Definition start : heap := mk_heap ∅ [] 1 (<[BExt 0 := txt "abcdefghij"]> ∅) 0 [].
Definition text (o : Z) : option (buf * Z) := Some (BExt 0, o).

(** A tree with the children 11 and 12, read as a string and then by field. *)
Definition folded_and_read : M nid :=
  r ← NewTree 50 1 None;
  match r with
  | None => crash
  | Some n => SetFieldInt 50 n 11 1;; SetFieldInt 50 n 12 5;; GetStrVal 50 n;; GetFieldInt 50 n 11;; mret n
  end.

Definition after : heap := Eval vm_compute in match folded_and_read start with Ret _ h => h | _ => start end.

Lemma folded_and_read_run : folded_and_read start = Ret 1 after.
Proof. vm_compute. reflexivity. Qed.

(** The chain of the slot of 11 and 43 is a circle. *)
Lemma after_circle fuel : forall pos, ht_walk fuel (Some 2) pos 43 None 0 after = Spin.
Proof.
  induction fuel as [|fuel IH]; intros pos; [done|]. cbn [ht_walk]. rewrite M_bind_eq.
  change (IsMatch 2 43 None 0 after) with (Ret false after). cbv iota beta. rewrite M_bind_eq, getn_eq.
  change (n_ht_next (nd after 2)) with (Some 2). apply IH.
Qed.

Lemma after_expanded fuel : Expand fuel 1 after = Ret 0 after.
Proof. reflexivity. Qed.


(** A tree with the metas 2 and 3, both written twice. *)
Definition metas_written : M (bytes * bytes) :=
  r ← NewTree 50 1 None;
  match r with
  | None => crash
  | Some n =>
      SetFieldStr 50 n 2 2 (text 0);; SetFieldStr 50 n 3 2 (text 2);;
      SetFieldStr 50 n 2 2 (text 4);; SetFieldStr 50 n 3 2 (text 6);;
      s ← GetFieldStr 50 n 2; t ← GetFieldStr 50 n 3; mret (s, t)
  end.

(** Two string metas of a node, written a second time with "ef" and "gh", both read "gh": the node
    has one buffer for all of them. *)
Theorem set_meta_aliases :
  exists h, metas_written start = Ret (txt "gh", txt "gh") h.
Proof. eexists. vm_compute. reflexivity. Qed.
