(* ===== verification/KnvTree.v ===== *)
(** * Operations between trees (src/knv/knv_node.cc)

    A request tree selects a part of a data tree: [GetSubTree] copies it, [DeleteSubTree] removes it,
    [UpdateSubTree] merges a tree into the data, [MakeRequestTree] and [Compare] build trees from data.
    [None] among the results is the NULL of an output pointer. *)

From S2P Require Import Prelude Pb MemPool KnvHeap KnvNode KnvFields.

Section subtree.
Context (fuel : nat).

(** [out] and [empty] are given up: [DUPLICATE_NODE_META] and the other macros on failure. *)
(** Models [DUPLICATE_NODE_META] (src/knv/knv_node.cc:1957-1964). *)
Definition give_back_all (code : Z) (out empty : option nid) : M (Z * option nid * option nid) :=
  delete_opt fuel out;; delete_opt fuel empty;; mret (code, None, None).

(** The tree collected so far, made on first use as an empty copy of [from]. *)
(** Models [DUPLICATE_NODE_META] (src/knv/knv_node.cc:1955-1965). *)
Definition ensure (t : option nid) (from : nid) : M (option nid) :=
  match t with Some t => mret (Some t) | None => DupEmptyNode fuel from end.

(** [l]'s sizes once it is complete. *)
(** Models [KnvNode::InnerGetSubTree] (src/knv/knv_node.cc:2113-2124). *)
Definition close_tree (t : option nid) : M unit :=
  match t with
  | None => mret tt
  | Some t => modn t (fun x => set_eval_sz (eval_len (n_tag x) KNV_NODE (kv_str (n_eval_val_sz x) None)) x)
  end.

Section get.
(** [InnerGetSubTree] on the children, the data and the request being processed, [no_empty]. *)
Context (rec : nid -> nid -> M (Z * option nid * option nid)).
Context (this req_tree : nid) (no_empty : bool).

(** Models [GET_SUBDATA_SUB_TREE] (src/knv/knv_node.cc:1979-2005). *)
Definition get_subdata (sub_data sub_req : nid) (out empty : option nid) : M (Z * option nid * option nid) :=
  '(ret, o, e) ← rec sub_data sub_req;
  if negb (ok ret) then give_back_all (-2) out empty
  else
    '(r, out, empty) ←
      match o with
      | None => mret (0, out, empty)
      | Some o =>
          out' ← ensure out this;
          match out' with
          | None => give_back_all (-1) out empty
          | Some out' => InnerInsertChild fuel out' o true false false true;; mret (0, Some out', empty)
          end
      end;
    if negb (ok r) then mret (r, None, None)
    else
      match (if no_empty then None else e) with
      | None => mret (0, out, empty)
      | Some e =>
          empty' ← ensure empty req_tree;
          match empty' with
          | None => give_back_all (-1) out empty
          | Some empty' => InnerInsertChild fuel empty' e true false false true;; mret (0, out, Some empty')
          end
      end.

(** The children of [l] with the tag, all of them; [matched] tells whether there was one. *)
(** Models [KnvNode::InnerGetSubTree] (src/knv/knv_node.cc:2095-2103). *)
Fixpoint get_from_list (l : list nid) (sub_req : nid) (t : Z) (matched : bool) (out empty : option nid)
    : M (Z * bool * option nid * option nid) :=
  match l with
  | [] => mret (0, matched, out, empty)
  | d :: l' =>
      y ← getn d;
      if Z.eqb (n_tag y) t then
        '(r, out, empty) ← get_subdata d sub_req out empty;
        if negb (ok r) then mret (r, true, out, empty) else get_from_list l' sub_req t true out empty
      else get_from_list l' sub_req t matched out empty
  end.

(** The same along a chain of the hash table. *)
(** Models [KnvNode::InnerGetSubTree] (src/knv/knv_node.cc:2084-2092). *)
Fixpoint get_from_chain (steps : nat) (c : option nid) (sub_req : nid) (t : Z) (matched : bool) (out empty : option nid)
    : M (Z * bool * option nid * option nid) :=
  match c with
  | None => mret (0, matched, out, empty)
  | Some d =>
      match steps with
      | O => spin
      | S steps' =>
          y ← getn d;
          if Z.eqb (n_tag y) t then
            '(r, out, empty) ← get_subdata d sub_req out empty;
            if negb (ok r) then mret (r, true, out, empty)
            else z ← getn d; get_from_chain steps' (n_ht_next z) sub_req t true out empty
          else get_from_chain steps' (n_ht_next y) sub_req t matched out empty
      end
  end.

(** One node of the request. *)
(** Models [KnvNode::InnerGetSubTree] (src/knv/knv_node.cc:2070-2111). *)
Definition get_one (sub_req : nid) (out empty : option nid) : M (Z * option nid * option nid) :=
  q ← getn sub_req;
  x ← getn this;
  '(r, matched, out, empty) ←
    (if negb (Z.eqb (k_len (n_key q)) 0) then
       d ← ht_get fuel this (n_tag q) (k_val (n_key q)) (k_len (n_key q));
       match d with
       | None => mret (0, false, out, empty)
       | Some (d, _) => '(r, out, empty) ← get_subdata d sub_req out empty; mret (r, true, out, empty)
       end
     else if negb (n_child_has_key x) then
       d ← ht_get fuel this (n_tag q) None 0;
       get_from_chain fuel (fst <$> d) sub_req (n_tag q) false out empty
     else get_from_list (n_childlist x) sub_req (n_tag q) false out empty);
  if negb (ok r) then mret (r, out, empty)
  else if negb matched && negb no_empty then
    empty' ← ensure empty req_tree;
    match empty' with
    | None => give_back_all (-1) out empty
    | Some empty' =>
        r ← InnerInsertChild fuel empty' sub_req false false false true;
        if negb (ok r) then give_back_all (-1) out (Some empty') else mret (0, out, Some empty')
    end
  else mret (0, out, empty).

(** Models [KnvNode::InnerGetSubTree] (src/knv/knv_node.cc:2068-2112). *)
Fixpoint get_children (l : list nid) (out empty : option nid) : M (Z * option nid * option nid) :=
  match l with
  | [] => mret (0, out, empty)
  | q :: l' =>
      '(r, out, empty) ← get_one q out empty;
      if negb (ok r) then mret (r, out, empty) else get_children l' out empty
  end.

(** The metas asked for; [metas] is read whether the node has metas or not. *)
(** Models [KnvNode::InnerGetSubTree] (src/knv/knv_node.cc:2047-2066). *)
Fixpoint get_metas (l : list nid) (out : option nid) : M (Z * option nid) :=
  match l with
  | [] => mret (0, out)
  | m :: l' =>
      y ← getn m;
      x ← getn this;
      match (if negb (Z.eqb (n_tag y) 1) && Z.eqb (n_type y) KNV_VARINT && negb (Z.eqb (kv_i64 (n_val y)) 0)
             then n_metas x !! n_tag y else None) with
      | None => get_metas l' out
      | Some md =>
          out' ← ensure out this;
          match out' with
          | None => mret (-1, None)
          | Some o =>
              v ← GetValue fuel md;
              if negb (v : bool) then Delete fuel o;; mret (-4, Some o)
              else
                z ← getn md;
                InnerSetMeta fuel o (n_tag z) (n_type z) (Some (n_val z)) false false;;
                get_metas l' (Some o)
          end
      end
  end.

End get.

(** The key pointers of the copy are those of the original. *)
(** Models [KnvNode::InnerGetSubTree] (src/knv/knv_node.cc:2024-2030). *)
Definition copy_key (n c : nid) : M unit :=
  x ← getn n;
  when (negb (Z.eqb (k_len (n_key x)) 0))
    (modn c (fun y => set_key (mk_key (k_type (n_key y)) (k_len (n_key x)) (k_val (n_key x)) (k_dyn (n_key y))) y)).

End subtree.

(** [mret (code, out, empty)] *)
(** Models [KnvNode::InnerGetSubTree] (src/knv/knv_node.cc:2012-2126). *)
Fixpoint InnerGetSubTree (fuel : nat) (this req_tree : nid) (no_empty : bool) : M (Z * option nid * option nid) :=
  match fuel with
  | O => spin
  | S fuel' =>
      q ← getn req_tree;
      if negb (Z.eqb (n_type q) KNV_STRING) && Z.eqb (kv_i64 (n_val q)) 0 then mret (0, None, None)
      else
        r ← InnerExpand fuel req_tree false;
        q ← getn req_tree;
        if negb (ok r) || Z.leb (n_child_num q) 0 then
          out ← InnerDuplicate fuel this false true;
          match out with
          | None => mret (-2, None, None)
          | Some o => copy_key this o;; mret (0, Some o, None)
          end
        else
          r ← InnerExpand fuel this (negb (n_child_has_key q));
          x ← getn this;
          if negb (ok r) || Z.leb (n_child_num x) 0 then
            if no_empty then mret (0, None, None)
            else
              empty ← InnerDuplicate fuel req_tree false true;
              match empty with
              | None => mret (-3, None, None)
              | Some e => copy_key req_tree e;; mret (0, None, Some e)
              end
          else
            '(r, out) ← get_metas fuel this (n_metalist q) None;
            if negb (ok r) then mret (r, out, None)
            else
              '(r, out, empty) ←
                get_children fuel (fun d q => InnerGetSubTree fuel' d q no_empty) this req_tree no_empty
                  (n_childlist q) out None;
              if negb (ok r) then mret (r, out, empty)
              else close_tree empty;; close_tree out;; mret (0, out, empty)
  end.

Section trees.
Context (fuel : nat).

(** The request has another tag, or a key that is not the node's. *)
(** Models [KnvNode::GetSubTree] (src/knv/knv_node.cc:2136-2137). *)
Definition not_requested (this req_tree : nid) : M bool :=
  x ← getn this; q ← getn req_tree;
  if negb (Z.eqb (n_tag x) (n_tag q)) then mret true
  else if Z.eqb (k_len (n_key q)) 0 then mret false
  else b ← key_eq (n_key x) (n_key q); mret (negb b).

(** Models [KnvNode::GetSubTree] (src/knv/knv_node.cc:2128-2144). *)
Definition GetSubTree (this : nid) (req_tree : option nid) (no_empty : bool) : M (Z * option nid * option nid) :=
  match req_tree with
  | None => mret (-1, None, None)
  | Some req_tree =>
      q ← getn req_tree;
      if Z.eqb (n_tag q) 0 then mret (-1, None, None)
      else
        b ← not_requested this req_tree;
        if (b : bool) then mret (0, None, None) else InnerGetSubTree fuel this req_tree no_empty
  end.

(** [NewTree(n->tag, &n->key)] *)
Definition new_like (n : nid) : M (option nid) := q ← getn n; NewTree fuel (n_tag q) (Some (n_key q)).

(** A node for the value 1. *)
Definition new_int1 (t : Z) (own_buf : bool) : M (option nid) :=
  New fuel t KNV_VARINT KNV_STRING None (Some (kv_int 1)) own_buf.

Section delete.
Context (rec : nid -> nid -> M (Z * option nid)).
Context (this req_tree : nid).

Definition ensure_match (t : option nid) : M (option nid) :=
  match t with Some t => mret (Some t) | None => new_like req_tree end.

(** Models [DELETE_SUBDATA_SUB_TREE] (src/knv/knv_node.cc:2146-2173). *)
Definition delete_subdata (sub_data sub_req : nid) (match_req_tree : option nid) : M (Z * option nid) :=
  '(del_ret, sub_match) ← rec sub_data sub_req;
  if Z.ltb del_ret 0 then delete_opt fuel match_req_tree;; mret (-4, None)
  else
    match sub_match with
    | None => mret (del_ret, match_req_tree)
    | Some m =>
        t ← ensure_match match_req_tree;
        match t with
        | None => mret (-5, None)
        | Some t => InnerInsertChild fuel t m true false true true;; mret (del_ret, Some t)
        end
    end.

(** [ret == 1 || sub_data->GetChildNum() <= 0] *)
Definition now_empty (ret : Z) (sub_data : nid) : M bool :=
  if Z.eqb ret 1 then mret true else nr ← GetChildNum fuel sub_data; mret (Z.leb nr 0).

(** Models [KnvNode::DeleteSubTree] (src/knv/knv_node.cc:2246-2262). *)
Fixpoint delete_from_list (l : list nid) (sub_req : nid) (t : Z) (m : option nid) : M (Z * option nid) :=
  match l with
  | [] => mret (0, m)
  | d :: l' =>
      y ← getn d;
      if Z.eqb (n_tag y) t then
        '(ret, m) ← delete_subdata d sub_req m;
        if Z.ltb ret 0 then mret (ret, m)
        else
          b ← now_empty ret d;
          (if (b : bool) then RemoveChildByPos fuel this d None;; mret tt else mret tt);;
          delete_from_list l' sub_req t m
      else delete_from_list l' sub_req t m
  end.

(** All children with the tag of a request without children. *)
(** Models [KnvNode::DeleteSubTree] (src/knv/knv_node.cc:2228-2242). *)
Definition delete_by_tag (sub_req : nid) (m : option nid) : M (Z * option nid) :=
  s ← getn sub_req;
  if Z.eqb (n_type s) KNV_NODE || (Z.eqb (n_type s) KNV_VARINT && negb (Z.eqb (kv_i64 (n_val s)) 0)) then
    RemoveChildrenByTag fuel this (n_tag s);;
    t ← ensure_match m;
    match t with
    | None => mret (-5, None)
    | Some t =>
        r ← InnerInsertChild fuel t sub_req false false true true;
        if negb (ok r) then Delete fuel t;; mret (-6, None) else mret (0, Some t)
    end
  else mret (0, m).

(** Models [KnvNode::DeleteSubTree] (src/knv/knv_node.cc:2213-2264). *)
Definition delete_one (sub_req : nid) (m : option nid) : M (Z * option nid) :=
  s ← getn sub_req;
  if negb (Z.eqb (k_len (n_key s)) 0) then
    d ← ht_get fuel this (n_tag s) (k_val (n_key s)) (k_len (n_key s));
    match d with
    | None => mret (0, m)
    | Some (d, pos) =>
        '(ret, m) ← delete_subdata d sub_req m;
        if Z.ltb ret 0 then mret (ret, m)
        else
          b ← now_empty ret d;
          (if (b : bool) then RemoveChildByPos fuel this d (Some pos);; mret tt else mret tt);;
          mret (0, m)
    end
  else
    r ← InnerExpand fuel sub_req false;
    s ← getn sub_req;
    if negb (ok r) || Z.leb (n_child_num s) 0 then delete_by_tag sub_req m
    else x ← getn this; delete_from_list (n_childlist x) sub_req (n_tag s) m.

(** Models [KnvNode::DeleteSubTree] (src/knv/knv_node.cc:2211-2265). *)
Fixpoint delete_children (l : list nid) (m : option nid) : M (Z * option nid) :=
  match l with
  | [] => mret (0, m)
  | s :: l' =>
      '(r, m) ← delete_one s m;
      if Z.ltb r 0 then mret (r, m) else delete_children l' m
  end.

End delete.

(** The match of a request for the whole node. *)
(** Models [KnvNode::DeleteSubTree] (src/knv/knv_node.cc:2194-2203). *)
Definition whole_match (req_tree : nid) : M (option nid) :=
  q ← getn req_tree;
  if negb (Z.eqb (k_len (n_key q)) 0) then new_like req_tree else new_int1 (n_tag q) true.

End trees.

(** The result is the code and [match_req_tree]. *)
(** Models [KnvNode::DeleteSubTree] (src/knv/knv_node.cc:2180-2284). *)
Fixpoint DeleteSubTree (fuel : nat) (this : nid) (req_tree : option nid) : M (Z * option nid) :=
  match fuel with
  | O => spin
  | S fuel' =>
      match req_tree with
      | None => mret (-1, None)
      | Some req_tree =>
          q ← getn req_tree;
          if Z.eqb (n_tag q) 0 then mret (-1, None)
          else
            b ← not_requested this req_tree;
            if (b : bool) then mret (0, None)
            else
              r ← InnerExpand fuel req_tree false;
              q ← getn req_tree;
              if negb (ok r) || Z.leb (n_child_num q) 0
              then m ← whole_match fuel req_tree; mret (1, m)
              else
                r ← InnerExpand fuel this (negb (n_child_has_key q));
                x ← getn this;
                if negb (ok r) || Z.leb (n_child_num x) 0 then mret (0, None)
                else
                  '(r, m) ← delete_children fuel (fun d q => DeleteSubTree fuel' d (Some q)) this req_tree (n_childlist q) None;
                  if Z.ltb r 0 then mret (r, m)
                  else nr ← GetChildNum fuel this; mret (if Z.leb nr 0 then 1 else 0, m)
      end
  end.

Section update.
Context (fuel : nat).

(** Models [KnvNode::UpdateSubTree] (src/knv/knv_node.cc:2323-2330). *)
Fixpoint update_metas (this : nid) (l : list nid) : M Z :=
  match l with
  | [] => mret 0
  | m :: l' =>
      y ← getn m;
      r ← (if Z.ltb 1 (n_tag y) then InnerSetMeta fuel this (n_tag y) (n_type y) (Some (n_val y)) false true else mret 0);
      if Z.ltb r 0 then mret (-6) else update_metas this l'
  end.

(** The tags of a list of nodes, each once.  The code goes through them in the order of an
    [unordered_set], here it is the order of the first nodes. *)
(** Models [KnvNode::UpdateSubTree] (src/knv/knv_node.cc:2337-2342). *)
Fixpoint tags_of (l : list nid) (acc : list Z) : M (list Z) :=
  match l with
  | [] => mret acc
  | n :: l' => y ← getn n; tags_of l' (if bool_decide (n_tag y ∈ acc) then acc else acc ++ [n_tag y])
  end.

(** Models [KnvNode::UpdateSubTree] (src/knv/knv_node.cc:2349-2368). *)
Fixpoint update_children (rec : nid -> nid -> M Z) (this : nid) (keep : bool) (l : list nid) : M Z :=
  match l with
  | [] => mret 0
  | u :: l' =>
      y ← getn u;
      d ← (if keep then ht_get fuel this (n_tag y) (k_val (n_key y)) (k_len (n_key y)) else mret None);
      r ← match d with
          | Some (d, _) => r ← rec d u; mret (if negb (ok r) then -4 else 0)
          | None => r ← InnerInsertChild fuel this u false false true true; mret (if negb (ok r) then -5 else 0)
          end;
      if negb (ok r) then mret r else update_children rec this keep l'
  end.

(** Models [KnvNode::UpdateSubTree] (src/knv/knv_node.cc:2306-2320). *)
Definition replace_value (this upd : nid) : M Z :=
  v ← GetValue fuel upd;
  if negb (v : bool) then mret (-2)
  else
    u ← getn upd;
    r ← SetValue fuel this (n_type u) (n_val u) true;
    mret (if negb (ok r) then -3 else 0).

End update.

(** Models [KnvNode::UpdateSubTree] (src/knv/knv_node.cc:2286-2370). *)
Fixpoint UpdateSubTree (fuel : nat) (this : nid) (update_tree : option nid) (max_level : Z) : M Z :=
  match fuel with
  | O => spin
  | S fuel' =>
      match update_tree with
      | None => mret (-1)
      | Some upd =>
          u ← getn upd;
          if Z.eqb (n_tag u) 0 then mret (-1)
          else
            x ← getn this;
            same ← (if Z.eqb (n_tag x) (n_tag u) then key_eq (n_key x) (n_key u) else mret false);
            if negb (same : bool) then mret 0
            else
              (if Z.eqb max_level 0 then InnerExpand fuel this true;; InnerExpand fuel upd true;; mret tt else mret tt);;
              b ← (if Z.ltb max_level 0 then mret true
                   else nr ← GetChildNum fuel upd;
                        if Z.leb nr 0 then mret true else nr ← GetChildNum fuel this; mret (Z.leb nr 0));
              if (b : bool) then replace_value fuel this upd
              else
                u ← getn upd;
                r ← update_metas fuel this (n_metalist u);
                if negb (ok r) then mret r
                else
                  let max_level := max_level - 1 in
                  (if Z.ltb max_level 0 then
                     tags ← tags_of (n_childlist u) [];
                     each (fun t => RemoveChildrenByTag fuel this t;; mret tt) tags
                   else mret tt);;
                  update_children fuel (fun d u => UpdateSubTree fuel' d (Some u) max_level) this
                    (Z.leb 0 max_level) (n_childlist u)
      end
  end.

(** The requests for the children of a node, one after the other. *)
(** Models [KnvNode::MakeRequestTree] (src/knv/knv_node.cc:2398-2420). *)
Fixpoint request_children (fuel : nat) (rec : nid -> M (option nid)) (this : nid) (l : list nid) (new_tr : option nid)
    : M (option nid) :=
  match l with
  | [] => mret new_tr
  | s :: l' =>
      t ← match new_tr with Some t => mret (Some t) | None => new_like fuel this end;
      match t with
      | None => mret None
      | Some t =>
          r ← rec s;
          match r with
          | None => mret None
          | Some r => InnerInsertChild fuel t r true false true true;; request_children fuel rec this l' (Some t)
          end
      end
  end.

(** Models [KnvNode::MakeRequestTree] (src/knv/knv_node.cc:2373-2422). *)
Fixpoint MakeRequestTree (fuel : nat) (this : nid) (max_level : Z) : M (option nid) :=
  match fuel with
  | O => spin
  | S fuel' =>
      x ← getn this;
      if Z.eqb (n_tag x) 0 then mret None
      else
        b ← (if Z.ltb max_level 0 then mret true else nr ← GetChildNum fuel this; mret (Z.leb nr 0));
        x ← getn this;
        if (b : bool) then
          if Z.ltb (n_child_num x) 0 || bool_decide (n_metalist x = [])
          then new_int1 fuel (n_tag x) false else new_like fuel this
        else request_children fuel (fun s => MakeRequestTree fuel' s (max_level - 1)) this (n_childlist x) None
  end.

(** One child of [this], and the answer if the loop ends there: the tree and the code. *)
(** Models [KnvNode::Compare] (src/knv/knv_node.cc:2545-2602). *)
Definition compare_child (fuel : nat) (rec : nid -> nid -> M (option nid * Z)) (this pstNode child : nid)
    (pstRetNode : option nid) : M (option nid * Z + option nid) :=
  c ← getn child;
  k ← FindChild fuel pstNode (n_tag c) (if Z.eqb (k_len (n_key c)) 0 then None else k_val (n_key c)) (k_len (n_key c));
  '(add, code) ← match k with
                 | None => mret (Some (child, false), 0)
                 | Some (k, _) =>
                     '(sub, code) ← rec child k;
                     mret ((fun s => (s, true)) <$> sub, code)
                 end;
  if negb (ok code) then delete_opt fuel pstRetNode;; mret (inl (None, code))
  else
    match add with
    | None => mret (inr pstRetNode)
    | Some (c, take_ownership) =>
        match pstRetNode with
        | None => t ← new_like fuel this; mret (inl (None, match t with Some _ => 0 | None => 1 end))
        | Some t =>
            r ← InsertChild fuel t (Some c) take_ownership (negb take_ownership) true;
            if negb (ok r) then Delete fuel t;; mret (inl (None, 1)) else mret (inr (Some t))
        end
    end.

(** Models [KnvNode::Compare] (src/knv/knv_node.cc:2543-2603). *)
Fixpoint compare_children (fuel : nat) (rec : nid -> nid -> M (option nid * Z)) (this pstNode : nid) (l : list nid)
    (pstRetNode : option nid) : M (option nid * Z) :=
  match l with
  | [] => mret (pstRetNode, 0)
  | c :: l' =>
      r ← compare_child fuel rec this pstNode c pstRetNode;
      match r with inl a => mret a | inr t => compare_children fuel rec this pstNode l' t end
  end.

(** The tree and [nRetCode]. *)
(** Models [KnvNode::Compare] (src/knv/knv_node.cc:2531-2604). *)
Fixpoint Compare (fuel : nat) (this : nid) (pstNode : option nid) : M (option nid * Z) :=
  match fuel with
  | O => spin
  | S fuel' =>
      x ← getn this;
      same ← match pstNode with
             | None => mret false
             | Some p => y ← getn p; key_eq (n_key x) (n_key y)
             end;
      match (if (same : bool) then pstNode else None) with
      | None => d ← Duplicate fuel this true; mret (d, match d with Some _ => 0 | None => 1 end)
      | Some p =>
          c ← GetFirstChild fuel this;
          x ← getn this;
          match c with
          | None => mret (None, 0)
          | Some _ => compare_children fuel (fun c k => Compare fuel' c (Some k)) this p (n_childlist x) None
          end
      end
  end.
