(* ===== verification/Protocol.v ===== *)
(** * The KNV protocol (src/knv/protocol.h, src/knv/protocol.cc)

    A [KnvProtocol] is a tree with a header and bodies, the values of the header that matter, and the numbers for
    cutting a large packet into parts.  The object is a record that every function takes and returns; the trees live
    in the heap of KnvHeap.v.  [errmsg], the printing functions and the calls of [Attr_API] are left out.  As in
    KnvNode.v sizes of type [int] are unbounded integers, except in [InitFromOidbPkg], where they come from the
    packet. *)

From S2P Require Import Prelude Pb MemPool KnvHeap KnvHt KnvNode KnvSize KnvExpand KnvOwn KnvFields ResultSet.

(** ** Tags *)

(** Models [KNV_DEFUALT_MAX_PKG_SIZE] (src/knv/protocol.h:20-20). *)
Definition KNV_DEFUALT_MAX_PKG_SIZE : Z := 64000.
(** Models [KNV_PKG_TAG] (src/knv/protocol.h:23-23). *)
Definition KNV_PKG_TAG : Z := 0xdb3.
(** Models [KNV_PKG_HDR_TAG] (src/knv/protocol.h:24-24). *)
Definition KNV_PKG_HDR_TAG : Z := 0xbad.
(** Models [KNV_PKG_BDY_TAG] (src/knv/protocol.h:25-25). *)
Definition KNV_PKG_BDY_TAG : Z := 0xdad.
(** Models [KNV_PKG_PART_TAG_BASE] (src/knv/protocol.h:27-27). *)
Definition KNV_PKG_PART_TAG_BASE : Z := 0x1ee.
(** Models [KNV_PKG_HDR_CMD_TAG] (src/knv/protocol.h:31-31). *)
Definition KNV_PKG_HDR_CMD_TAG : Z := 2.
(** Models [KNV_PKG_HDR_SUBCMD_TAG] (src/knv/protocol.h:32-32). *)
Definition KNV_PKG_HDR_SUBCMD_TAG : Z := 3.
(** Models [KNV_PKG_HDR_SEQ_TAG] (src/knv/protocol.h:33-33). *)
Definition KNV_PKG_HDR_SEQ_TAG : Z := 4.
(** Models [KNV_PKG_HDR_RET_TAG] (src/knv/protocol.h:34-34). *)
Definition KNV_PKG_HDR_RET_TAG : Z := 7.
(** Models [KNV_PKG_HDR_ERR_TAG] (src/knv/protocol.h:35-35). *)
Definition KNV_PKG_HDR_ERR_TAG : Z := 8.
(** Models [KNV_PKG_HDR_RSP_ADDR] (src/knv/protocol.h:37-37). *)
Definition KNV_PKG_HDR_RSP_ADDR : Z := 2001.
(** Models [KNV_PKG_HDR_ALLOW_SPLIT] (src/knv/protocol.h:38-38). *)
Definition KNV_PKG_HDR_ALLOW_SPLIT : Z := 2002.
(** Models [KNV_PKG_HDR_MAX_PKG_SIZE] (src/knv/protocol.h:39-39). *)
Definition KNV_PKG_HDR_MAX_PKG_SIZE : Z := 2003.
(** Models [KNV_PKG_HDR_TOTAL_SPLIT_COUNT] (src/knv/protocol.h:40-40). *)
Definition KNV_PKG_HDR_TOTAL_SPLIT_COUNT : Z := 2004.
(** Models [KNV_PKG_HDR_CURR_SPLIT_INDEX] (src/knv/protocol.h:41-41). *)
Definition KNV_PKG_HDR_CURR_SPLIT_INDEX : Z := 2005.
(** Models [STX_IPV6_PB] (src/knv/protocol.h:51-51). *)
Definition STX_IPV6_PB : Z := 0x28.
(** Models [ETX_IPV6_PB] (src/knv/protocol.h:52-52). *)
Definition ETX_IPV6_PB : Z := 0x29.
(** Models [STX_KNV_BDY] (src/knv/protocol.h:57-57). *)
Definition STX_KNV_BDY : Z := 0xeada.

(** ** The object *)

(** [rspaddr] is the bytes of its address, [addr_len] of them. *)
(** Models [KnvProtocol] (src/knv/protocol.h:67-99). *)
Record KnvProtocol := mk_proto {
  tree : option nid; header : option nid; body : option nid;
  cmd : Z; subcmd : Z; seq : Z; retcode : Z; retmsglen : Z; retmsg : ptr; rspaddr : bytes;
  allow_split : Z; max_pkg_sz : Z; total_split_count : Z; curr_split_index : Z; auto_delete : bool }.

Definition set_tree (t : option nid) (p : KnvProtocol) : KnvProtocol :=
  mk_proto t (header p) (body p) (cmd p) (subcmd p) (seq p) (retcode p) (retmsglen p) (retmsg p) (rspaddr p) (allow_split p) (max_pkg_sz p) (total_split_count p) (curr_split_index p) (auto_delete p).
Definition set_header (t : option nid) (p : KnvProtocol) : KnvProtocol :=
  mk_proto (tree p) t (body p) (cmd p) (subcmd p) (seq p) (retcode p) (retmsglen p) (retmsg p) (rspaddr p) (allow_split p) (max_pkg_sz p) (total_split_count p) (curr_split_index p) (auto_delete p).
Definition set_body (t : option nid) (p : KnvProtocol) : KnvProtocol :=
  mk_proto (tree p) (header p) t (cmd p) (subcmd p) (seq p) (retcode p) (retmsglen p) (retmsg p) (rspaddr p) (allow_split p) (max_pkg_sz p) (total_split_count p) (curr_split_index p) (auto_delete p).
Definition set_nodes (t hd bd : option nid) (p : KnvProtocol) : KnvProtocol := set_tree t (set_header hd (set_body bd p)).
Definition set_auto_delete (b : bool) (p : KnvProtocol) : KnvProtocol :=
  mk_proto (tree p) (header p) (body p) (cmd p) (subcmd p) (seq p) (retcode p) (retmsglen p) (retmsg p) (rspaddr p) (allow_split p) (max_pkg_sz p) (total_split_count p) (curr_split_index p) b.
Definition set_ids (c s q r : Z) (p : KnvProtocol) : KnvProtocol :=
  mk_proto (tree p) (header p) (body p) c s q r (retmsglen p) (retmsg p) (rspaddr p) (allow_split p) (max_pkg_sz p) (total_split_count p) (curr_split_index p) (auto_delete p).
Definition set_retmsg (l : Z) (s : ptr) (p : KnvProtocol) : KnvProtocol :=
  mk_proto (tree p) (header p) (body p) (cmd p) (subcmd p) (seq p) (retcode p) l s (rspaddr p) (allow_split p) (max_pkg_sz p) (total_split_count p) (curr_split_index p) (auto_delete p).
Definition set_rspaddr (a : bytes) (p : KnvProtocol) : KnvProtocol :=
  mk_proto (tree p) (header p) (body p) (cmd p) (subcmd p) (seq p) (retcode p) (retmsglen p) (retmsg p) a (allow_split p) (max_pkg_sz p) (total_split_count p) (curr_split_index p) (auto_delete p).
Definition set_split (al mx tot cur : Z) (p : KnvProtocol) : KnvProtocol :=
  mk_proto (tree p) (header p) (body p) (cmd p) (subcmd p) (seq p) (retcode p) (retmsglen p) (retmsg p) (rspaddr p) al mx tot cur (auto_delete p).
Definition set_total (n : Z) (p : KnvProtocol) : KnvProtocol := set_split (allow_split p) (max_pkg_sz p) n (curr_split_index p) p.

(** What the constructors start from. *)
Definition proto0 : KnvProtocol := mk_proto None None None 0 0 0 0 0 None [] 0 0 0 0 true.

(** A call on a [NULL] pointer. *)
Definition deref (o : option nid) : M nid := lift o.

Definition is_some {A} (o : option A) : bool := match o with Some _ => true | None => false end.

Section protocol.
Context (fuel : nat).

Definition node_valid (o : option nid) : M bool :=
  match o with Some n => x ← getn n; mret (negb (Z.eqb (n_tag x) 0)) | None => mret false end.

(** Models [KnvProtocol::IsValid] (src/knv/protocol.h:316-319). *)
Definition IsValid (p : KnvProtocol) : M bool :=
  match tree p with Some t => x ← getn t; mret (Z.eqb (n_tag x) KNV_PKG_TAG) | None => mret false end.

(** Models [KnvProtocol::Delete] (src/knv/protocol.h:309-314). *)
Definition Delete (p : KnvProtocol) : M KnvProtocol :=
  (if auto_delete p then delete_opt fuel (tree p) else mret tt);;
  mret (set_nodes None None None p).

(** Models [KnvProtocol::GetHeader] (src/knv/protocol.h:321-324). *)
Definition GetHeader (p : KnvProtocol) : M (option nid) := v ← IsValid p; mret (if v : bool then header p else None).
(** Models [KnvProtocol::GetBody] (src/knv/protocol.h:326-329). *)
Definition GetBody (p : KnvProtocol) : M (option nid) :=
  v ← IsValid p; b ← node_valid (body p); mret (if (v : bool) && (b : bool) then body p else None).
(** Models [KnvProtocol::GetKey] (src/knv/protocol.h:331-334). *)
Definition GetKey (p : KnvProtocol) : M (option knv_key_t) :=
  b ← GetBody p; match b with Some n => x ← getn n; mret (Some (n_key x)) | None => mret None end.

(** Models [KnvProtocol::GetRetMsg] (src/knv/protocol.h:98-98). *)
Definition GetRetMsg (p : KnvProtocol) : M bytes := read_str (retmsg p) (retmsglen p).
(** Models [KnvProtocol::GetMaxPkgSize] (src/knv/protocol.h:216-216). *)
Definition GetMaxPkgSize (p : KnvProtocol) : Z :=
  if Z.ltb (max_pkg_sz p) 128 || Z.ltb KNV_DEFUALT_MAX_PKG_SIZE (max_pkg_sz p) then KNV_DEFUALT_MAX_PKG_SIZE else max_pkg_sz p.
(** Models [KnvProtocol::IsComplete] (src/knv/protocol.h:219-219). *)
Definition IsComplete (p : KnvProtocol) : M bool :=
  v ← IsValid p;
  b ← GetBody p;
  mret ((v : bool) && (negb (Z.eqb (retcode p) 0) || Z.eqb (total_split_count p) 0 || is_some b)).

(** Models [FindFirstBody] (src/knv/protocol.h:352-357). *)
Definition FindFirstBody (b : option nid) : M (option nid) := skip_to_tag fuel b KNV_PKG_BDY_TAG.

(** Models [KnvProtocol::GetFirstRequest] (src/knv/protocol.h:359-363). *)
Definition GetFirstRequest (p : KnvProtocol) : M (option nid * KnvProtocol) :=
  c ← match tree p with Some t => GetFirstChild fuel t | None => mret None end;
  b ← FindFirstBody c;
  mret (match b with Some _ => (b, set_body b p) | None => (None, p) end).
(** Models [KnvProtocol::GetNextRequest] (src/knv/protocol.h:365-369). *)
Definition GetNextRequest (p : KnvProtocol) : M (option nid * KnvProtocol) :=
  c ← match body p with Some b => GetSibling b | None => mret None end;
  b ← FindFirstBody c;
  mret (match b with Some _ => (b, set_body b p) | None => (None, p) end).

(** *** Reading the header *)

(** The value of a field of the header, when it is a number. *)
Definition int_value (m : option nid) : M (option Z) :=
  match m with
  | Some m => x ← getn m; mret (if Z.eqb (n_type x) KNV_VARINT then Some (kv_i64 (n_val x)) else None)
  | None => mret None
  end.
Definition str_field (m : option nid) : M (option (Z * ptr)) :=
  match m with
  | Some m => x ← getn m; mret (if Z.eqb (n_type x) KNV_STRING then Some (kv_len (n_val x), kv_ptr (n_val x)) else None)
  | None => mret None
  end.

(** [INIT_HEADER_INFO] *)
(** Models [INIT_HEADER_INFO] (src/knv/protocol.cc:11-20). *)
Definition clear_info (p : KnvProtocol) : KnvProtocol :=
  set_ids 0 0 0 0 (set_retmsg 0 None (set_rspaddr [] (set_split 0 0 0 0 p))).

(** 16 and 28 are the sizes of the two kinds of addresses. *)
(** Models [InitHeaderInfo] (src/knv/protocol.cc:22-88). *)
Definition InitHeaderInfo (p : KnvProtocol) : M KnvProtocol :=
  let p := clear_info p in
  match header p with
  | None => mret p
  | Some h =>
      c ← m ← GetMeta fuel h KNV_PKG_HDR_CMD_TAG; int_value m;
      s ← m ← GetMeta fuel h KNV_PKG_HDR_SUBCMD_TAG; int_value m;
      r ← m ← GetMeta fuel h KNV_PKG_HDR_RET_TAG; int_value m;
      e ← m ← GetMeta fuel h KNV_PKG_HDR_ERR_TAG; str_field m;
      q ← m ← GetMeta fuel h KNV_PKG_HDR_SEQ_TAG; int_value m;
      a ← m ← FindChildByTag fuel h KNV_PKG_HDR_RSP_ADDR; str_field m;
      addr ← match a with
             | Some (l, d) => if Z.eqb l 16 || Z.eqb l 28 then read_str d l else mret []
             | None => mret []
             end;
      al ← m ← FindChildByTag fuel h KNV_PKG_HDR_ALLOW_SPLIT; int_value m;
      mx ← m ← FindChildByTag fuel h KNV_PKG_HDR_MAX_PKG_SIZE; int_value m;
      tot ← m ← FindChildByTag fuel h KNV_PKG_HDR_TOTAL_SPLIT_COUNT; int_value m;
      cur ← m ← FindChildByTag fuel h KNV_PKG_HDR_CURR_SPLIT_INDEX; int_value m;
      let low o := u32 (default 0 o) in
      mret (set_ids (low c) (low s) (default 0 q) (low r)
             (set_retmsg (default 0 (fst <$> e)) (default None (snd <$> e))
               (set_rspaddr addr
                 (set_split (if Z.eqb (default 0 al) 0 then 0 else 1) (u16 (default 0 mx)) (u8 (default 0 tot)) (u8 (default 0 cur)) p))))
  end.

(** ** Construction *)

(** 0, or -1 when the tree has no header. *)
(** Models [EXPAND_TREE] (src/knv/protocol.cc:90-106). *)
Definition EXPAND_TREE (p : KnvProtocol) : M (Z * KnvProtocol) :=
  match header p with
  | Some _ => mret (0, p)
  | None =>
      t ← deref (tree p);
      c ← GetFirstChild fuel t;
      b ← FindFirstBody c;
      h ← FindChildByTag fuel t KNV_PKG_HDR_TAG;
      match h with
      | None =>
          (if auto_delete p then KnvNode.Delete fuel t else mret tt);;
          mret (-1, set_nodes None None None p)
      | Some h => mret (0, set_nodes (Some t) (Some h) b p)
      end
  end.

(** [!tree->GetTag()==KNV_PKG_TAG] compares a truth value with the tag: it never holds. *)
(** Models [InitProtocol] (src/knv/protocol.cc:108-118). *)
Definition InitProtocol (p : KnvProtocol) : M KnvProtocol :=
  p ← match tree p with
      | None => mret (set_nodes None None None p)
      | Some t =>
          x ← getn t;
          let not_tag := if Z.eqb (n_tag x) 0 then 1 else 0 in
          '(r, p) ← (if Z.eqb not_tag KNV_PKG_TAG then mret (1, p) else EXPAND_TREE p);
          if Z.eqb r 0 then mret p
          else
            (if auto_delete p then delete_opt fuel (tree p) else mret tt);;
            mret (set_nodes None None None p)
      end;
  InitHeaderInfo p.

(** From another protocol, which may lose its tree to the new one. *)
(** Models [KnvProtocol::KnvProtocol] (src/knv/protocol.cc:121-155). *)
Definition KnvProtocol_copy (proto : KnvProtocol) (take_ownership deep_copy : bool) : M (KnvProtocol * KnvProtocol) :=
  v ← IsValid proto;
  let t := if v : bool then tree proto else None in
  '(t, auto, proto) ←
    (if take_ownership then
       if auto_delete proto then mret (t, true, set_auto_delete false proto)
       else match tree proto with
            | Some pt => d ← Duplicate fuel pt true; mret (d, true, proto)
            | None => mret (t, true, proto)
            end
     else match t with
          | Some pt => if deep_copy then d ← Duplicate fuel pt true; mret (d, true, proto) else mret (t, false, proto)
          | None => mret (t, false, proto)
          end);
  p ← InitProtocol (set_auto_delete auto (set_tree t proto0));
  mret (p, proto).

(** The nodes given go into a new tree.  When that fails they are released, if they were given away; the fields
    keep pointing to them until [InitProtocol]. *)
(** Models [KnvProtocol::KnvProtocol] (src/knv/protocol.cc:157-190). *)
Definition KnvProtocol_nodes (hdr bdy : option nid) (take_ownership : bool) : M KnvProtocol :=
  t ← NewTree fuel KNV_PKG_TAG None;
  let p := set_nodes t hdr bdy proto0 in
  p ← match t with
      | None =>
          (if take_ownership then delete_opt fuel hdr;; delete_opt fuel bdy else mret tt);;
          mret p
      | Some t =>
          r ← match hdr with None => mret 1 | Some _ => InsertChild fuel t hdr take_ownership true true end;
          if negb (Z.eqb r 0) then
            KnvNode.Delete fuel t;;
            (if take_ownership then delete_opt fuel hdr;; delete_opt fuel bdy else mret tt);;
            mret (set_tree None p)
          else
            r ← match bdy with None => mret 0 | Some _ => InsertChild fuel t bdy take_ownership true true end;
            p ← (if negb (Z.eqb r 0) then
                   KnvNode.Delete fuel t;;
                   (if take_ownership then delete_opt fuel bdy else mret tt);;
                   mret (set_tree None p)
                 else mret p);
            if negb take_ownership then
              '(r, p) ← EXPAND_TREE (set_nodes (tree p) None None p);
              mret (if Z.eqb r 0 then p else set_tree None p)
            else mret p
      end;
  InitProtocol p.

(** [ntohl] of the four bytes at [p], and so on. *)
Definition ntohl_at (p : ptr) : M Z := s ← read_str p 4; mret (foldl (fun a b => a * 256 + b) 0 s).
Definition ntohs_at (p : ptr) : M Z := s ← read_str p 2; mret (foldl (fun a b => a * 256 + b) 0 s).
Definition char_at (p : ptr) : M Z := s ← read_str p 1; mret (nth 0 s 0).

(** A packet of another protocol: [STX_IPV6_PB], the lengths of header and body, header, body, [ETX_IPV6_PB].
    [total_len] is an [int] that the sum of two lengths from the packet is stored in. *)
(** Models [KnvProtocol::InitFromOidbPkg] (src/knv/protocol.cc:192-287). *)
Definition InitFromOidbPkg (buf : ptr) (buflen : Z) (own_buf : bool) (p : KnvProtocol) : M KnvProtocol :=
  if Z.ltb buflen 10 then mret p
  else
    hlen ← ntohl_at (ptr_add buf 1);
    blen ← ntohl_at (ptr_add buf 5);
    let total_len := s32 (hlen + blen + 10) in
    last ← (if Z.ltb buflen total_len then mret ETX_IPV6_PB else char_at (ptr_add buf (total_len - 1)));
    if Z.ltb buflen total_len || negb (Z.eqb last ETX_IPV6_PB) then mret p
    else
      hd ← New fuel KNV_PKG_HDR_TAG KNV_NODE KNV_VARINT None (Some (kv_str hlen (ptr_add buf 9))) own_buf;
      match hd with
      | None => mret p
      | Some hd =>
          let v := kv_str blen (ptr_add buf (9 + hlen)) in
          token ← ntohs_at (ptr_add buf (9 + hlen));
          if Z.eqb token STX_KNV_BDY then
            t ← New fuel KNV_PKG_TAG KNV_NODE KNV_VARINT None (Some v) own_buf;
            match t with
            | None => KnvNode.Delete fuel hd;; mret p
            | Some t =>
                r ← InsertChild fuel t (Some hd) true true false;
                if Z.ltb r 0 then KnvNode.Delete fuel hd;; KnvNode.Delete fuel t;; mret p
                else mret (set_nodes (Some t) (Some hd) (body p) p)
            end
          else
            bd ← New fuel KNV_PKG_BDY_TAG KNV_NODE KNV_VARINT None (Some v) own_buf;
            t ← match bd with Some _ => NewTree fuel KNV_PKG_TAG None | None => mret (tree p) end;
            match bd, t with
            | Some bd, Some t =>
                r ← InsertChild fuel t (Some hd) true true true;
                if Z.ltb r 0 then
                  KnvNode.Delete fuel hd;; KnvNode.Delete fuel bd;; KnvNode.Delete fuel t;; mret (set_nodes None None None p)
                else
                  r ← InsertChild fuel t (Some bd) true true true;
                  if Z.ltb r 0 then KnvNode.Delete fuel bd;; KnvNode.Delete fuel t;; mret (set_nodes None None None p)
                  else mret (set_nodes (Some t) (Some hd) (Some bd) p)
            | _, _ => KnvNode.Delete fuel hd;; delete_opt fuel bd;; mret (set_nodes t None None p)
            end
      end.

(** From the bytes of a packet. *)
(** Models [KnvProtocol::KnvProtocol] (src/knv/protocol.cc:308-325). *)
Definition KnvProtocol_bytes (buf : ptr) (buf_len : Z) (own_buf : bool) : M KnvProtocol :=
  c ← match buf with Some _ => char_at buf | None => mret 0 end;
  p ← (if is_some buf && Z.eqb c STX_IPV6_PB then InitFromOidbPkg buf buf_len own_buf proto0
       else t ← NewBin fuel buf buf_len own_buf; mret (set_tree t proto0));
  InitProtocol p.

(** From a C++ string, whose memory ends with one more 0. *)
(** Models [KnvProtocol::KnvProtocol] (src/knv/protocol.cc:289-306). *)
Definition KnvProtocol_string (data : ptr) (length : Z) (own_buf : bool) : M KnvProtocol :=
  c ← char_at data;
  p ← (if Z.eqb c STX_IPV6_PB then InitFromOidbPkg data length own_buf proto0
       else t ← NewBin fuel data length own_buf; mret (set_tree t proto0));
  InitProtocol p.

(** The bytes of a new packet for an object that may have one. *)
(** Models [KnvProtocol::assign] (src/knv/protocol.cc:327-341). *)
Definition assign_bytes (buf : ptr) (buf_len : Z) (own_buf : bool) (p : KnvProtocol) : M (Z * KnvProtocol) :=
  t ← NewBin fuel buf buf_len own_buf;
  match t with
  | None => mret (-1, p)
  | Some t =>
      p ← Delete p;
      p ← InitProtocol (set_auto_delete true (set_nodes (Some t) None None p));
      mret (0, p)
  end.

(** Another protocol's tree, copied or taken over; gives the code, this object and the other. *)
(** Models [KnvProtocol::assign] (src/knv/protocol.h:249-307). *)
Definition assign (prot : KnvProtocol) (own_buf : bool) (p : KnvProtocol) : M (Z * KnvProtocol * KnvProtocol) :=
  let p := set_ids (cmd prot) (subcmd prot) (seq prot) (retcode prot) (set_rspaddr (rspaddr prot)
             (set_split (allow_split prot) (max_pkg_sz prot) (total_split_count prot) (curr_split_index prot) p)) in
  p ← Delete p;
  if own_buf then
    let p := set_retmsg 0 None p in
    pt ← deref (tree prot);
    t ← Duplicate fuel pt true;
    match t with
    | None => mret (-1, p, prot)
    | Some t =>
        h ← FindChildByTag fuel t KNV_PKG_HDR_TAG;
        match h with
        | None => KnvNode.Delete fuel t;; mret (-2, p, prot)
        | Some h =>
            e ← m ← GetMeta fuel h KNV_PKG_HDR_ERR_TAG; str_field m;
            let p := set_retmsg (default 0 (fst <$> e)) (default None (snd <$> e)) p in
            b ← FindChildByTag fuel t KNV_PKG_BDY_TAG;
            mret (0, set_auto_delete true (set_nodes (Some t) (Some h) b p), prot)
        end
    end
  else
    let p := set_nodes (tree prot) (header prot) (body prot) (set_retmsg (retmsglen prot) (retmsg prot) p) in
    mret (0, set_auto_delete (auto_delete prot) p, set_auto_delete false prot).

(** ** Fields of the header *)

(** Models [KnvProtocol::GetHeaderIntField] (src/knv/protocol.h:336-341). *)
Definition GetHeaderIntField (ftag : Z) (p : KnvProtocol) : M Z :=
  match header p with Some h => GetFieldInt fuel h ftag | None => mret 0 end.
(** Models [KnvProtocol::GetHeaderStringField] (src/knv/protocol.h:343-349). *)
Definition GetHeaderStringField (ftag : Z) (p : KnvProtocol) : M bytes :=
  match header p with Some h => GetFieldStr fuel h ftag | None => mret [] end.

(** Models [KnvProtocol::SetHeaderIntField] (src/knv/protocol.cc:588-611). *)
Definition SetHeaderIntField (ftag new_val : Z) (p : KnvProtocol) : M (Z * KnvProtocol) :=
  v ← IsValid p;
  if negb (v : bool) then mret (-1, p)
  else
    h ← deref (header p);
    r ← SetFieldInt fuel h ftag new_val;
    if negb (Z.eqb r 0) then mret (-2, p)
    else
      let c := u32 new_val in
      mret (0, if Z.eqb ftag KNV_PKG_HDR_CMD_TAG then set_ids c (subcmd p) (seq p) (retcode p) p
               else if Z.eqb ftag KNV_PKG_HDR_SUBCMD_TAG then set_ids (cmd p) c (seq p) (retcode p) p
               else if Z.eqb ftag KNV_PKG_HDR_SEQ_TAG then set_ids (cmd p) (subcmd p) (u64 new_val) (retcode p) p
               else if Z.eqb ftag KNV_PKG_HDR_RET_TAG then set_ids (cmd p) (subcmd p) (seq p) c p else p).

(** The message keeps pointing to the caller's text. *)
(** Models [KnvProtocol::SetHeaderStringField] (src/knv/protocol.cc:613-638). *)
Definition SetHeaderStringField (ftag new_len : Z) (new_val : ptr) (p : KnvProtocol) : M (Z * KnvProtocol) :=
  v ← IsValid p;
  if negb (v : bool) then mret (-1, p)
  else
    h ← deref (header p);
    r ← (if is_some new_val && negb (Z.eqb new_len 0) then SetFieldStr fuel h ftag new_len new_val else RemoveField fuel h ftag);
    if negb (Z.eqb r 0) then mret (-2, p)
    else mret (0, if Z.eqb ftag KNV_PKG_HDR_ERR_TAG then set_retmsg new_len new_val p else p).

(** Models [KnvProtocol::SetCommand] (src/knv/protocol.h:205-205). *)
Definition SetCommand (x : Z) (p : KnvProtocol) : M (Z * KnvProtocol) := SetHeaderIntField KNV_PKG_HDR_CMD_TAG x p.
(** Models [KnvProtocol::SetSubCommand] (src/knv/protocol.h:206-206). *)
Definition SetSubCommand (x : Z) (p : KnvProtocol) : M (Z * KnvProtocol) := SetHeaderIntField KNV_PKG_HDR_SUBCMD_TAG x p.
(** Models [KnvProtocol::SetSequence] (src/knv/protocol.h:207-207). *)
Definition SetSequence (x : Z) (p : KnvProtocol) : M (Z * KnvProtocol) := SetHeaderIntField KNV_PKG_HDR_SEQ_TAG x p.
(** Models [KnvProtocol::SetRetCode] (src/knv/protocol.h:208-208). *)
Definition SetRetCode (x : Z) (p : KnvProtocol) : M (Z * KnvProtocol) := SetHeaderIntField KNV_PKG_HDR_RET_TAG x p.
(** Models [KnvProtocol::SetRetErrorMsg] (src/knv/protocol.h:209-209). *)
Definition SetRetErrorMsg (msg : ptr) (l : Z) (p : KnvProtocol) : M (Z * KnvProtocol) := SetHeaderStringField KNV_PKG_HDR_ERR_TAG l msg p.

(** The address is put into the object, at [mem], and copied from there. *)
(** Models [KnvProtocol::SetRspAddr] (src/knv/protocol.cc:640-674). *)
Definition SetRspAddr (addr : bytes) (mem : ptr) (p : KnvProtocol) : M (Z * KnvProtocol) :=
  v ← IsValid p;
  if negb (v : bool) then mret (-1, p)
  else
    write_str mem addr;;
    let p := set_rspaddr addr p in
    h ← deref (header p);
    n ← FindChildByTag fuel h KNV_PKG_HDR_RSP_ADDR;
    match n with
    | Some n => r ← SetValueStr fuel n mem (len addr) true; mret (if Z.ltb r 0 then -1 else 0, p)
    | None => n ← InsertStrLeaf fuel h KNV_PKG_HDR_RSP_ADDR mem (len addr); mret (if is_some n then 0 else -2, p)
    end.

(** With a header of its own. *)
(** Models [KnvProtocol::KnvProtocol] (src/knv/protocol.cc:344-369). *)
Definition KnvProtocol_new (dwCmd dwSubCmd dwSeq : Z) : M KnvProtocol :=
  p ← InitProtocol proto0;
  t ← NewTree fuel KNV_PKG_TAG None;
  match t with
  | None => mret p
  | Some t =>
      h ← InsertSubNode fuel t KNV_PKG_HDR_TAG None;
      match h with
      | None => KnvNode.Delete fuel t;; mret p
      | Some h =>
          '(r, p) ← SetCommand dwCmd (set_nodes (Some t) (Some h) None p);
          '(r, p) ← (if Z.eqb r 0 then SetSubCommand dwSubCmd p else mret (r, p));
          '(r, p) ← (if Z.eqb r 0 then SetSequence dwSeq p else mret (r, p));
          if Z.eqb r 0 then mret (set_ids dwCmd dwSubCmd dwSeq (retcode p) p)
          else KnvNode.Delete fuel t;; mret (set_nodes None None (body p) p)
      end
  end.

(** ** Bodies and domains *)

(** The node given becomes the current body, also when only a copy of it went into the tree. *)
(** Models [KnvProtocol::AddBody] (src/knv/protocol.cc:564-585). *)
Definition AddBody (b : option nid) (take_ownership : bool) (p : KnvProtocol) : M (Z * KnvProtocol) :=
  v ← IsValid p;
  if negb (v : bool) then mret (-1, p)
  else
    tag ← match b with Some n => x ← getn n; mret (n_tag x) | None => mret 0 end;
    if negb (is_some b) || negb (Z.eqb tag KNV_PKG_BDY_TAG) then mret (-2, p)
    else
      t ← deref (tree p);
      r ← InsertChild fuel t b take_ownership false true;
      if negb (Z.eqb r 0) then mret (-3, p) else mret (0, set_body b p).

(** Models [KnvProtocol::AddBody] (src/knv/protocol.h:371-378). *)
Definition AddBody_value (keytype : Z) (key : kval) (p : KnvProtocol) : M (Z * KnvProtocol) :=
  n ← New fuel KNV_PKG_BDY_TAG KNV_NODE keytype (Some key) None true;
  match n with Some _ => AddBody n true p | None => mret (-1, p) end.
(** Models [KnvProtocol::AddBody] (src/knv/protocol.h:380-387). *)
Definition AddBody_key (key : knv_key_t) (p : KnvProtocol) : M (Z * KnvProtocol) :=
  n ← NewTree fuel KNV_PKG_BDY_TAG (Some key);
  match n with Some _ => AddBody n true p | None => mret (-1, p) end.

(** Models [KnvProtocol::RemoveAllBodies] (src/knv/protocol.h:389-404). *)
Definition RemoveAllBodies (p : KnvProtocol) : M (Z * KnvProtocol) :=
  v ← IsValid p;
  if negb (v : bool) then mret (-1, p)
  else
    t ← deref (tree p);
    r ← RemoveChildrenByTag fuel t KNV_PKG_BDY_TAG;
    if Z.ltb r 0 then mret (-2, p) else mret (0, set_body None p).

(** Models [KnvProtocol::ReassignBody] (src/knv/protocol.h:406-413). *)
Definition ReassignBody (new_body : option nid) (take_ownership : bool) (p : KnvProtocol) : M (Z * KnvProtocol) :=
  '(r, p) ← RemoveAllBodies p;
  if negb (Z.eqb r 0) then mret (-1, p)
  else
    '(r, p) ← (if is_some new_body then AddBody new_body take_ownership p else mret (0, p));
    mret (if negb (Z.eqb r 0) then -2 else 0, p).

(** Models [KnvProtocol::GetDomainNum] (src/knv/protocol.h:415-420). *)
Definition GetDomainNum (p : KnvProtocol) : M Z :=
  v ← IsValid p;
  match body p with Some b => if v : bool then GetChildNum fuel b else mret 0 | None => mret 0 end.

(** Models [KnvProtocol::GetFirstDomain] (src/knv/protocol.h:422-426). *)
Definition GetFirstDomain (p : KnvProtocol) : M (option nid) :=
  match body p with Some b => GetFirstChild fuel b | None => mret None end.

(** The body that the functions on domains need. *)
Definition good_body (p : KnvProtocol) : M (option nid) := GetBody p.

(** Models [KnvProtocol::GetDomain] (src/knv/protocol.h:428-434). *)
Definition GetDomain (iDomainId : Z) (p : KnvProtocol) : M (option nid) :=
  b ← good_body p;
  match b with
  | None => mret None
  | Some b => r ← FindChild fuel b (u32 iDomainId) None 0; mret (fst <$> r)
  end.

(** Models [KnvProtocol::AddDomain] (src/knv/protocol.h:436-454). *)
Definition AddDomain_id (iDomainId : Z) (p : KnvProtocol) : M (option nid) :=
  b ← good_body p;
  match b with
  | None => mret None
  | Some b =>
      r ← FindChild fuel b (u32 iDomainId) None 0;
      match r with
      | Some (n, _) => mret (Some n)
      | None => InsertChildVal fuel b (u32 iDomainId) KNV_NODE None true
      end
  end.

(** Models [KnvProtocol::AddDomain] (src/knv/protocol.h:456-475). *)
Definition AddDomain (domain : nid) (take_ownership : bool) (p : KnvProtocol) : M Z :=
  b ← good_body p;
  match b with
  | None => mret (-1)
  | Some b =>
      d ← getn domain;
      r ← FindChild fuel b (n_tag d) None 0;
      if is_some r then mret (-2)
      else r ← InsertChild fuel b (Some domain) take_ownership true true; mret (if negb (Z.eqb r 0) then -3 else 0)
  end.

(** Models [KnvProtocol::RemoveDomain] (src/knv/protocol.h:478-491). *)
Definition RemoveDomain (iDomainId : Z) (p : KnvProtocol) : M Z :=
  b ← good_body p;
  match b with
  | None => mret (-1)
  | Some b => r ← RemoveChildrenByTag fuel b (u32 iDomainId); mret (if Z.ltb r 0 then -2 else 0)
  end.

(** Models [KnvProtocol::EvalMaxSize] (src/knv/protocol.h:494-502). *)
Definition EvalMaxSize (p : KnvProtocol) : M Z :=
  v ← IsValid p;
  if negb (v : bool) then mret (-1) else t ← deref (tree p); EvaluateSize fuel t.

(** ** Encoding *)

(** [n] written into block [i] from offset [o] on, where there is room for [left] bytes: the code and the
    bytes used. *)
Definition serialize_at (n : nid) (i o left : Z) : M (Z * Z) :=
  sz ← mem_size i;
  buff ← read_str (Some (BMem i, 0)) sz;
  '(r, used, tl) ← Serialize fuel n (drop (Z.to_nat o) buff) left true;
  write_str (Some (BMem i, 0)) (take (Z.to_nat o) buff ++ tl);;
  mret (r, used).

(** [htonl] *)
Definition be32 (x : Z) : bytes := reverse (le_split 4 (u32 x)).

(** The value of a node as a leaf; [GetValue] gives [NULL] when it cannot be folded. *)
Definition leaf_value (n : nid) : M kval := b ← GetValue fuel n; if b : bool then x ← getn n; mret (n_val x) else crash.

(** [buf[0]], the two lengths and the header at the front of block [m]. *)
Definition oidb_head (m hdr_sz bdy_sz : Z) (hv : kval) : M unit :=
  write_str (Some (BMem m, 0)) [STX_IPV6_PB];;
  write_str (Some (BMem m, 1)) (be32 hdr_sz);;
  write_str (Some (BMem m, 5)) (be32 bdy_sz);;
  s ← read_str (kv_ptr hv) hdr_sz;
  write_str (Some (BMem m, 9)) s.

(** The result of an encoder is a code or the number of bytes, and the block. *)
(** Models [KnvProtocol::EncodeOidb] (src/knv/protocol.cc:371-403). *)
Definition EncodeOidb (body_tree : option nid) (p : KnvProtocol) : M (Z * option Z) :=
  h ← deref (header p);
  hv ← leaf_value h;
  let hdr_sz := kv_len hv in
  bdy_sz ← match body_tree with Some b => EvaluateSize fuel b | None => mret 0 end;
  let total_sz := hdr_sz + bdy_sz + 10 in
  mem ← mem_alloc total_sz;
  match mem with
  | None => mret (-4, None)
  | Some m =>
      oidb_head m hdr_sz bdy_sz hv;;
      r ← match body_tree with
          | Some b => if Z.eqb bdy_sz 0 then mret 0 else '(r, _) ← serialize_at b m (9 + hdr_sz) bdy_sz; mret r
          | None => mret 0
          end;
      if Z.ltb r 0 then mret (-5, Some m)
      else
        write_str (Some (BMem m, total_sz - 1)) [ETX_IPV6_PB];;
        mret (total_sz, Some m)
  end.

(** The children of the tree from [n] on, except the header, behind one another. *)
(** Models [KnvProtocol::EncodeAllOidb] (src/knv/protocol.cc:426-441). *)
Fixpoint oidb_bodies (steps : nat) (n : option nid) (m o max_bdy_sz bdy_sz : Z) : M (Z * Z) :=
  match n with
  | None => mret (0, bdy_sz)
  | Some c =>
      match steps with
      | O => spin
      | S steps' =>
          x ← getn c;
          if Z.eqb (n_tag x) KNV_PKG_HDR_TAG then n' ← GetSibling c; oidb_bodies steps' n' m o max_bdy_sz bdy_sz
          else
            '(r, used) ← serialize_at c m (o + bdy_sz) (max_bdy_sz - bdy_sz);
            if Z.ltb r 0 then mret (-5, bdy_sz)
            else n' ← GetSibling c; oidb_bodies steps' n' m o max_bdy_sz (bdy_sz + used)
      end
  end.

(** The number of bytes returned leaves the last one out. *)
(** Models [KnvProtocol::EncodeAllOidb] (src/knv/protocol.cc:405-445). *)
Definition EncodeAllOidb (p : KnvProtocol) : M (Z * option Z) :=
  h ← deref (header p);
  hv ← leaf_value h;
  let hdr_sz := kv_len hv in
  t ← deref (tree p);
  max_bdy_sz ← EvaluateSize fuel t;
  mem ← mem_alloc (hdr_sz + max_bdy_sz + 10);
  match mem with
  | None => mret (-4, None)
  | Some m =>
      write_str (Some (BMem m, 0)) [STX_IPV6_PB];;
      write_str (Some (BMem m, 1)) (be32 hdr_sz);;
      s ← read_str (kv_ptr hv) hdr_sz;
      write_str (Some (BMem m, 9)) s;;
      c ← GetFirstChild fuel t;
      '(r, bdy_sz) ← oidb_bodies fuel c m (9 + hdr_sz) max_bdy_sz 0;
      if Z.ltb r 0 then mret (-5, Some m)
      else
        write_str (Some (BMem m, 5)) (be32 bdy_sz);;
        write_str (Some (BMem m, hdr_sz + bdy_sz + 9)) [ETX_IPV6_PB];;
        mret (hdr_sz + bdy_sz + 9, Some m)
  end.

(** Models [KnvProtocol::EncodeCompatOidb] (src/knv/protocol.cc:447-473). *)
Definition EncodeCompatOidb (body_tree : option nid) (p : KnvProtocol) : M (Z * option Z) :=
  h ← deref (header p);
  hv ← leaf_value h;
  bv ← match body_tree with
       | Some b => l ← GetValue fuel b; if l : bool then x ← getn b; mret (Some (n_val x)) else mret None
       | None => mret None
       end;
  let hdr_sz := kv_len hv in
  let bdy_sz := match bv with Some v => kv_len v | None => 0 end in
  let total_sz := hdr_sz + bdy_sz + 10 in
  mem ← mem_alloc total_sz;
  match mem with
  | None => mret (-4, None)
  | Some m =>
      oidb_head m hdr_sz bdy_sz hv;;
      match bv with
      | Some v => if Z.eqb bdy_sz 0 then mret tt else s ← read_str (kv_ptr v) bdy_sz; write_str (Some (BMem m, 9 + hdr_sz)) s
      | None => mret tt
      end;;
      write_str (Some (BMem m, total_sz - 1)) [ETX_IPV6_PB];;
      mret (total_sz, Some m)
  end.

(** The whole tree. *)
(** Models [KnvProtocol::EncodeAll] (src/knv/protocol.h:544-575). *)
Definition EncodeAll (encode_oidb compat_oidb : bool) (p : KnvProtocol) : M (Z * option Z) :=
  v ← IsValid p;
  if negb (v : bool) then mret (-1, None)
  else if encode_oidb then (if compat_oidb then EncodeCompatOidb (body p) p else EncodeAllOidb p)
  else
    t ← deref (tree p);
    sz ← EvaluateSize fuel t;
    mem ← mem_alloc sz;
    match mem with
    | None => mret (-2, None)
    | Some m =>
        '(r, used) ← serialize_at t m 0 sz;
        if negb (Z.eqb r 0) then mem_free (Some m);; mret (-3, None) else mret (used, Some m)
    end.

(** [knv_init_buff], [knv_add_string_head] and [knv_get_encoded_length] on block [m]. *)
(** Models [KnvProtocol::Encode] (src/knv/protocol.cc:515-535). *)
Definition packet_head (m total_sz total_val_sz : Z) : M (Z * Z) :=
  sz ← mem_size m;
  buff ← read_str (Some (BMem m, 0)) sz;
  let '(r, b) := pb_init_buff (mk_buff [] 0 0 0 None) buff total_sz in
  if negb (Z.eqb r 0) then mret (-7, 0)
  else
    '(r, b) ← lift (pb_add_string_head b KNV_PKG_TAG total_val_sz);
    if negb (Z.eqb r 0) then mret (-8, 0)
    else write_str (Some (BMem m, 0)) (b_start b);; mret (0, pb_get_encoded_length b).

(** Header and body behind the head of the packet, in block [m] of [total_sz] bytes. *)
(** Models [KnvProtocol::Encode] (src/knv/protocol.cc:515-559). *)
Definition fill_packet (h : nid) (body_tree : option nid) (bdy_sz m total_sz total_val_sz : Z) : M Z :=
  '(r, cur_len) ← packet_head m total_sz total_val_sz;
  if negb (Z.eqb r 0) then mret r
  else
    '(r, used) ← serialize_at h m cur_len (total_sz - cur_len);
    if negb (Z.eqb r 0) then mret (-9)
    else
      match body_tree with
      | Some b =>
          if Z.ltb 0 bdy_sz then
            let cur_len := cur_len + used in
            '(r, _) ← serialize_at b m cur_len (total_sz - cur_len);
            mret (if negb (Z.eqb r 0) then -10 else 0)
          else mret 0
      | None => mret 0
      end.

(** Sets the return code and the message first, when they are not those of the header. *)
(** Models [KnvProtocol::Encode] (src/knv/protocol.cc:475-562). *)
Definition Encode_with (ret : Z) (err : ptr) (errlen : Z) (body_tree : option nid) (encode_oidb compat_oidb : bool)
    (p : KnvProtocol) : M (Z * option Z * KnvProtocol) :=
  v ← IsValid p;
  if negb (v : bool) then mret (-1, None, p)
  else
    '(r, p) ← (if negb (Z.eqb ret (retcode p)) then SetRetCode ret p else mret (0, p));
    if negb (Z.eqb r 0) then mret (-2, None, p)
    else
      '(r, p) ← (if negb (bool_decide (err = retmsg p)) || negb (Z.eqb errlen (retmsglen p)) then SetRetErrorMsg err errlen p
                 else mret (0, p));
      if negb (Z.eqb r 0) then mret (-3, None, p)
      else if encode_oidb then
        '(r, mem) ← (if compat_oidb then EncodeCompatOidb body_tree p else EncodeOidb body_tree p);
        mret (r, mem, p)
      else
        h ← deref (header p);
        hdr_sz ← EvaluateSize fuel h;
        bdy_sz ← match body_tree with Some b => EvaluateSize fuel b | None => mret 0 end;
        let total_val_sz := hdr_sz + bdy_sz in
        let total_sz := eval_len KNV_PKG_TAG KNV_NODE (kv_str total_val_sz None) in
        mem ← mem_alloc total_sz;
        match mem with
        | None => mret (-6, None, p)
        | Some m =>
            r ← fill_packet h body_tree bdy_sz m total_sz total_val_sz;
            if negb (Z.eqb r 0) then mem_free (Some m);; mret (r, None, p) else mret (total_sz, Some m, p)
        end.

(** Models [KnvProtocol::Encode] (src/knv/protocol.h:514-517). *)
Definition Encode (p : KnvProtocol) : M (Z * option Z * KnvProtocol) :=
  if negb (Z.eqb (retcode p) 0) then Encode_with (retcode p) (retmsg p) (retmsglen p) None false false p
  else '(r, mem) ← EncodeAll false false p; mret (r, mem, p).
(** Models [KnvProtocol::EncodeWithError] (src/knv/protocol.h:519-522). *)
Definition EncodeWithError (ret : Z) (err : ptr) (errlen : Z) (p : KnvProtocol) : M (Z * option Z * KnvProtocol) :=
  Encode_with ret err errlen None false false p.
(** Models [KnvProtocol::EncodeWithBody] (src/knv/protocol.h:524-527). *)
Definition EncodeWithBody (b : option nid) (p : KnvProtocol) : M (Z * option Z * KnvProtocol) :=
  Encode_with 0 None 0 b false false p.

(** What the versions for a C++ string make of the block: its bytes, and the block is released.  A block that
    comes with an error is not. *)
(** Models [KnvProtocol::Encode] (src/knv/protocol.h:607-623). *)
Definition to_string (r : Z * option Z * KnvProtocol) : M (Z * bytes * KnvProtocol) :=
  let '(l, mem, p) := r in
  if Z.ltb l 0 then mret (l, [], p)
  else
    m ← lift mem;
    s ← read_str (Some (BMem m, 0)) l;
    mem_free (Some m);;
    mret (0, s, p).

(** Models [KnvProtocol::Encode] (src/knv/protocol.h:529-532). *)
Definition Encode_string (p : KnvProtocol) : M (Z * bytes * KnvProtocol) := r ← Encode p; to_string r.
(** Models [KnvProtocol::EncodeWithError] (src/knv/protocol.h:534-537). *)
Definition EncodeWithError_string (ret : Z) (err : ptr) (errlen : Z) (p : KnvProtocol) : M (Z * bytes * KnvProtocol) :=
  r ← EncodeWithError ret err errlen p; to_string r.
(** Models [KnvProtocol::EncodeWithBody] (src/knv/protocol.h:539-542). *)
Definition EncodeWithBody_string (b : option nid) (p : KnvProtocol) : M (Z * bytes * KnvProtocol) :=
  r ← EncodeWithBody b p; to_string r.

(** [EncodeOidb(s)] and [EncodeCompatOidb(s)] *)
(** Models [KnvProtocol::EncodeOidb] (src/knv/protocol.h:577-580). *)
Definition encode_oidb_string (compat : bool) (p : KnvProtocol) : M (Z * bytes * KnvProtocol) :=
  r ← (if negb (Z.eqb (retcode p) 0) then Encode_with (retcode p) (retmsg p) (retmsglen p) None true compat p
       else '(r, mem) ← EncodeAll true compat p; mret (r, mem, p));
  to_string r.
(** [EncodeOidbWithError], [EncodeCompatOidbWithError] *)
(** Models [KnvProtocol::EncodeOidbWithError] (src/knv/protocol.h:582-585). *)
Definition encode_oidb_error (compat : bool) (ret : Z) (err : ptr) (errlen : Z) (p : KnvProtocol) : M (Z * bytes * KnvProtocol) :=
  r ← Encode_with ret err errlen None true compat p; to_string r.
(** [EncodeOidbWithBody], [EncodeCompatOidbWithBody] *)
(** Models [KnvProtocol::EncodeOidbWithBody] (src/knv/protocol.h:587-590). *)
Definition encode_oidb_body (compat : bool) (b : option nid) (p : KnvProtocol) : M (Z * bytes * KnvProtocol) :=
  r ← Encode_with 0 None 0 b true compat p; to_string r.

(** ** Packets in parts *)

(** Models [KnvProtocol::SetAllowSplit] (src/knv/protocol.h:627-631). *)
Definition SetAllowSplit (allow : bool) (pkg_sz : Z) (p : KnvProtocol) : KnvProtocol :=
  set_split (if allow then 1 else 0) (if negb (Z.eqb pkg_sz 0) then u16 pkg_sz else max_pkg_sz p)
    (total_split_count p) (curr_split_index p) p.

(** The number of fields removed counts as an error. *)
(** Models [KnvProtocol::SetReqSplit] (src/knv/protocol.h:634-662). *)
Definition SetReqSplit (allow : bool) (pkg_sz : Z) (p : KnvProtocol) : M Z :=
  v ← IsValid p;
  if negb (v : bool) then mret (-1)
  else
    h ← deref (header p);
    ret ← (if allow then SetChild fuel h KNV_PKG_HDR_ALLOW_SPLIT KNV_VARINT (kv_int 1)
           else RemoveChildrenByTag fuel h KNV_PKG_HDR_ALLOW_SPLIT);
    if negb (Z.eqb ret 0) then mret (-2)
    else if Z.eqb pkg_sz 0 then mret 0
    else
      ret ← SetChild fuel h KNV_PKG_HDR_MAX_PKG_SIZE KNV_VARINT (kv_int pkg_sz);
      mret (if negb (Z.eqb ret 0) then -3 else 0).

(** The part with an index. *)
Definition find_part (t : nid) (i : Z) : M (option nid) := FindChildByTag fuel t (u32 (KNV_PKG_PART_TAG_BASE + i)).

(** The value of part [l], a leaf or [NULL]. *)
Definition part_value (l : nid) : M (option node) :=
  b ← GetValue fuel l; if b : bool then x ← getn l; mret (Some x) else mret None.

(** The length of all parts from index [i] on: [inr] when they are all there, else what is returned. *)
(** Models [KnvProtocol::AddPartial] (src/knv/protocol.cc:741-758). *)
Fixpoint parts_len (n : nat) (t : nid) (i total_len : Z) : M (Z + Z) :=
  match n with
  | O => mret (inr total_len)
  | S n' =>
      l ← find_part t i;
      match l with
      | None => mret (inl 0)
      | Some l =>
          v ← part_value l;
          match v with
          | None => mret (inl (-6))
          | Some x =>
              if Z.eqb (kv_len (n_val x)) 0 then mret (inl (-6))
              else if negb (Z.eqb (n_type x) KNV_STRING) then mret (inl (-7))
              else parts_len n' t (i + 1) (total_len + kv_len (n_val x))
          end
      end
  end.

(** The parts are copied into block [m] and removed from the tree. *)
(** Models [KnvProtocol::AddPartial] (src/knv/protocol.cc:774-800). *)
Fixpoint join_parts (n : nat) (t : nid) (i m cur_len total_len : Z) : M (Z * Z) :=
  match n with
  | O => mret (0, cur_len)
  | S n' =>
      l ← find_part t i;
      match l with
      | None => mret (-10, cur_len)
      | Some l =>
          v ← part_value l;
          match v with
          | None => mret (-11, cur_len)
          | Some x =>
              if Z.ltb total_len (cur_len + kv_len (n_val x)) then mret (-12, cur_len)
              else
                s ← read_str (kv_ptr (n_val x)) (kv_len (n_val x));
                write_str (Some (BMem m, cur_len)) s;;
                RemoveChildByPos fuel t l None;;
                join_parts n' t (i + 1) m (cur_len + kv_len (n_val x)) total_len
          end
      end
  end.

(** All parts put together become the packet, once they are there. *)
(** Models [KnvProtocol::AddPartial] (src/knv/protocol.cc:739-810). *)
Definition merge_parts (t : nid) (p : KnvProtocol) : M (Z * KnvProtocol) :=
  let n := Z.to_nat (total_split_count p) in
  r ← parts_len n t 0 0;
  match r with
  | inl ret => mret (ret, p)
  | inr total_len =>
      if Z.leb total_len 0 then mret (-8, p)
      else
        m ← mem_alloc total_len;
        match m with
        | None => mret (-9, p)
        | Some m =>
            '(r, cur_len) ← join_parts n t 0 m 0 total_len;
            if negb (Z.eqb r 0) then mem_free (Some m);; mret (r, p)
            else
              '(ret, p) ← assign_bytes (Some (BMem m, 0)) cur_len true p;
              mem_free (Some m);;
              mret (if negb (Z.eqb ret 0) then -13 else 0, p)
        end
  end.

(** Gives the code, this object and the part. *)
(** Models [KnvProtocol::AddPartial] (src/knv/protocol.cc:683-811). *)
Definition AddPartial (part : KnvProtocol) (own_buf : bool) (p : KnvProtocol) : M (Z * KnvProtocol * KnvProtocol) :=
  pv ← IsValid part;
  if negb (pv : bool) then mret (-1, p, part)
  else
    match tree p with
    | None => assign part own_buf p
    | Some t =>
        this_complete ← IsComplete p;
        part_complete ← (if this_complete : bool then mret true else IsComplete part);
        if this_complete || (part_complete : bool) || negb (Z.eqb (total_split_count p) (total_split_count part))
           || Z.leb (total_split_count p) (curr_split_index part)
        then assign part own_buf p
        else
          pt ← deref (tree part);
          l ← find_part pt (curr_split_index part);
          match l with
          | None => mret (-2, p, part)
          | Some l =>
              x ← getn l;
              if negb (Z.eqb (n_type x) KNV_STRING) then mret (-3, p, part)
              else
                l2 ← find_part t (curr_split_index part);
                if is_some l2 then mret (-4, p, part)
                else
                  r ← InsertChild fuel t (Some l) false own_buf true;
                  if negb (Z.eqb r 0) then mret (-5, p, part)
                  else '(r, p) ← merge_parts t p; mret (r, p, part)
          end
    end.

(** With a body of its own the packet need not be split: the body goes into the tree as part 0. *)
(** Models [KnvProtocol::Split] (src/knv/protocol.cc:842-866). *)
Definition no_need_split (b : option nid) (t : nid) : M Z :=
  match b with
  | None => mret 0
  | Some b =>
      q ← Duplicate fuel b false;
      match q with
      | None => mret (-2)
      | Some q =>
          r ← SetTag fuel q KNV_PKG_PART_TAG_BASE;
          if negb (Z.eqb r 0) then KnvNode.Delete fuel q;; mret (-3)
          else
            r ← InsertChild fuel t (Some q) true true true;
            if negb (Z.eqb r 0) then KnvNode.Delete fuel q;; mret (-4) else mret 0
      end
  end.

(** Part [i] and the following ones, from the bytes of block [m]. *)
(** Models [KnvProtocol::Split] (src/knv/protocol.cc:922-945). *)
Fixpoint put_parts (n : nat) (t : nid) (i last m sz_part sz_last : Z) : M Z :=
  match n with
  | O => mret 0
  | S n' =>
      part ← New fuel (KNV_PKG_PART_TAG_BASE + i) KNV_STRING KNV_STRING None
               (Some (kv_str (if Z.eqb i last then sz_last else sz_part) (Some (BMem m, i * sz_part)))) true;
      match part with
      | None => mret (-8)
      | Some part =>
          RemoveChildrenByTag fuel t (KNV_PKG_PART_TAG_BASE + i);;
          r ← InsertChild fuel t (Some part) true true true;
          if negb (Z.eqb r 0) then KnvNode.Delete fuel part;; mret (-9)
          else put_parts n' t (i + 1) last m sz_part sz_last
      end
  end.

(** The encoded packet of [encoded_len] bytes in block [m], cut so that header and part fit into a packet. *)
(** Models [KnvProtocol::Split] (src/knv/protocol.cc:881-947). *)
Definition cut_packet (b : option nid) (t h m encoded_len max_sz : Z) (p : KnvProtocol) : M (Z * KnvProtocol) :=
  if Z.leb encoded_len max_sz then mem_free (Some m);; r ← no_need_split b t; mret (r, p)
  else
    z ← EvaluateSize fuel h;
    let hdr_sz := u32 (z + 16) in
    if Z.leb max_sz hdr_sz then mem_free (Some m);; mret (-6, p)
    else
      let sz_part := max_sz - hdr_sz in
      let nr_pkgs := (encoded_len + sz_part - 1) / sz_part in
      if Z.leb nr_pkgs 1 then mem_free (Some m);; r ← no_need_split b t; mret (r, p)
      else
        let p := set_total (u8 nr_pkgs) p in
        r ← SetChild fuel h KNV_PKG_HDR_TOTAL_SPLIT_COUNT KNV_VARINT (kv_int nr_pkgs);
        if negb (Z.eqb r 0) then mem_free (Some m);; mret (-7, p)
        else
          r ← put_parts (Z.to_nat nr_pkgs) t 0 (nr_pkgs - 1) m sz_part (encoded_len - (nr_pkgs - 1) * sz_part);
          mem_free (Some m);;
          mret (r, p).

(** Models [KnvProtocol::Split] (src/knv/protocol.cc:813-948). *)
Definition Split (b : option nid) (p : KnvProtocol) : M (Z * KnvProtocol) :=
  v ← IsValid p;
  if negb (v : bool) then mret (-1, p)
  else
    t ← deref (tree p);
    h ← deref (header p);
    let p := set_total 1 p in
    RemoveChildrenByTag fuel h KNV_PKG_HDR_TOTAL_SPLIT_COUNT;;
    RemoveChildrenByTag fuel h KNV_PKG_HDR_CURR_SPLIT_INDEX;;
    cur_sz ← match b with
             | Some b => x ← EvaluateSize fuel h; y ← EvaluateSize fuel b; mret (u32 (x + y + 32))
             | None => x ← EvaluateSize fuel t; mret (u32 (x + 32))
             end;
    let max_sz := GetMaxPkgSize p in
    if Z.eqb (allow_split p) 0 || (negb (is_some b) && negb (is_some (body p))) || Z.leb cur_sz max_sz then
      r ← no_need_split b t; mret (r, p)
    else
      '(encoded_len, m, p) ← match b with Some _ => EncodeWithBody b p | None => Encode p end;
      if Z.ltb encoded_len 0 then mret (-5, p)
      else m ← lift m; cut_packet b t h m encoded_len max_sz p.

(** Models [KnvProtocol::EncodePart] (src/knv/protocol.cc:950-991). *)
Definition EncodePart (index : Z) (p : KnvProtocol) : M (Z * option Z * KnvProtocol) :=
  v ← IsValid p;
  if negb (v : bool) then mret (-1, None, p)
  else if Z.leb (total_split_count p) index then mret (-1, None, p)
  else
    t ← deref (tree p);
    h ← deref (header p);
    if Z.eqb (total_split_count p) 1 then
      b ← FindChildByTag fuel t KNV_PKG_PART_TAG_BASE;
      match b with
      | Some b =>
          SetTag fuel b KNV_PKG_BDY_TAG;;
          r ← EncodeWithBody (Some b) p;
          SetTag fuel b KNV_PKG_PART_TAG_BASE;;
          mret r
      | None => Encode p
      end
    else
      b ← find_part t index;
      match b with
      | None => mret (-2, None, p)
      | Some b =>
          r ← SetChild fuel h KNV_PKG_HDR_CURR_SPLIT_INDEX KNV_VARINT (kv_int (u64 index));
          if negb (Z.eqb r 0) then mret (-3, None, p) else EncodeWithBody (Some b) p
      end.

(** Models [KnvProtocol::EncodePart] (src/knv/protocol.h:664-681). *)
Definition EncodePart_string (index : Z) (p : KnvProtocol) : M (Z * bytes * KnvProtocol) := r ← EncodePart index p; to_string r.

End protocol.
