(* ===== verification/KnvPacket.v ===== *)
(** * Reading and writing packets of the KNV protocol (src/knv/protocol.h, src/knv/protocol.cc)

    The definitions are in Protocol.v.  Here: an object made from the bytes of a packet has the numbers and texts of
    the packet's header and points to its header and its first body; a header and a body are written as one
    packet; what a damaged packet of the other format does, and what happens to packets that are split. *)

From S2P Require Import Prelude Pb MemPool KnvHeap KnvHt KnvNode KnvSize KnvExpand KnvOwn KnvFields ResultSet Protocol.

(** ** Reading a packet *)

(** The value of the first field with a tag. *)
Definition field_in (l : list pb_pair) (t : Z) : option pb_value := snd <$> head (filter (fun p => p.1 = t) l).
Definition int_in (l : list pb_pair) (t : Z) : option Z := match field_in l t with Some (VInt z) => Some z | _ => None end.
Definition str_in (l : list pb_pair) (t : Z) : option bytes := match field_in l t with Some (VStr s) => Some s | _ => None end.

Lemma field_in_part (P : pb_pair -> Prop) {DP : forall p, Decision (P p)} l t :
  (forall p, p.1 = t -> P p) -> field_in (filter P l) t = field_in l t.
Proof.
  intros H. unfold field_in. do 2 f_equal. rewrite list_filter_filter. apply list_filter_iff. intros p. specialize (H p). tauto.
Qed.

Lemma field_in_some l q : NoDup l.*1 -> q ∈ l -> field_in l q.1 = Some q.2.
Proof.
  intros Hd Hq. unfold field_in. induction l as [|p l IH]; [by apply elem_of_nil in Hq|].
  cbn in Hd. apply NoDup_cons in Hd as [Hp Hd]. apply elem_of_cons in Hq as [->|Hq].
  - by rewrite filter_cons_True.
  - rewrite filter_cons_False; [by apply IH|]. intros E. apply Hp. rewrite E. by apply list_elem_of_fmap_2.
Qed.

Lemma field_in_none l t : (forall q, q ∈ l -> q.1 <> t) -> field_in l t = None.
Proof.
  intros H. unfold field_in. induction l as [|p l IH]; [done|]. rewrite filter_cons_False by (apply H; by left).
  apply IH. intros q Hq. apply H. by right.
Qed.

Lemma NoDup_part (P : pb_pair -> Prop) {DP : forall p, Decision (P p)} (l : list pb_pair) : NoDup l.*1 -> NoDup (filter P l).*1.
Proof.
  induction l as [|p l IH]; [done|]. rewrite fmap_cons. intros [Hp Hd]%NoDup_cons. destruct (decide (P p)).
  - rewrite filter_cons_True by done. rewrite fmap_cons. apply NoDup_cons. split; [|by apply IH]. intros (q & E & Hq%list_elem_of_filter)%list_elem_of_fmap.
    apply Hp. rewrite E. apply list_elem_of_fmap_2, Hq.
  - rewrite filter_cons_False by done. by apply IH.
Qed.

(** *** The first child with a tag *)

Lemma succ_of_head l c l' : NoDup (l ++ c :: l') -> succ_of (l ++ c :: l') c = head l'.
Proof.
  induction l as [|a l IH]; cbn [app succ_of]; intros Hd.
  - by rewrite Z.eqb_refl.
  - apply NoDup_cons in Hd as [Ha Hd]. destruct (Z.eqb_spec a c) as [->|]; [|by apply IH]. destruct Ha. set_solver.
Qed.

Lemma GetSibling_opened h n b cs lc l c l' :
  opened h n b cs lc -> cs = l ++ c :: l' -> GetSibling c h = Ret (head l') h.
Proof.
  intros O Hs. unfold GetSibling, my_list. hsimp. rewrite (op_parent _ _ _ _ _ O) by (rewrite Hs; set_solver). hsimp.
  rewrite (op_list _ _ _ _ _ O), bool_decide_eq_true_2 by (rewrite Hs; set_solver). hsimp.
  rewrite Hs, succ_of_head; [done|]. rewrite <- Hs. apply O.
Qed.

(** What a search among the children of fields [lc] finds. *)
Definition found_in (h : heap) (b : buf) (cs : list nid) (lc : list pb_pair) (t : Z) (r : option nid) : Prop :=
  match r with
  | Some c => c ∈ cs /\ exists v, field_in lc t = Some v /\ item h b false c (t, v)
  | None => field_in lc t = None
  end.

Lemma skip_to_tag_opened h n b cs lc t : opened h n b cs lc ->
  forall suf pre qs steps, cs = pre ++ suf -> Forall2 (item h b false) suf qs -> (length suf <= steps)%nat ->
  exists r, skip_to_tag steps (head suf) t h = Ret r h /\ found_in h b cs qs t r.
Proof.
  intros O. induction suf as [|c suf IH]; intros pre qs steps Hc F Hl.
  { apply Forall2_nil_inv_l in F as ->. exists None. destruct steps; by split. }
  apply Forall2_cons_inv_l in F as (q & qs' & I & F & ->). destruct steps as [|steps]; [cbn in Hl; lia|].
  cbn [head skip_to_tag]. hsimp. pose proof (lf_tag _ _ _ (it_leaf _ _ _ _ _ I)) as Ht. rewrite Ht.
  destruct (Z.eqb_spec q.1 t) as [E|E].
  - exists (Some c). split; [by hsimp|]. split; [rewrite Hc; set_solver|]. exists q.2. subst t. unfold field_in.
    rewrite filter_cons_True by done. split; [done|]. by destruct q.
  - hsimp. rewrite (GetSibling_opened h n b cs lc pre c suf O Hc). hsimp.
    destruct (IH (pre ++ [c]) qs' steps) as (r & Er & Hr); [by rewrite <- app_assoc|done|cbn in Hl; lia|].
    exists r. split; [done|]. unfold found_in, field_in in *. by rewrite filter_cons_False.
Qed.

(** The search of [FindFirstBody], from the first child on. *)
Lemma first_body_opened fuel h h' n b cs lc :
  Expand fuel n h = Ret 0 h' -> opened h' n b cs lc -> (length lc <= fuel)%nat ->
  exists r, (c ← GetFirstChild fuel n; FindFirstBody fuel c) h = Ret r h' /\ found_in h' b cs lc KNV_PKG_BDY_TAG r.
Proof.
  intros E O Hf. assert (Hg : GetFirstChild fuel n h = Ret (head cs) h').
  { destruct cs as [|c cs]; [|by eapply GetFirstChild_run]. unfold GetFirstChild. hsimp. rewrite E. hsimp.
    rewrite (op_num _ _ _ _ _ O). done. }
  hsimp. rewrite Hg. unfold FindFirstBody.
  apply (skip_to_tag_opened h' n b cs lc KNV_PKG_BDY_TAG O cs [] lc fuel); [done|apply O|].
  by rewrite (Forall2_length _ _ _ (op_items _ _ _ _ _ O)).
Qed.

(** *** The header *)

(** What a search for the field [t] of a message with the fields [l] gives. *)
Definition is_field (h : heap) (b : buf) (force : bool) (l : list pb_pair) (t : Z) (r : option nid) : Prop :=
  match r with
  | Some c => exists v, field_in l t = Some v /\ item h b force c (t, v)
  | None => field_in l t = None
  end.

Lemma is_field_child fuel h n b cs lc t :
  opened h n b cs lc -> NoDup lc.*1 -> (length lc <= fuel)%nat ->
  exists r, FindChildByTag fuel n t h = Ret r h /\ is_field h b false lc t r.
Proof.
  intros O Hd Hf. destruct (FindChildByTag_opened fuel h n b cs lc t O Hf) as (r & E & Hr). exists r. split; [done|].
  destruct r as [c|]; [|by apply field_in_none]. destruct Hr as (_ & q & Hq & <- & I). exists q.2.
  split; [by apply field_in_some|by destruct q].
Qed.

Lemma is_field_meta fuel d h0 h n b ms cs lm lc t :
  expanding (emptied d n h0) h n b ms cs lm lc -> n_tag (nd h0 n) <> 0 -> NoDup lm.*1 -> t <= UC_MAX_META_NUM ->
  exists r, GetMeta fuel n t h = Ret r h /\ is_field h b true lm t r.
Proof.
  intros X Ht Hd Hm. pose proof (expanding_opened _ _ _ _ _ _ _ _ _ X Ht) as O. unfold GetMeta. hsimp.
  rewrite (proj2 (Z.eqb_neq _ _)) by apply O. rewrite (proj2 (Z.ltb_ge _ _)) by done. cbn [orb].
  rewrite (op_num _ _ _ _ _ O), (proj2 (Z.ltb_ge (len cs) 0)) by len_lia. hsimp. cbn [ok Z.eqb negb orb].
  destruct (ex_node _ _ _ _ _ _ _ _ X) as (tt0 & mt & hk & En).
  assert (El : n_metalist (nd h n) = ms) by by rewrite En. rewrite El.
  destruct (field_in lm t) as [v|] eqn:Ef.
  - assert (Hin : (t, v) ∈ lm).
    { unfold field_in in Ef. destruct (head _) as [q|] eqn:Eh; [|done]. injection Ef as <-.
      assert (Hq : q ∈ filter (fun p => p.1 = t) lm) by (destruct (filter _ lm); [done|]; injection Eh as ->; by left).
      apply list_elem_of_filter in Hq as [<- Hq]. by destruct q. }
    destruct (meta_at _ _ _ _ _ _ _ _ _ _ X Hd Hin) as (m & Em & Hms & I).
    rewrite bool_decide_eq_false_2 by (intros ->; by apply elem_of_nil in Hms). hsimp. exists (Some m).
    split; [by rewrite Em|]. exists v. by split.
  - exists None. split; [|done]. destruct (decide (ms = [])) as [->|Hne]; [by rewrite bool_decide_eq_true_2|].
    rewrite bool_decide_eq_false_2 by done. hsimp. rewrite (ex_metas _ _ _ _ _ _ _ _ X Hne). unfold metas_of.
    rewrite not_elem_of_list_to_map_1; [done|]. rewrite fmap_reverse, elem_of_reverse.
    intros (q & -> & Hq)%list_elem_of_fmap. destruct q as [t' m]. apply elem_of_zip_l in Hq. cbn in *.
    apply list_elem_of_fmap in Hq as ([t'' v] & -> & Hq). cbn in *. by rewrite (field_in_some _ (t'', v)) in Ef.
Qed.

Lemma int_value_run h b force l t r : is_field h b force l t r -> int_value r h = Ret (int_in l t) h.
Proof.
  unfold int_in. destruct r as [c|]; cbn [is_field int_value]; [|by intros ->]. intros (v & -> & I). hsimp.
  destruct (it_leaf _ _ _ _ _ I) as [_ Hy Hv _ _ _ _ _]. cbn [fst snd] in *. rewrite Hy.
  destruct v; cbn in *; hsimp; try done. by injection Hv as ->.
Qed.

(** The text of a field, where its node says it is. *)
Definition is_text (h : heap) (e : option (Z * ptr)) (s : option bytes) : Prop :=
  match e, s with
  | Some (n, p), Some s => n = len s /\ str_at h p (len s) = Some s
  | None, None => True
  | _, _ => False
  end.

Lemma str_field_run h b force l t r : is_field h b force l t r ->
  exists e, str_field r h = Ret e h /\ is_text h e (str_in l t).
Proof.
  unfold str_in. destruct r as [c|]; cbn [is_field str_field]; [|by intros ->; exists None]. intros (v & -> & I). hsimp.
  destruct (it_leaf _ _ _ _ _ I) as [_ Hy Hv _ _ _ _ _]. cbn [fst snd] in *. rewrite Hy.
  destruct v as [z|z|s|z]; cbn [type_of] in *; try (exists None; split; [by hsimp|done]).
  rewrite Z.eqb_refl. eexists. split; [by hsimp|]. cbn. destruct (val_at_len _ _ _ Hv) as [El Es]. by rewrite <- El in *.
Qed.

(** The numbers and texts of the header with the fields [hf]. *)
Record header_info (h : heap) (hf : list pb_pair) (p : KnvProtocol) : Prop := {
  hi_cmd : cmd p = u32 (default 0 (int_in hf KNV_PKG_HDR_CMD_TAG));
  hi_subcmd : subcmd p = u32 (default 0 (int_in hf KNV_PKG_HDR_SUBCMD_TAG));
  hi_seq : seq p = default 0 (int_in hf KNV_PKG_HDR_SEQ_TAG);
  hi_retcode : retcode p = u32 (default 0 (int_in hf KNV_PKG_HDR_RET_TAG));
  hi_retmsg : GetRetMsg p h = Ret (default [] (str_in hf KNV_PKG_HDR_ERR_TAG)) h;
  hi_rspaddr : rspaddr p = match str_in hf KNV_PKG_HDR_RSP_ADDR with
                           | Some s => if Z.eqb (len s) 16 || Z.eqb (len s) 28 then s else []
                           | None => []
                           end;
  hi_allow : allow_split p = if Z.eqb (default 0 (int_in hf KNV_PKG_HDR_ALLOW_SPLIT)) 0 then 0 else 1;
  hi_max : max_pkg_sz p = u16 (default 0 (int_in hf KNV_PKG_HDR_MAX_PKG_SIZE));
  hi_total : total_split_count p = u8 (default 0 (int_in hf KNV_PKG_HDR_TOTAL_SPLIT_COUNT));
  hi_curr : curr_split_index p = u8 (default 0 (int_in hf KNV_PKG_HDR_CURR_SPLIT_INDEX)) }.

Lemma InitHeaderInfo_run fuel h h' hd b ms cs q l p :
  header p = Some hd -> n_tag (nd h hd) <> 0 -> n_child_num (nd h hd) < 0 -> Expand fuel hd h = Ret 0 h' ->
  expanding (emptied false hd h) h' hd b ms cs (metas_part (q :: l)) (children_part (q :: l)) ->
  NoDup (q :: l).*1 -> (length (q :: l) <= fuel)%nat ->
  exists p', InitHeaderInfo fuel p h = Ret p' h' /\ header_info h' (q :: l) p' /\
    tree p' = tree p /\ header p' = header p /\ body p' = body p /\ auto_delete p' = auto_delete p.
Proof.
  intros Hp Hz Hn E X Hd Hf. set (hf := q :: l) in *.
  pose proof (expanding_opened _ _ _ _ _ _ _ _ _ X Hz) as O.
  pose proof (NoDup_part (fun p => p.1 <= 10) hf Hd) as Hdm. pose proof (NoDup_part (fun p => ~ p.1 <= 10) hf Hd) as Hdc.
  assert (Hfc : (length (children_part hf) <= fuel)%nat) by (unfold children_part; rewrite length_filter; done).
  assert (Gm : forall t, t <= 10 -> exists r, GetMeta fuel hd t h' = Ret r h' /\ is_field h' b true hf t r).
  { intros t Ht. destruct (is_field_meta fuel _ _ _ _ _ _ _ _ _ t X Hz Hdm Ht) as (r & Er & Hr). exists r. split; [done|].
    unfold is_field, metas_part in *. by rewrite field_in_part in Hr by (intros ? ->; done). }
  assert (Gc : forall t, 10 < t -> exists r, FindChildByTag fuel hd t h' = Ret r h' /\ is_field h' b false hf t r).
  { intros t Ht. destruct (is_field_child fuel h' hd b cs _ t O Hdc Hfc) as (r & Er & Hr). exists r. split; [done|].
    unfold is_field, children_part in *. by rewrite field_in_part in Hr by (intros ? ->; lia). }
  assert (Gmi : forall t, t <= 10 -> (m ← GetMeta fuel hd t; int_value m) h' = Ret (int_in hf t) h').
  { intros t Ht. destruct (Gm t Ht) as (r & Er & Hr). hsimp. rewrite Er. by eapply int_value_run. }
  assert (Gci : forall t, 10 < t -> (m ← FindChildByTag fuel hd t; int_value m) h' = Ret (int_in hf t) h').
  { intros t Ht. destruct (Gc t Ht) as (r & Er & Hr). hsimp. rewrite Er. by eapply int_value_run. }
  assert (G0 : GetMeta fuel hd KNV_PKG_HDR_CMD_TAG h = GetMeta fuel hd KNV_PKG_HDR_CMD_TAG h').
  { assert (Ht : n_tag (nd h' hd) = n_tag (nd h hd)).
    { destruct (ex_node _ _ _ _ _ _ _ _ X) as (? & ? & ? & ->). unfold emptied. by rewrite nd_set_same. }
    pose proof (op_num _ _ _ _ _ O) as Hnum. assert (0 <= len cs) by len_lia. unfold GetMeta. hsimp.
    rewrite Ht, (proj2 (Z.eqb_neq _ _)) by done. cbn [orb Z.ltb UC_MAX_META_NUM KNV_PKG_HDR_CMD_TAG Z.compare Pos.compare Pos.compare_cont].
    hsimp. rewrite (proj2 (Z.ltb_lt _ _)) by done. rewrite (proj2 (Z.ltb_ge (n_child_num (nd h' hd)) 0)) by lia. by rewrite E. }
  destruct (Gm KNV_PKG_HDR_ERR_TAG) as (rm & Em & Hm); [done|]. destruct (str_field_run _ _ _ _ _ _ Hm) as (e & Ee & He).
  destruct (Gc KNV_PKG_HDR_RSP_ADDR) as (ra & Ea & Ha); [done|]. destruct (str_field_run _ _ _ _ _ _ Ha) as (a & Eaa & Hat).
  destruct (Gm KNV_PKG_HDR_CMD_TAG) as (rc & Ec & Hc); [done|].
  assert (Hread : (match a with Some (l, d) => if Z.eqb l 16 || Z.eqb l 28 then read_str d l else mret [] | None => mret [] end) h' =
    Ret (match str_in hf KNV_PKG_HDR_RSP_ADDR with Some s => if Z.eqb (len s) 16 || Z.eqb (len s) 28 then s else [] | None => [] end) h').
  { unfold is_text in Hat. destruct a as [[n d]|], (str_in hf KNV_PKG_HDR_RSP_ADDR) as [s|]; try done.
    destruct Hat as [-> Hs]. destruct (_ || _); [|done]. unfold read_str. by rewrite Hs. }
  unfold InitHeaderInfo. change (header (clear_info p)) with (header p). rewrite Hp. rewrite M_bind_eq.
  rewrite (M_bind_eq int_value). rewrite G0, Ec. rewrite (int_value_run _ _ _ _ _ _ Hc).
  rewrite M_bind_eq, Gmi by done. rewrite M_bind_eq, Gmi by done.
  rewrite M_bind_eq, (M_bind_eq str_field), Em, Ee. rewrite M_bind_eq, Gmi by done.
  rewrite M_bind_eq, (M_bind_eq str_field), Ea, Eaa. rewrite M_bind_eq, Hread.
  do 4 (rewrite M_bind_eq, Gci by done). eexists. split; [done|]. split; [|by split_and!].
  split; try done. unfold GetRetMsg. cbn. unfold is_text in He.
  destruct e as [[n d]|], (str_in hf KNV_PKG_HDR_ERR_TAG) as [s|]; try done. destruct He as [-> Hs]. unfold read_str. cbn. by rewrite Hs.
Qed.

(** *** A whole packet *)

(** A packet with the fields [q :: l], one of which is the header with the fields [hq :: hl]. *)
Record packet_message (fuel : nat) (q : pb_pair) (l : list pb_pair) (hq : pb_pair) (hl : list pb_pair) : Prop := {
  pm_ok : message_ok fuel (q :: l);
  pm_header : filter (fun p => p.1 = KNV_PKG_HDR_TAG) (q :: l) = [(KNV_PKG_HDR_TAG, VStr (enc_fields (hq :: hl)))];
  pm_header_ok : message_ok fuel (hq :: hl);
  pm_nodup : NoDup (hq :: hl).*1 }.

(** The protocol object of a packet with the fields [lf], whose header has the fields [hf]. *)
Record decoded (h : heap) (lf hf : list pb_pair) (p : KnvProtocol) : Prop := {
  dc_valid : IsValid p h = Ret true h;
  dc_owner : auto_delete p = true;
  dc_info : header_info h hf p;
  dc_header : exists hd b cs, header p = Some hd /\ opened h hd b cs (children_part hf);
  dc_body : exists b, is_field h b false lf KNV_PKG_BDY_TAG (body p) }.

Lemma field_in_filter (l : list pb_pair) t q : filter (fun p => p.1 = t) l = [q] -> forall p, p ∈ l -> p.1 = t -> p = q.
Proof.
  intros E p Hp Ht. assert (Hin : p ∈ filter (fun p => p.1 = t) l) by by apply list_elem_of_filter.
  rewrite E in Hin. by apply list_elem_of_singleton in Hin.
Qed.

Lemma InitProtocol_run fuel h t b o q l hq hl p :
  sound h -> message_node h t b o (enc_fields (q :: l)) -> n_tag (nd h t) = KNV_PKG_TAG -> packet_message fuel q l hq hl ->
  tree p = Some t -> header p = None -> auto_delete p = true ->
  exists p' h', InitProtocol fuel p h = Ret p' h' /\ decoded h' (q :: l) (hq :: hl) p' /\ tree p' = Some t.
Proof.
  intros So Mn Ht [(Hok & Hlen & Hfu) Hone (Hhok & Hhlen & Hhfu) Hnd] Htr Hh0 Hau.
  destruct (InnerExpand_run fuel h t b o q l So Mn Hok Hlen) as (h1 & ms & cs & E1 & X1); [cbn in Hfu; lia|].
  assert (Hz : n_tag (nd h t) <> 0) by (rewrite Ht; done).
  assert (Ex1 : Expand fuel t h = Ret 0 h1) by (unfold Expand; hsimp; by rewrite (proj2 (Z.eqb_neq _ _))).
  pose proof (expanding_opened _ _ _ _ _ _ _ _ _ X1 Hz) as O1. pose proof (expanding_sound _ _ _ _ _ _ _ _ X1) as So1.
  pose proof (expanding_old_buf _ _ _ _ _ b _ _ _ _ X1 (mn_buf _ _ _ _ _ Mn)) as Hb1.
  set (lc := children_part (q :: l)) in *. set (hb := enc_fields (hq :: hl)) in *.
  assert (Hlc : (length lc <= fuel)%nat) by (unfold lc, children_part; rewrite length_filter; done).
  destruct (first_body_opened fuel h h1 t b cs lc Ex1 O1 Hlc) as (bd & Ebd & Hbd).
  destruct (FindChildByTag_opened fuel h1 t b cs lc KNV_PKG_HDR_TAG O1 Hlc) as (hd & Ehd & Hhd).
  assert (Hin : (KNV_PKG_HDR_TAG, VStr hb) ∈ lc).
  { apply list_elem_of_filter. split; [cbn; unfold KNV_PKG_HDR_TAG; lia|]. assert (Hx : (KNV_PKG_HDR_TAG, VStr hb) ∈ [(KNV_PKG_HDR_TAG, VStr hb)]) by by left.
    rewrite <- Hone in Hx. by apply list_elem_of_filter in Hx as [_ Hx]. }
  destruct hd as [hd|]; [|by apply Hhd in Hin]. destruct Hhd as (Hcs & q' & Hq' & Ht' & Ih).
  assert (q' = (KNV_PKG_HDR_TAG, VStr hb)) as ->.
  { apply (field_in_filter _ _ _ Hone); [|done]. by apply list_elem_of_filter in Hq' as [_ Hq']. }
  pose proof (lf_tag _ _ _ (it_leaf _ _ _ _ _ Ih)) as Htag. cbn [fst] in Htag.
  assert (Hin1 : forall x, x ∈ cs -> used h1 x /\ x <> t).
  { intros x Hx. split; [apply (ex_used _ _ _ _ _ _ _ _ X1); right; set_solver|]. intros ->.
    apply (proj2 (ex_new _ _ _ _ _ _ _ _ X1) t ltac:(set_solver)), (mn_used _ _ _ _ _ Mn). }
  destruct (Hin1 hd Hcs) as [Hu Hne]. pose proof Hhok as Hhok'. apply Forall_cons in Hhok' as [Hhq _].
  destruct (item_message h1 b hd _ hq hl Ih) as [o2 Mn2]; [done|done|done|done|done|].
  destruct (InnerExpand_run fuel h1 hd b o2 hq hl So1 Mn2 Hhok Hhlen) as (h2 & ms2 & cs2 & E2 & X2); [cbn in Hhfu; lia|].
  assert (Hz2 : n_tag (nd h1 hd) <> 0) by (rewrite Htag; done).
  assert (Ex2 : Expand fuel hd h1 = Ret 0 h2) by (unfold Expand; hsimp; by rewrite (proj2 (Z.eqb_neq _ _))).
  destruct (InitHeaderInfo_run fuel h1 h2 hd b ms2 cs2 hq hl (set_nodes (Some t) (Some hd) bd p)) as (p' & Ei & Hi & T1 & T2 & T3 & T4); try done.
  { apply Mn2. }
  assert (Ht2 : n_tag (nd h2 t) = KNV_PKG_TAG).
  { assert (Ut : used h1 t) by (apply (ex_used _ _ _ _ _ _ _ _ X1); left; apply Mn).
    destruct (expanding_keeps _ _ _ _ _ _ _ _ _ t X2 Ut ltac:(done)) as [-> _].
    destruct (ex_node _ _ _ _ _ _ _ _ X1) as (? & ? & ? & ->). unfold emptied. by rewrite nd_set_same. }
  exists p', h2. split; [|split; [|by rewrite T1]].
  - unfold InitProtocol. rewrite Htr. rewrite M_bind_eq, M_bind_eq, getn_eq, Ht. cbn [Z.eqb KNV_PKG_TAG]. rewrite M_bind_eq.
    unfold EXPAND_TREE. rewrite Hh0, Htr. unfold deref. hsimp. hsimp_in Ebd.
    destruct (GetFirstChild fuel t h) as [c h1a | |]; try done. rewrite M_bind_eq, Ebd. hsimp. rewrite Ehd. hsimp. cbn [Z.eqb]. hsimp. exact Ei.
  - split.
    + unfold IsValid. rewrite T1. cbn [tree set_nodes set_tree]. hsimp. by rewrite Ht2.
    + by rewrite T4.
    + exact Hi.
    + exists hd, b, cs2. split; [by rewrite T2|]. by apply (expanding_opened _ _ _ _ _ _ _ _ _ X2).
    + exists b. rewrite T3. cbn [body set_nodes set_tree set_header set_body]. unfold found_in, lc, children_part in Hbd.
      rewrite field_in_part in Hbd by (intros ? ->; unfold KNV_PKG_BDY_TAG; lia). unfold is_field. destruct bd as [n|]; [|done].
      destruct Hbd as [Hn (v & Hv & I)]. exists v. split; [done|]. destruct (Hin1 n Hn) as [Un _].
      eapply same_item_item; [|exact I]. eapply expanding_same_item; [exact X2|done| |done]. intros ->.
      pose proof (lf_tag _ _ _ (it_leaf _ _ _ _ _ I)) as Hc. by rewrite Htag in Hc.
Qed.

(** What a message is encoded as. *)
Definition packet (l : list pb_pair) : bytes := enc_field (KNV_PKG_TAG, VStr (enc_fields l)).

Lemma packet_first_byte l : exists s, packet l = 0x9a :: s.
Proof. by eexists. Qed.

Lemma char_at_first h p n c s : str_at h p n = Some (c :: s) -> char_at p h = Ret c h.
Proof.
  intros Hs. pose proof (str_at_len _ _ _ _ Hs) as Hl. rewrite len_cons in Hl. pose proof (len_nonneg s).
  unfold char_at, read_str. hsimp. rewrite (str_at_prefix h p n (c :: s) 1) by (done || lia). by hsimp.
Qed.

Lemma packet_decoded fuel h b o q l hq hl :
  sound h -> old_buf h b -> packet_message fuel q l hq hl -> field_ok (KNV_PKG_TAG, VStr (enc_fields (q :: l))) ->
  str_at h (Some (b, o)) (len (packet (q :: l))) = Some (packet (q :: l)) ->
  exists p h', KnvProtocol_bytes fuel (Some (b, o)) (len (packet (q :: l))) true h = Ret p h' /\
    decoded h' (q :: l) (hq :: hl) p.
Proof.
  intros So Hb Pm Hok Hs. destruct (packet_first_byte (q :: l)) as [s Es].
  unfold KnvProtocol_bytes. rewrite M_bind_eq, (char_at_first h _ (len (packet (q :: l))) 0x9a s) by (rewrite <- Es; exact Hs).
  cbn [is_some andb]. replace (Z.eqb 0x9a STX_IPV6_PB) with false by done. hsimp.
  destruct (NewBin_message fuel h b o KNV_PKG_TAG q l So Hb) as (c & h1 & b1 & o1 & E & Ht & So1 & Mn); try done.
  { destruct Pm as [[Hf _] _ _ _]. by apply Forall_cons in Hf as [? _]. }
  unfold packet. rewrite E. hsimp.
  destruct (InitProtocol_run fuel h1 c b1 o1 q l hq hl (set_tree (Some c) proto0) So1 Mn Ht Pm) as (p' & h' & Ei & D & _); try done.
  by exists p', h'.
Qed.

(** C20: an object made from the bytes of a packet with exactly one header is valid and has the numbers, texts, address and
    split settings of the packet's header, each cut to the width of its member; a text or number that the header does
    not have is empty or 0.  It points to the expanded header and to the first body, or to no body when the packet
    has none. *)
Theorem decode_packet (fuel : nat) (h : heap) (b : buf) (o : Z) (q hq : pb_pair) (l hl : list pb_pair) :
  sound h -> old_buf h b -> packet_message fuel q l hq hl -> field_ok (KNV_PKG_TAG, VStr (enc_fields (q :: l))) ->
  str_at h (Some (b, o)) (len (packet (q :: l))) = Some (packet (q :: l)) ->
  exists p h', KnvProtocol_bytes fuel (Some (b, o)) (len (packet (q :: l))) true h = Ret p h' /\
    decoded h' (q :: l) (hq :: hl) p.
Proof. apply packet_decoded. Qed.

Definition sample_header : list pb_pair := [ (2, VInt 5); (3, VInt 6); (8, VStr (txt "late")); (2002, VInt 1) ].
Definition sample_packet : list pb_pair :=
  [ (KNV_PKG_HDR_TAG, VStr (enc_fields sample_header)); (KNV_PKG_BDY_TAG, VStr (enc_fields [(20, VStr (txt "x"))])) ].

Lemma sample_packet_message : packet_message 9 (KNV_PKG_HDR_TAG, VStr (enc_fields sample_header)) (tail sample_packet)
  (2, VInt 5) (tail sample_header).
Proof. split; [fields_ok|by vm_compute|fields_ok|by apply (bool_decide_unpack _); vm_compute]. Qed.

Lemma decode_packet_witness : exists p h',
  KnvProtocol_bytes 9 (Some (BExt 0, 0)) (len (packet sample_packet)) true (message_heap (packet sample_packet)) = Ret p h' /\
    decoded h' sample_packet sample_header p.
Proof.
  apply (decode_packet 9 (message_heap (packet sample_packet)) (BExt 0) 0 (KNV_PKG_HDR_TAG, VStr (enc_fields sample_header))
    (2, VInt 5) (tail sample_packet) (tail sample_header)).
  - apply message_heap_sound.
  - done.
  - apply sample_packet_message.
  - split; cbn [fst snd value_ok]; [unfold KNV_PKG_TAG; lia|vm_compute; done].
  - vm_compute. done.
Defined.
