(* ===== verification/KnvEncode.v ===== *)
(** * Writing packets of the KNV protocol (src/knv/protocol.cc, [KnvProtocol::Encode])

    The header and a body are written one after the other into a block of the memory pool, behind the head of the
    packet.  The block is taken while trees are in use that may lie in blocks themselves, so the proofs carry the
    trees in the heap [without] the new block.  Theorem [packet_roundtrip]: what is written is read again with the
    numbers, texts and body it was written from. *)

From S2P Require Import Prelude Pb MemPool KnvHeap KnvHt KnvNode KnvSize KnvExpand KnvOwn KnvFields ResultSet Protocol KnvPacket.

(** ** Trees and blocks *)

(** The trees of [h] keep their meaning in a heap with the same nodes where at least the same bytes can be read. *)
Lemma tree_enc_reads h h' :
  (forall m, nd h' m = nd h m) -> (forall p n s, str_at h p n = Some s -> str_at h' p n = Some s) ->
  forall k n b w, tree_enc k h n b w -> tree_enc k h' n b w.
Proof.
  intros Hn Hs. assert (Hv : forall ty v p, val_at h ty v = Some p -> val_at h' ty v = Some p).
  { intros ty v p. unfold val_at. destruct (Z.eqb ty KNV_VARINT), (Z.eqb ty KNV_FIXED64), (Z.eqb ty KNV_STRING), (Z.eqb ty KNV_FIXED32); try done;
    intros (s & E & ->)%fmap_Some; by rewrite (Hs _ _ _ E). }
  induction k as [|k IH]; intros n b w H; [done|]. cbn [tree_enc] in *. rewrite Hn. destruct H as [Hz H]. split; [done|].
  destruct (by_value (nd h n)).
  - destruct H as (p & Hp & H). exists p. split; [by apply Hv|done].
  - assert (Hf : forall l es, Forall2 (fun c e => exists b, tree_enc k h c b e) l es ->
                              Forall2 (fun c e => exists b, tree_enc k h' c b e) l es).
    { intros l es F. eapply Forall2_impl; [exact F|]. intros ? ? [b' ?]. exists b'. by apply IH. }
    destruct H as (kb & es1 & es2 & K & F1 & F2 & H). exists kb, es1, es2. split_and!; try apply H; [| |by apply Hf].
    + unfold key_part in *. destruct (has_key (nd h n)); [|done]. destruct K as (v & p & Ev & Ep & K). exists v, p.
      split_and!; try apply K; [|by apply Hv]. unfold key_kval in *. destruct (Z.eqb _ _); [done|].
      destruct (bool_decide _); [done|]. destruct (str_at h _ _) as [s|] eqn:E; [|done]. by rewrite (Hs _ _ _ E).
    + replace (wmetas h' (nd h n)) with (wmetas h (nd h n)); [by apply Hf|]. unfold wmetas.
      destruct (n_metalist (nd h n)); [done|]. by rewrite Hn.
Qed.

(** [h] without the block [m]. *)
Definition without (m : Z) (h : heap) : heap := set_buf (delete (BMem m) (h_buf h)) h.

Lemma str_at_sub h h' p n s :
  (forall b x, h_buf h !! b = Some x -> h_buf h' !! b = Some x) ->
  (forall c k, h_buf h' !! BSmall c k = h_buf h !! BSmall c k) ->
  str_at h p n = Some s -> str_at h' p n = Some s.
Proof.
  intros Hb Hc. unfold str_at. destruct (Z.eqb n 0); [done|]. destruct p as [[b o]|]; [|done]. cbn.
  destruct (buf_get h b) as [x|] eqn:E; [|done]. assert (buf_get h' b = Some x) as ->; [|done].
  destruct b as [i|c k|i]; cbn in *; [by apply Hb|by rewrite Hc|by apply Hb].
Qed.

Lemma without_reads m h p n s : str_at (without m h) p n = Some s -> str_at h p n = Some s.
Proof.
  apply str_at_sub; cbn [without set_buf h_buf].
  - intros b x. rewrite lookup_delete. by case_decide.
  - intros c k. by rewrite lookup_delete_ne.
Qed.

Lemma without_tree m h k n b w : tree_enc k (without m h) n b w -> tree_enc k h n b w.
Proof. apply tree_enc_reads; [done|]. apply without_reads. Qed.

(** A new block is not used by any tree. *)
Lemma without_alloc sz h k n b w : heap_ok h -> tree_enc k h n b w -> tree_enc k (without (h_nmem h) (alloc_heap sz h)) n b w.
Proof.
  intros Ho. apply tree_enc_reads; [done|]. intros p l s. apply str_at_sub; cbn.
  - intros b' x E. rewrite delete_insert_eq, lookup_delete_ne; [done|]. intros <-. rewrite Ho in E; [done|lia].
  - intros c j. by rewrite delete_insert_eq, lookup_delete_ne.
Qed.

(** The trees outside the block [m] that [h] has, [h'] has too. *)
Definition keeps (m : Z) (h h' : heap) : Prop :=
  forall k n b w, tree_enc k (without m h) n b w -> tree_enc k (without m h') n b w.

Lemma keeps_trans m h1 h2 h3 : keeps m h1 h2 -> keeps m h2 h3 -> keeps m h1 h3.
Proof. unfold keeps. auto. Qed.

Lemma keeps_evals m h h' : evals h h' -> keeps m h h'.
Proof.
  intros V k n b w. destruct (ev_core _ _ V) as (A & B & C). apply tree_enc_core.
  - split; [done|]. cbn. by rewrite B.
  - intros j i b' w' H. apply without_tree in H. apply (evals_fwd _ _ V) in H. exact (tree_enc_sz _ _ _ _ _ H).
Qed.

Lemma keeps_write m h x : keeps m h (set_buf (<[BMem m := x]> (h_buf h)) h).
Proof. intros k n b w. unfold without. cbn. by rewrite delete_insert_eq. Qed.

(** ** The pieces of a packet *)

(** Reading and writing a whole block. *)
Lemma mem_size_run m x h : h_buf h !! BMem m = Some x -> mem_size m h = Ret (len x) h.
Proof. intros Hx. unfold mem_size. by rewrite Hx. Qed.

Lemma block_read m x y h : h_buf h !! BMem m = Some (x ++ y) -> read_str (Some (BMem m, 0)) (len x) h = Ret x h.
Proof. intros Hx. unfold read_str. by rewrite (str_at_front _ _ _ _ Hx). Qed.

Lemma block_write m x y h :
  h_buf h !! BMem m = Some x -> len y = len x -> write_str (Some (BMem m, 0)) y h = Ret tt (set_buf (<[BMem m := y]> (h_buf h)) h).
Proof.
  intros Hx Hl. destruct (decide (len y = 0)) as [E|E].
  - assert (y = []) as -> by (destruct y; [done|by rewrite len_cons in E; pose proof (len_nonneg y); lia]).
    assert (x = []) as -> by (destruct x; [done|rewrite len_cons in Hl; pose proof (len_nonneg x); len_lia]).
    unfold write_str. cbn. rewrite insert_id by done. by destruct h.
  - destruct (write_str_run (BMem m) x y h Hx) as (r & -> & Hr); [pose proof (len_nonneg y); lia|].
    assert (r = []) as -> by (destruct r; [done|rewrite len_cons in Hr; pose proof (len_nonneg r); lia]). by rewrite app_nil_r.
Qed.

(** A tree of the heap outside the block is written into the block. *)
Lemma serialize_at_run fuel k m n b w pre room post h :
  h_buf h !! BMem m = Some (pre ++ room ++ post) -> tree_enc k (without m h) n b w -> (k <= fuel)%nat ->
  len w <= len room < 2 ^ 31 ->
  exists h', serialize_at fuel n m (len pre) (len room) h = Ret (0, len w) h' /\ keeps m h h' /\
    h_buf h' !! BMem m = Some (pre ++ w ++ drop (length w) room ++ post).
Proof.
  intros Hb H Hf Hl. unfold serialize_at. rewrite M_bind_eq, (mem_size_run _ _ _ Hb), M_bind_eq.
  rewrite (block_read m _ []) by (by rewrite app_nil_r). rewrite M_bind_eq.
  replace (drop (Z.to_nat (len pre)) (pre ++ room ++ post)) with (room ++ post).
  2: { unfold len. by rewrite Nat2Z.id, drop_app_length. }
  destruct (Serialize_run k fuel n b w h room post true Hf (without_tree _ _ _ _ _ _ H) ltac:(lia) (or_introl eq_refl))
    as (r & h1 & E & V & W). rewrite E. unfold ser_ok in W. rewrite decide_True in W by lia. subst r. cbn beta iota.
  replace (take (Z.to_nat (len pre)) (pre ++ room ++ post)) with pre.
  2: { unfold len. by rewrite Nat2Z.id, take_app_length. }
  assert (Hb1 : h_buf h1 !! BMem m = Some (pre ++ room ++ post)) by (destruct (ev_core _ _ V) as (_ & -> & _); done).
  rewrite M_bind_eq, (block_write _ _ _ _ Hb1).
  2: { assert (Hd : len (drop (length w) room) = len room - len w) by (apply len_drop_le; unfold len in Hl; lia). len_lia. }
  eexists. split; [done|]. split.
  - eapply keeps_trans; [by apply keeps_evals|apply keeps_write].
  - cbn. by rewrite lookup_insert_eq.
Qed.

(** The head of the packet. *)
Definition packet_head_bytes (n : Z) : bytes := enc_vint (tag_word PB_WT_STRING KNV_PKG_TAG) ++ enc_vint n.

Lemma packet_head_run m room post s total h :
  h_buf h !! BMem m = Some (room ++ post) -> field_ok (KNV_PKG_TAG, VStr s) -> total = len room ->
  len (packet_head_bytes (len s)) <= len room < 2 ^ 31 ->
  exists h', packet_head m total (len s) h = Ret (0, len (packet_head_bytes (len s))) h' /\ keeps m h h' /\
    h_buf h' !! BMem m = Some (packet_head_bytes (len s) ++ drop (length (packet_head_bytes (len s))) room ++ post).
Proof.
  intros Hb Hok -> Hl. set (x := packet_head_bytes (len s)) in *. unfold packet_head. rewrite M_bind_eq, (mem_size_run _ _ _ Hb), M_bind_eq.
  rewrite (block_read m _ []) by (by rewrite app_nil_r).
  destruct (init_cursor room post) as (b0 & -> & Hc & Hs0); [lia|]. cbn [Z.eqb negb].
  destruct (wrote_head [] room post b0 KNV_PKG_TAG (len s) s Hok eq_refl Hc) as ([r b1] & Eh & W).
  destruct Hok as [_ Hv]. cbn [snd value_ok] in Hv. pose proof (len_nonneg s).
  rewrite (u64_small (len s)) in Eh by lia. rewrite M_bind_eq, Eh. hsimp. unfold wrote in W. fold (packet_head_bytes (len s)) in W. fold x in W.
  rewrite decide_True in W by lia. cbn [fst snd] in W. destruct W as (-> & Hs1 & Hc1). cbn [Z.eqb negb].
  assert (Hd : len (drop (length x) room) = len room - len x) by (apply len_drop_le; unfold len in Hl; lia).
  rewrite app_nil_l in Hc1. pose proof (len_nonneg room). rewrite (enc_length b1 x (drop (length x) room) post (len room) Hc1) by (congruence || lia).
  destruct Hc1 as (Hst & _). rewrite M_bind_eq, Hst, (block_write _ _ _ _ Hb) by len_lia.
  eexists. split; [done|]. split; [apply keeps_write|]. cbn. by rewrite lookup_insert_eq.
Qed.

(** Header and body one after the other behind the head of the packet. *)
Definition body_enc (k : nat) (h : heap) (bt : option nid) (bw : bytes) : Prop :=
  match bt with Some n => exists b, tree_enc k h n b bw /\ bw <> [] | None => bw = [] end.

Lemma packet_bytes s : enc_field (KNV_PKG_TAG, VStr s) = packet_head_bytes (len s) ++ s.
Proof. unfold enc_field, packet_head_bytes. cbn [fst snd type_of enc_value]. by rewrite app_assoc. Qed.

Lemma fill_packet_run fuel k m hd bt hb hw bw room post total h :
  h_buf h !! BMem m = Some (room ++ post) -> field_ok (KNV_PKG_TAG, VStr (hw ++ bw)) ->
  total = len room -> len room = len (enc_field (KNV_PKG_TAG, VStr (hw ++ bw))) -> len room < 2 ^ 31 ->
  tree_enc k (without m h) hd hb hw -> body_enc k (without m h) bt bw -> (k <= fuel)%nat ->
  exists h', fill_packet fuel hd bt (len bw) m total (len (hw ++ bw)) h = Ret 0 h' /\
    h_buf h' !! BMem m = Some (enc_field (KNV_PKG_TAG, VStr (hw ++ bw)) ++ post).
Proof.
  intros Hb Hok -> Hl Hr Hh Hbt Hf. rewrite packet_bytes in *. set (x := packet_head_bytes (len (hw ++ bw))) in *.
  assert (Hx : len x <= len room < 2 ^ 31) by (pose proof (len_nonneg (hw ++ bw)); len_lia).
  destruct (packet_head_run m room post (hw ++ bw) (len room) h Hb Hok eq_refl Hx) as (h1 & E1 & K1 & B1). fold x in E1, B1.
  unfold fill_packet. rewrite M_bind_eq, E1. cbn [Z.eqb negb].
  set (r1 := drop (length x) room) in *. assert (Hr1 : len r1 = len room - len x) by (apply len_drop_le; unfold len in Hx; lia).
  assert (Hlw : len hw + len bw = len r1) by len_lia. pose proof (len_nonneg hw). pose proof (len_nonneg bw). pose proof (len_nonneg x).
  destruct (serialize_at_run fuel k m hd hb hw x r1 post h1 B1 (K1 _ _ _ _ Hh) Hf) as (h2 & E2 & K2 & B2); [lia|].
  rewrite <- Hr1, M_bind_eq, E2. cbn [Z.eqb negb].
  assert (Hr2 : len (drop (length hw) r1) = len bw) by (rewrite len_drop_le; unfold len in *; lia).
  destruct bt as [bn|]; cbn [body_enc] in Hbt.
  - destruct Hbt as (bb & Hbt & Hne). assert (0 < len bw) by (destruct bw; [done|rewrite len_cons; pose proof (len_nonneg bw); lia]).
    rewrite (proj2 (Z.ltb_lt _ _)) by done. cbv zeta.
    destruct (serialize_at_run fuel k m bn bb bw (x ++ hw) (drop (length hw) r1) post h2) as (h3 & E3 & K3 & B3); [|by apply K2, K1|done|lia|].
    { by rewrite <- app_assoc. }
    rewrite len_app in E3. replace (len room - (len x + len hw)) with (len (drop (length hw) r1)) by lia.
    rewrite M_bind_eq, E3. exists h3. split; [done|]. rewrite B3. f_equal. rewrite drop_ge by (unfold len in *; lia).
    by rewrite <- !app_assoc.
  - subst bw. exists h2. split; [done|]. rewrite B2. f_equal. rewrite drop_ge by (rewrite (@len_nil Z) in Hlw; unfold len in *; lia).
    by rewrite app_nil_r, app_assoc.
Qed.

(** The allocated block of a packet: [total] bytes, and what lies behind them. *)
Lemma alloc_room total h : 0 <= total ->
  exists room post, h_buf (alloc_heap total h) !! BMem (h_nmem h) = Some (room ++ post) /\ len room = total.
Proof.
  intros Ht. pose proof (block_size_ge total) as Hge. set (z := replicate (Z.to_nat (block_size total)) 0).
  exists (take (Z.to_nat total) z), (drop (Z.to_nat total) z). split.
  - cbn. by rewrite lookup_insert_eq, take_drop.
  - unfold len, z. rewrite length_take, length_replicate. lia.
Qed.

Lemma evals_fail h h' : evals h h' -> h_fail h' = h_fail h.
Proof. by intros [(_ & _ & _ & _ & _ & ?) _]. Qed.
Lemma evals_heap_ok h h' : evals h h' -> heap_ok h -> heap_ok h'.
Proof. intros [(_ & Hb & _ & _ & Hn & _) _] H i Hi. rewrite Hb. apply H. by rewrite <- Hn. Qed.

Lemma Encode_with_run fuel k p hd bt hb hw bw h :
  heap_ok h -> h_fail h = [] -> IsValid p h = Ret true h -> header p = Some hd ->
  tree_enc k h hd hb hw -> body_enc k h bt bw -> (k <= fuel)%nat -> field_ok (KNV_PKG_TAG, VStr (hw ++ bw)) ->
  exists m h' post, Encode_with fuel (retcode p) (retmsg p) (retmsglen p) bt false false p h =
    Ret (len (enc_field (KNV_PKG_TAG, VStr (hw ++ bw))), Some m, p) h' /\
    h_buf h' !! BMem m = Some (enc_field (KNV_PKG_TAG, VStr (hw ++ bw)) ++ post).
Proof.
  intros Ho Hfl Hv Hp Hh Hb Hf Hok. unfold Encode_with. rewrite M_bind_eq, Hv. cbn [negb]. rewrite Z.eqb_refl. cbn [negb]. hsimp. cbn [Z.eqb negb].
  rewrite bool_decide_eq_true_2, Z.eqb_refl by done. cbn [negb orb]. hsimp. cbn [Z.eqb negb]. rewrite Hp. unfold deref. hsimp.
  destruct (EvaluateSize_run k fuel hd hb hw h Hf Hh) as (h1 & E1 & V1 & _). rewrite E1.
  assert (exists h2, (match bt with Some b => EvaluateSize fuel b | None => mret 0 end) h1 = Ret (len bw) h2 /\ evals h h2) as (h2 & E2 & V2).
  { destruct bt as [bn|]; cbn [body_enc] in Hb; [|subst bw; by exists h1]. destruct Hb as (bb & Hb & _).
    destruct (EvaluateSize_run k fuel bn bb bw h1 Hf (evals_fwd _ _ V1 _ _ _ _ Hb)) as (h2 & E2 & V2 & _).
    exists h2. split; [done|by eapply evals_trans]. }
  rewrite M_bind_eq, E2, M_bind_eq, mem_alloc_run. unfold will_fail. rewrite (evals_fail _ _ V2), Hfl.
  rewrite <- len_app. change KNV_NODE with KNV_STRING. rewrite (eval_len_message _ _ Hok).
  set (w := enc_field (KNV_PKG_TAG, VStr (hw ++ bw))). pose proof (field_small _ Hok) as Hsm. fold w in Hsm.
  destruct (alloc_room (len w) h2) as (room & post & Hbuf & Hl); [lia|]. set (m := h_nmem h2) in *.
  assert (Hk : forall n b' w', tree_enc k h n b' w' -> tree_enc k (without m (alloc_heap (len w) h2)) n b' w').
  { intros n b' w' H. apply without_alloc; [by eapply evals_heap_ok|]. by apply (evals_fwd _ _ V2). }
  assert (Hbt : body_enc k (without m (alloc_heap (len w) h2)) bt bw).
  { destruct bt as [bn|]; cbn [body_enc] in *; [|done]. destruct Hb as (bb & Hb & Hne). exists bb. split; [by apply Hk|exact Hne]. }
  destruct (fill_packet_run fuel k m hd bt hb hw bw room post (len w) (alloc_heap (len w) h2)) as (h3 & E3 & B3); [done|done|done|done|lia|by apply Hk|done|done|].
  rewrite M_bind_eq, E3. cbn [Z.eqb negb]. by exists m, h3, post.
Qed.

Lemma to_string_run m w post p h :
  h_buf h !! BMem m = Some (w ++ post) ->
  to_string (len w, Some m, p) h = Ret (0, w, p) (set_buf (delete (BMem m) (h_buf h)) h).
Proof.
  intros Hb. unfold to_string. rewrite (proj2 (Z.ltb_ge _ _)) by apply len_nonneg. unfold lift. hsimp. cbn beta iota delta [mem_free].
  rewrite (block_read m w post) by done. done.
Qed.

Definition silent (p : KnvProtocol) : Prop := retcode p = 0 /\ retmsg p = None /\ retmsglen p = 0.

Lemma EncodeWithBody_run fuel k p hd bt hb hw bw h :
  heap_ok h -> h_fail h = [] -> IsValid p h = Ret true h -> header p = Some hd -> silent p ->
  tree_enc k h hd hb hw -> body_enc k h bt bw -> (k <= fuel)%nat -> field_ok (KNV_PKG_TAG, VStr (hw ++ bw)) ->
  exists h', EncodeWithBody_string fuel bt p h = Ret (0, enc_field (KNV_PKG_TAG, VStr (hw ++ bw)), p) h'.
Proof.
  intros Ho Hfl Hv Hp (Hr & Hm & Hml) Hh Hb Hf Hok.
  destruct (Encode_with_run fuel k p hd bt hb hw bw h Ho Hfl Hv Hp Hh Hb Hf Hok) as (m & h' & post & E & B).
  rewrite Hr, Hm, Hml in E. unfold EncodeWithBody_string, EncodeWithBody. rewrite M_bind_eq, E, (to_string_run m _ post) by done. by eexists.
Qed.

(** ** What is written is read again *)

(** The fields of a packet with one header and perhaps a body. *)
Definition body_fields (v : option pb_value) : list pb_pair := match v with Some v => [(KNV_PKG_BDY_TAG, v)] | None => [] end.
Definition packet_fields (hf : list pb_pair) (v : option pb_value) : list pb_pair :=
  (KNV_PKG_HDR_TAG, VStr (enc_fields hf)) :: body_fields v.

(** The same numbers, address and split settings. *)
Definition same_header (p p' : KnvProtocol) : Prop :=
  cmd p' = cmd p /\ subcmd p' = subcmd p /\ seq p' = seq p /\ retcode p' = retcode p /\ rspaddr p' = rspaddr p /\
  allow_split p' = allow_split p /\ max_pkg_sz p' = max_pkg_sz p /\
  total_split_count p' = total_split_count p /\ curr_split_index p' = curr_split_index p.

Lemma header_info_same h h' hf p p' : header_info h hf p -> header_info h' hf p' -> same_header p p'.
Proof. intros [? ? ? ? _ ? ? ? ? ?] [? ? ? ? _ ? ? ? ? ?]. unfold same_header. split_and!; congruence. Qed.

Lemma packet_fields_message fuel hq hl v :
  message_ok fuel (hq :: hl) -> NoDup (hq :: hl).*1 -> message_ok fuel (packet_fields (hq :: hl) v) ->
  packet_message fuel (KNV_PKG_HDR_TAG, VStr (enc_fields (hq :: hl))) (body_fields v) hq hl.
Proof.
  intros Hh Hd Hok. split; [exact Hok| |done|done]. rewrite filter_cons_True by done. f_equal. by destruct v.
Qed.

(** C19: a packet written from a header and a body is read with the same header.  Whatever nodes stand for the header's
    fields and the body, written or not yet folded, [EncodeWithBody] gives code 0 and the bytes of one packet; an object
    made from these bytes, in any heap and at any place, is valid, owns its tree, has every number, text and split
    setting of the header, and points to an expanded header with its fields and to a body with the value written, or to
    no body when none was given. *)
Theorem packet_roundtrip (fuel k : nat) (p : KnvProtocol) (hd : nid) (bt : option nid) (hq : pb_pair) (hl : list pb_pair)
    (v : option pb_value) (h : heap) :
  heap_ok h -> h_fail h = [] -> IsValid p h = Ret true h -> header p = Some hd -> silent p -> header_info h (hq :: hl) p ->
  tree_enc k h hd (enc_fields (hq :: hl)) (enc_field (KNV_PKG_HDR_TAG, VStr (enc_fields (hq :: hl)))) ->
  body_enc k h bt (enc_fields (body_fields v)) -> (k <= fuel)%nat ->
  message_ok fuel (hq :: hl) -> NoDup (hq :: hl).*1 -> message_ok fuel (packet_fields (hq :: hl) v) ->
  field_ok (KNV_PKG_TAG, VStr (enc_fields (packet_fields (hq :: hl) v))) ->
  exists s h1, EncodeWithBody_string fuel bt p h = Ret (0, s, p) h1 /\
    forall h2 b o, sound h2 -> old_buf h2 b -> str_at h2 (Some (b, o)) (len s) = Some s ->
      exists p' h3, KnvProtocol_bytes fuel (Some (b, o)) (len s) true h2 = Ret p' h3 /\
        decoded h3 (packet_fields (hq :: hl) v) (hq :: hl) p' /\ same_header p p'.
Proof.
  intros Ho Hfl Hv Hp Hs Hi Hh Hb Hf Hhok Hd Hok Hpk. set (hf := hq :: hl) in *.
  assert (Hw : enc_field (KNV_PKG_HDR_TAG, VStr (enc_fields hf)) ++ enc_fields (body_fields v) = enc_fields (packet_fields hf v)) by done.
  destruct (EncodeWithBody_run fuel k p hd bt _ _ (enc_fields (body_fields v)) h Ho Hfl Hv Hp Hs Hh Hb Hf) as (h1 & E); [by rewrite Hw|].
  rewrite Hw in E. exists (packet (packet_fields hf v)), h1. split; [exact E|]. intros h2 b o So Ob Hst.
  destruct (packet_decoded fuel h2 b o _ (body_fields v) hq hl So Ob (packet_fields_message fuel hq hl v Hhok Hd Hok) Hpk Hst)
    as (p' & h3 & E2 & D). exists p', h3. split; [exact E2|]. split; [exact D|]. eapply header_info_same; [exact Hi|apply D].
Qed.

(** A header and a body that were received and not yet expanded, under the root of a packet. *)
Definition whole_leaf (t i : Z) (s : bytes) : node := set_val (kv_str (len s) (Some (BExt i, 0))) (set_tag t node0).
Definition two_numbers : list pb_pair := [ (2, VInt 5); (3, VInt 6) ].
Definition reply_heap : heap :=
  mk_heap
    (<[1 := set_tag KNV_PKG_TAG node0]> (<[2 := whole_leaf KNV_PKG_HDR_TAG 0 (enc_fields two_numbers)]>
    (<[3 := whole_leaf KNV_PKG_BDY_TAG 1 (enc_fields [(20, VInt 7)])]> ∅))) [] 4
    (<[BExt 0 := enc_fields two_numbers]> (<[BExt 1 := enc_fields [(20, VInt 7)]]> ∅)) 0 [].
Definition reply : KnvProtocol := set_nodes (Some 1) (Some 2) (Some 3) (set_ids 5 6 0 0 proto0).

Lemma whole_leaf_enc h n t i s :
  nd h n = whole_leaf t i s -> str_at h (Some (BExt i, 0)) (len s) = Some s -> field_ok (t, VStr s) ->
  tree_enc 1 h n s (enc_field (t, VStr s)).
Proof.
  intros E Hs Hok. cbn [tree_enc]. rewrite E. split; [by left|]. change (by_value (whole_leaf t i s)) with true. cbv iota.
  exists (VStr s). split; [|done]. unfold val_at. cbn [whole_leaf n_type n_val set_val set_tag node0]. cbn [Z.eqb KNV_VARINT KNV_FIXED64 KNV_STRING Pos.eqb].
  assert (kv_len (kv_str (len s) (Some (BExt i, 0))) = len s) as ->.
  { destruct Hok as [_ Hv]. cbn [snd value_ok] in Hv. pose proof (len_nonneg s). unfold kv_len, kv_str. cbn [kv_word].
    rewrite !u32_small by (try apply u32_range; lia). done. }
  cbn [kv_ptr kv_str]. by rewrite Hs.
Qed.

Ltac small_field := split; cbn [fst snd value_ok]; [by apply (bool_decide_unpack _); vm_compute|vm_compute; done].

Lemma packet_roundtrip_witness : exists s h1, EncodeWithBody_string 9 (Some 3) reply reply_heap = Ret (0, s, reply) h1 /\
  exists p' h3, KnvProtocol_bytes 9 (Some (BExt 0, 0)) (len s) true (message_heap s) = Ret p' h3 /\
    decoded h3 (packet_fields two_numbers (Some (VStr (enc_fields [(20, VInt 7)])))) two_numbers p' /\ same_header reply p'.
Proof.
  destruct (packet_roundtrip 9 1 reply 2 (Some 3) (2, VInt 5) (tail two_numbers) (Some (VStr (enc_fields [(20, VInt 7)]))) reply_heap)
    as (s & h1 & E & R).
  - intros i Hi. done.
  - done.
  - done.
  - done.
  - done.
  - split; done.
  - apply (whole_leaf_enc _ _ _ 0); [done|by vm_compute|small_field].
  - exists (enc_fields [(20, VInt 7)]). split; [|by vm_compute]. cbn [body_fields]. change (enc_fields [(KNV_PKG_BDY_TAG, VStr (enc_fields [(20, VInt 7)])) ])
      with (enc_field (KNV_PKG_BDY_TAG, VStr (enc_fields [(20, VInt 7)])) ++ []). rewrite app_nil_r.
    apply (whole_leaf_enc _ _ _ 1); [done|by vm_compute|small_field].
  - lia.
  - fields_ok.
  - by apply (bool_decide_unpack _); vm_compute.
  - fields_ok.
  - small_field.
  - exists s, h1. split; [exact E|]. apply (R (message_heap s) (BExt 0) 0); [apply message_heap_sound|done|].
    unfold message_heap. pose proof (len_nonneg s). rewrite <- (app_nil_r s) at 1. by eapply (str_at_front _ _ _ []); cbn; rewrite ?app_nil_r.
Defined.
