(* ===== verification/KnvParts.v ===== *)
(** * Packets in parts and packets of the other format, on concrete input (src/knv/protocol.cc)

    Executions of the definitions of Protocol.v: an object is made, encoded and read again; a large packet is split, its
    parts are read in another order and merged; and the inputs on which the code does not do what it means to.  [F] is
    the fuel of all of them, above the height and the number of children of every tree here unless a test says
    otherwise. *)

From S2P Require Import Prelude Pb MemPool KnvHeap KnvHt KnvNode KnvFields ResultSet Protocol.

Definition F : nat := 50.

(** The bytes [s] at the address [BExt i]. *)
Definition place (i : Z) (s : bytes) : M unit := fun h => Ret tt (set_buf (<[BExt i := s]> (h_buf h)) h).

Definition payload (n : nat) : bytes := (fun i => Z.of_nat i mod 251) <$> List.seq 0 n.

(** A new object with command 5, subcommand 6, sequence 7 and one body whose child 20 has [n] bytes. *)
Definition request (n : nat) : M KnvProtocol :=
  p ← KnvProtocol_new F 5 6 7;
  place 1 (payload n);;
  b ← NewTree F KNV_PKG_BDY_TAG None;
  b ← deref b;
  InsertStrLeaf F b 20 (Some (BExt 1, 0)) (Z.of_nat n);;
  '(_, p) ← AddBody F (Some b) true p;
  mret p.

(** The object made from the bytes [s]. *)
Definition receive (s : bytes) : M KnvProtocol := place 2 s;; KnvProtocol_bytes F (Some (BExt 2, 0)) (len s) true.

Definition body_string (p : KnvProtocol) : M bytes :=
  b ← GetBody p;
  match b with Some b => GetFieldStr F b 20 | None => mret [] end.

(** Command, subcommand and sequence number, and child 20 of the first body. *)
Definition content (p : KnvProtocol) : M (Z * Z * Z * bytes) := s ← body_string p; mret (cmd p, subcmd p, seq p, s).

Definition result {A} (m : M A) : option A := match m empty_heap with Ret a _ => Some a | _ => None end.
Definition crashes {A} (m : M A) : bool := match m empty_heap with Crash => true | _ => false end.

Example request_received :
  result (p ← request 100; '(r, s, _) ← Encode_string F p; q ← receive s; c ← content q; mret (r, c)) = Some (0, (5, 6, 7, payload 100)).
Proof. vm_compute. reflexivity. Qed.

(** An answer with a return code and a message carries no body. *)
Example error_received :
  result (p ← request 100; place 3 (txt "too late");; '(r, s, _) ← EncodeWithError_string F 404 (Some (BExt 3, 0)) 8 p;
          q ← receive s; m ← GetRetMsg q; mret (r, retcode q, m, body q)) = Some (0, 404, txt "too late", None).
Proof. vm_compute. reflexivity. Qed.

(** ** The other format *)

Example oidb_received :
  result (p ← request 100; '(r, s, _) ← encode_oidb_string F true p; q ← receive (s ++ [0]); c ← content q; mret (r, last s, c)) =
    Some (0, Some ETX_IPV6_PB, (5, 6, 7, payload 100)).
Proof. vm_compute. reflexivity. Qed.

(** [EncodeAllOidb] counts one byte too few: the mark at the end is not part of the string, which is not accepted then. *)
Example oidb_all_incomplete :
  result (p ← request 100; '(r, s, _) ← encode_oidb_string F false p; q ← receive s; v ← IsValid q; mret (r, bool_decide (last s = Some ETX_IPV6_PB), v)) =
    Some (0, false, false).
Proof. vm_compute. reflexivity. Qed.

(** The sum of the two lengths is computed in 32 bits: ten bytes whose lengths add up to [2^32] pass the test, and
    the header is read behind them. *)
Example oidb_length_overflow :
  crashes (receive ([STX_IPV6_PB] ++ be32 1000 ++ be32 (2 ^ 32 - 1000) ++ [ETX_IPV6_PB])) = true /\
  crashes (receive ([STX_IPV6_PB] ++ be32 1000 ++ be32 1000 ++ [ETX_IPV6_PB])) = false.
Proof. vm_compute. split; reflexivity. Qed.

(** The two bytes behind the header are read whatever the length of the body: without a body the second one lies behind the
    packet. *)
Example oidb_empty_body_overread :
  crashes (receive ([STX_IPV6_PB] ++ be32 0 ++ be32 0 ++ [ETX_IPV6_PB])) = true /\
  crashes (receive ([STX_IPV6_PB] ++ be32 0 ++ be32 1 ++ [0; ETX_IPV6_PB])) = false.
Proof. vm_compute. split; reflexivity. Qed.

(** A packet with two bodies: the header is there, but no body is current. *)
Example oidb_bodies_not_found :
  let hd := enc_fields [(KNV_PKG_HDR_CMD_TAG, VInt 5)] in
  let bd := enc_fields [(KNV_PKG_BDY_TAG, VStr (enc_fields [(20, VStr (txt "a"))])); (KNV_PKG_BDY_TAG, VStr (enc_fields [(20, VStr (txt "b"))]))] in
  result (p ← receive ([STX_IPV6_PB] ++ be32 (len hd) ++ be32 (len bd) ++ hd ++ bd ++ [ETX_IPV6_PB]);
          v ← IsValid p; b ← GetBody p; n ← GetFirstRequest F p; mret (v, cmd p, b, is_some (fst n))) = Some (true, 5, None, true).
Proof. vm_compute. reflexivity. Qed.

(** ** Parts *)

Fixpoint parts_from (n : nat) (i : Z) (p : KnvProtocol) : M (list bytes) :=
  match n with
  | O => mret []
  | S n => '(_, s, p) ← EncodePart_string F i p; l ← parts_from n (i + 1) p; mret (s :: l)
  end.

(** The packet of a request of [n] bytes cut for packets of at most [max] bytes. *)
Definition send_parts (n : nat) (max : Z) : M (Z * list bytes) :=
  p ← request n;
  '(r, p) ← Split F None (SetAllowSplit true max p);
  l ← parts_from (Z.to_nat (total_split_count p)) 0 p;
  mret (r, l).

(** The parts received one after the other; the codes of [AddPartial]. *)
Fixpoint merge_all (l : list bytes) (p : KnvProtocol) : M (list Z * KnvProtocol) :=
  match l with
  | [] => mret ([], p)
  | s :: l =>
      q ← receive s;
      '(r, p, q) ← AddPartial F q true p;
      Delete F q;;
      '(rs, p) ← merge_all l p;
      mret (r :: rs, p)
  end.

(** Three full parts and a shorter one; merged from the last to the first they give the request. *)
Example split_and_merged :
  result ('(r, l) ← send_parts 300 128; mret (r, (fun s : bytes => len s) <$> l)) = Some (0, [125; 125; 125; 41]) /\
  result ('(_, l) ← send_parts 300 128; '(rs, p) ← merge_all (reverse l) proto0; v ← IsComplete p; c ← content p; mret (rs, v, c)) =
    Some ([0; 0; 0; 0], true, (5, 6, 7, payload 300)).
Proof. vm_compute. split; reflexivity. Qed.

(** Some parts are not the packet yet. *)
Example parts_missing :
  result ('(_, l) ← send_parts 300 128; '(rs, p) ← merge_all (tail l) proto0; v ← IsComplete p; mret (rs, v)) = Some ([0; 0; 0], false).
Proof. vm_compute. reflexivity. Qed.
