(* ===== verification/Server.v ===== *)
(** * The proxy server (src/mysql_proxy_server.cpp)

    The handling of one request, from the body of a packet to the response,
    with the pool of database connections and the cache.  The MySQL client
    library is the interface [MySQL].  The tree library and the cache are used
    through the interfaces [Knv] and [Cache].  The state of a worker is the
    record [world], which also keeps what was sent, which statements were run
    and which connections were opened and closed. *)

From S2P Require Import Prelude Pb Crypt Packet Traffic Keys.

(** ** Interfaces *)

(** The tree library: what the server and the client use of [KnvNode].  [Serialize] is called with
    [with_header] false and gives the bytes written. *)
Class Knv := {
  knv : Type;
  NewTree : Z -> option knv;
  SetFieldStr : Z -> bytes -> knv -> knv;
  SetFieldInt : Z -> Z -> knv -> knv;
  EvaluateSize : knv -> Z;
  Serialize : knv -> Z -> option bytes;
  NewFromMessage : bytes -> option knv;
  GetFieldStr : knv -> Z -> bytes;
  GetFieldInt : knv -> Z -> Z;
  GetStrVal : knv -> bytes
}.

(** The MySQL client library; [db] is the state of the outside world, connections are numbers. *)
Class MySQL := {
  db : Type;
  result : Type;
  mysql_init : db -> option Z * db;
  mysql_real_connect : Z -> db -> bool * db;
  mysql_close : Z -> db -> db;
  mysql_set_character_set : Z -> bytes -> db -> db;
  mysql_query : Z -> bytes -> db -> Z * db;
  mysql_store_result : Z -> db -> option result * db;
  mysql_errno : Z -> db -> Z;
  mysql_error : Z -> db -> bytes;
  time : db -> Z;
  ER_ERROR_FIRST : Z; ER_ERROR_LAST : Z;
  CR_SERVER_GONE_ERROR : Z; CR_SERVER_LOST : Z; CR_CONNECTION_ERROR : Z; CR_CONN_HOST_ERROR : Z;
  CR_LOCALHOST_CONNECTION : Z; CR_TCP_CONNECTION : Z; CR_OUT_OF_MEMORY : Z
}.

(** The cache ([UcStorage]), and [PackResult], which turns a result set into a tree; [sMySQLError] is
    its message when it fails. *)
Class Cache (K : Knv) (Q : MySQL) := {
  cache : Type;
  st_Read : bytes -> cache -> Z * option knv * cache;
  TryLockShm : cache -> Z * cache;
  UnlockShm : cache -> cache;
  st_Write : bytes -> knv -> cache -> Z * cache;
  PackResult : result -> bytes -> Z -> knv + bytes
}.

(** ** Packets *)

(** Models [ProxyPacket] (src/mysql_proxy_server.cpp:127-134). *)
Record ProxyPacket := mk_packet {
  appname : bytes; appkey : bytes; sequence : Z; errnum : Z; content : bytes }.

Section packets.
Context `{D : Des} `{K : Knv}.

(** The message with its header; [None] when the tree cannot be made or serialized. *)
(** Models [SendResponse] (src/mysql_proxy_server.cpp:264-290). *)
Definition pack_packet (p : ProxyPacket) : option bytes :=
  t ← NewTree 1;
  let t := SetFieldStr 11 (content p) (SetFieldInt 3 (errnum p) (SetFieldInt 2 (sequence p)
             (SetFieldStr 1 (appname p) t))) in
  body ← Serialize t (EvaluateSize t);
  Some (PACKET_START_TOKEN ++ le_split 8 (u64 (PACKET_HEADER_LENGTH + len body)) ++ body).

(** The packet of a response: a result is encrypted, an error text is not.  The outer [None] is the
    model running out of fuel. *)
(** Models [SendResponse] (src/mysql_proxy_server.cpp:246-262). *)
Definition response_packet (stRequest : ProxyPacket) (errornum : Z) (text : bytes) : option ProxyPacket :=
  if Z.eqb errornum 0 then
    c ← Encrypt (appkey stRequest) text;
    if Z.eqb (len c) 0 && negb (Z.eqb (len text) 0)
    then Some (mk_packet (appname stRequest) (appkey stRequest) (sequence stRequest) 2 (txt "Encryption failed"))
    else Some (mk_packet (appname stRequest) (appkey stRequest) (sequence stRequest) (u32 errornum) c)
  else Some (mk_packet (appname stRequest) (appkey stRequest) (sequence stRequest) (u32 errornum) text).

(** The client's packet for a statement; its sequence number goes up by one each time. *)
(** Models [SendRequest] (src/mysql_proxy_api.cpp:302-333). *)
Definition SendRequest (app key : bytes) (seq : Z) (sql : bytes) : option (option bytes) :=
  c ← api_Encrypt key sql;
  Some (pack_packet (mk_packet app key seq 0 c)).

End packets.

Section server.
Context `{D : Des} {K : Knv} {Q : MySQL} {C : Cache K Q}.

(** ** State *)

(** Models [CONFIG] (src/mysql_proxy_server.cpp:36-64). *)
Record CONFIG := mk_config {
  sCharset : bytes; iShmMaxKeyLen : Z; iCacheValidSeconds : Z; mapAppKeys : gmap bytes bytes }.

(** [vstMySQLPool], the byte counter, [sMySQLError] and the outside world; [w_sent], [w_queries],
    [w_opened] and [w_closed] are the history. *)
Record world := mk_world {
  w_pool : list Z; w_counter : atomic_counter_t; sMySQLError : bytes; w_db : db; w_cache : cache;
  w_sent : list bytes; w_queries : list bytes; w_opened : list Z; w_closed : list Z }.

Definition set_pool (l : list Z) (w : world) : world :=
  mk_world l (w_counter w) (sMySQLError w) (w_db w) (w_cache w) (w_sent w) (w_queries w) (w_opened w) (w_closed w).
Definition set_error (e : bytes) (w : world) : world :=
  mk_world (w_pool w) (w_counter w) e (w_db w) (w_cache w) (w_sent w) (w_queries w) (w_opened w) (w_closed w).
Definition set_db (d : db) (w : world) : world :=
  mk_world (w_pool w) (w_counter w) (sMySQLError w) d (w_cache w) (w_sent w) (w_queries w) (w_opened w) (w_closed w).
Definition set_cache (c : cache) (w : world) : world :=
  mk_world (w_pool w) (w_counter w) (sMySQLError w) (w_db w) c (w_sent w) (w_queries w) (w_opened w) (w_closed w).
Definition log_send (rsp : bytes) (c : atomic_counter_t) (w : world) : world :=
  mk_world (w_pool w) c (sMySQLError w) (w_db w) (w_cache w) (w_sent w ++ [rsp]) (w_queries w) (w_opened w) (w_closed w).
Definition log_query (q : bytes) (w : world) : world :=
  mk_world (w_pool w) (w_counter w) (sMySQLError w) (w_db w) (w_cache w) (w_sent w) (w_queries w ++ [q]) (w_opened w) (w_closed w).
Definition log_open (c : Z) (w : world) : world :=
  mk_world (w_pool w) (w_counter w) (sMySQLError w) (w_db w) (w_cache w) (w_sent w) (w_queries w) (c :: w_opened w) (w_closed w).
Definition log_close (c : Z) (w : world) : world :=
  mk_world (w_pool w) (w_counter w) (sMySQLError w) (w_db w) (w_cache w) (w_sent w) (w_queries w) (w_opened w) (c :: w_closed w).

(** ** The connection pool *)

(** Models [ConcurrentQueue::Put] (src/mysql_proxy_server.cpp:79-84). *)
Definition Put (c : Z) (w : world) : world := set_pool (w_pool w ++ [c]) w.

(** Models [ConcurrentQueue::Get] (src/mysql_proxy_server.cpp:86-98). *)
Definition Get (w : world) : option Z * world :=
  match w_pool w with
  | c :: l => (Some c, set_pool l w)
  | [] => (None, w)
  end.

(** [mysql_close(mysql)] *)
Definition close_conn (c : Z) (w : world) : world := log_close c (set_db (mysql_close c (w_db w)) w).

(** Models [RealFreeMySQL] (src/mysql_proxy_server.cpp:355-359). *)
Definition RealFreeMySQL (c : Z) (w : world) : world := close_conn c w.

(** Models [InitMySQL] (src/mysql_proxy_server.cpp:301-325). *)
Definition InitMySQL (cfg : CONFIG) (w : world) : option Z * world :=
  match mysql_init (w_db w) with
  | (None, d) => (None, set_error (txt "mysql_init failed: " ++ mysql_error 0 d) (set_db d w))
  | (Some c, d) =>
      let w1 := log_open c (set_db d w) in
      match mysql_real_connect c d with
      | (false, d2) => (None, close_conn c (set_error (txt "mysql_real_connect failed: " ++ mysql_error c d2) (set_db d2 w1)))
      | (true, d2) =>
          (Some c, set_db (if at_end (sCharset cfg) then d2 else mysql_set_character_set c (sCharset cfg) d2) w1)
      end
  end.

(** Models [AllocMySQL] (src/mysql_proxy_server.cpp:329-344). *)
Definition AllocMySQL (cfg : CONFIG) (w : world) : option Z * world :=
  match Get w with
  | (Some c, w1) => if Z.eqb c 0 then InitMySQL cfg w1 else (Some c, w1)
  | (None, w1) => InitMySQL cfg w1
  end.

(** Models [FreeMySQL] (src/mysql_proxy_server.cpp:346-353). *)
Definition FreeMySQL (c : Z) (w : world) : world := if Z.eqb c 0 then w else Put c w.

(** ** Responses *)

(** Nothing is sent when the packet cannot be made. *)
(** Models [SendResponse] (src/mysql_proxy_server.cpp:246-299). *)
Definition SendResponse (stRequest : ProxyPacket) (errornum : Z) (text : bytes) (w : world) : option world :=
  p ← response_packet stRequest errornum text;
  match pack_packet p with
  | None => Some w
  | Some rsp =>
      c ← atomic_counter_array_add_current_slot (w_counter w) (u32 (len rsp));
      Some (log_send rsp c w)
  end.

(** ** Requests *)

Definition tolower (c : Z) : Z := if Z.leb 65 c && Z.leb c 90 then c + 32 else c.

(** [strncasecmp(s, pre, strlen(pre)) == 0], for a [pre] in lower case. *)
Definition starts_with (pre s : bytes) : bool := bool_decide (tolower <$> take (length pre) s = pre).

(** Models [ProcessRequest] (src/mysql_proxy_server.cpp:860-860). *)
Definition is_read (sql : bytes) : bool :=
  starts_with (txt "select") sql || starts_with (txt "show") sql || starts_with (txt "desc") sql.

(** Models [GetReqHashKey] (src/mysql_proxy_server.cpp:833-839). *)
Definition GetReqHashKey (cfg : CONFIG) (reqstr : bytes) : bytes :=
  if Z.ltb (len reqstr) (iShmMaxKeyLen cfg - 32) then reqstr
  else take (Z.to_nat (iShmMaxKeyLen cfg - 32)) reqstr.

(** [err>=ER_ERROR_FIRST && err<=ER_ERROR_LAST] *)
Definition server_error (err : Z) : bool := Z.leb ER_ERROR_FIRST err && Z.leb err ER_ERROR_LAST.

(** The connection was lost. *)
(** Models [ProcessRequest] (src/mysql_proxy_server.cpp:923-925). *)
Definition connection_lost (err : Z) : bool :=
  Z.eqb err CR_SERVER_GONE_ERROR || Z.eqb err CR_SERVER_LOST || Z.eqb err CR_CONNECTION_ERROR ||
  Z.eqb err CR_CONN_HOST_ERROR || Z.eqb err CR_LOCALHOST_CONNECTION || Z.eqb err CR_TCP_CONNECTION.

(** What follows a failed call: the connection goes back to the pool or is closed; the error number
    is kept. *)
(** Models [ProcessRequest] (src/mysql_proxy_server.cpp:909-921). *)
Definition drop_failed (what : bytes) (c : Z) (w : world) : Z * world :=
  let err := mysql_errno c (w_db w) in
  let w1 := set_error (what ++ mysql_error c (w_db w)) w in
  (err, if server_error err then FreeMySQL c w1 else RealFreeMySQL c w1).

(** Writing the tree to the cache, if the lock is free. *)
(** Models [ProcessRequest] (src/mysql_proxy_server.cpp:975-991). *)
Definition write_cache (key : bytes) (t : knv) (w : world) : world :=
  let '(r, ca) := TryLockShm (w_cache w) in
  if Z.eqb r 0 then set_cache (UnlockShm (st_Write key t ca).2) w else set_cache ca w.

(** [while(tree==NULL)]: the tree, or the error number and text to answer with.  A call is tried again
    at most [max_try_num] times. *)
(** Models [ProcessRequest] (src/mysql_proxy_server.cpp:892-992). *)
Fixpoint query_loop (cfg : CONFIG) (fuel : nat) (try_num : Z) (sql key : bytes) (w : world) : option ((Z * bytes + knv) * world) :=
  match fuel with
  | O => None
  | S fuel' =>
      match AllocMySQL cfg w with
      | (None, w1) => Some (inl (1, sMySQLError w1), w1)
      | (Some c, w1) =>
          let '(iRet, d) := mysql_query c (c_str sql) (w_db w1) in
          let w2 := log_query (c_str sql) (set_db d w1) in
          if Z.ltb iRet 0 then
            let '(err, w3) := drop_failed (txt "mysql_query failed: ") c w2 in
            if connection_lost err && Z.ltb try_num 10 then query_loop cfg fuel' (try_num + 1) sql key w3
            else Some (inl (err, sMySQLError w3), w3)
          else
            let '(res, d2) := mysql_store_result c (w_db w2) in
            let w3 := set_db d2 w2 in
            match res with
            | None =>
                let '(err, w4) := drop_failed (txt "mysql_store_result failed: ") c w3 in
                if connection_lost err && Z.ltb try_num 10 then query_loop cfg fuel' (try_num + 1) sql key w4
                else Some (inl (err, sMySQLError w4), w4)
            | Some r =>
                let w4 := FreeMySQL c w3 in
                match PackResult r key (time (w_db w4)) with
                | inr e => Some (inl (CR_OUT_OF_MEMORY, e), set_error e w4)
                | inl t => Some (inr t, write_cache key t w4)
                end
            end
      end
  end.

(** The tree of the cache, unless it is too old. *)
(** Models [ProcessRequest] (src/mysql_proxy_server.cpp:873-890). *)
Definition read_cache (cfg : CONFIG) (key : bytes) (w : world) : option knv * world :=
  let '(r, tree, ca) := st_Read key (w_cache w) in
  let w1 := set_cache ca w in
  if Z.leb 0 r then
    let t := match tree with Some t => GetFieldInt t 2 | None => 0 end in
    (if Z.eqb t 0 || Z.ltb (t + iCacheValidSeconds cfg) (time (w_db w1)) then None else tree, w1)
  else (None, w1).

Definition unauthorized : bytes := txt "Unauthorized request".
Definition not_supported : bytes := txt "statement not starting with SELECT/SHOW/DESC is not supperted.".

(** Eleven turns are enough: [try_num] goes from 0 to 10. *)
(** Models [ProcessRequest] (src/mysql_proxy_server.cpp:841-1000). *)
Definition ProcessRequest (cfg : CONFIG) (stRequest : ProxyPacket) (w : world) : option world :=
  reqstr ← Decrypt (appkey stRequest) (content stRequest);
  if Z.eqb (len reqstr) 0 then SendResponse stRequest 1 unauthorized (set_error unauthorized w)
  else
    let sql := skip_spaces reqstr in
    if negb (is_read sql) then SendResponse stRequest 1 not_supported (set_error not_supported w)
    else
      let key := GetReqHashKey cfg sql in
      let '(tree, w1) := read_cache cfg key w in
      '(r, w2) ← match tree with
                 | Some t => Some (inr t, w1)
                 | None => query_loop cfg 11 0 sql key w1
                 end;
      match r with
      | inl (err, text) => SendResponse stRequest err text w2
      | inr t => SendResponse stRequest 0 (GetStrVal t) w2
      end.

Definition unregistered : bytes := txt "Unregistered appname ".

(** The body of one packet. *)
(** Models [ParsePacket] (src/mysql_proxy_server.cpp:1039-1068). *)
Definition handle_body (cfg : CONFIG) (body : bytes) (w : world) : option world :=
  match NewFromMessage body with
  | None => Some w
  | Some tree =>
      let app := GetFieldStr tree 1 in
      let p key := mk_packet app key (GetFieldInt tree 2) 0 (GetFieldStr tree 11) in
      match mapAppKeys cfg !! app with
      | None => SendResponse (p []) 1 (unregistered ++ app) (set_error (unregistered ++ app) w)
      | Some key => ProcessRequest cfg (p key) w
      end
  end.

(** A connection, from its first byte to its end. *)
(** Models [Worker] (src/mysql_proxy_server.cpp:1080-1098). *)
Definition serve (cfg : CONFIG) (chunks : list (Z * bytes)) (base : Z) (w : world) : option (world * option bytes) :=
  Worker (handle_body cfg) chunks base w.

End server.

(** ** Laws of the interfaces *)

(** The client library never returns [NULL] as a connection, its messages are short
    ([MYSQL_ERRMSG_SIZE]) and its error numbers are not 0. *)
Class MySQLLaws (Q : MySQL) : Prop := {
  init_nonnull : forall d c d', mysql_init d = (Some c, d') -> c <> 0;
  error_short : forall c d, len (mysql_error c d) <= 512;
  out_of_memory_nonzero : CR_OUT_OF_MEMORY <> 0
}.

(** The fields of a packet in a tree. *)
Definition packet_tree {K : Knv} (p : ProxyPacket) (t : knv) : knv :=
  SetFieldStr 11 (content p) (SetFieldInt 3 (errnum p) (SetFieldInt 2 (sequence p) (SetFieldStr 1 (appname p) t))).

(** A packet as the two programs make it: integers of the width of their fields, texts of less than
    512 MB. *)
Definition packet_ok (p : ProxyPacket) : Prop :=
  0 <= sequence p < 2 ^ 64 /\ 0 <= errnum p < 2 ^ 32 /\
  len (appname p) < 2 ^ 29 /\ len (content p) < 2 ^ 29.

(** Serializing always succeeds, what is serialized is read back, and the lengths fit in an [int]. *)
Class KnvLaws (K : Knv) : Prop := {
  knv_serializes : forall t, is_Some (Serialize t (EvaluateSize t));
  knv_packet : forall p t body, packet_ok p -> NewTree 1 = Some t ->
    Serialize (packet_tree p t) (EvaluateSize (packet_tree p t)) = Some body ->
    exists u, NewFromMessage body = Some u /\ GetFieldStr u 1 = appname p /\ GetFieldInt u 2 = sequence p /\
      GetFieldInt u 3 = errnum p /\ GetFieldStr u 11 = content p /\ 1 <= len body < 2 ^ 31;
  knv_long : forall p t body, NewTree 1 = Some t ->
    Serialize (packet_tree p t) (EvaluateSize (packet_tree p t)) = Some body ->
    len (appname p) <= len body /\ len (content p) <= len body;
  knv_small : forall t, len (GetStrVal t) < 2 ^ 31 - 16;
  knv_str_small : forall t k, len (GetFieldStr t k) < 2 ^ 31
}.

Section correctness.
Context `{D : Des} {K : Knv} {Q : MySQL} {C : Cache K Q}.
Context `{DL : !DesLaws D} `{KL : !KnvLaws K} `{QL : !MySQLLaws Q}.
Context (t0 : knv) (Ht0 : NewTree 1 = Some t0).

(** ** Connections *)

(** Every connection that was opened is in the pool or closed, once. *)
Definition conns_ok (w : world) : Prop := w_pool w ++ w_closed w ≡ₚ w_opened w /\ 0 ∉ w_opened w.

(** The same, with the connection [c] in use. *)
Definition holding (c : Z) (w : world) : Prop := c :: w_pool w ++ w_closed w ≡ₚ w_opened w /\ 0 ∉ w_opened w.

Definition counter_ok (c : atomic_counter_t) : Prop := is_Some (dwCounter c !! Z.to_nat (cIdx c)).

(** Nothing was sent and no statement was run. *)
Definition quiet (w w' : world) : Prop :=
  w_sent w' = w_sent w /\ w_counter w' = w_counter w /\ w_queries w' = w_queries w.

Lemma quiet_trans w1 w2 w3 : quiet w1 w2 -> quiet w2 w3 -> quiet w1 w3.
Proof. intros (? & ? & ?) (? & ? & ?). unfold quiet. split_and!; congruence. Qed.

Lemma InitMySQL_spec cfg w r w' :
  conns_ok w -> InitMySQL cfg w = (r, w') ->
  quiet w w' /\ match r with None => conns_ok w' | Some c => holding c w' end.
Proof.
  intros [Hp H0] Hi. unfold InitMySQL in Hi. destruct (mysql_init (w_db w)) as [[c|] d] eqn:E; [|by simplify_eq].
  pose proof (init_nonnull _ _ _ E) as Hc.
  destruct (mysql_real_connect c d) as [[] d2]; simplify_eq; (split; [done|]); split; cbn.
  - by constructor.
  - intros Hin. apply elem_of_cons in Hin as [?|?]; done.
  - rewrite <- Permutation_middle. by constructor.
  - intros Hin. apply elem_of_cons in Hin as [?|?]; done.
Qed.

Lemma AllocMySQL_spec cfg w r w' :
  conns_ok w -> AllocMySQL cfg w = (r, w') ->
  quiet w w' /\ match r with None => conns_ok w' | Some c => holding c w' end.
Proof.
  intros Hw Ha. unfold AllocMySQL, Get in Ha. destruct (w_pool w) as [|c l] eqn:E; [by eapply InitMySQL_spec|].
  destruct Hw as [Hp H0]. rewrite E in Hp. destruct (Z.eqb_spec c 0) as [->|Hc].
  { destruct H0. rewrite <- Hp. cbn. by left. }
  simplify_eq. split; [done|]. by split.
Qed.

Lemma FreeMySQL_spec c w : holding c w -> conns_ok (FreeMySQL c w) /\ quiet w (FreeMySQL c w).
Proof.
  intros [Hp H0]. unfold FreeMySQL. destruct (Z.eqb_spec c 0) as [->|Hc].
  { destruct H0. rewrite <- Hp. by left. }
  split; [|done]. split; [|done]. cbn. rewrite <- app_assoc. cbn. by rewrite <- Permutation_middle.
Qed.

Lemma RealFreeMySQL_spec c w : holding c w -> conns_ok (RealFreeMySQL c w) /\ quiet w (RealFreeMySQL c w).
Proof. intros [Hp H0]. split; [|done]. split; [|done]. cbn. by rewrite <- Permutation_middle. Qed.

Lemma drop_failed_spec what c w : holding c w -> conns_ok (drop_failed what c w).2 /\ quiet w (drop_failed what c w).2.
Proof.
  intros Hh. unfold drop_failed. cbn [snd]. assert (holding c (set_error (what ++ mysql_error c (w_db w)) w)) as Hh' by done.
  destruct (server_error _); [destruct (FreeMySQL_spec _ _ Hh')|destruct (RealFreeMySQL_spec _ _ Hh')]; done.
Qed.

Lemma drop_failed_text what c w : len (sMySQLError (drop_failed what c w).2) <= len what + 512.
Proof.
  unfold drop_failed. cbn [snd]. pose proof (error_short c (w_db w)).
  destruct (server_error _); [unfold FreeMySQL; destruct (Z.eqb c 0)|]; cbn; rewrite len_app; lia.
Qed.

Lemma write_cache_spec key t w : conns_ok w -> conns_ok (write_cache key t w) /\ quiet w (write_cache key t w).
Proof. intros Hw. unfold write_cache. destruct (TryLockShm _) as [r ca]. by destruct (Z.eqb r 0). Qed.

(** ** Queries *)

(** [n] runs of one statement, nothing sent. *)
Definition ran (n : nat) (q : bytes) (w w' : world) : Prop :=
  w_sent w' = w_sent w /\ w_counter w' = w_counter w /\ w_queries w' = w_queries w ++ replicate n q.

Lemma ran_S n q w w1 w' : w_sent w1 = w_sent w -> w_counter w1 = w_counter w -> w_queries w1 = w_queries w ++ [q] ->
  ran n q w1 w' -> ran (S n) q w w'.
Proof.
  intros H1 H2 H3 (E1 & E2 & E3). split_and!; [congruence..|]. rewrite E3, H3, <- app_assoc. done.
Qed.

(** A text that goes out as a result can be encrypted. *)
Definition reply_ok (r : Z * bytes + knv) : Prop :=
  match r with
  | inl (err, text) => err = 0 -> len text < 2 ^ 31 - 16
  | inr _ => True
  end.

Lemma query_loop_spec cfg sql key : forall fuel try_num w,
  conns_ok w -> 0 <= try_num -> 11 <= Z.of_nat fuel + try_num -> try_num <= 10 ->
  exists r w' n, query_loop cfg fuel try_num sql key w = Some (r, w') /\ conns_ok w' /\
    (n <= fuel)%nat /\ ran n (c_str sql) w w' /\ reply_ok r.
Proof.
  induction fuel as [|fuel IH]; intros try_num w Hw H0 Hf Ht; [lia|]. cbn [query_loop].
  destruct (AllocMySQL cfg w) as [[c|] w1] eqn:Ea; destruct (AllocMySQL_spec _ _ _ _ Hw Ea) as [(Q1 & Q2 & Q3) Hh].
  2: { exists (inl (1, sMySQLError w1)), w1, 0%nat. split; [done|]. split; [done|]. split; [lia|]. split; [|done].
       split_and!; [done..|]. by rewrite app_nil_r. }
  destruct (mysql_query c (c_str sql) (w_db w1)) as [iRet d].
  set (w2 := log_query (c_str sql) (set_db d w1)). assert (holding c w2) as Hh2 by done.
  (* A turn that ends in [w3] answers, or goes round again. *)
  assert (forall w3 P, conns_ok w3 -> quiet w2 w3 ->
    (exists r, P = Some (r, w3) /\ reply_ok r) \/ (try_num < 10 /\ P = query_loop cfg fuel (try_num + 1) sql key w3) ->
    exists r w' n, P = Some (r, w') /\ conns_ok w' /\ (n <= S fuel)%nat /\ ran n (c_str sql) w w' /\ reply_ok r) as Hfin.
  { intros w3 P Hc3 (E1 & E2 & E3) [(r & -> & Hr)|[Hlt ->]].
    - exists r, w3, 1%nat. split; [done|]. split; [done|]. split; [lia|]. split; [|done]. split_and!; cbn in *; congruence.
    - destruct (IH (try_num + 1) w3 Hc3) as (r' & w4 & m & -> & Hc4 & Hm & Hran & Hr); [lia..|].
      exists r', w4, (S m). split; [done|]. split; [done|]. split; [lia|]. split; [|done].
      apply (ran_S m _ w w3); [cbn in *; congruence..|done]. }
  assert (forall what w3, len what <= 100 -> holding c w3 -> quiet w2 w3 ->
    exists r w' n, (let '(err, w4) := drop_failed what c w3 in
      if connection_lost err && Z.ltb try_num 10 then query_loop cfg fuel (try_num + 1) sql key w4
      else Some (inl (err, sMySQLError w4), w4)) = Some (r, w') /\ conns_ok w' /\ (n <= S fuel)%nat /\
      ran n (c_str sql) w w' /\ reply_ok r) as Hdrop.
  { intros what w3 Hwl Hh3 Hq3. pose proof (drop_failed_text what c w3) as Htx. destruct (drop_failed_spec what c w3 Hh3) as [Hc4 Hq4].
    destruct (drop_failed what c w3) as [err w4]. cbn [snd] in *. apply (Hfin w4 _ Hc4 (quiet_trans _ _ _ Hq3 Hq4)).
    assert (reply_ok (inl (err, sMySQLError w4))) as Hr4 by (cbn [reply_ok]; lia).
    destruct (connection_lost err), (Z.ltb_spec try_num 10); cbn [andb]; eauto. }
  destruct (Z.ltb iRet 0); [apply (Hdrop _ w2); [by vm_compute|done|done]|].
  destruct (mysql_store_result c (w_db w2)) as [[res|] d2]; [|apply (Hdrop _ (set_db d2 w2)); [by vm_compute|done|done]].
  assert (holding c (set_db d2 w2)) as Hh3 by done. destruct (FreeMySQL_spec _ _ Hh3) as [Hc4 Hq4].
  destruct (PackResult _ _ _) as [t|e].
  - destruct (write_cache_spec key t _ Hc4) as [Hc5 Hq5]. apply (Hfin _ _ Hc5 (quiet_trans _ _ _ Hq4 Hq5)). left. by eexists.
  - apply (Hfin (set_error e (FreeMySQL c (set_db d2 w2))) _); [done|done|]. left. eexists. split; [done|].
    intros E. by destruct out_of_memory_nonzero.
Qed.

(** ** Responses *)

(** [rsp] is the packet of an error number and a text that answers the request [p]. *)
Definition is_reply (p : ProxyPacket) (err : Z) (text rsp : bytes) : Prop :=
  exists q, response_packet p err text = Some q /\ pack_packet q = Some rsp.

Lemma response_packet_total p err text :
  len text < 2 ^ 31 - 16 -> exists q, response_packet p err text = Some q.
Proof.
  intros Hl. unfold response_packet. destruct (Z.eqb err 0); [|eauto].
  destruct (Encrypt_Decrypt (appkey p) text Hl) as (c & -> & _). msimp. zif; eauto.
Qed.

Lemma SendResponse_spec p err text w :
  (err = 0 -> len text < 2 ^ 31 - 16) -> counter_ok (w_counter w) ->
  exists w' rsp, SendResponse p err text w = Some w' /\ w_sent w' = w_sent w ++ [rsp] /\
    counter_ok (w_counter w') /\ w_queries w' = w_queries w /\ (conns_ok w -> conns_ok w') /\ is_reply p err text rsp.
Proof.
  intros Hl [v Hv]. unfold SendResponse.
  assert (exists q, response_packet p err text = Some q) as [q Hq].
  { destruct (decide (err = 0)) as [E|E]; [by apply response_packet_total; auto|].
    unfold response_packet. rewrite (proj2 (Z.eqb_neq err 0) E). eauto. }
  rewrite Hq. msimp.
  assert (exists rsp, pack_packet q = Some rsp) as [rsp Hrsp].
  { unfold pack_packet. rewrite Ht0. msimp. destruct (knv_serializes (packet_tree q t0)) as [body Hb].
    change (Serialize _ _) with (Serialize (packet_tree q t0) (EvaluateSize (packet_tree q t0))). rewrite Hb. msimp. eauto. }
  rewrite Hrsp. unfold atomic_counter_array_add_current_slot, upd_current. rewrite Hv. msimp.
  do 2 eexists. split; [reflexivity|]. split; [reflexivity|]. split; [|split; [done|split; [done|by exists q]]].
  unfold counter_ok. cbn [w_counter log_send dwCounter cIdx]. apply lookup_lt_Some in Hv.
  apply lookup_lt_is_Some. by rewrite length_insert.
Qed.

Lemma starts_with_c_str pre s : Forall (fun c => c <> 0) pre -> starts_with pre s = true -> starts_with pre (c_str s) = true.
Proof.
  unfold starts_with. intros Hp H. apply bool_decide_eq_true in H. apply bool_decide_eq_true. 
  transitivity (tolower <$> take (length pre) s); [|done]. rewrite <- H in Hp. f_equal. clear H. revert s Hp. induction (length pre) as [|n IH]; intros s Hp; [done|].
  destruct s as [|c s]; [done|]. cbn [take fmap list_fmap] in Hp. apply Forall_cons in Hp as [Hc Hp].
  assert (c <> 0) as Hc0 by (intros ->; done). cbn [c_str]. rewrite (proj2 (Z.eqb_neq c 0) Hc0). cbn [take]. f_equal. by apply IH.
Qed.

Lemma is_read_c_str s : is_read s = true -> is_read (c_str s) = true.
Proof.
  unfold is_read. intros H. apply orb_true_iff in H as [H|H]; [apply orb_true_iff in H as [H|H]|];
    apply starts_with_c_str in H; try (repeat constructor; done); rewrite H, ?orb_true_r; done.
Qed.

(** ** What the server answers *)

(** The error number and the text of the answer to a request, and the state in which it is sent. *)
Definition answer (cfg : CONFIG) (p : ProxyPacket) (w : world) : option (Z * bytes * world) :=
  reqstr ← Decrypt (appkey p) (content p);
  if Z.eqb (len reqstr) 0 then Some (1, unauthorized, set_error unauthorized w)
  else
    let sql := skip_spaces reqstr in
    if negb (is_read sql) then Some (1, not_supported, set_error not_supported w)
    else
      let '(t, w1) := read_cache cfg (GetReqHashKey cfg sql) w in
      '(r, w2) ← match t with Some t => Some (inr t, w1) | None => query_loop cfg 11 0 sql (GetReqHashKey cfg sql) w1 end;
      match r with
      | inl (err, text) => Some (err, text, w2)
      | inr t => Some (0, GetStrVal t, w2)
      end.

Lemma ProcessRequest_answer cfg p w :
  ProcessRequest cfg p w = '(err, text, w1) ← answer cfg p w; SendResponse p err text w1.
Proof.
  unfold ProcessRequest, answer. destruct (Decrypt _ _) as [s|]; [|done]. msimp.
  destruct (Z.eqb (len s) 0); [done|]. destruct (negb _); [done|].
  destruct (read_cache _ _ _) as [[t|] w1]; [done|]. msimp.
  destruct (query_loop _ _ _ _ _ _) as [[[[e x]|t] w2]|]; done.
Qed.

Lemma answer_spec cfg p w :
  len (content p) < 2 ^ 31 -> conns_ok w ->
  exists err text w1 n q, answer cfg p w = Some (err, text, w1) /\ (err = 0 -> len text < 2 ^ 31 - 16) /\ conns_ok w1 /\
    ran n q w w1 /\ (n <= 11)%nat /\ (is_read q = true \/ n = 0%nat).
Proof.
  intros Hl Hw. unfold answer. pose proof (len_nonneg (content p)).
  destruct (Decrypt_total (appkey p) (content p) Hl) as (reqstr & -> & Hr). msimp.
  assert (forall w1, quiet w w1 -> ran 0 [] w w1) as Hran0.
  { intros w1 (? & ? & ?). split_and!; [done..|]. by rewrite app_nil_r. }
  destruct (Z.eqb_spec (len reqstr) 0) as [_|_];
    [eexists _, _, _, 0%nat, []; split; [done|]; split_and!; [lia|done|by apply Hran0|lia|by right]|].
  destruct (is_read (skip_spaces reqstr)) eqn:Eread; cbn [negb];
    [|eexists _, _, _, 0%nat, []; split; [done|]; split_and!; [lia|done|by apply Hran0|lia|by right]].
  unfold read_cache. destruct (st_Read _ _) as [[rd tree] ca]. set (w1 := set_cache ca w).
  destruct (if Z.leb 0 rd then _ else _) as [tr w1'] eqn:Erc.
  assert (w1' = w1) as -> by (destruct (Z.leb 0 rd); by simplify_eq). destruct tr as [t|]; msimp.
  { eexists _, _, _, 0%nat, []. split; [done|]. split_and!; [intros _; apply knv_small|done|by apply Hran0|lia|by right]. }
  destruct (query_loop_spec cfg (skip_spaces reqstr) (GetReqHashKey cfg (skip_spaces reqstr)) 11 0 w1)
    as (r & w' & n & -> & Hw' & Hn & Hran & Hrep); [done|lia..|]. msimp.
  assert (is_read (c_str (skip_spaces reqstr)) = true) by (by apply is_read_c_str).
  destruct r as [[err text]|t];
    (eexists _, _, _, n, (c_str (skip_spaces reqstr)); split; [done|]; split_and!;
     [first [exact Hrep|intros _; apply knv_small]|done|done|lia|by left]).
Qed.

Lemma ProcessRequest_spec cfg p w :
  len (content p) < 2 ^ 31 -> counter_ok (w_counter w) -> conns_ok w ->
  exists err text w1 w' rsp n q, answer cfg p w = Some (err, text, w1) /\ (err = 0 -> len text < 2 ^ 31 - 16) /\
    ProcessRequest cfg p w = Some w' /\ w_sent w' = w_sent w ++ [rsp] /\ conns_ok w' /\
    counter_ok (w_counter w') /\ w_queries w' = w_queries w ++ replicate n q /\ (n <= 11)%nat /\
    (is_read q = true \/ n = 0%nat) /\ is_reply p err text rsp.
Proof.
  intros Hl Hc Hw. destruct (answer_spec cfg p w Hl Hw) as (err & text & w1 & n & q & E & Ht & Hw1 & (E1 & E2 & E3) & Hn & Hq).
  destruct (SendResponse_spec p err text w1 Ht) as (w' & rsp & Es & S1 & S2 & S3 & S4 & S5); [by rewrite E2|].
  exists err, text, w1, w', rsp, n, q. rewrite ProcessRequest_answer, E. split_and!; try done; [congruence|by apply S4..|congruence].
Qed.

(** ** A whole connection *)

(** What holds between two packets, whoever sends them. *)
Record server_ok (w : world) : Prop := {
  so_conns : conns_ok w;
  so_counter : counter_ok (w_counter w);
  so_reads : Forall (fun q => is_read q = true) (w_queries w)
}.

Lemma handle_body_spec cfg body w :
  server_ok w -> exists w', handle_body cfg body w = Some w' /\ server_ok w' /\
    exists l, w_sent w' = w_sent w ++ l /\ (length l <= 1)%nat.
Proof.
  intros [Hw Hc Hq]. unfold handle_body. destruct (NewFromMessage body) as [tree|]; 
    [|exists w; split_and!; [done|done|]; exists []; rewrite app_nil_r; split; [done|cbn; lia]].
  destruct (mapAppKeys cfg !! GetFieldStr tree 1) as [key|].
  - destruct (ProcessRequest_spec cfg (mk_packet (GetFieldStr tree 1) key (GetFieldInt tree 2) 0 (GetFieldStr tree 11)) w)
      as (_ & _ & _ & w' & rsp & n & q & _ & _ & -> & Hs & Hw' & Hc' & Hqs & _ & Hr & _); [apply knv_str_small|done|done|].
    exists w'. split_and!; [done| |by exists [rsp]]. split; [done|done|]. rewrite Hqs. apply Forall_app. split; [done|].
    destruct Hr as [Hr| ->]; [by apply Forall_replicate|constructor].
  - destruct (SendResponse_spec (mk_packet (GetFieldStr tree 1) [] (GetFieldInt tree 2) 0 (GetFieldStr tree 11)) 1
      (unregistered ++ GetFieldStr tree 1) (set_error (unregistered ++ GetFieldStr tree 1) w))
      as (w' & rsp & -> & Hs & Hc' & Hqs & Hw' & _); [done|done|].
    exists w'. split_and!; [done| |by exists [rsp]]. split; [by apply Hw'|done|]. by rewrite Hqs.
Qed.

Lemma serve_spec cfg chunks base n w :
  server_ok w -> Forall (fun c => is_bytes c.2 /\ 0 <= c.1 /\ c.1 + n < 2 ^ 62) ((base, []) :: chunks) ->
  len (concat (snd <$> chunks)) < n ->
  exists w' r, serve cfg chunks base w = Some (w', r) /\ server_ok w'.
Proof.
  intros Hw Hc Hn. unfold serve. eapply Worker_inv; [|done|done|done]. intros p s Hs _.
  destruct (handle_body_spec cfg p s Hs) as (w' & E & Hw' & _). eauto.
Qed.

(** One packet, in any pieces. *)
Lemma serve_frame cfg chunks base body w :
  good MAX_REQUEST_PACKET_LENGTH body -> concat (snd <$> chunks) = frame body ->
  bases_ok (len (frame body)) ((base, []) :: chunks) ->
  serve cfg chunks base w = w' ← handle_body cfg body w; Some (w', Some []).
Proof.
  intros Hg Hcat Hb. unfold serve.
  assert (concat (frame <$> [body]) ++ [] = frame body) as Hf by (cbn [fmap list_fmap concat]; by rewrite !app_nil_r).
  rewrite (Worker_spec (handle_body cfg) chunks base [body] []).
  - cbn [handle_all]. by destruct (handle_body _ _ _).
  - by apply Forall_singleton.
  - by left.
  - by rewrite Hf, Hcat.
  - by rewrite Hf.
Qed.

(** The client's packet, as the server sees it. *)
Lemma SendRequest_spec app key seq sql :
  len app < 2 ^ 29 -> 0 <= seq < 2 ^ 64 -> len sql < 2 ^ 28 ->
  exists body c, SendRequest app key seq sql = Some (Some (frame body)) /\ 1 <= len body < 2 ^ 31 /\
    Decrypt key c = Some sql /\ len c < 2 ^ 31 /\
    (forall cfg w, mapAppKeys cfg !! app = Some key ->
       handle_body cfg body w = ProcessRequest cfg (mk_packet app key seq 0 c) w).
Proof.
  intros Ha Hseq Hsql. destruct (Encrypt_Decrypt key sql) as (c & He & _ & Hc & Hd & _); [lia|].
  unfold SendRequest. change (api_Encrypt key sql) with (Encrypt key sql). rewrite He. msimp.
  set (p := mk_packet app key seq 0 c). unfold pack_packet. rewrite Ht0. msimp.
  destruct (knv_serializes (packet_tree p t0)) as [body Hb].
  change (Serialize _ _) with (Serialize (packet_tree p t0) (EvaluateSize (packet_tree p t0))). rewrite Hb. msimp.
  destruct (knv_packet p t0 body) as (u & Hu & U1 & U2 & U3 & U11 & Hlen); [|done|done|].
  { unfold packet_ok. cbn. lia. }
  exists body, c. split_and!; [|lia|lia|done|lia|].
  - unfold frame. rewrite u64_small; [done|]. unfold PACKET_HEADER_LENGTH. lia.
  - intros cfg w Hk. unfold handle_body. rewrite Hu, U1. cbn [appname p]. rewrite Hk, U2, U11. done.
Qed.

End correctness.

(** ** Instances

    A tree library without nesting, on the wire codec: the fields of one message. *)

Definition set_field (k : Z) (v : pb_value) (t : list pb_pair) : list pb_pair :=
  filter (fun p => p.1 <> k) t ++ [(k, v)].
Definition get_field (k : Z) (t : list pb_pair) : option pb_value :=
  snd <$> list_find (fun p => p.1 = k) t ≫= fun r => Some r.2.

#[export] Instance flat_knv : Knv := {
  knv := list pb_pair;
  NewTree _ := Some [];
  SetFieldStr k s t := set_field k (VStr s) t;
  SetFieldInt k z t := set_field k (VInt z) t;
  EvaluateSize t := len (enc_fields t);
  Serialize t n := if Z.leb (len (enc_fields t)) n then Some (enc_fields t) else None;
  NewFromMessage body :=
    '(l, f) ← pb_fields body (len body);
    if Z.eqb (f_eom f) 1 then mapM (fun p => v ← p.2; Some (p.1, v)) l else None;
  GetFieldStr t k :=
    match get_field k t with Some (VStr s) => if Z.ltb (len s) (2 ^ 31) then s else [] | _ => [] end;
  GetFieldInt t k := match get_field k t with Some (VInt z) => z | _ => 0 end;
  GetStrVal t := if Z.ltb (len (enc_fields t)) (2 ^ 31 - 16) then enc_fields t else []
}.

Lemma mapM_some (l : list pb_pair) :
  mapM (fun p : Z * option pb_value => v ← p.2; Some (p.1, v)) (prod_map id Some <$> l) = Some l.
Proof. induction l as [|[k v] l IH]; [done|]. cbn. cbn in IH. by rewrite IH. Qed.

(** The message of a packet. *)
Definition packet_fields (p : ProxyPacket) : list pb_pair :=
  [(1, VStr (appname p)); (2, VInt (sequence p)); (3, VInt (errnum p)); (11, VStr (content p))].

Lemma packet_fields_len p : packet_ok p -> 1 <= len (enc_fields (packet_fields p)) < 2 ^ 31.
Proof.
  intros (Hs & He & Ha & Hc). unfold packet_fields. cbn [enc_fields mbind list_bind]. rewrite !len_app, (@len_nil Z).
  pose proof (len_enc_field (1, VStr (appname p))). pose proof (len_enc_field (2, VInt (sequence p))).
  pose proof (len_enc_field (3, VInt (errnum p))). pose proof (len_enc_field (11, VStr (content p))). cbn [snd] in *.
  assert (1 <= len (enc_field (2, VInt (sequence p)))).
  { unfold enc_field. rewrite len_app. change (enc_vint (tag_word _ _)) with [16]. rewrite len_cons. len_pos. lia. }
  len_pos. lia.
Qed.

Lemma packet_fields_read p : packet_ok p ->
  NewFromMessage (Knv := flat_knv) (enc_fields (packet_fields p)) = Some (packet_fields p).
Proof.
  intros Hp. pose proof (packet_fields_len p Hp) as Hl. destruct Hp as (Hs & He & Ha & Hc).
  destruct (pb_fields_enc (packet_fields p)) as (f & Hf & Hm); [|lia|].
  { repeat constructor; cbn; lia. }
  cbn [NewFromMessage flat_knv]. rewrite Hf. msimp. rewrite Hm. apply mapM_some.
Qed.

#[export] Instance flat_knv_laws : KnvLaws flat_knv.
Proof.
  split.
  - intros t. cbn. rewrite Z.leb_refl. eauto.
  - intros p t body Hp [= <-]. change (packet_tree p _) with (packet_fields p). cbn [Serialize EvaluateSize flat_knv].
    rewrite Z.leb_refl. intros [= <-]. exists (packet_fields p).
    pose proof (packet_fields_len p Hp) as Hl. split; [by apply packet_fields_read|]. destruct Hp as (Hs & He & Ha & Hc).
    cbn [GetFieldStr GetFieldInt flat_knv].
    change (get_field 1 (packet_fields p)) with (Some (VStr (appname p))).
    change (get_field 11 (packet_fields p)) with (Some (VStr (content p))). cbn [get_field].
    rewrite (proj2 (Z.ltb_lt (len (appname p)) (2 ^ 31))), (proj2 (Z.ltb_lt (len (content p)) (2 ^ 31))) by lia. done.
  - intros p t body [= <-]. change (packet_tree p _) with (packet_fields p). cbn [Serialize EvaluateSize flat_knv].
    rewrite Z.leb_refl. intros [= <-].
    change (len (appname p) <= len (enc_fields (packet_fields p)) /\ len (content p) <= len (enc_fields (packet_fields p))).
    unfold packet_fields, enc_fields. cbn [mbind list_bind]. rewrite !len_app.
    assert (forall t s, len s <= len (enc_field (t, VStr s))) as Hstr.
    { intros t s. unfold enc_field. cbn [snd enc_value]. rewrite !len_app. len_pos. lia. }
    pose proof (Hstr 1 (appname p)). pose proof (Hstr 11 (content p)). len_pos. lia.
  - intros t. cbn. zif; [done|]. vm_compute. done.
  - intros t k. cbn. destruct (get_field k t) as [[]|]; try done. zif; [done|]. vm_compute. done.
Qed.

(** A database that answers every statement with its text, and a cache that is a map. *)
#[export] Instance echo_mysql : MySQL := {
  db := Z * bytes;
  result := bytes;
  mysql_init d := (Some (Z.abs d.1 + 1), (Z.abs d.1 + 1, d.2));
  mysql_real_connect _ d := (true, d);
  mysql_close _ d := d;
  mysql_set_character_set _ _ d := d;
  mysql_query _ q d := (0, (d.1, q));
  mysql_store_result _ d := (Some d.2, d);
  mysql_errno _ _ := 0;
  mysql_error _ _ := [];
  time _ := 1000;
  ER_ERROR_FIRST := 1000; ER_ERROR_LAST := 1999;
  CR_SERVER_GONE_ERROR := 2006; CR_SERVER_LOST := 2013; CR_CONNECTION_ERROR := 2002; CR_CONN_HOST_ERROR := 2003;
  CR_LOCALHOST_CONNECTION := 2010; CR_TCP_CONNECTION := 2011; CR_OUT_OF_MEMORY := 2008
}.

#[export] Instance echo_mysql_laws : MySQLLaws echo_mysql.
Proof. split; [|by vm_compute|done]. intros d c d' [= <- _]. lia. Qed.

#[export] Instance map_cache : Cache flat_knv echo_mysql := {
  cache := gmap bytes (list pb_pair);
  st_Read k c := match c !! k with Some t => (0, Some t, c) | None => (-1, None, c) end;
  TryLockShm c := (0, c);
  UnlockShm c := c;
  st_Write k t c := (0, <[k := t]> c);
  PackResult r k now := inl [(1, VStr k); (2, VInt now); (3, VStr r)]
}.

Definition start_world : @world flat_knv echo_mysql map_cache :=
  mk_world [] zero_counter [] (0, []) ∅ [] [] [] [].

Lemma start_world_ok : server_ok start_world.
Proof. split; [split; [done|set_solver]|vm_compute; eauto|constructor]. Qed.

Definition cfg0 : CONFIG := mk_config [] 128 60 {[ txt "app" := txt "KEY" ]}.

(** ** Properties *)

(** C3: whatever a registered application sends, its request is answered exactly once: the handler
    returns, one packet more has been sent, at most eleven statements were run, all of them the same
    and beginning with SELECT, SHOW or DESC, and every database connection is back in the pool or
    closed. *)
Theorem process_request_answers `{D : Des} {K : Knv} {Q : MySQL} {C : Cache K Q}
    `{!DesLaws D} `{!KnvLaws K} `{!MySQLLaws Q} (t0 : knv) (cfg : CONFIG) (p : ProxyPacket) (w : world) :
  NewTree 1 = Some t0 -> len (content p) < 2 ^ 31 -> counter_ok (w_counter w) -> conns_ok w ->
  exists w' rsp n q, ProcessRequest cfg p w = Some w' /\ w_sent w' = w_sent w ++ [rsp] /\ conns_ok w' /\
    counter_ok (w_counter w') /\ w_queries w' = w_queries w ++ replicate n q /\ (n <= 11)%nat /\
    (is_read q = true \/ n = 0%nat).
Proof.
  intros Ht Hl Hc Hw. destruct (ProcessRequest_spec t0 Ht cfg p w Hl Hc Hw) as (err & text & w1 & w' & rsp & n & q & ?).
  exists w', rsp, n, q. tauto.
Qed.

(** C2: whatever bytes a peer sends, in whatever pieces, serving its connection ends without an access
    outside the buffer; afterwards every statement that was ever run begins with SELECT, SHOW or DESC
    and no database connection has been lost. *)
Theorem serve_safe `{D : Des} {K : Knv} {Q : MySQL} {C : Cache K Q}
    `{!DesLaws D} `{!KnvLaws K} `{!MySQLLaws Q} (t0 : knv) (cfg : CONFIG) (chunks : list (Z * bytes)) (base n : Z) (w : world) :
  NewTree 1 = Some t0 -> server_ok w ->
  Forall (fun c => is_bytes c.2 /\ 0 <= c.1 /\ c.1 + n < 2 ^ 62) ((base, []) :: chunks) ->
  len (concat (snd <$> chunks)) < n ->
  exists w' r, serve cfg chunks base w = Some (w', r) /\ server_ok w'.
Proof. intros Ht. by eapply serve_spec. Qed.

(** A statement the client sends reaches the server's request handler unchanged: however the
    network cuts the client's packet, the server decrypts the same text, under the name, the key and
    the sequence number the client used. *)
Theorem request_end_to_end `{D : Des} {K : Knv} {Q : MySQL} {C : Cache K Q}
    `{!DesLaws D} `{!KnvLaws K} (t0 : knv) (cfg : CONFIG) (app key sql pkt : bytes) (seq base : Z)
    (chunks : list (Z * bytes)) (w : world) :
  NewTree 1 = Some t0 -> len app < 2 ^ 29 -> 0 <= seq < 2 ^ 64 -> len sql < 2 ^ 28 ->
  mapAppKeys cfg !! app = Some key ->
  SendRequest app key seq sql = Some (Some pkt) -> len pkt <= MAX_REQUEST_PACKET_LENGTH ->
  concat (snd <$> chunks) = pkt -> bases_ok (len pkt) ((base, []) :: chunks) ->
  exists c, Decrypt key c = Some sql /\
    serve cfg chunks base w = w' ← ProcessRequest cfg (mk_packet app key seq 0 c) w; Some (w', Some []).
Proof.
  intros Ht Ha Hs Hq Hk Hsend Hlen Hcat Hb.
  destruct (SendRequest_spec t0 Ht app key seq sql Ha Hs Hq) as (body & c & E & Hbl & Hd & _ & Hh). rewrite E in Hsend. injection Hsend as <-.
  exists c. split; [done|]. rewrite (serve_frame cfg chunks base body); [|split; [lia|by rewrite <- len_frame]|done|done].
  by rewrite (Hh cfg w Hk).
Qed.

(** A request for a statement, as the handler gets it. *)
Definition request (seq : Z) (sql : bytes) : option ProxyPacket :=
  c ← Encrypt (txt "KEY") sql; Some (mk_packet (txt "app") (txt "KEY") seq 0 c).

Lemma process_request_answers_witness :
  exists w' rsp n q, ProcessRequest cfg0 (mk_packet (txt "app") (txt "KEY") 1 0 [1; 2; 3]) start_world = Some w' /\
    w_sent w' = [] ++ [rsp] /\ conns_ok w' /\ counter_ok (w_counter w') /\
    w_queries w' = [] ++ replicate n q /\ (n <= 11)%nat /\ (is_read q = true \/ n = 0%nat).
Proof.
  apply (process_request_answers (K := flat_knv) ([] : list pb_pair) cfg0 (mk_packet (txt "app") (txt "KEY") 1 0 [1; 2; 3]) start_world);
    [reflexivity|vm_compute; reflexivity|apply (so_counter _ start_world_ok)|apply (so_conns _ start_world_ok)].
Defined.

Lemma serve_safe_witness :
  exists w' r, serve cfg0 [(4096, [1; 2; 3]); (8192, frame [7])] 4096 start_world = Some (w', r) /\ server_ok w'.
Proof.
  apply (serve_safe (K := flat_knv) ([] : list pb_pair) cfg0 [(4096, [1; 2; 3]); (8192, frame [7])] 4096 1000 start_world);
    [reflexivity|apply start_world_ok| |vm_compute; reflexivity].
  repeat constructor; vm_compute; intuition congruence.
Defined.

(** The client's packet for "desc t". *)
Definition sample_packet : bytes := Eval vm_compute in default [] (mjoin (SendRequest (txt "app") (txt "KEY") 7 (txt "desc t"))).

Lemma request_end_to_end_witness :
  exists c, Decrypt (txt "KEY") c = Some (txt "desc t") /\
    serve cfg0 [(0, take 20 sample_packet); (0, drop 20 sample_packet)] 0 start_world =
      w' ← ProcessRequest cfg0 (mk_packet (txt "app") (txt "KEY") 7 0 c) start_world; Some (w', Some []).
Proof.
  apply (request_end_to_end (K := flat_knv) ([] : list pb_pair) cfg0 (txt "app") (txt "KEY") (txt "desc t") sample_packet 7 0);
    [reflexivity|vm_compute; reflexivity|lia|vm_compute; reflexivity|vm_compute; reflexivity|vm_compute; reflexivity|
     vm_compute; discriminate|reflexivity|repeat constructor; vm_compute; intuition congruence].
Defined.

(** Runs two requests one after the other and shows the answers and the statements run. *)
Definition run_two (s1 s2 : bytes) : option (list bytes * list bytes) :=
  p1 ← request 1 s1; p2 ← request 1 s2;
  w1 ← ProcessRequest cfg0 p1 start_world;
  w2 ← ProcessRequest cfg0 p2 w1;
  Some (w_sent w2, w_queries w2).

(** A statement of 127 characters that ends in [last]. *)
Definition long_select (last : string) : bytes :=
  txt "select name, address, telephone from customers where country = 'DE' and city = 'Berlin' and street = 'Unter den Linden' id = " ++ txt last.

(** The cache key is the first [iShmMaxKeyLen - 32] bytes of the statement only, 96 with the default
    configuration: of two different statements that begin with the same 96 bytes, the second is
    answered from the cache with the result of the first, and never run. *)
Theorem answers_confused :
  bool_decide (long_select "1" = long_select "2") = false /\
  (fun r => match r with ([a; b], qs) => (bool_decide (a = b), length qs) | _ => (false, 0%nat) end)
    <$> run_two (long_select "1") (long_select "2") = Some (true, 1%nat).
Proof. vm_compute. split; reflexivity. Qed.
