(* ===== verification/Client.v ===== *)
(** * The client library (src/mysql_proxy_api.cpp, src/mysql_proxy_api.h)

    A handle [MYSQL], the request it sends, the bytes it receives and the result it keeps.  The tree
    library is the interface [Knv] of Server.v; the functions that walk a result set are in ResultSet.v.
    The socket is what the system calls return: [send] gives a number, receiving is a list of events.

    Every function returns its value and the handle.  The outer [None] is undefined behaviour (the hex
    dump of an undecipherable response writes past its buffer), an inner [None] a C++ exception that
    leaves the function. *)

From S2P Require Import Prelude Pb Crypt Packet Traffic Keys Server.

(** ** The socket *)

(** What the calls of one function return: [connect], [select], whether the descriptor is set, [getsockopt]
    with the error it stores, and the transfer itself. *)
Record sock := mk_sock {
  so_connect : Z; so_inprogress : bool; so_select : Z; so_isset : bool; so_getopt : Z; so_err : Z; so_transfer : Z }.

(** Models [connect_in_time] (src/mysql_proxy_api.cpp:30-80). *)
Definition connect_in_time (s : sock) (timeout_ms : Z) : Z :=
  if Z.leb timeout_ms 0 then so_connect s
  else if Z.eqb (so_connect s) 0 then 0
  else if negb (so_inprogress s) then -1
  else if Z.ltb 0 (so_select s) then
    if so_isset s then
      if Z.eqb (so_getopt s) (-1) then -1 else if negb (Z.eqb (so_err s) 0) then -1 else 0
    else -1
  else so_select s.

(** Models [send_in_time] (src/mysql_proxy_api.cpp:82-107). *)
Definition send_in_time (s : sock) (timeout_ms : Z) : Z :=
  if Z.leb timeout_ms 0 then so_transfer s
  else if Z.ltb 0 (so_select s) then if so_isset s then so_transfer s else 0
  else so_select s.

(** Models [recv_in_time] (src/mysql_proxy_api.cpp:110-135). *)
Definition recv_in_time (s : sock) (timeout_ms : Z) : Z :=
  if Z.leb timeout_ms 0 then so_transfer s
  else if Z.ltb 0 (so_select s) then if so_isset s then so_transfer s else 0
  else so_select s.

(** The result, [g_errnum] and the end of [g_errmsg], when they are set; [socket()] gives [fd]. *)
(** Models [CreateConnection] (src/mysql_proxy_api.cpp:137-178). *)
Definition CreateConnection (fd : Z) (s : sock) (timeout_ms : Z) : Z * option (Z * bytes) :=
  if Z.ltb fd 0 then (-1, Some (2001, txt "socket failed: "))
  else if Z.ltb (connect_in_time s timeout_ms) 0 then (-1, Some (2002, txt "connecting to "))
  else (fd, None).

(** *** Error numbers *)
(** Models [CR_OUT_OF_MEMORY] (src/mysql_proxy_api.h:24-24). *)
Definition CLIENT_OUT_OF_MEMORY : Z := 2008.
(** Models [CR_SERVER_GONE_ERROR] (src/mysql_proxy_api.h:23-23). *)
Definition CLIENT_SERVER_GONE : Z := 2006.
(** Models [CR_MALFORMED_PACKET] (src/mysql_proxy_api.h:26-26). *)
Definition CR_MALFORMED_PACKET : Z := 2027.
(** Models [CR_NO_DATA] (src/mysql_proxy_api.h:27-27). *)
Definition CR_NO_DATA : Z := 2051.
Definition ENOSYS : Z := 38.

(** [snprintf(buf, n, "%s", s)] *)
Definition snprintf (n : Z) (s : bytes) : bytes := take (Z.to_nat (n - 1)) (c_str s).

Section client.
Context `{D : Des} {K : Knv}.

(** ** The handle *)

(** Models [MYSQL_PROXY] (src/mysql_proxy_api.h:34-48). *)
Record MYSQL := mk_my {
  sockfd : Z; is_inner_created : bool; m_errnum : Z; m_errmsg : bytes; m_appname : bytes; m_appkey : bytes;
  m_sequence : Z; timeout_ms : Z; current_query_context : option knv }.

Definition set_err (e : Z) (msg : bytes) (m : MYSQL) : MYSQL :=
  mk_my (sockfd m) (is_inner_created m) e (snprintf 1024 msg) (m_appname m) (m_appkey m) (m_sequence m) (timeout_ms m) (current_query_context m).
Definition set_context (c : option knv) (m : MYSQL) : MYSQL :=
  mk_my (sockfd m) (is_inner_created m) (m_errnum m) (m_errmsg m) (m_appname m) (m_appkey m) (m_sequence m) (timeout_ms m) c.
Definition next_sequence (m : MYSQL) : MYSQL :=
  mk_my (sockfd m) (is_inner_created m) (m_errnum m) (m_errmsg m) (m_appname m) (m_appkey m) (u64 (m_sequence m + 1)) (timeout_ms m) (current_query_context m).

(** Models [mysql_proxy_init] (src/mysql_proxy_api.cpp:446-461). *)
Definition mysql_proxy_init (given : bool) : MYSQL := mk_my (-1) (negb given) 0 [] [] (replicate 8 0) 0 0 None.

(** The descriptor closed, and whether the handle was freed. *)
(** Models [mysql_proxy_close] (src/mysql_proxy_api.cpp:463-474). *)
Definition mysql_proxy_close (m : option MYSQL) : option (Z * bool) :=
  m ← m; Some (sockfd m, is_inner_created m).

(** Models [mysql_proxy_errno] (src/mysql_proxy_api.cpp:476-479). *)
Definition mysql_proxy_errno (m : option MYSQL) (g_errnum : Z) : Z := u32 (match m with Some m => m_errnum m | None => g_errnum end).
(** Models [mysql_proxy_error] (src/mysql_proxy_api.cpp:481-484). *)
Definition mysql_proxy_error (m : option MYSQL) (g_errmsg : bytes) : bytes := match m with Some m => m_errmsg m | None => c_str g_errmsg end.

(** The handle to use afterwards, if there is one, and whether the call succeeded. *)
(** Models [mysql_proxy_connect] (src/mysql_proxy_api.cpp:486-517). *)
Definition mysql_proxy_connect (m : option MYSQL) (conn : Z * option (Z * bytes)) (appname apppwd : bytes) (timeout : Z)
    : bool * option MYSQL :=
  let my := match m with Some m => m | None => mysql_proxy_init false end in
  if Z.ltb conn.1 0 then
    (false, match m with
            | Some m => match conn.2 with Some (e, t) => Some (set_err e t (mk_my conn.1 (is_inner_created m) (m_errnum m) (m_errmsg m)
                          (m_appname m) (m_appkey m) (m_sequence m) (timeout_ms m) (current_query_context m))) | None => Some m end
            | None => None
            end)
  else
    (true, Some (mk_my conn.1 (is_inner_created my) (m_errnum my) (m_errmsg my) (snprintf 128 appname) (api_passwd2des (c_str apppwd))
                   1 timeout (current_query_context my))).

(** What the calls that a proxy cannot serve do. *)
(** Models [mysql_affected_rows] (src/mysql_proxy_api.h:133-145). *)
Definition not_supported_call (msg : bytes) (m : MYSQL) : Z * MYSQL := (-1, set_err ENOSYS msg m).

(** ** Requests *)

(** The return value and the packet handed to [send], whose result is [sent]. *)
(** Models [SendRequest] (src/mysql_proxy_api.cpp:302-343). *)
Definition SendRequest (sent : Z) (m : MYSQL) (sql : bytes) : option (Z * MYSQL * option bytes) :=
  c ← api_Encrypt (m_appkey m) sql;
  match NewTree 1 with
  | None => Some (-1, set_err CLIENT_OUT_OF_MEMORY (txt "KnvNode::NewTree() failed: ") m, None)
  | Some _ =>
      let p := mk_packet (m_appname m) (m_appkey m) (m_sequence m) 0 c in
      let m := next_sequence m in
      match pack_packet p with
      | None => Some (-1, set_err CLIENT_OUT_OF_MEMORY (txt "KnvNode::Serialize() failed: ") m, None)
      | Some pkt =>
          if Z.ltb sent 0 then Some (-1, set_err CLIENT_SERVER_GONE (txt "Server gone away, errno:") m, Some pkt)
          else Some (0, m, Some pkt)
      end
  end.

(** ** Responses *)

(** Models [ProcessResponse] (src/mysql_proxy_api.cpp:353-377). *)
Definition ProcessResponse (m : MYSQL) (stResponse : ProxyPacket) : option (Z * MYSQL) :=
  if negb (Z.eqb (errnum stResponse) 0) then
    Some (-1, set_err (s32 (errnum stResponse)) (txt "Server response with error msg: " ++ c_str (content stResponse) ++ [46; 10]) m)
  else
    rspstr ← api_Decrypt (m_appkey m) (content stResponse);
    if Z.eqb (len rspstr) 0 then
      hex ← StrToHex (if Z.ltb 20 (len (content stResponse)) then take 20 (content stResponse) ++ txt ".." else content stResponse);
      Some (-2, set_err CR_MALFORMED_PACKET (txt "Decrypt rsp failed, rsp: " ++ hex) m)
    else Some (1, set_context (NewFromMessage rspstr) m).

(** The body of one packet. *)
(** Models [ParsePacket] (src/mysql_proxy_api.cpp:416-433). *)
Definition process_body (body : bytes) (m : MYSQL) : option (option (MYSQL * Z)) :=
  match NewFromMessage body with
  | None => Some None
  | Some tree =>
      '(r, m) ← ProcessResponse m (mk_packet (GetFieldStr tree 1) [] (GetFieldInt tree 2) (u32 (GetFieldInt tree 3)) (GetFieldStr tree 11));
      Some (Some (m, r))
  end.

(** A piece received, with the address of the buffer it is appended to, or the last result of [recv]. *)
Inductive event := Data (base : Z) (piece : bytes) | End (r : Z).

(** The end of [mysql_proxy_real_query] when nothing more comes. *)
(** Models [mysql_proxy_real_query] (src/mysql_proxy_api.cpp:553-560). *)
Definition no_response (r : Z) (m : MYSQL) : MYSQL :=
  set_err CLIENT_SERVER_GONE
    (if Z.ltb r 0 then txt "Server gone away, errno:" else if negb (Z.eqb (timeout_ms m) 0) then txt "Recv response timeout"
     else txt "Peer has shutdown") m.

(** Models [mysql_proxy_real_query] (src/mysql_proxy_api.cpp:541-560). *)
Fixpoint recv_response (es : list event) (rspstr : bytes) (m : MYSQL) : option (option Z * MYSQL) :=
  match es with
  | Data base piece :: es' =>
      '(m, r) ← api_ParsePacket process_body base (rspstr ++ piece) m;
      match r with
      | None => Some (None, m)
      | Some (v, rspstr) =>
          if negb (Z.eqb v 0) then Some (Some (if Z.ltb 0 v then 0 else v - 200), m)
          else recv_response es' rspstr m
      end
  | End r :: _ => Some (Some (-300), no_response r m)
  | [] => Some (Some (-300), no_response 0 m)
  end.

(** The value, the handle and the packet sent. *)
(** Models [mysql_proxy_real_query] (src/mysql_proxy_api.cpp:524-561). *)
Definition mysql_proxy_real_query (sent : Z) (es : list event) (m : MYSQL) (sql : bytes) : option (option Z * MYSQL * option bytes) :=
  '(iRet, m, pkt) ← SendRequest sent m sql;
  if Z.ltb iRet 0 then Some (Some (iRet - 100), m, pkt)
  else
    '(r, m) ← recv_response es [] (set_context None m);
    Some (r, m, pkt).

(** Models [mysql_proxy_query] (src/mysql_proxy_api.cpp:519-522). *)
Definition mysql_proxy_query (sent : Z) (es : list event) (m : MYSQL) (stmt_str : bytes) :=
  mysql_proxy_real_query sent es m (c_str stmt_str).

(** The tree becomes the caller's. *)
(** Models [mysql_proxy_store_result] (src/mysql_proxy_api.cpp:583-600). *)
Definition mysql_proxy_store_result (m : MYSQL) : option knv * MYSQL :=
  match current_query_context m with
  | Some t => (Some t, set_context None m)
  | None => (None, set_err CR_NO_DATA (txt "No record data available") m)
  end.

End client.

(** ** What the client makes of it *)

Section correctness.
Context `{D : Des} {K : Knv} `{DL : !DesLaws D} `{KL : !KnvLaws K}.
Context (t0 : knv) (Ht0 : NewTree 1 = Some t0).

(** The result of the query and the handle, for a handle whose key is that of the request. *)
Definition delivered (err : Z) (text : bytes) (m : MYSQL) : option Z * MYSQL :=
  if Z.eqb err 0 then (Some 0, set_context (NewFromMessage text) m)
  else (Some (-201), set_err (s32 (u32 err)) (txt "Server response with error msg: " ++ c_str text ++ [46; 10]) m).

Lemma pack_frame p rsp :
  pack_packet p = Some rsp -> len rsp <= MAX_RESPONSE_PACKET_LENGTH ->
  0 <= sequence p < 2 ^ 64 -> 0 <= errnum p < 2 ^ 32 ->
  exists body u, rsp = frame body /\ good MAX_RESPONSE_PACKET_LENGTH body /\ NewFromMessage body = Some u /\
    GetFieldStr u 1 = appname p /\ GetFieldInt u 2 = sequence p /\ GetFieldInt u 3 = errnum p /\ GetFieldStr u 11 = content p.
Proof.
  intros Hp Hmax Hs He. unfold pack_packet in Hp. rewrite Ht0 in Hp. cbn [mbind option_bind] in Hp. fold (packet_tree p t0) in Hp.
  change (Serialize _ _) with (Serialize (packet_tree p t0) (EvaluateSize (packet_tree p t0))) in Hp.
  destruct (Serialize _ _) as [body|] eqn:E; [|done]. cbn [mbind option_bind] in Hp.
  assert (rsp = PACKET_START_TOKEN ++ le_split 8 (u64 (PACKET_HEADER_LENGTH + len body)) ++ body) as -> by congruence. clear Hp.
  destruct (knv_long p t0 body Ht0 E) as [L1 L2]. rewrite !len_app, len_le_split in Hmax.
  change (len PACKET_START_TOKEN) with 8 in Hmax. unfold MAX_RESPONSE_PACKET_LENGTH in *.
  destruct (knv_packet p t0 body) as (u & Hu & U1 & U2 & U3 & U11 & Hlen); [by split_and!; lia|done|done|].
  exists body, u. unfold frame, PACKET_HEADER_LENGTH in *. rewrite u64_small by lia. split; [done|]. split; [|done].
  split; [lia|]. unfold PACKET_HEADER_LENGTH. lia.
Qed.

Lemma process_reply p err text rsp m :
  is_reply p err text rsp -> len rsp <= MAX_RESPONSE_PACKET_LENGTH -> 0 <= sequence p < 2 ^ 64 ->
  m_appkey m = appkey p -> (err = 0 -> text <> [] /\ len text < 2 ^ 31 - 16) -> (err <> 0 -> u32 err <> 0) ->
  exists body v, rsp = frame body /\ good MAX_RESPONSE_PACKET_LENGTH body /\ v <> 0 /\
    process_body body m = Some (Some ((delivered err text m).2, v)) /\
    Some (if Z.ltb 0 v then 0 else v - 200) = (delivered err text m).1.
Proof.
  intros (q & Hq & Hp) Hmax Hs Hkey Htext Herr. unfold response_packet in Hq.
  assert (Hfin : forall e c v m', q = mk_packet (appname p) (appkey p) (sequence p) e c -> 0 <= e < 2 ^ 32 -> v <> 0 ->
    ProcessResponse m (mk_packet (appname p) [] (sequence p) e c) = Some (v, m') ->
    exists body, rsp = frame body /\ good MAX_RESPONSE_PACKET_LENGTH body /\ process_body body m = Some (Some (m', v))).
  { intros e c v m' -> He Hv HP. destruct (pack_frame _ _ Hp Hmax) as (body & u & -> & Hg & Hu & U1 & U2 & U3 & U11); [done|done|].
    exists body. split; [done|]. split; [done|]. unfold process_body. rewrite Hu, U1, U2, U3, U11.
    cbn [appname sequence errnum content]. rewrite u32_small by lia. rewrite HP. done. }
  unfold delivered. destruct (Z.eqb_spec err 0) as [->|Hne].
  - destruct (Htext eq_refl) as [Hnt Hlt]. destruct (Encrypt_Decrypt (appkey p) text Hlt) as (c & E & Hc8 & _ & _ & Hd).
    rewrite E in Hq. cbn [mbind option_bind] in Hq. rewrite (proj2 (Z.eqb_neq (len c) 0)) in Hq by lia. cbn [andb] in Hq.
    injection Hq as <-. destruct (Hfin (u32 0) c 1 (set_context (NewFromMessage text) m)) as (body & -> & Hg & HP); try done.
    + unfold ProcessResponse. cbn [errnum content]. rewrite Hkey. change (u32 0) with 0. cbn [Z.eqb negb]. rewrite Hd. msimp.
      rewrite (proj2 (Z.eqb_neq (len text) 0)); [done|]. destruct text; [done|]. rewrite len_cons. len_pos. lia.
    + exists body, 1. done.
  - injection Hq as <-.
    destruct (Hfin (u32 err) text (-1) (set_err (s32 (u32 err)) (txt "Server response with error msg: " ++ c_str text ++ [46; 10]) m))
      as (body & -> & Hg & HP); try done; [apply u32_range| |by exists body, (-1)].
    unfold ProcessResponse. cbn [errnum content]. rewrite (proj2 (Z.eqb_neq (u32 err) 0)) by auto. done.
Qed.

(** Receiving a reply in any pieces. *)
Lemma recv_reply p err text rsp m : forall es rest t,
  is_reply p err text rsp -> len rsp <= MAX_RESPONSE_PACKET_LENGTH -> 0 <= sequence p < 2 ^ 64 ->
  m_appkey m = appkey p -> (err = 0 -> text <> [] /\ len text < 2 ^ 31 - 16) -> (err <> 0 -> u32 err <> 0) ->
  Forall (fun c => addr_ok c.1 (len rsp)) es -> t ++ concat (snd <$> es) = rsp -> t <> rsp ->
  recv_response ((fun c => Data c.1 c.2) <$> es ++ rest) t m = Some (delivered err text m).
Proof.
  intros es rest t Hr Hmax Hs Hk Ht He. destruct (process_reply p err text rsp m Hr Hmax Hs Hk Ht He) as (body & v & -> & Hg & Hv & HP & Hd).
  revert t. induction es as [|[base piece] es IH]; intros t Hb E Hne.
  { cbn in E. rewrite app_nil_r in E. done. }
  apply Forall_cons in Hb as [Hb1 Hb]. cbn [fst] in Hb1. cbn [app fmap list_fmap recv_response fst snd].
  cbn [fmap list_fmap concat snd] in E. rewrite app_assoc in E.
  rewrite (client_waits_for_frame process_body base body (t ++ piece) (concat (snd <$> es)) m _ v Hg (eq_sym E) Hb1 HP).
  case_decide as Hm; msimp.
  - rewrite (proj2 (Z.eqb_neq v 0)) by done. cbn [negb]. rewrite Hd. by destruct (delivered err text m).
  - cbn [Z.eqb negb]. apply IH; [done|done|]. intros Hx. apply Hm. rewrite Hx in E.
    apply (f_equal length) in E. rewrite length_app in E. destruct (concat (snd <$> es)); [done|cbn in E; lia].
Qed.

End correctness.

Section whole_query.
Context `{D : Des} {K : Knv} {Q : MySQL} {C : Cache K Q}.
Context `{DL : !DesLaws D} `{KL : !KnvLaws K} `{QL : !MySQLLaws Q}.
Context (t0 : knv) (Ht0 : NewTree 1 = Some t0).

Lemma api_SendRequest_eq sent m sql pkt :
  Server.SendRequest (m_appname m) (m_appkey m) (m_sequence m) sql = Some (Some pkt) -> 0 <= sent ->
  SendRequest sent m sql = Some (0, next_sequence m, Some pkt).
Proof.
  intros E Hs. unfold SendRequest. unfold Server.SendRequest in E. destruct (api_Encrypt _ _) as [c'|]; [|done].
  cbn [mbind option_bind] in E |- *. rewrite Ht0. injection E as E. rewrite E. by rewrite (proj2 (Z.ltb_ge sent 0)) by lia.
Qed.

Lemma api_SendRequest_run sent m sql :
  len (m_appname m) < 2 ^ 29 -> 0 <= m_sequence m < 2 ^ 64 -> len sql < 2 ^ 28 -> 0 <= sent ->
  exists body c, SendRequest sent m sql = Some (0, next_sequence m, Some (frame body)) /\ 1 <= len body < 2 ^ 31 /\
    Decrypt (m_appkey m) c = Some sql /\ len c < 2 ^ 31 /\
    (forall cfg w, mapAppKeys cfg !! m_appname m = Some (m_appkey m) ->
       handle_body cfg body w = ProcessRequest cfg (mk_packet (m_appname m) (m_appkey m) (m_sequence m) 0 c) w).
Proof.
  intros Ha Hs Hq Hsent.
  destruct (SendRequest_spec t0 Ht0 (m_appname m) (m_appkey m) (m_sequence m) sql Ha Hs Hq) as (body & c & E & Hb & Hd & Hcl & Hh).
  exists body, c. split; [by apply api_SendRequest_eq|]. split_and!; [lia|lia|done|done|done].
Qed.

(** [es] are the pieces of [s]. *)
Definition pieces_of (s : bytes) (es : list (Z * bytes)) : Prop :=
  concat (snd <$> es) = s /\ Forall (fun c => addr_ok c.1 (len s)) es.

Lemma whole_query_run cfg m sql sent base chunks w body c :
  SendRequest sent m sql = Some (0, next_sequence m, Some (frame body)) -> 1 <= len body ->
  len (frame body) <= MAX_REQUEST_PACKET_LENGTH -> len c < 2 ^ 31 -> 0 <= m_sequence m < 2 ^ 64 ->
  handle_body cfg body w = ProcessRequest cfg (mk_packet (m_appname m) (m_appkey m) (m_sequence m) 0 c) w ->
  pieces_of (frame body) ((base, []) :: chunks) -> server_ok w ->
  exists err text w1 w' rsp, answer cfg (mk_packet (m_appname m) (m_appkey m) (m_sequence m) 0 c) w = Some (err, text, w1) /\
    serve cfg chunks base w = Some (w', Some []) /\ w_sent w' = w_sent w ++ [rsp] /\
    forall es, len rsp <= MAX_RESPONSE_PACKET_LENGTH -> (err = 0 -> text <> []) -> (err <> 0 -> u32 err <> 0) -> pieces_of rsp es ->
      mysql_proxy_real_query sent ((fun c => Data c.1 c.2) <$> es) m sql =
      Some (delivered err text (set_context None (next_sequence m)), Some (frame body)).
Proof.
  intros Hsend Hb Hlen Hc Hs Hh [Hcat Hba] [Hw Hct Hrd]. rewrite len_frame in Hlen. cbn [fmap list_fmap concat snd app] in Hcat.
  destruct (ProcessRequest_spec t0 Ht0 cfg (mk_packet (m_appname m) (m_appkey m) (m_sequence m) 0 c) w Hc Hct Hw)
    as (err & text & w1 & w' & rsp & n & q & Ean & Htx & Epr & Hsent & _ & _ & _ & _ & _ & Hrep).
  exists err, text, w1, w', rsp. split; [done|]. split.
  { rewrite (serve_frame cfg chunks base body); [|by split|done|done]. by rewrite Hh, Epr. }
  split; [done|]. intros es Hmax Ht0' He0 [Hes Hba']. unfold mysql_proxy_real_query. rewrite Hsend. msimp. cbn [Z.ltb Z.compare].
  pose proof (recv_reply t0 Ht0 _ err text rsp (set_context None (next_sequence m)) es [] [] Hrep Hmax Hs eq_refl) as Hrecv.
  rewrite app_nil_r in Hrecv. rewrite Hrecv; [|by auto|done|done|done|].
  - msimp. by destruct (delivered _ _ _).
  - intros Hnil. destruct (process_reply t0 Ht0 _ err text rsp (set_context None (next_sequence m)) Hrep Hmax Hs eq_refl) as (b & v & Hf & _); [auto..|].
    rewrite <- Hnil in Hf. apply (f_equal len) in Hf. rewrite len_frame in Hf. unfold PACKET_HEADER_LENGTH in Hf. len_pos.
    rewrite (@len_nil Z) in Hf. lia.
Qed.

End whole_query.

(** ** Properties *)


(** A handle of the application of [cfg0]. *)
Definition sample_my : @MYSQL flat_knv := mk_my 5 true 0 [] (txt "app") (txt "KEY") 7 0 None.


(** The client does not look at the sequence number of a response.  Whatever request [p] a packet
    answers, under the same key, the next query takes it as its own answer: a response that arrives after
    its query timed out is the result of the following query. *)
Theorem stale_response_accepted `{D : Des} {K : Knv} `{!DesLaws D} `{!KnvLaws K}
    (t0 : knv) (p : ProxyPacket) (text rsp : bytes) (m m' : MYSQL) (sent : Z) (sql pkt : bytes) (es : list (Z * bytes)) :
  NewTree 1 = Some t0 -> is_reply p 0 text rsp -> len rsp <= MAX_RESPONSE_PACKET_LENGTH -> 0 <= sequence p < 2 ^ 64 ->
  text <> [] -> len text < 2 ^ 31 - 16 -> pieces_of rsp es ->
  SendRequest sent m sql = Some (0, m', Some pkt) -> m_appkey m' = appkey p ->
  mysql_proxy_real_query sent ((fun c => Data c.1 c.2) <$> es) m sql
    = Some (Some 0, set_context (NewFromMessage text) (set_context None m'), Some pkt).
Proof.
  intros Ht Hr Hmax Hs Hne Hl [Hes Hb] Hsend Hk. unfold mysql_proxy_real_query. rewrite Hsend. msimp. cbn [Z.ltb Z.compare].
  pose proof (recv_reply t0 Ht p 0 text rsp (set_context None m') es [] [] Hr Hmax Hs Hk) as Hrecv.
  rewrite app_nil_r in Hrecv. rewrite Hrecv; [done|done|done|done|done|].
  destruct (process_reply t0 Ht p 0 text rsp (set_context None m') Hr Hmax Hs Hk) as (b & v & -> & _); [done|done|].
  by destruct (frame_cons b) as (x & l & ->).
Qed.

(** The answer to the request with sequence number 1, "old", comes when request 7 was sent. *)
Definition old_request : ProxyPacket := mk_packet (txt "app") (txt "KEY") 1 0 [].
Definition old_packet : ProxyPacket := Eval vm_compute in
  default old_request (response_packet old_request 0 (enc_fields [(1, VStr (txt "old"))])).
Definition old_reply : bytes := Eval vm_compute in default [] (pack_packet (K := flat_knv) old_packet).

Definition late_query : bytes := Eval vm_compute in
  default [] (mjoin (Server.SendRequest (K := flat_knv) (txt "app") (txt "KEY") 7 (txt "select 2"))).

Lemma stale_response_accepted_witness :
  mysql_proxy_real_query 40 [Data 0 (take 20 old_reply); Data 0 (drop 20 old_reply)] sample_my (txt "select 2")
    = Some (Some 0, set_context (NewFromMessage (enc_fields [(1, VStr (txt "old"))])) (set_context None (next_sequence sample_my)),
            Some late_query).
Proof.
  apply (stale_response_accepted (K := flat_knv) ([] : list pb_pair) old_request (enc_fields [(1, VStr (txt "old"))]) old_reply
    sample_my (next_sequence sample_my) 40 (txt "select 2") late_query [(0, take 20 old_reply); (0, drop 20 old_reply)]).
  - reflexivity.
  - exists old_packet. split; vm_compute; reflexivity.
  - vm_compute. discriminate.
  - cbn. lia.
  - vm_compute. discriminate.
  - vm_compute. reflexivity.
  - split; [reflexivity|]. repeat constructor; vm_compute; intuition congruence.
  - apply (api_SendRequest_eq (K := flat_knv) ([] : list pb_pair) eq_refl 40 sample_my); [vm_compute; reflexivity|lia].
  - reflexivity.
Defined.
