(* ===== verification/AttrApi.v ===== *)
(** * Monitoring counters (src/comm/Attr_API.c)

    Counters in shared memory, found by number in forty rows of slots, changed without a lock by any number of
    threads and processes.  A caller of [CreateOrUpdateNode] is a program counter with its local variables; each of
    its steps makes at most one access to the shared memory, so that every interleaving of the accesses of several
    callers is a sequence of steps. *)

From S2P Require Import Prelude.

(** ** The table *)

(** Models [AGENT_ATTR_SHM_HASH_LEN] (src/comm/Attr_API.c:54-54). *)
Definition AGENT_ATTR_SHM_HASH_LEN : Z := 1000.
(** Models [AGENT_ATTR_SHM_HASH_TIMES] (src/comm/Attr_API.c:55-55). *)
Definition AGENT_ATTR_SHM_HASH_TIMES : Z := 40.
(** Models [MAX_ATTEMPT_TIMES] (src/comm/Attr_API.c:58-58). *)
Definition MAX_ATTEMPT_TIMES : Z := 50.

(** Models [g_arrMod] (src/comm/Attr_API.c:61-63). *)
Definition g_arrMod : list Z :=
  [998; 997; 991; 983; 982; 977; 976; 974; 971; 967; 964; 958; 956; 953; 947; 944; 941; 937; 934; 932; 929; 926; 922; 919;
   916; 914; 911; 908; 907; 904; 898; 892; 887; 886; 883; 881; 878; 877; 872; 866].

(** A number and a value, each of 32 bits, read and exchanged together. *)
(** Models [AGENT_ATTR_NODE] (src/comm/Attr_API.c:66-76). *)
Record attr_node := mk_attr { dwAttrId : Z; dwCurVal : Z }.

#[export] Instance attr_node_eq_dec : EqDecision attr_node.
Proof. solve_decision. Defined.

Definition empty_node : attr_node := mk_attr 0 0.

(** The shared memory, which was cleared when it was made. *)
Notation attr_mem := (gmap Z attr_node).
Definition node_at (m : attr_mem) (p : Z) : attr_node := default empty_node (m !! p).

(** The slot of the number [id] in row [i]. *)
(** Models [CreateOrUpdateNode] (src/comm/Attr_API.c:273-274). *)
Definition slot_of (i : nat) (id : Z) : Z := AGENT_ATTR_SHM_HASH_LEN * Z.of_nat i + id mod nth i g_arrMod 1.
Definition rows : nat := length g_arrMod.

(** [CAS_64bit] *)
(** Models [CAS_64bit] (src/comm/CAS_64bit.h:24-24). *)
Definition CAS (p : Z) (old new : attr_node) (m : attr_mem) : bool * attr_mem :=
  if decide (node_at m p = old) then (true, <[p := new]> m) else (false, m).

(** ** One call *)

(** The copy of the slot [p] was found to have the number [id]: the exchange, and the value written if it succeeds. *)
(** Models [callback_AddValue] (src/comm/Attr_API.c:191-218). *)
Definition callback_AddValue (m : attr_mem) (p : Z) (copy : attr_node) (id v : Z) : option Z * attr_mem :=
  let x := u32 (dwCurVal copy + v) in
  let '(b, m') := CAS p copy (mk_attr id x) m in (if b : bool then Some x else None, m').

(** Models [callback_SetValue] (src/comm/Attr_API.c:220-246). *)
Definition callback_SetValue (m : attr_mem) (p : Z) (copy : attr_node) (id v : Z) : option Z * attr_mem :=
  let '(b, m') := CAS p copy (mk_attr id v) m in (if b : bool then Some v else None, m').

Inductive method := AddValue | SetValue.

Definition UpdateNode (k : method) : attr_mem -> Z -> attr_node -> Z -> Z -> option Z * attr_mem :=
  match k with AddValue => callback_AddValue | SetValue => callback_SetValue end.

(** Where a call is: reading the number of the slot of row [i] a first and a second time, with the empty slots seen so
    far; reading a slot to update it, and exchanging it; exchanging the first of the empty slots, and reading its
    number after that failed; reading the slot of row [i - 1] to take it over, and exchanging it; or finished. *)
Inductive attr_pc :=
  | Scan (i : nat) (es : list Z) | Again (i : nat) (es : list Z) | Load (p : Z) | Swap (p : Z) (copy : attr_node)
  | Insert (es : list Z) | Taken (p : Z) (es : list Z) | Evict (i : nat) | Replace (i : nat) (copy : attr_node)
  | Done (ret : Z).

(** [a_out] is [*pdwValue], when it was written. *)
Record call := mk_call { a_kind : method; a_id : Z; a_val : Z; a_depth : Z; a_pc : attr_pc; a_out : option Z }.

Definition goto (pc : attr_pc) (c : call) : call := mk_call (a_kind c) (a_id c) (a_val c) (a_depth c) pc (a_out c).
Definition finish (ret : Z) (out : option Z) (c : call) : call := mk_call (a_kind c) (a_id c) (a_val c) (a_depth c) (Done ret) out.

(** The recursive call, which stops after too many of them. *)
(** Models [CreateOrUpdateNode] (src/comm/Attr_API.c:251-254). *)
Definition retry (c : call) : call :=
  if Z.ltb MAX_ATTEMPT_TIMES (a_depth c + 1) then finish (-1) (a_out c) c
  else mk_call (a_kind c) (a_id c) (a_val c) (a_depth c + 1) (Scan 0 []) (a_out c).

(** The next step of the scan when row [i] is done. *)
(** Models [CreateOrUpdateNode] (src/comm/Attr_API.c:303-324). *)
Definition after_row (i : nat) (es : list Z) : attr_pc :=
  if Nat.ltb (S i) rows then Scan (S i) es else match es with [] => Evict rows | _ => Insert es end.

(** Models [CreateOrUpdateNode] (src/comm/Attr_API.c:249-348). *)
Definition attr_step (m : attr_mem) (c : call) : attr_mem * call :=
  let new := mk_attr (a_id c) (a_val c) in
  match a_pc c with
  | Scan i es =>
      let p := slot_of i (a_id c) in
      if Z.eqb (dwAttrId (node_at m p)) 0 then (m, goto (after_row i (es ++ [p])) c) else (m, goto (Again i es) c)
  | Again i es =>
      let p := slot_of i (a_id c) in
      if Z.eqb (dwAttrId (node_at m p)) (a_id c) then (m, goto (Load p) c) else (m, goto (after_row i es) c)
  | Load p =>
      let copy := node_at m p in
      if negb (Z.eqb (dwAttrId copy) (a_id c)) then (m, retry c) else (m, goto (Swap p copy) c)
  | Swap p copy =>
      let '(x, m') := UpdateNode (a_kind c) m p copy (a_id c) (a_val c) in
      match x with Some x => (m', finish 0 (Some x) c) | None => (m, retry c) end
  | Insert [] => (m, finish (-3) (a_out c) c)
  | Insert (p :: es) =>
      let '(b, m') := CAS p empty_node new m in
      if b : bool then (m', finish 0 (a_out c) c) else (m, goto (Taken p es) c)
  | Taken p es =>
      if Z.eqb (dwAttrId (node_at m p)) (a_id c) then (m, retry c) else (m, goto (Insert es) c)
  | Evict O => (m, finish (-3) (a_out c) c)
  | Evict (S i) =>
      let copy := node_at m (slot_of i (a_id c)) in
      if Z.eqb (dwCurVal copy) 0 then (m, goto (Replace i copy) c) else (m, goto (Evict i) c)
  | Replace i copy =>
      let '(b, m') := CAS (slot_of i (a_id c)) copy new m in
      if b : bool then (m', finish 0 (a_out c) c) else (m, goto (Evict i) c)
  | Done _ => (m, c)
  end.

(** The first step of a call. *)
(** Models [CreateOrUpdateNode] (src/comm/Attr_API.c:249-260). *)
Definition start_call (k : method) (id v : Z) : call :=
  mk_call k id v 0 (if Z.eqb id 0 then Done (-2) else Scan 0 []) None.

(** ** The functions of the library *)

(** [g_pSumShm], [g_pSetShm] and [iInitRet]. *)
(** Models [g_pSumShm] (src/comm/Attr_API.c:81-82). *)
Record attr_state := mk_state { g_pSumShm : option attr_mem; g_pSetShm : option attr_mem; iInitRet : Z }.

(** What the two segments hold when they are attached; [None] when that fails. *)
(** Models [InitShm] (src/comm/Attr_API.c:157-176). *)
Definition InitShm (sum set : option attr_mem) (s : attr_state) : attr_state :=
  mk_state sum set (match sum, set with Some _, Some _ => iInitRet s | _, _ => -1 end).

(** One caller at a time: [fuel] steps. *)
Fixpoint solo (fuel : nat) (m : attr_mem) (c : call) : option (attr_mem * call) :=
  match a_pc c with
  | Done _ => Some (m, c)
  | _ => match fuel with O => None | S fuel' => let '(m', c') := attr_step m c in solo fuel' m' c' end
  end.

Definition ret_of (c : call) : Z := match a_pc c with Done r => r | _ => 0 end.

(** Whether the segment [own] is there, after an attempt to attach both when it was not. *)
(** Models [Attr_API] (src/comm/Attr_API.c:352-360). *)
Definition attach (own : attr_state -> option attr_mem) (sum set : option attr_mem) (s : attr_state) : option attr_mem * attr_state :=
  match own s with
  | Some m => (Some m, s)
  | None => let s := InitShm sum set s in (if Z.eqb (iInitRet s) 0 then own s else None, s)
  end.

(** The result, and the value left in [*piCurValue], if any. *)
(** Models [Attr_API_EX] (src/comm/Attr_API.c:365-378). *)
Definition Attr_API_EX (fuel : nat) (sum set : option attr_mem) (id v : Z) (s : attr_state) : option (Z * option Z * attr_state) :=
  match attach g_pSumShm sum set s with
  | (None, s) => Some (-1, None, s)
  | (Some m, s) =>
      '(m, c) ← solo fuel m (start_call AddValue (u32 id) (u32 v));
      Some (ret_of c, a_out c, mk_state (Some m) (g_pSetShm s) (iInitRet s))
  end.

(** Models [Attr_API] (src/comm/Attr_API.c:350-363). *)
Definition Attr_API (fuel : nat) (sum set : option attr_mem) (id v : Z) (s : attr_state) : option (Z * attr_state) :=
  '(r, _, s) ← Attr_API_EX fuel sum set id v s; Some (r, s).

(** Models [Attr_API_Set] (src/comm/Attr_API.c:380-393). *)
Definition Attr_API_Set (fuel : nat) (sum set : option attr_mem) (id v : Z) (s : attr_state) : option (Z * attr_state) :=
  match attach g_pSetShm sum set s with
  | (None, s) => Some (-1, s)
  | (Some m, s) =>
      '(m, c) ← solo fuel m (start_call SetValue (u32 id) (u32 v));
      Some (ret_of c, mk_state (g_pSumShm s) (Some m) (iInitRet s))
  end.

(** The slot [Attr_API_Get] looks at: the remainder is that of an [int]; [None] is past the end of the segment. *)
(** Models [Attr_API_Get] (src/comm/Attr_API.c:403-406). *)
Definition get_slot (i : nat) (id : Z) : option Z :=
  let p := u32 (AGENT_ATTR_SHM_HASH_LEN * Z.of_nat i + u32 (Z.rem id (nth i g_arrMod 1))) in
  if Z.ltb p (AGENT_ATTR_SHM_HASH_LEN * AGENT_ATTR_SHM_HASH_TIMES) then Some p else None.

(** Rows [i] and on, [k] of them. *)
(** Models [Attr_API_Get] (src/comm/Attr_API.c:401-423). *)
Fixpoint get_rows (k i : nat) (sum set : attr_mem) (id : Z) : option (Z * Z) :=
  match k with
  | O => Some (-1, 0)
  | S k' =>
      p ← get_slot i id;
      if Z.eqb (dwAttrId (node_at sum p)) (u32 id) then Some (0, dwCurVal (node_at sum p))
      else if Z.eqb (dwAttrId (node_at set p)) (u32 id) then Some (0, dwCurVal (node_at set p))
      else get_rows k' (S i) sum set id
  end.

(** The result and [*piValue]; [None] is an access outside the segments, or to one that is not attached. *)
(** Models [Attr_API_Get] (src/comm/Attr_API.c:395-424). *)
Definition Attr_API_Get (id : Z) (s : attr_state) : option (Z * Z) :=
  sum ← g_pSumShm s; set ← g_pSetShm s; get_rows rows 0 sum set id.

(** ** Text reports *)

(** Models [DEP_ATTTIBUTE_BASE] (src/comm/Attr_API.c:44-44). *)
Definition DEP_ATTTIBUTE_BASE : Z := 600.
(** Models [MAX_DEP_SHMEM_LEN] (src/comm/Attr_API.c:45-45). *)
Definition MAX_DEP_SHMEM_LEN : Z := 2 * 1024 * 1024.
(** Models [MAX_DEP_VALUE_LEN] (src/comm/Attr_API.c:46-46). *)
Definition MAX_DEP_VALUE_LEN : Z := MAX_DEP_SHMEM_LEN - 4.

(** [htonl], in memory *)
Definition be32 (z : Z) : bytes := reverse (le_split 4 (u32 z)).

(** The segment: the length and what follows it.  [lock] is the result of [semlock]; [None] is an access outside
    the segment. *)
(** Models [Attr_API_Alarm] (src/comm/Attr_API.c:474-527). *)
Definition Attr_API_Alarm (lock : Z) (attr_id : Z) (value : bytes) (seg : option (Z * bytes)) : option (Z * option (Z * bytes)) :=
  let len_ := s32 (len value) in
  if Z.ltb attr_id DEP_ATTTIBUTE_BASE || Z.eqb len_ 0 then Some (-1, seg)
  else if Z.ltb lock 0 then Some (-1, seg)
  else
    match seg with
    | None => Some (-1, None)
    | Some (plen, data) =>
        if Z.ltb MAX_DEP_VALUE_LEN (u64 plen) || Z.ltb (u64 (MAX_DEP_VALUE_LEN - u64 plen)) (u64 (s32 (len_ + 8)))
        then Some (-1, seg)
        else
          data ← mem_write data plen (be32 len_ ++ be32 attr_id ++ value);
          Some (0, Some (s32 (plen + len_ + 8), data))
    end.

(** [semget] gives -1 or the semaphore, [semop] the result. *)
(** Models [semlock] (src/comm/Attr_API.c:431-453). *)
Definition semlock (lockid op : Z) : Z := if Z.eqb lockid (-1) then -1 else op.
(** Models [semunlock] (src/comm/Attr_API.c:455-471). *)
Definition semunlock (lockid op : Z) : Z := if Z.eqb lockid (-1) then -1 else op.

(** Models [ATTR_EXE_DATA] (src/comm/Attr_API.c:49-49). *)
Definition ATTR_EXE_DATA : Z := 12345678.
(** Models [ATTR_EXE_STR] (src/comm/Attr_API.c:51-51). *)
Definition ATTR_EXE_STR : Z := 12345679.

(** [addr] is what [inet_aton] gives for the text: [None] for a bad one, else the four bytes of [s_addr].  A NULL text is bad too. *)
(** Models [setNumAttrWithIP] (src/comm/Attr_API.c:538-579). *)
Definition setNumAttrWithIP (addr : option bytes) (lock iAttrId iValue : Z) (seg : option (Z * bytes)) : option (Z * option (Z * bytes)) :=
  match addr with
  | None => Some (-1, seg)
  | Some a =>
      if Z.leb iAttrId 0 then Some (-1, seg)
      else Attr_API_Alarm lock ATTR_EXE_DATA (be32 (le_combine a) ++ be32 iAttrId ++ be32 iValue) seg
  end.

(** The report is put together in a buffer of 65536 bytes. *)
(** Models [setStrAttrWithIP] (src/comm/Attr_API.c:581-631). *)
Definition setStrAttrWithIP (addr : option bytes) (lock iAttrID : Z) (pval : bytes) (seg : option (Z * bytes)) : option (Z * option (Z * bytes)) :=
  if Z.ltb 65536 (len pval) then Some (-1, seg)
  else
    match addr with
    | None => Some (-1, seg)
    | Some a =>
        if Z.leb iAttrID 0 then Some (-1, seg)
        else
          let report := be32 (le_combine a) ++ be32 iAttrID ++ be32 (len pval) ++ pval in
          if Z.ltb 65536 (len report) then None else Attr_API_Alarm lock ATTR_EXE_STR report seg
    end.

(** [s_addr] is in network order already: [htonl] turns the address round. *)
Example address_reversed : be32 (le_combine [10; 1; 2; 3]) = [3; 2; 1; 10].
Proof. reflexivity. Qed.

(** A text of 65525 to 65536 bytes passes the test of its length and does not fit behind the 12 bytes before it. *)
Lemma long_text_overflows a lock id pval seg :
  len a = 4 -> 0 < id -> 65524 < len pval <= 65536 -> setStrAttrWithIP (Some a) lock id pval seg = None.
Proof.
  intros Ha Hid Hl. unfold setStrAttrWithIP. rewrite (proj2 (Z.ltb_ge _ _)), (proj2 (Z.leb_gt _ _)) by lia. cbv zeta.
  rewrite (proj2 (Z.ltb_lt _ _)); [done|]. unfold be32. rewrite !len_app. unfold len at 1 2 3. rewrite !length_reverse.
  change (Z.of_nat (length (le_split 4 (u32 (le_combine a))))) with (len (le_split 4 (u32 (le_combine a)))).
  change (Z.of_nat (length (le_split 4 (u32 id)))) with (len (le_split 4 (u32 id))).
  change (Z.of_nat (length (le_split 4 (u32 (len pval))))) with (len (le_split 4 (u32 (len pval)))). rewrite !len_le_split. lia.
Qed.

(** Models [DetachShm] (src/comm/Attr_API.c:142-155). *)
Definition DetachShm (s : attr_state) : attr_state := mk_state None None (iInitRet s).

(** ** Every call ends *)

Definition is_done (c : call) : bool := match a_pc c with Done _ => true | _ => false end.

(** A bound on the steps that are left in this attempt, and in all. *)
Definition pc_left (pc : attr_pc) : nat :=
  match pc with
  | Scan i es => 4 * (rows - i) + 2 * length es + 100
  | Again i es => 4 * (rows - i) + 2 * length es + 99
  | Load _ => 3
  | Swap _ _ => 2
  | Insert es => 2 * length es + 1
  | Taken _ es => 2 * length es + 2
  | Evict i => 2 * i + 1
  | Replace i _ => 2 * i + 2
  | Done _ => 0
  end.
Definition steps_left (c : call) : nat :=
  if is_done c then 0%nat else (Z.to_nat (51 - a_depth c) * 300 + pc_left (a_pc c))%nat.

Lemma retry_left c : (steps_left (retry c) < Z.to_nat (51 - a_depth c) * 300 + 1)%nat.
Proof.
  unfold retry, MAX_ATTEMPT_TIMES. destruct (Z.ltb_spec 50 (a_depth c + 1)); cbn; [lia|]. unfold steps_left. cbn. lia.
Qed.

Lemma after_row_left i es : (pc_left (after_row i es) < 4 * (rows - i) + 2 * length es + 99)%nat.
Proof.
  unfold after_row. destruct (Nat.ltb_spec (S i) rows); [cbn [pc_left]; lia|]. unfold rows in *. cbn [length g_arrMod] in *.
  destruct es; cbn [pc_left length]; lia.
Qed.

Lemma goto_left pc c : (steps_left (goto pc c) <= Z.to_nat (51 - a_depth c) * 300 + pc_left pc)%nat.
Proof. unfold steps_left, is_done, goto. cbn. destruct pc; cbn; lia. Qed.

(** Whatever the memory holds, a step of the call brings it nearer to its end. *)
Lemma attr_step_left m c : is_done c = false -> (steps_left (attr_step m c).2 < steps_left c)%nat.
Proof.
  intros Hd. assert (Hc : steps_left c = (Z.to_nat (51 - a_depth c) * 300 + pc_left (a_pc c))%nat) by (unfold steps_left; by rewrite Hd).
  rewrite Hc. unfold attr_step. unfold is_done in Hd.
  destruct (a_pc c) as [i es|i es|p|p copy|[|p es]|p es|[|i]|i copy|r]; [..|done]; cbn [pc_left].
  - destruct (Z.eqb _ 0); cbn [snd]; eapply Nat.le_lt_trans; try apply goto_left; [|cbn [pc_left]; lia].
    pose proof (after_row_left i (es ++ [slot_of i (a_id c)])). rewrite length_app in H. cbn [length] in H.
    assert (pc_left (after_row i (es ++ [slot_of i (a_id c)])) < 4 * (rows - i) + 2 * length es + 100)%nat; [|lia].
    unfold after_row in *. destruct (Nat.ltb_spec (S i) rows); [cbn [pc_left] in *; rewrite length_app; cbn [length]; lia|].
    destruct (es ++ [slot_of i (a_id c)]) eqn:E; [by destruct es|]. cbn [pc_left]. rewrite <- E, length_app. cbn [length]. lia.
  - destruct (Z.eqb _ _); cbn [snd]; eapply Nat.le_lt_trans; try apply goto_left; [cbn [pc_left]; lia|].
    pose proof (after_row_left i es). lia.
  - destruct (negb _); cbn [snd]; [pose proof (retry_left c); lia|]. eapply Nat.le_lt_trans; [apply goto_left|]. cbn. lia.
  - destruct (UpdateNode _ _ _ _ _ _) as [[x|] m']; cbn [snd]; [unfold steps_left; cbn; lia|]. pose proof (retry_left c). lia.
  - unfold steps_left. cbn. lia.
  - destruct (CAS _ _ _ _) as [[] m']; cbn [snd]; [unfold steps_left; cbn; lia|].
    eapply Nat.le_lt_trans; [apply goto_left|]. cbn [pc_left length]. lia.
  - destruct (Z.eqb _ _); cbn [snd]; [pose proof (retry_left c); lia|]. eapply Nat.le_lt_trans; [apply goto_left|]. cbn [pc_left]. lia.
  - unfold steps_left. cbn. lia.
  - destruct (Z.eqb _ _); cbn [snd]; eapply Nat.le_lt_trans; try apply goto_left; cbn [pc_left]; lia.
  - destruct (CAS _ _ _ _) as [[] m']; cbn [snd]; [unfold steps_left; cbn; lia|].
    eapply Nat.le_lt_trans; [apply goto_left|]. cbn [pc_left]. lia.
Qed.

(** The steps of one call, for the memory that each of them finds. *)
Definition own_steps (ms : list attr_mem) (c : call) : call := foldl (fun c m => (attr_step m c).2) c ms.

Lemma own_steps_end ms : forall c, (steps_left c <= length ms)%nat -> is_done (own_steps ms c) = true.
Proof.
  assert (Hdone : forall c, is_done c = true -> forall m, (attr_step m c).2 = c).
  { intros c Hc m. unfold is_done in Hc. unfold attr_step. by destruct (a_pc c). }
  induction ms as [|m ms IH]; intros c Hl; cbn.
  - destruct (is_done c) eqn:E; [done|]. unfold steps_left in Hl. rewrite E in Hl. destruct (a_pc c) eqn:E2; cbn in Hl; try lia. unfold is_done in E. by rewrite E2 in E.
  - apply IH. destruct (is_done c) eqn:E.
    + rewrite Hdone by done. unfold steps_left. rewrite E. lia.
    + pose proof (attr_step_left m c E). cbn in Hl. lia.
Qed.

(** ** No count is lost *)

Definition contrib (id : Z) (n : attr_node) : Z := if Z.eqb (dwAttrId n) id then dwCurVal n else 0.

(** The values of all the nodes with the number [id]. *)
Definition total (id : Z) (m : attr_mem) : Z := map_fold (fun _ n acc => contrib id n + acc) 0 m.

Lemma total_insert_new id m p n : m !! p = None -> total id (<[p := n]> m) = contrib id n + total id m.
Proof. intros H. unfold total. rewrite map_fold_insert_L; [done|intros; lia|done]. Qed.

Lemma total_insert id m p n : id <> 0 -> total id (<[p := n]> m) = total id m - contrib id (node_at m p) + contrib id n.
Proof.
  intros Hid. unfold node_at. destruct (m !! p) as [x|] eqn:E; cbn [default Datatypes.id].
  - rewrite <- insert_delete_eq. rewrite total_insert_new by apply lookup_delete_eq.
    pose proof (total_insert_new id (delete p m) p x (lookup_delete_eq _ _)) as Hx. rewrite insert_delete_id in Hx by done. lia.
  - rewrite total_insert_new by done. assert (contrib id empty_node = 0) by (unfold contrib; by destruct (Z.eqb _ _)). cbn [Datatypes.id]. lia.
Qed.

(** A call of an adding function, on its way. *)
Definition call_ok (c : call) : Prop :=
  a_kind c = AddValue /\ (is_done c = false -> a_id c <> 0) /\
  match a_pc c with
  | Swap _ copy => dwAttrId copy = a_id c
  | Replace _ copy => dwCurVal copy = 0
  | Done r => r = 0 -> a_id c <> 0
  | _ => True
  end.

Definition succeeded (c : call) : bool := match a_pc c with Done r => Z.eqb r 0 | _ => false end.

Lemma goto_ok pc c : call_ok c -> a_id c <> 0 ->
  match pc with Swap _ copy => dwAttrId copy = a_id c | Replace _ copy => dwCurVal copy = 0 | Done _ => False | _ => True end ->
  call_ok (goto pc c) /\ succeeded (goto pc c) = false.
Proof. intros (Hk & _ & _) Hid Hpc. by destruct pc. Qed.

Lemma retry_ok c : call_ok c -> a_id c <> 0 -> call_ok (retry c) /\ succeeded (retry c) = false.
Proof. intros (Hk & _ & _) Hid. unfold retry. by destruct (Z.ltb _ _). Qed.

Lemma after_row_ok i es c : call_ok c -> a_id c <> 0 -> call_ok (goto (after_row i es) c) /\ succeeded (goto (after_row i es) c) = false.
Proof. intros. apply goto_ok; [done..|]. unfold after_row. destruct (Nat.ltb _ _); [done|]. by destruct es. Qed.

Lemma CAS_spec p old new m b m' :
  CAS p old new m = (b, m') -> if b then node_at m p = old /\ m' = <[p := new]> m else m' = m.
Proof. unfold CAS. case_decide; intros [= <- <-]; done. Qed.

(** A step changes nothing, or it is the end of the call: it succeeded, and its value was added to its number's total. *)
Lemma attr_step_effect m c m' c' :
  call_ok c -> is_done c = false -> attr_step m c = (m', c') ->
  call_ok c' /\ a_id c' = a_id c /\ a_val c' = a_val c /\
  ((m' = m /\ succeeded c' = false) \/
   (succeeded c' = true /\ forall id, id <> 0 -> u32 (total id m') = u32 (total id m + (if Z.eqb (a_id c) id then a_val c else 0)))).
Proof.
  intros Hok Hd Hs. pose proof Hok as (Hk & Hid & Hpc). specialize (Hid Hd).
  assert (Hret : retry c = c' -> m' = m -> call_ok c' /\ a_id c' = a_id c /\ a_val c' = a_val c /\ ((m' = m /\ succeeded c' = false) \/
    (succeeded c' = true /\ forall id, id <> 0 -> u32 (total id m') = u32 (total id m + (if Z.eqb (a_id c) id then a_val c else 0))))).
  { intros <- ->. destruct (retry_ok c Hok Hid). split; [done|]. unfold retry. destruct (Z.ltb _ _); auto. }
  assert (Hgo : forall pc, goto pc c = c' -> m' = m -> call_ok (goto pc c) /\ succeeded (goto pc c) = false ->
    call_ok c' /\ a_id c' = a_id c /\ a_val c' = a_val c /\ ((m' = m /\ succeeded c' = false) \/
    (succeeded c' = true /\ forall id, id <> 0 -> u32 (total id m') = u32 (total id m + (if Z.eqb (a_id c) id then a_val c else 0))))).
  { intros pc <- -> [? ?]. split; [done|]. split; [done|]. split; [done|]. by left. }
  assert (Hfail : finish (-3) (a_out c) c = c' -> m' = m -> call_ok c' /\ a_id c' = a_id c /\ a_val c' = a_val c /\ ((m' = m /\ succeeded c' = false) \/
    (succeeded c' = true /\ forall id, id <> 0 -> u32 (total id m') = u32 (total id m + (if Z.eqb (a_id c) id then a_val c else 0))))).
  { intros <- ->. split; [by split|auto]. }
  assert (Hwin : forall p old x out, finish 0 out c = c' -> node_at m p = old -> m' = <[p := mk_attr (a_id c) x]> m ->
    (forall id, id <> 0 -> u32 (x * (if Z.eqb (a_id c) id then 1 else 0)) = u32 (contrib id old + (if Z.eqb (a_id c) id then a_val c else 0))) ->
    call_ok c' /\ a_id c' = a_id c /\ a_val c' = a_val c /\ ((m' = m /\ succeeded c' = false) \/
    (succeeded c' = true /\ forall id, id <> 0 -> u32 (total id m') = u32 (total id m + (if Z.eqb (a_id c) id then a_val c else 0))))).
  { intros p old x out <- Ho -> Hx. split; [split; [exact Hk|split; [intros; exact Hid|intros _; exact Hid]]|]. split; [done|]. split; [done|]. right. split; [done|]. intros id Hi.
    rewrite total_insert, Ho by done. specialize (Hx id Hi). unfold contrib at 2. cbn [dwAttrId dwCurVal].
    replace (if Z.eqb (a_id c) id then x else 0) with (x * (if Z.eqb (a_id c) id then 1 else 0)) by (destruct (Z.eqb _ _); lia).
    unfold u32 in *. rewrite <- Zplus_mod_idemp_r, Hx, Zplus_mod_idemp_r. f_equal. lia. }
  unfold attr_step in Hs. unfold is_done in Hd.
  destruct (a_pc c) as [i es|i es|p|p copy|[|p es]|p es|[|i]|i copy|r] eqn:Epc; [..|done].
  - destruct (Z.eqb _ 0); injection Hs as <- <-; [eapply Hgo; [done|done|by apply after_row_ok]|eapply Hgo; [done|done|by apply goto_ok]].
  - destruct (Z.eqb _ _); injection Hs as <- <-; [eapply Hgo; [done|done|by apply goto_ok]|eapply Hgo; [done|done|by apply after_row_ok]].
  - destruct (Z.eqb_spec (dwAttrId (node_at m p)) (a_id c)) as [E|E]; cbn [negb] in Hs; injection Hs as <- <-; [|by apply Hret].
    eapply Hgo; [done|done|by apply goto_ok].
  - rewrite Hk in Hs. cbn [UpdateNode] in Hs. unfold callback_AddValue in Hs.
    destruct (CAS _ _ _ _) as [b m1] eqn:Ec. apply CAS_spec in Ec. destruct b; injection Hs as <- <-; [|by apply Hret].
    destruct Ec as [Ec ->]. eapply Hwin; [done|exact Ec|done|]. intros id Hi. unfold contrib. rewrite Hpc.
    destruct (Z.eqb (a_id c) id); [|f_equal; lia]. rewrite Z.mul_1_r. unfold u32. rewrite Zmod_mod. done.
  - injection Hs as <- <-. by apply Hfail.
  - destruct (CAS _ _ _ _) as [b m1] eqn:Ec. apply CAS_spec in Ec. destruct b; injection Hs as <- <-.
    + destruct Ec as [Ec ->]. eapply Hwin; [done|exact Ec|done|]. intros id Hi. unfold contrib, empty_node. cbn [dwAttrId dwCurVal].
      destruct (Z.eqb_spec 0 id); [lia|]. destruct (Z.eqb (a_id c) id); f_equal; lia.
    + eapply Hgo; [done|done|by apply goto_ok].
  - destruct (Z.eqb _ _); injection Hs as <- <-; [by apply Hret|]. eapply Hgo; [done|done|by apply goto_ok].
  - injection Hs as <- <-. by apply Hfail.
  - destruct (Z.eqb_spec (dwCurVal (node_at m (slot_of i (a_id c)))) 0); injection Hs as <- <-; (eapply Hgo; [done|done|by apply goto_ok]).
  - destruct (CAS _ _ _ _) as [b m1] eqn:Ec. apply CAS_spec in Ec. destruct b; injection Hs as <- <-.
    + destruct Ec as [Ec ->]. eapply Hwin; [done|exact Ec|done|]. intros id Hi. unfold contrib. rewrite Hpc.
      replace (if dwAttrId copy =? id then 0 else 0) with 0 by (destruct (Z.eqb _ _); done).
      destruct (Z.eqb (a_id c) id); f_equal; lia.
    + eapply Hgo; [done|done|by apply goto_ok].
Qed.

(** ** Several callers *)

(** The caller [i] makes its next step. *)
Definition sys_step (s : attr_mem * list call) (i : nat) : attr_mem * list call :=
  match s.2 !! i with
  | Some c => let '(m', c') := attr_step s.1 c in (m', <[i := c']> s.2)
  | None => s
  end.
Definition run (sched : list nat) (s : attr_mem * list call) : attr_mem * list call := foldl sys_step s sched.

(** What the calls that succeeded added to the number [id]. *)
Definition gain (id : Z) (c : call) : Z := if succeeded c && Z.eqb (a_id c) id then a_val c else 0.
Definition gained (id : Z) (cs : list call) : Z := foldr (fun c acc => gain id c + acc) 0 cs.

Lemma gained_insert id cs : forall i c c', cs !! i = Some c -> gained id (<[i := c']> cs) = gained id cs - gain id c + gain id c'.
Proof.
  induction cs as [|a cs IH]; intros [|i] c c' Hc; try done.
  - injection Hc as ->. cbn. lia.
  - change (gain id a + gained id (<[i := c']> cs) = gain id a + gained id cs - gain id c + gain id c'). rewrite (IH i c c' Hc). lia.
Qed.

Lemma done_stays m c : is_done c = true -> attr_step m c = (m, c).
Proof. unfold is_done, attr_step. by destruct (a_pc c). Qed.

Lemma sys_step_conserves id t m cs i m' cs' :
  id <> 0 -> Forall call_ok cs -> u32 (total id m) = u32 (t + gained id cs) -> sys_step (m, cs) i = (m', cs') ->
  Forall call_ok cs' /\ u32 (total id m') = u32 (t + gained id cs').
Proof.
  intros Hid Hok Ht Hs. unfold sys_step in Hs. cbn [fst snd] in Hs. destruct (cs !! i) as [c|] eqn:E; [|by injection Hs as <- <-].
  destruct (attr_step m c) as [m1 c1] eqn:Es. injection Hs as <- <-.
  pose proof (proj1 (Forall_lookup _ _) Hok i c E) as Hc. destruct (is_done c) eqn:Ed.
  { rewrite done_stays in Es by done. injection Es as <- <-. by rewrite list_insert_id. }
  destruct (attr_step_effect m c m1 c1 Hc Ed Es) as (Hc1 & Hi & Hv & Hcase). split; [by apply Forall_insert|].
  rewrite (gained_insert id cs i c c1 E). assert (gain id c = 0) as ->.
  { unfold gain, succeeded. unfold is_done in Ed. by destruct (a_pc c). }
  destruct Hcase as [[-> Hf]|[Hf Hu]].
  - unfold gain. rewrite Hf. cbn [andb]. rewrite Ht. f_equal. lia.
  - unfold gain. rewrite Hf, Hi, Hv. cbn [andb]. rewrite Hu by done. unfold u32 in *. rewrite <- Zplus_mod_idemp_l, Ht, Zplus_mod_idemp_l.
    f_equal. lia.
Qed.

Lemma run_conserves id t sched : forall m cs, id <> 0 -> Forall call_ok cs -> u32 (total id m) = u32 (t + gained id cs) ->
  let '(m', cs') := run sched (m, cs) in u32 (total id m') = u32 (t + gained id cs').
Proof.
  induction sched as [|i sched IH]; intros m cs Hid Hok Ht; [done|]. unfold run in *. cbn [foldl].
  destruct (sys_step (m, cs) i) as [m1 cs1] eqn:E.
  destruct (sys_step_conserves id t m cs i m1 cs1 Hid Hok Ht E) as [Hok1 Ht1]. by apply IH.
Qed.

Lemma start_call_ok id v : call_ok (start_call AddValue id v).
Proof. unfold start_call. destruct (Z.eqb_spec id 0); (split; [done|split; done]). Qed.

Definition requests (reqs : list (Z * Z)) : list call := (fun r => start_call AddValue (u32 r.1) (u32 r.2)) <$> reqs.

Lemma requests_gained id reqs : gained id (requests reqs) = 0.
Proof.
  induction reqs as [|r reqs IH]; [done|].
  change (gain id (start_call AddValue (u32 r.1) (u32 r.2)) + gained id (requests reqs) = 0). rewrite IH.
  unfold gain, succeeded, start_call. cbn [a_pc]. by destruct (Z.eqb (u32 r.1) 0).
Qed.

(** ** One caller *)

(** What a caller knows of the memory when nobody else changes it. *)
Definition solo_ok (m : attr_mem) (c : call) : Prop :=
  a_id c <> 0 /\
  let empties := Forall (fun p => dwAttrId (node_at m p) = 0) in
  match a_pc c with
  | Scan _ es | Again _ es | Insert es => empties es
  | Load p => dwAttrId (node_at m p) = a_id c
  | Swap p copy => node_at m p = copy
  | Taken p es => dwAttrId (node_at m p) = 0 /\ empties es
  | Evict _ => True
  | Replace i copy => node_at m (slot_of i (a_id c)) = copy
  | Done _ => False
  end.

Lemma after_row_solo m i es c :
  a_id c <> 0 -> Forall (fun p => dwAttrId (node_at m p) = 0) es -> solo_ok m (goto (after_row i es) c).
Proof. intros Hid He. split; [done|]. cbn. unfold after_row. destruct (Nat.ltb _ _); [done|]. by destruct es. Qed.

Lemma solo_step m c m' c' : solo_ok m c -> attr_step m c = (m', c') ->
  succeeded c' = true \/ (m' = m /\ (solo_ok m c' \/ a_pc c' = Done (-3))).
Proof.
  intros [Hid Hpc] Hs. unfold attr_step in Hs.
  destruct (a_pc c) as [i es|i es|p|p copy|[|p es]|p es|[|i]|i copy|r] eqn:Epc; [..|done].
  - destruct (Z.eqb_spec (dwAttrId (node_at m (slot_of i (a_id c)))) 0) as [E|E]; injection Hs as <- <-; right; (split; [done|left]); [|by split].
    apply after_row_solo; [done|]. apply Forall_app. split; [done|]. by apply Forall_singleton.
  - destruct (Z.eqb_spec (dwAttrId (node_at m (slot_of i (a_id c)))) (a_id c)) as [E|E]; injection Hs as <- <-; right; (split; [done|left]);
      [by split|by apply after_row_solo].
  - rewrite Hpc, Z.eqb_refl in Hs. injection Hs as <- <-. right. split; [done|left]. by split.
  - assert (exists x, UpdateNode (a_kind c) m p copy (a_id c) (a_val c) = (Some x, <[p := mk_attr (a_id c) x]> m)) as [x E].
    { destruct (a_kind c); cbn [UpdateNode]; unfold callback_AddValue, callback_SetValue, CAS; rewrite decide_True by done; eauto. }
    rewrite E in Hs. injection Hs as <- <-. by left.
  - injection Hs as <- <-. right. split; [done|]. by right.
  - apply Forall_cons in Hpc as [Hp Hes]. destruct (CAS _ _ _ _) as [[] m1] eqn:Ec; injection Hs as <- <-; [by left|].
    right. split; [done|left]. by split.
  - destruct Hpc as [Hp Hes]. rewrite Hp, (proj2 (Z.eqb_neq 0 (a_id c))) in Hs by done. injection Hs as <- <-.
    right. split; [done|left]. by split.
  - injection Hs as <- <-. right. split; [done|]. by right.
  - destruct (Z.eqb _ 0); injection Hs as <- <-; right; (split; [done|left]); by split.
  - unfold CAS in Hs. rewrite decide_True in Hs by done. injection Hs as <- <-. by left.
Qed.

Lemma solo_run fuel : forall m c, (steps_left c <= fuel)%nat -> solo_ok m c -> call_ok c ->
  exists m' c', solo fuel m c = Some (m', c') /\
    ((ret_of c' = 0 /\ forall id, id <> 0 -> u32 (total id m') = u32 (total id m + (if Z.eqb (a_id c) id then a_val c else 0))) \/
     (ret_of c' = -3 /\ m' = m)).
Proof.
  induction fuel as [|fuel IH]; intros m c Hl Hso Hok.
  - destruct Hso as [_ Hpc]. unfold steps_left, is_done in Hl. destruct (a_pc c); cbn in *; try lia; done.
  - assert (Hd : is_done c = false) by (destruct Hso as [_ Hpc]; unfold is_done; by destruct (a_pc c)).
    destruct (attr_step m c) as [m1 c1] eqn:Es. pose proof (attr_step_left m c Hd) as Hlt. rewrite Es in Hlt. cbn [snd] in Hlt.
    destruct (attr_step_effect m c m1 c1 Hok Hd Es) as (Hok1 & Hi & Hv & Heff).
    assert (Hsolo : solo (S fuel) m c = solo fuel m1 c1).
    { cbn [solo]. rewrite Es. unfold is_done in Hd. by destruct (a_pc c). }
    rewrite Hsolo. destruct (solo_step m c m1 c1 Hso Es) as [Hsu|[-> [Hso1|Hdone]]].
    + destruct Heff as [[_ Hf]|[_ Hu]]; [by rewrite Hsu in Hf|]. exists m1, c1. unfold succeeded in Hsu.
      destruct (a_pc c1) eqn:Ep; try done. apply Z.eqb_eq in Hsu. subst ret. split; [destruct fuel; cbn; by rewrite Ep|].
      left. split; [unfold ret_of; by rewrite Ep|done].
    + destruct (IH m c1) as (m' & c' & E & Hr); [lia|done|done|]. exists m', c'. split; [done|]. by rewrite <- Hi, <- Hv.
    + exists m, c1. split; [destruct fuel; cbn; by rewrite Hdone|]. right. split; [unfold ret_of; by rewrite Hdone|done].
Qed.

Lemma start_left k id v : (steps_left (start_call k id v) <= Z.to_nat 15560)%nat.
Proof.
  unfold start_call, steps_left. destruct (Z.eqb id 0); unfold is_done; cbn [a_pc a_depth pc_left]; [lia|].
  apply Nat.leb_le. vm_compute. done.
Qed.

(** ** Properties *)

(** C31: however the steps of any number of callers of [Attr_API] interleave, and whatever the table held, the values
    of the nodes of a number add up, in 32 bits, to what they were and what the calls that returned 0 added: no
    count is lost, and none is counted twice. *)
Theorem attr_conserved (reqs : list (Z * Z)) (m0 : attr_mem) (sched : list nat) (id : Z) :
  id <> 0 ->
  let '(m, cs) := run sched (m0, requests reqs) in u32 (total id m) = u32 (total id m0 + gained id cs).
Proof.
  intros Hid. apply run_conserves; [done| |rewrite requests_gained; f_equal; lia].
  apply Forall_fmap, Forall_true. intros r. apply start_call_ok.
Qed.

(** Two calls for the same number, in turns. *)
Lemma attr_conserved_witness :
  let '(m, cs) := run (concat (replicate 60 [0%nat; 1%nat])) (∅, requests [(433894, 5); (433894, 2 ^ 32 - 1)]) in
  u32 (total 433894 m) = u32 (total 433894 ∅ + gained 433894 cs).
Proof. apply (attr_conserved [(433894, 5); (433894, 2 ^ 32 - 1)] ∅). discriminate. Defined.

(** C32: a call of [CreateOrUpdateNode] is over after at most 15560 steps of its own, whatever the other callers make
    of the memory in between: nobody waits for anybody. *)
Theorem attr_wait_free (k : method) (id v : Z) (ms : list attr_mem) :
  15560 <= len ms -> is_done (own_steps ms (start_call k id v)) = true.
Proof. intros Hl. apply own_steps_end. pose proof (start_left k id v). unfold len in Hl. lia. Qed.

Lemma attr_wait_free_witness : is_done (own_steps (replicate (Z.to_nat 15560) ∅) (start_call AddValue 433894 1)) = true.
Proof. apply (attr_wait_free AddValue 433894 1 (replicate (Z.to_nat 15560) ∅)). unfold len. rewrite length_replicate. lia. Defined.

(** A call nobody interferes with ends; it returns 0 and adds its value to its number's total and to no other one, or
    it returns -3 and changes nothing. *)
Theorem attr_alone (m : attr_mem) (id v : Z) :
  id <> 0 ->
  exists m' c', solo (Z.to_nat 15560) m (start_call AddValue id v) = Some (m', c') /\
    ((ret_of c' = 0 /\ forall id', id' <> 0 -> u32 (total id' m') = u32 (total id' m + (if Z.eqb id id' then v else 0))) \/
     (ret_of c' = -3 /\ m' = m)).
Proof.
  intros Hid. destruct (solo_run (Z.to_nat 15560) m (start_call AddValue id v)) as (m' & c' & E & Hr).
  - apply start_left.
  - unfold start_call. rewrite (proj2 (Z.eqb_neq id 0)) by done. split; [done|]. by apply Forall_nil.
  - apply start_call_ok.
  - exists m', c'. split; [done|]. unfold start_call in Hr. cbn [a_id a_val] in Hr. done.
Qed.

(** A table in which the slots of the number 1 are taken by numbers that count 0. *)
Definition crowded : attr_mem :=
  foldr (fun i m => <[slot_of i 1 := mk_attr (Z.of_nat i + 2) 0]> m) ∅ (seq 0 40).

(** Two callers look for the new number 1 in a full table at the same time: the one whose exchange fails takes the
    next slot without looking whether the other one took the first for the same number.  The number has two nodes,
    and [Attr_API_Get] gives the value of one of them: 6, when 5 and 6 were added. *)
Theorem attr_duplicates :
  let '(m, cs) := run (replicate 81 0%nat ++ replicate 81 1%nat ++ [0; 1; 1; 1]%nat) (crowded, requests [(1, 5); (1, 6)]) in
  (succeeded <$> cs, total 1 m, Attr_API_Get 1 (mk_state (Some m) (Some ∅) 0)) = ([true; true], 11, Some (0, 6)).
Proof. vm_compute. reflexivity. Qed.

(** [Attr_API_EX] leaves the caller's variable alone when the number is new. *)
Theorem attr_ex_unset : fst <$> Attr_API_EX 200 (Some ∅) (Some ∅) 7 5 (mk_state None None 0) = Some (0, None).
Proof. vm_compute. reflexivity. Qed.

(** A negative number can be counted but not read: the remainder of an [int] is negative. *)
Theorem attr_get_negative :
  match Attr_API 200 (Some ∅) (Some ∅) (-5) 1 (mk_state None None 0) with
  | Some (0, s) => Attr_API_Get (-5) s = None
  | _ => False
  end.
Proof. vm_compute. reflexivity. Qed.
