(* ===== verification/InitOnce.v ===== *)
(** * Attaching the counters by several threads (src/comm/spin_lock.h, InitOnce of src/comm/Attr_API.c)

    A thread that finds the segments not attached takes the spin lock, attaches them and gives the lock back; attaching
    succeeds here.  A step is one access to
    memory that threads share.  Theorems: the lock is taken while exactly one thread is inside ([init_exclusive]), and the lock does not
    help, since a thread does not look again when it has it: each thread may attach the segments once more ([init_bounded],
    [attached_twice]). *)

From S2P Require Import Prelude.

(** Where a thread is: before the test of the pointer; at the compare-and-swap of [spinlock_lock]; inside [InitShm]; before
    [spinlock_unlock]; behind the call. *)
(** Models [InitOnce] (src/comm/Attr_API.c:181-187). *)
Inductive init_pc := AtTest | AtLock | InInit | AtUnlock | Past.
#[export] Instance init_pc_eq : EqDecision init_pc.
Proof. solve_decision. Defined.

(** The lock, whether the pointer is set, how often the segments were attached, and the threads. *)
Record init_state := mk_init { lock : bool; is_set : bool; nattach : nat; threads : list init_pc }.

(** Models [spinlock_lock] (src/comm/spin_lock.h:25-32). *)
Definition spinlock_lock (l : bool) : option bool := if l then None else Some true.
(** Models [spinlock_unlock] (src/comm/spin_lock.h:34-37). *)
Definition spinlock_unlock (l : bool) : bool := false.

(** One step of thread [i]; a thread that does not get the lock tries again. *)
(** Models [Attr_API] (src/comm/Attr_API.c:349-363). *)
Definition init_step (i : nat) (s : init_state) : option init_state :=
  pc ← threads s !! i;
  let at_ pc' l g n := Some (mk_init l g n (<[i := pc']> (threads s))) in
  match pc with
  | AtTest => at_ (if is_set s then Past else AtLock) (lock s) (is_set s) (nattach s)
  | AtLock => match spinlock_lock (lock s) with Some l => at_ InInit l (is_set s) (nattach s) | None => Some s end
  | InInit => at_ AtUnlock (lock s) true (S (nattach s))
  | AtUnlock => at_ Past (spinlock_unlock (lock s)) (is_set s) (nattach s)
  | Past => None
  end.

Definition init_start (n : nat) : init_state := mk_init false false 0 (replicate n AtTest).

Inductive init_reach (n : nat) : init_state -> Prop :=
  | init_first : init_reach n (init_start n)
  | init_more i s s' : init_reach n s -> init_step i s = Some s' -> init_reach n s'.

Definition inside (pc : init_pc) : bool := match pc with InInit | AtUnlock => true | _ => false end.
(** Attached and gone on. *)
Definition through (pc : init_pc) : bool := match pc with AtUnlock | Past => true | _ => false end.

Definition count (f : init_pc -> bool) (l : list init_pc) : nat := length (List.filter f l).

(** A thread moves from [pc] to [pc']. *)
Lemma count_insert f l i pc pc' : l !! i = Some pc ->
  (count f (<[i := pc']> l) + (if f pc then 1 else 0) = count f l + (if f pc' then 1 else 0))%nat.
Proof.
  unfold count. revert i. induction l as [|x l IH]; intros i Hi; [done|]. destruct i as [|i].
  - injection Hi as ->. change (<[0%nat := pc']> (pc :: l)) with (pc' :: l). cbn [List.filter]. destruct (f pc), (f pc'); cbn [length]; lia.
  - change (<[S i := pc']> (x :: l)) with (x :: <[i := pc']> l). specialize (IH i Hi). cbn [List.filter]. destruct (f x); cbn [length]; lia.
Qed.

Record init_ok (s : init_state) : Prop := {
  io_lock : count inside (threads s) = if lock s then 1%nat else 0%nat;
  io_attach : (nattach s <= count through (threads s))%nat;
  io_set : is_set s = bool_decide (0 < nattach s)%nat }.

Lemma init_step_ok i s s' : init_ok s -> init_step i s = Some s' -> init_ok s'.
Proof.
  intros [L A G] E. unfold init_step in E. destruct (threads s !! i) as [pc|] eqn:Hi; [|done]. cbn in E.
  pose proof (fun pc' => count_insert inside (threads s) i pc pc' Hi) as Hin.
  pose proof (fun pc' => count_insert through (threads s) i pc pc' Hi) as Hth.
  destruct pc.
  - injection E as <-. specialize (Hin (if is_set s then Past else AtLock)). specialize (Hth (if is_set s then Past else AtLock)).
    split; cbn [lock threads nattach is_set]; [|..|done]; destruct (is_set s); cbn in Hin, Hth |- *; lia.
  - destruct (lock s) eqn:El; cbn in E; [injection E as <-; split; [by rewrite El|done|done]|]. injection E as <-.
    specialize (Hin InInit). specialize (Hth InInit). cbn in Hin, Hth. split; cbn [lock threads nattach is_set]; [lia|lia|done].
  - injection E as <-. specialize (Hin AtUnlock). specialize (Hth AtUnlock). cbn in Hin, Hth.
    split; cbn [lock threads nattach is_set]; [lia|lia|done].
  - injection E as <-. specialize (Hin Past). specialize (Hth Past). cbn in Hin, Hth.
    split; cbn [lock threads nattach is_set spinlock_unlock]; [destruct (lock s); lia|lia|done].
  - done.
Qed.

Lemma init_start_ok n : init_ok (init_start n).
Proof.
  split; cbn; [| lia|done]. unfold count. induction n as [|n IH]; [done|]. done.
Qed.

Lemma init_reach_ok n s : init_reach n s -> init_ok s.
Proof. induction 1; [apply init_start_ok|by eapply init_step_ok]. Qed.

(** No two threads are inside, and while one is, the lock is taken. *)
Theorem init_exclusive (n : nat) (s : init_state) : init_reach n s -> count inside (threads s) = if lock s then 1%nat else 0%nat.
Proof. intros H. apply (init_reach_ok n s H). Qed.

(** The segments are attached by a thread that is through, and not more often than there are such threads. *)
Theorem init_bounded (n : nat) (s : init_state) : init_reach n s -> (nattach s <= count through (threads s))%nat /\ is_set s = bool_decide (0 < nattach s)%nat.
Proof. intros H. split; apply (init_reach_ok n s H). Qed.

(** Two threads test the pointer before the first one has the lock: the segments are attached twice, and only the second
    attachment can be given back. *)
Example attached_twice :
  (nattach <$> foldl (fun s i => s ≫= init_step i) (Some (init_start 2)) [0; 1; 0; 0; 0; 1; 1; 1]%nat) = Some 2%nat.
Proof. reflexivity. Qed.
