(* ===== verification/Cfg.v ===== *)
(** * Configuration files (src/comm/oi_cfg.c, src/comm/oi_cfg.h)

    [TLib_Cfg_GetConfig] is given a list of parameters, each with a name, a type and a default, and a file
    of lines that begin with a name.  The variables it writes to are a list of values, one for each
    parameter.  A [double] is kept as the text that [atof] is given. *)

From S2P Require Import Prelude Crypt Keys.

(** ** The standard library *)

Definition digit_of (base c : Z) : option Z :=
  let d := if Z.leb 48 c && Z.leb c 57 then c - 48
           else if Z.leb 97 c && Z.leb c 122 then c - 87
           else if Z.leb 65 c && Z.leb c 90 then c - 55 else 36 in
  if Z.ltb d base then Some d else None.

Fixpoint digits (base acc : Z) (s : bytes) : Z :=
  match s with
  | c :: s' => match digit_of base c with Some d => digits base (acc * base + d) s' | None => acc end
  | [] => acc
  end.

(** The number at the front of [s] with the base of its prefix, and whether there is a minus sign. *)
Definition number (s : bytes) : Z * bool :=
  let s := skip_spaces s in
  let '(neg, s) := match s with 45 :: s' => (true, s') | 43 :: s' => (false, s') | _ => (false, s) end in
  (match s with
   | 48 :: x :: c :: s' =>
       if (Z.eqb x 120 || Z.eqb x 88) && bool_decide (is_Some (digit_of 16 c)) then digits 16 0 (c :: s') else digits 8 0 s
   | 48 :: _ => digits 8 0 s
   | _ => digits 10 0 s
   end, neg).

(** [strtol(s, NULL, 0)] and [strtoul(s, NULL, 0)] for a [long] of 64 bits. *)
Definition strtol (s : bytes) : Z :=
  let '(n, neg) := number s in if neg : bool then Z.max (- 2 ^ 63) (- n) else Z.min (2 ^ 63 - 1) n.
Definition strtoul (s : bytes) : Z :=
  let '(n, neg) := number s in if Z.ltb (2 ^ 64 - 1) n then 2 ^ 64 - 1 else if neg : bool then u64 (- n) else n.

(** [strncpy(dst, src, n-1); dst[n-1] = 0] *)
Definition strncpy (n : Z) (src : bytes) : bytes := take (Z.to_nat (n - 1)) (c_str src).

(** [fgets(line, n, file)]: at most [n - 1] characters, up to a newline. *)
Fixpoint fgets (n : nat) (s : bytes) : bytes * bytes :=
  match n, s with
  | S n', c :: s' => if Z.eqb c 10 then ([c], s') else let '(l, r) := fgets n' s' in (c :: l, r)
  | _, _ => ([], s)
  end.

(** ** Words *)

(** Models [MAX_CONFIG_LINE_LEN] (src/comm/oi_cfg.c:11-11). *)
Definition MAX_CONFIG_LINE_LEN : Z := 1023.
(** Models [US] (src/comm/oi_cfg.c:12-12). *)
Definition US : Z := 31.

Definition is_blank (c : Z) : bool := Z.eqb c 32 || Z.eqb c 9 || Z.eqb c 10 || Z.eqb c US.

(** The first word of [src], and [src] from its second word on. *)
(** Models [get_val] (src/comm/oi_cfg.c:16-43). *)
Fixpoint get_val (first space : bool) (mtime : Z) (descp srcp : bytes) : bytes * bytes :=
  match srcp with
  | [] => (descp, [])
  | c :: srcp' =>
      if is_blank c then get_val false true mtime descp srcp'
      else
        let mtime := if space || first then mtime + 1 else mtime in
        if Z.eqb mtime 2 then (descp, srcp) else get_val false false mtime (descp ++ [c]) srcp'
  end.

Definition get_word (s : bytes) : bytes * bytes := get_val true false 0 [] s.

(** ** Parameters *)

(** Models [CFG_STRING] (src/comm/oi_cfg.h:4-10). *)
Inductive cfg_type := CFG_STRING | CFG_INT | CFG_LONG | CFG_DOUBLE | CFG_LINE | CFG_UINT | CFG_ULONG.

Inductive cfg_value := CStr (s : bytes) | CNum (z : Z) | CDbl (text : bytes).

(** A name, a type, the default and the size of the variable, for text. *)
Record param := mk_param { p_name : bytes; p_type : cfg_type; p_default : cfg_value; p_size : Z }.

(** The value a variable starts with. *)
(** Models [InitDefault] (src/comm/oi_cfg.c:45-103). *)
Definition InitDefault (p : param) : cfg_value :=
  match p_type p, p_default p with
  | (CFG_LINE | CFG_STRING), CStr s => CStr (strncpy (p_size p) s)
  | _, v => v
  end.

(** The value for the text [sV], the first word of [sLine]. *)
(** Models [SetVal] (src/comm/oi_cfg.c:174-199). *)
Definition parse_value (p : param) (sLine sV : bytes) : cfg_value :=
  match p_type p with
  | CFG_LINE => CStr (strncpy (p_size p) sLine)
  | CFG_STRING => CStr (strncpy (p_size p) sV)
  | CFG_LONG => CNum (strtol sV)
  | CFG_ULONG => CNum (strtoul sV)
  | CFG_UINT => CNum (u32 (strtoul sV))
  | CFG_INT => CNum (s32 (strtol sV))
  | CFG_DOUBLE => CDbl sV
  end.

(** One line: the first parameter of the name is set.  A [double] that is passed over gets its default
    back. *)
(** Models [SetVal] (src/comm/oi_cfg.c:105-203). *)
Fixpoint SetVal (sP sLine : bytes) (ps : list param) (vs : list cfg_value) : list cfg_value :=
  match ps, vs with
  | p :: ps', v :: vs' =>
      if bool_decide (sP = p_name p) then parse_value p sLine (get_word sLine).1 :: vs'
      else (match p_type p with CFG_DOUBLE => p_default p | _ => v end) :: SetVal sP sLine ps' vs'
  | _, _ => vs
  end.

(** The name of a line and what follows it; [None] for a comment. *)
(** Models [GetParamVal] (src/comm/oi_cfg.c:205-215). *)
Definition GetParamVal (sLine : bytes) : option (bytes * bytes) :=
  let '(sParam, sVal) := get_word sLine in
  match sParam with 35 :: _ => None | _ => Some (sParam, sVal) end.

(** The lines of a file; long ones come in pieces. *)
Fixpoint lines (fuel : nat) (text : bytes) : list bytes :=
  match fuel, text with
  | S fuel', _ :: _ => let '(l, r) := fgets (Z.to_nat MAX_CONFIG_LINE_LEN) text in c_str l :: lines fuel' r
  | _, _ => []
  end.

(** Models [TLib_Cfg_GetConfig] (src/comm/oi_cfg.c:233-246). *)
Definition read_line (ps : list param) (vs : list cfg_value) (sLine : bytes) : list cfg_value :=
  match GetParamVal sLine with Some (sParam, sVal) => SetVal sParam sVal ps vs | None => vs end.

(** [None] is a file that cannot be opened. *)
(** Models [TLib_Cfg_GetConfig] (src/comm/oi_cfg.c:217-249). *)
Definition TLib_Cfg_GetConfig (ps : list param) (file : option bytes) : list cfg_value :=
  let vs := InitDefault <$> ps in
  match file with
  | None => vs
  | Some text => foldl (read_line ps) vs (lines (length text) text)
  end.

(** ** What a file means *)

(** The values the lines give to a name. *)
Definition settings (name : bytes) (ls : list bytes) : list bytes :=
  omap (fun l => '(n, v) ← GetParamVal l; if bool_decide (n = name) then Some v else None) ls.

(** The last line that begins with the name decides. *)
Definition meaning (p : param) (ls : list bytes) : cfg_value :=
  match last (settings (p_name p) ls) with
  | Some v => parse_value p v (get_word v).1
  | None => InitDefault p
  end.

Lemma SetVal_length sP sLine ps : forall vs, length (SetVal sP sLine ps vs) = length vs.
Proof. induction ps as [|p ps IH]; intros [|v vs]; try done. cbn. case_bool_decide; [done|]. cbn. by rewrite IH. Qed.

Lemma SetVal_lookup sP sLine ps : forall vs i p v,
  NoDup (p_name <$> ps) -> (forall p, p ∈ ps -> p_type p <> CFG_DOUBLE) -> ps !! i = Some p -> vs !! i = Some v ->
  SetVal sP sLine ps vs !! i = Some (if bool_decide (sP = p_name p) then parse_value p sLine (get_word sLine).1 else v).
Proof.
  induction ps as [|q ps IH]; intros [|w vs] [|i] p v Hnd Hd Hp Hv; try done.
  - cbn in Hp, Hv. simplify_eq. cbn. case_bool_decide; [done|]. cbn.
    specialize (Hd p ltac:(by left)). by destruct (p_type p).
  - cbn in Hp, Hv. cbn [fmap list_fmap] in Hnd. apply NoDup_cons in Hnd as [Hq Hnd]. cbn [SetVal].
    assert (p_name p ∈ p_name <$> ps) by (apply list_elem_of_fmap_2; by eapply list_elem_of_lookup_2).
    case_bool_decide as E.
    + subst sP. rewrite bool_decide_eq_false_2; [done|]. intros E. rewrite E in Hq. done.
    + apply (IH vs i p v); [done|intros p' ?; apply Hd; by right|done|done].
Qed.

Lemma settings_snoc name ls l :
  settings name (ls ++ [l]) = settings name ls ++ settings name [l].
Proof. unfold settings. by rewrite omap_app. Qed.

Lemma read_lines_spec ps ls : forall vs i p,
  NoDup (p_name <$> ps) -> (forall p, p ∈ ps -> p_type p <> CFG_DOUBLE) -> ps !! i = Some p ->
  vs = InitDefault <$> ps -> foldl (read_line ps) vs ls !! i = Some (meaning p ls).
Proof.
  intros vs i p Hnd Hd Hp ->. induction ls as [|l ls IH] using rev_ind.
  { cbn. by rewrite list_lookup_fmap, Hp. }
  rewrite foldl_app. cbn [foldl]. unfold meaning. rewrite settings_snoc. unfold read_line at 1, settings at 2. cbn [omap list_omap].
  destruct (GetParamVal l) as [[n v]|]; cbn [mbind option_bind]; [|rewrite app_nil_r; exact IH].
  rewrite (SetVal_lookup n v ps _ i p (meaning p ls) Hnd Hd Hp IH). case_bool_decide as E; [|by rewrite app_nil_r].
  by rewrite last_snoc.
Qed.

(** ** Types *)

(** [v] is a value of the type of [p]; a text fits into its variable with its final 0. *)
Definition typed (p : param) (v : cfg_value) : Prop :=
  match p_type p, v with
  | (CFG_STRING | CFG_LINE), CStr s => len s < p_size p /\ c_str s = s
  | CFG_INT, CNum z => - 2 ^ 31 <= z < 2 ^ 31
  | CFG_UINT, CNum z => 0 <= z < 2 ^ 32
  | CFG_LONG, CNum z => - 2 ^ 63 <= z < 2 ^ 63
  | CFG_ULONG, CNum z => 0 <= z < 2 ^ 64
  | CFG_DOUBLE, CDbl _ => True
  | _, _ => False
  end.

Lemma c_str_nonzero s : Forall (fun c => c <> 0) (c_str s).
Proof. induction s as [|c s IH]; cbn; [done|]. destruct (Z.eqb_spec c 0); [done|]. by constructor. Qed.

Lemma strncpy_fits n s : 0 < n -> len (strncpy n s) < n /\ c_str (strncpy n s) = strncpy n s.
Proof.
  intros Hn. unfold strncpy. split.
  - unfold len. rewrite length_take. lia.
  - apply c_str_id, Forall_take, c_str_nonzero.
Qed.

Lemma digit_of_nonneg base c d : digit_of base c = Some d -> 0 <= d.
Proof. unfold digit_of. repeat (zif; cbn [andb]); intros; simplify_eq; lia. Qed.

Lemma digits_nonneg base s : forall acc, 0 <= base -> 0 <= acc -> 0 <= digits base acc s.
Proof.
  induction s as [|c s IH]; intros acc Hb Ha; [done|]. cbn [digits]. destruct (digit_of base c) as [d|] eqn:E; [|done].
  apply IH; [done|]. apply digit_of_nonneg in E. nia.
Qed.

Lemma number_nonneg s : 0 <= (number s).1.
Proof.
  unfold number. destruct (match skip_spaces s with 45 :: s' => _ | _ => _ end) as [neg s'].
  cbn [fst]. repeat case_match; by apply digits_nonneg.
Qed.

Lemma strtol_range s : - 2 ^ 63 <= strtol s < 2 ^ 63.
Proof. unfold strtol. pose proof (number_nonneg s). destruct (number s) as [n []]; cbn [fst] in *; lia. Qed.

Lemma strtoul_range s : 0 <= strtoul s < 2 ^ 64.
Proof.
  unfold strtoul. pose proof (number_nonneg s). destruct (number s) as [n neg]; cbn [fst] in *. zif; [lia|].
  destruct neg; [apply Z.mod_pos_bound; lia|lia].
Qed.

Lemma parse_value_typed p v sLine sV : 0 < p_size p -> typed p v -> typed p (parse_value p sLine sV).
Proof.
  intros Hs Hv. unfold typed, parse_value in *. destruct (p_type p); try (by apply strncpy_fits).
  - unfold s32. pose proof (Z.mod_pos_bound (strtol sV + 2 ^ 31) (2 ^ 32)). lia.
  - apply strtol_range.
  - done.
  - apply Z.mod_pos_bound. lia.
  - apply strtoul_range.
Qed.

Definition param_ok (p : param) : Prop := 0 < p_size p /\ typed p (InitDefault p).

Lemma SetVal_typed sP sLine ps : Forall param_ok ps -> forall vs, Forall2 typed ps vs -> Forall2 typed ps (SetVal sP sLine ps vs).
Proof.
  induction 1 as [|p ps [Hs Hi] _ IH]; intros vs Hv; inversion Hv as [|? v ? vs' Ht Hv']; subst; [done|]. cbn [SetVal].
  case_bool_decide; constructor; try done; [by eapply parse_value_typed| |by apply IH].
  unfold typed, InitDefault in *. by destruct (p_type p).
Qed.

Lemma config_typed ps file : Forall param_ok ps -> Forall2 typed ps (TLib_Cfg_GetConfig ps file).
Proof.
  intros Hp. assert (H0 : Forall2 typed ps (InitDefault <$> ps)).
  { apply Forall2_fmap_r. induction Hp as [|p ps [_ ?] _ IH]; constructor; done. }
  unfold TLib_Cfg_GetConfig. destruct file as [text|]; [|done]. revert H0. generalize (InitDefault <$> ps).
  induction (lines (length text) text) as [|l ls IH]; intros vs Hv; [done|]. cbn [foldl]. apply IH.
  unfold read_line. destruct (GetParamVal l) as [[? ?]|]; [by apply SetVal_typed|done].
Qed.

(** ** Properties *)

(** C35: reading a configuration file gives every parameter the value of the last line that begins with
    its name, and its default when there is none; lines with other names and comments change nothing.
    The names must differ, and no parameter may be a [double]. *)
Theorem last_line_decides (ps : list param) (text : bytes) (i : nat) (p : param) :
  NoDup (p_name <$> ps) -> (forall p, p ∈ ps -> p_type p <> CFG_DOUBLE) -> ps !! i = Some p ->
  TLib_Cfg_GetConfig ps (Some text) !! i = Some (meaning p (lines (length text) text)).
Proof. intros Hnd Hd Hp. by apply read_lines_spec. Qed.

Definition nl : bytes := [10].

Definition sample_params : list param :=
  [mk_param (txt "KEY") CFG_STRING (CStr (txt "none")) 4; mk_param (txt "N") CFG_INT (CNum 7) 0].
Definition sample_text : bytes :=
  txt "# comment" ++ nl ++ txt "KEY  first" ++ nl ++ txt "N 0x10 ignored" ++ nl ++ txt "KEY second" ++ nl.

Lemma last_line_decides_witness :
  TLib_Cfg_GetConfig sample_params (Some sample_text) !! 0%nat = Some (CStr (txt "sec")) /\
  TLib_Cfg_GetConfig sample_params (Some sample_text) !! 1%nat = Some (CNum 16).
Proof.
  assert (H1 : NoDup (p_name <$> sample_params)) by (apply (bool_decide_unpack _); vm_compute; exact I).
  assert (H2 : forall p, p ∈ sample_params -> p_type p <> CFG_DOUBLE).
  { intros p Hp. unfold sample_params in Hp. repeat (apply elem_of_cons in Hp as [-> | Hp]; [done|]). by apply elem_of_nil in Hp. }
  split.
  - rewrite (last_line_decides sample_params sample_text 0 _ H1 H2 eq_refl). vm_compute. reflexivity.
  - rewrite (last_line_decides sample_params sample_text 1 _ H1 H2 eq_refl). vm_compute. reflexivity.
Defined.

(** A [double] gets its default back as soon as another parameter that follows it is set. *)
Theorem double_forgotten (sV : bytes) :
  let ps := [mk_param (txt "RATE") CFG_DOUBLE (CDbl (txt "0.5")) 0; mk_param (txt "N") CFG_INT (CNum 7) 0] in
  SetVal (txt "N") sV ps (SetVal (txt "RATE") (txt "2.5") ps (InitDefault <$> ps))
  = [CDbl (txt "0.5"); CNum (s32 (strtol (get_word sV).1))].
Proof. reflexivity. Qed.
