(* ===== verification/LogFile.v ===== *)
(** * Log files and their rotation (src/comm/oi_log.c)

    A message is appended to a file; when the file is due, by size, by number of messages or by time, [base.log] becomes
    [base1.log], [base1.log] becomes [base2.log] and so on, and the last one is overwritten.  The directory is a map from
    names to files.  The C library's [localtime], the clock and the failures of the system are arguments; a C string
    is its bytes without the final 0.  Theorems: one call moves every file by one number and keeps the newest
    [iMaxLogNum] ([shift_files_moves]), no file with a higher number is ever made ([Log_bounded]), and a message that was
    written is found at the end of the newest or second newest file ([Log_message]). *)

From S2P Require Import Prelude.

(** ** Data *)

(** Models [LogFile] (src/comm/oi_log.h:25-35). *)
Record LogFile := mk_log {
  sBaseFileName : bytes; sLogFileName : bytes; iShiftType : Z; iMaxLogNum : Z;
  lMaxSize : Z; lMaxCount : Z; lLogCount : Z; lLastShiftTime : Z }.

Definition set_name (n : bytes) (p : LogFile) : LogFile :=
  mk_log (sBaseFileName p) n (iShiftType p) (iMaxLogNum p) (lMaxSize p) (lMaxCount p) (lLogCount p) (lLastShiftTime p).
Definition set_count (n : Z) (p : LogFile) : LogFile :=
  mk_log (sBaseFileName p) (sLogFileName p) (iShiftType p) (iMaxLogNum p) (lMaxSize p) (lMaxCount p) n (lLastShiftTime p).
Definition set_time (n : Z) (p : LogFile) : LogFile :=
  mk_log (sBaseFileName p) (sLogFileName p) (iShiftType p) (iMaxLogNum p) (lMaxSize p) (lMaxCount p) (lLogCount p) n.

(** A file of the directory: its bytes and the time of the last change. *)
Record file := mk_file { f_data : bytes; f_mtime : Z }.
Abbreviation directory := (gmap bytes file).

(** Broken-down time. *)
Record tm := mk_tm { tm_year : Z; tm_mon : Z; tm_mday : Z; tm_hour : Z; tm_min : Z; tm_sec : Z }.

(** [%0<w>d] of a number that is not negative. *)
Definition pad (w : nat) (n : Z) : bytes := let d := dec n in replicate (w - length d) 48 ++ d.

Section log.
Context (localtime : Z -> tm) (rename_fails open_fails : bytes -> bool).

(** ** Names *)

(** Models [CompactDateStr] (src/comm/oi_log.c:26-35). *)
Definition CompactDateStr (mytime : Z) : bytes :=
  let c := localtime mytime in pad 4 (tm_year c + 1900) ++ pad 2 (tm_mon c + 1) ++ pad 2 (tm_mday c).

(** The time is read through a pointer to 32 bits of it. *)
(** Models [DateTimeStr] (src/comm/oi_log.c:37-59). *)
Definition DateTimeStr (mytime : Z) : bytes :=
  let c := localtime (u32 mytime) in
  pad 4 (tm_year c + (if Z.ltb 50 (tm_year c) then 1900 else 2000)) ++ txt "-" ++ pad 2 (tm_mon c + 1) ++ txt "-" ++
  pad 2 (tm_mday c) ++ txt " " ++ pad 2 (tm_hour c) ++ txt ":" ++ pad 2 (tm_min c) ++ txt ":" ++ pad 2 (tm_sec c).

(** Models [CurrDateTimeStr] (src/comm/oi_log.c:61-67). *)
Definition CurrDateTimeStr (now : Z) : bytes := DateTimeStr now.

(** The name of the file number [i] of a log; the newest one has no number. *)
(** Models [ShiftFiles] (src/comm/oi_log.c:127-130). *)
Definition numbered (base : bytes) (i : Z) : bytes := base ++ (if Z.eqb i 0 then [] else dec i) ++ txt ".log".

(** ** Rotation *)

(** Whether a file that was last changed at [mtime] and has [size] bytes is due; the number of messages is set
    back when it is. *)
(** Models [ShiftFiles] (src/comm/oi_log.c:81-121). *)
Definition due (p : LogFile) (size mtime : Z) : bool * LogFile :=
  let last := lLastShiftTime p in
  let by_clock len_ field := Z.ltb len_ (last - mtime) || negb (Z.eqb (field (localtime mtime)) (field (localtime last))) in
  if Z.eqb (iShiftType p) 0 then (negb (Z.ltb size (lMaxSize p)), p)
  else if Z.eqb (iShiftType p) 2 then (negb (Z.ltb (mtime - last) (lMaxCount p)), p)
  else if Z.eqb (iShiftType p) 3 then (by_clock 86400 tm_mday, p)
  else if Z.eqb (iShiftType p) 4 then (by_clock 3600 tm_hour, p)
  else if Z.eqb (iShiftType p) 5 then (by_clock 60 tm_min, p)
  else if Z.ltb (lLogCount p) (lMaxCount p) then (false, p)
  else (true, set_count 0 p).

(** A file for each day: the name of today's, and the oldest one is deleted once a day.  [None] when the name is
    longer than the 80 bytes for it, or the number of seconds does not fit into an [int]. *)
(** Models [ShiftFiles] (src/comm/oi_log.c:106-117). *)
Definition daily (now now' : Z) (p : LogFile) (fs : directory) : option (Z * LogFile * directory) :=
  let name := sBaseFileName p ++ CompactDateStr now ++ txt ".log" in
  if Z.leb 80 (len name) then None
  else
    let p := set_name name p in
    if Z.ltb 86400 (now - lLastShiftTime p) then
      if bool_decide (s32 (iMaxLogNum p * 86400) = iMaxLogNum p * 86400) then
        Some (0, set_time now' p, delete (sBaseFileName p ++ CompactDateStr (now - iMaxLogNum p * 86400) ++ txt ".log") fs)
      else None
    else Some (0, p, fs).

(** The files number [k - 1], ..., 0 get the next number.  False when a file could not be renamed. *)
(** Models [ShiftFiles] (src/comm/oi_log.c:125-140). *)
Fixpoint shift_files (k : nat) (base : bytes) (fs : directory) : bool * directory :=
  match k with
  | O => (true, fs)
  | S i =>
      let name := numbered base (Z.of_nat i) in
      match fs !! name with
      | Some f =>
          if rename_fails name then (false, fs)
          else shift_files i base (<[numbered base (Z.of_nat i + 1) := f]> (delete name fs))
      | None => shift_files i base fs
      end
  end.

(** [now] and [now'] are the results of the first and the last call of [time]. *)
(** Models [ShiftFiles] (src/comm/oi_log.c:69-144). *)
Definition ShiftFiles (now now' : Z) (p : LogFile) (fs : directory) : option (Z * LogFile * directory) :=
  if Z.eqb (iShiftType p) 6 then daily now now' p fs
  else
    match fs !! numbered (sBaseFileName p) 0 with
    | None => Some (-1, p, fs)
    | Some f =>
        let '(d, p) := due p (len (f_data f)) (f_mtime f) in
        if negb d then Some (0, p, fs)
        else
          let '(r, fs) := shift_files (Z.to_nat (iMaxLogNum p - 1)) (sBaseFileName p) fs in
          if negb r then Some (-1, p, fs) else Some (0, set_time now' p, fs)
    end.

(** Models [InitLogFile] (src/comm/oi_log.c:146-163). *)
Definition InitLogFile (now now' now'' : Z) (sLogBaseName : bytes) (shift_type max_log_num max : Z) (fs : directory) :
    option (Z * LogFile * directory) :=
  ShiftFiles now' now''
    (mk_log (take 79 sLogBaseName) (take 70 sLogBaseName ++ txt ".log") (s32 shift_type) (s32 max_log_num) max max max now) fs.

(** [text] is what the format and its arguments give. *)
(** Models [Log] (src/comm/oi_log.c:165-185). *)
Definition Log (now now' now'' usec iLogTime : Z) (text : bytes) (p : LogFile) (fs : directory) : option (Z * LogFile * directory) :=
  if open_fails (sLogFileName p) then Some (-1, p, fs)
  else
    let head :=
      if Z.eqb iLogTime 1 then txt "[" ++ CurrDateTimeStr now ++ txt "] "
      else if Z.eqb iLogTime 2 then txt "[" ++ DateTimeStr now ++ txt "." ++ pad 6 usec ++ txt "] "
      else [] in
    let old := default (mk_file [] now) (fs !! sLogFileName p) in
    ShiftFiles now' now'' (set_count (lLogCount p + 1) p)
      (<[sLogFileName p := mk_file (f_data old ++ head ++ text ++ [10]) now]> fs).

End log.

(** ** Names are different *)

Lemma numbered_inj base i j : 0 <= i < 10 ^ 20 -> 0 <= j < 10 ^ 20 -> numbered base i = numbered base j -> i = j.
Proof.
  unfold numbered. intros Hi Hj E. apply app_inv_head, app_inv_tail in E.
  destruct (Z.eqb_spec i 0) as [->|], (Z.eqb_spec j 0) as [->|]; try done.
  - symmetry in E. by apply dec_nonempty in E.
  - by apply dec_nonempty in E.
  - by apply dec_inj.
Qed.

(** ** What a rotation does *)

Section rotation.
Context (base : bytes).

(** The file number [j] after the files below [k] were moved up. *)
Definition moved (fs : directory) (k : nat) (j : Z) : option file :=
  if Z.eqb j 0 then (if Nat.eqb k 0 then fs !! numbered base 0 else None)
  else match fs !! numbered base (j - 1) with
       | Some f => Some f
       | None => if Z.eqb j (Z.of_nat k) then fs !! numbered base j else None
       end.

Lemma other_number i j : 0 <= i < 10 ^ 20 -> 0 <= j < 10 ^ 20 -> i <> j -> numbered base i <> numbered base j.
Proof. intros Hi Hj Hne E. by apply Hne, (numbered_inj base). Qed.

Lemma shift_files_run k : forall fs, Z.of_nat k < 10 ^ 19 ->
  exists fs', shift_files (fun _ => false) k base fs = (true, fs') /\
    (forall j, 0 <= j <= Z.of_nat k -> fs' !! numbered base j = moved fs k j) /\
    (forall n, (forall j, 0 <= j <= Z.of_nat k -> n <> numbered base j) -> fs' !! n = fs !! n).
Proof.
  induction k as [|i IH]; intros fs Hk; cbn [shift_files].
  { exists fs. split; [done|]. split; [|done]. intros j Hj. assert (j = 0) as -> by lia. done. }
  set (fs1 := match fs !! numbered base (Z.of_nat i) with
              | Some f => <[numbered base (Z.of_nat i + 1) := f]> (delete (numbered base (Z.of_nat i)) fs)
              | None => fs end).
  destruct (IH fs1) as (fs' & E & M & O); [lia|].
  exists fs'. split; [by unfold fs1 in E; destruct (fs !! numbered base (Z.of_nat i))|].
  assert (Hlow : forall j, 0 <= j < Z.of_nat i -> fs1 !! numbered base j = fs !! numbered base j).
  { intros j Hj. unfold fs1. destruct (fs !! numbered base (Z.of_nat i)); [|done].
    rewrite lookup_insert_ne, lookup_delete_ne; [done| |]; apply other_number; lia. }
  assert (Hi : fs1 !! numbered base (Z.of_nat i) = None).
  { unfold fs1. destruct (fs !! numbered base (Z.of_nat i)) eqn:F; [|done].
    rewrite lookup_insert_ne, lookup_delete_eq; [done|apply other_number; lia]. }
  assert (Hn : fs1 !! numbered base (Z.of_nat i + 1) =
    match fs !! numbered base (Z.of_nat i) with Some f => Some f | None => fs !! numbered base (Z.of_nat i + 1) end).
  { unfold fs1. destruct (fs !! numbered base (Z.of_nat i)) eqn:F; [|done]. by rewrite lookup_insert_eq. }
  split.
  - intros j Hj. unfold moved. destruct (decide (j = Z.of_nat i + 1)) as [->|Hne].
    + rewrite O by (intros j Hj'; apply other_number; lia). rewrite Hn. destruct (Z.eqb_spec (Z.of_nat i + 1) 0); [lia|].
      replace (Z.of_nat i + 1 - 1) with (Z.of_nat i) by lia. destruct (fs !! numbered base (Z.of_nat i)); [done|].
      by rewrite (proj2 (Z.eqb_eq _ _)) by lia.
    + rewrite M by lia. unfold moved. destruct (Z.eqb_spec j 0) as [->|Hj0].
      * destruct i as [|i]; [|done]. cbn [Nat.eqb]. by rewrite <- Hi.
      * rewrite Hlow by lia. destruct (fs !! numbered base (j - 1)); [done|]. rewrite (proj2 (Z.eqb_neq j (Z.of_nat (S i)))) by lia.
        destruct (Z.eqb_spec j (Z.of_nat i)) as [->|]; [by rewrite Hi|done].
  - intros n Hn'. rewrite O by (intros j Hj; apply Hn'; lia). unfold fs1. destruct (fs !! numbered base (Z.of_nat i)); [|done].
    rewrite lookup_insert_ne, lookup_delete_ne; [done|..]; symmetry; apply Hn'; lia.
Qed.

(** Whatever fails, the newest file is the first or the second one afterwards. *)
Lemma shift_newest rename_fails f k : forall fs, Z.of_nat k < 10 ^ 19 -> fs !! numbered base 0 = Some f ->
  let fs' := snd (shift_files rename_fails k base fs) in
  fs' !! numbered base 0 = Some f \/ (1 <= k)%nat /\ fs' !! numbered base 1 = Some f.
Proof.
  induction k as [|i IH]; intros fs Hk Hf; [by left|]. cbn [shift_files].
  destruct (decide (i = 0%nat)) as [->|Hi].
  - change (Z.of_nat 0) with 0. rewrite Hf. destruct (rename_fails _); [by left|]. right. split; [lia|]. cbn [shift_files snd]. change (0 + 1) with 1. by rewrite lookup_insert_eq.
  - destruct (fs !! numbered base (Z.of_nat i)) as [g|] eqn:F.
    + destruct (rename_fails _); [by left|]. destruct (IH (<[numbered base (Z.of_nat i + 1) := g]> (delete (numbered base (Z.of_nat i)) fs)))
        as [H|[H1 H]]; [lia| |by left|right; split; [lia|done]].
      rewrite lookup_insert_ne, lookup_delete_ne; [done| |]; apply other_number; lia.
    + destruct (IH fs) as [H|[H1 H]]; [lia|done|by left|right; split; [lia|done]].
Qed.

End rotation.

(** ** Theorems *)

(** A rotation of [k] files, none of which fails to be renamed: the file number [j], up to [k], is the one that was number
    [j - 1]; where there was none, [j] is free, except that number [k] stays.  Nothing is the newest file, and no
    other name of the directory changes. *)
Theorem shift_files_moves (base : bytes) (k : nat) (fs : directory) :
  Z.of_nat k < 10 ^ 19 ->
  exists fs', shift_files (fun _ => false) k base fs = (true, fs') /\
    (forall j, 0 <= j <= Z.of_nat k -> fs' !! numbered base j = moved base fs k j) /\
    (forall n, (forall j, 0 <= j <= Z.of_nat k -> n <> numbered base j) -> fs' !! n = fs !! n).
Proof. apply shift_files_run. Qed.

(** A log whose messages go to the file that is rotated. *)
Definition rotates (p : LogFile) : Prop :=
  sLogFileName p = numbered (sBaseFileName p) 0 /\ iShiftType p <> 6 /\ iMaxLogNum p < 10 ^ 19.

Lemma set_count_same p : set_count (lLogCount p) p = p.
Proof. by destruct p. Qed.
Lemma set_time_same p : set_time (lLastShiftTime p) p = p.
Proof. by destruct p. Qed.

Lemma due_count localtime p size mtime : exists n, (due localtime p size mtime).2 = set_count n p.
Proof.
  unfold due. repeat case_match; cbn [snd]; eauto; exists (lLogCount p); by rewrite set_count_same.
Qed.

Lemma ShiftFiles_cases localtime rename_fails now now' p fs : iShiftType p <> 6 ->
  exists r n t fs', ShiftFiles localtime rename_fails now now' p fs = Some (r, set_time t (set_count n p), fs') /\
    (fs' = fs \/ fs' = snd (shift_files rename_fails (Z.to_nat (iMaxLogNum p - 1)) (sBaseFileName p) fs)).
Proof.
  intros Ht. unfold ShiftFiles. rewrite (proj2 (Z.eqb_neq _ _)) by done.
  destruct (fs !! _) as [f|].
  2: { exists (-1), (lLogCount p), (lLastShiftTime p), fs. split; [by rewrite set_count_same, set_time_same|by left]. }
  pose proof (due_count localtime p (len (f_data f)) (f_mtime f)) as [n Hn].
  destruct (due _ _ _ _) as [d q]. cbn [snd] in Hn. subst q.
  assert (Hs : forall t, set_count n p = set_time t (set_count n p) -> True) by done.
  destruct d; cbn [negb].
  - change (iMaxLogNum (set_count n p)) with (iMaxLogNum p). change (sBaseFileName (set_count n p)) with (sBaseFileName p).
    destruct (shift_files _ _ _ _) as [r fs'] eqn:E. destruct r; cbn [negb].
    + exists 0, n, now', fs'. split; [done|by right].
    + exists (-1), n, (lLastShiftTime p), fs'. split; [by destruct p|by right].
  - exists 0, n, (lLastShiftTime p), fs. split; [by destruct p|by left].
Qed.

Lemma shift_files_outside rename_fails base m k : forall fs,
  (forall j, 0 <= j <= Z.of_nat k -> m <> numbered base j) -> snd (shift_files rename_fails k base fs) !! m = fs !! m.
Proof.
  induction k as [|i IH]; intros fs Hm; [done|]. cbn [shift_files].
  destruct (fs !! numbered base (Z.of_nat i)); [|apply IH; intros j Hj; apply Hm; lia].
  destruct (rename_fails _); [done|]. rewrite IH by (intros j Hj; apply Hm; lia).
  rewrite lookup_insert_ne, lookup_delete_ne; [done|..]; symmetry; apply Hm; lia.
Qed.

Lemma rotates_same t n p : rotates p -> rotates (set_time t (set_count n p)).
Proof. by destruct p. Qed.

(** A message that can be written is at the end of the newest or the second newest file when [Log] returns, behind
    everything the file had, whatever renaming fails, and the next message goes to the newest file again. *)
Theorem Log_message (localtime : Z -> tm) (rename_fails open_fails : bytes -> bool) (now now' now'' usec lt : Z) (text : bytes)
    (p : LogFile) (fs : directory) :
  rotates p -> open_fails (sLogFileName p) = false ->
  exists r p' fs' f head, Log localtime rename_fails open_fails now now' now'' usec lt text p fs = Some (r, p', fs') /\ rotates p' /\
    f_data f = from_option f_data [] (fs !! numbered (sBaseFileName p) 0) ++ head ++ text ++ [10] /\
    (fs' !! numbered (sBaseFileName p) 0 = Some f \/ 2 <= iMaxLogNum p /\ fs' !! numbered (sBaseFileName p) 1 = Some f).
Proof.
  intros R Ho. pose proof R as (Hn & Ht & Hm). unfold Log. rewrite Ho. rewrite Hn. set (base := sBaseFileName p).
  set (old := default _ _). set (head := if Z.eqb lt 1 then _ else _). set (f := mk_file _ now).
  destruct (ShiftFiles_cases localtime rename_fails now' now'' (set_count (lLogCount p + 1) p) (<[numbered base 0 := f]> fs) Ht)
    as (r & n & t & fs' & E & Hfs). eexists r, _, fs', f, head. split; [exact E|]. split; [by destruct p|]. split.
  { unfold f, old. cbn [f_data]. fold base. by destruct (fs !! numbered base 0). }
  assert (Hf : <[numbered base 0 := f]> fs !! numbered base 0 = Some f) by apply lookup_insert_eq.
  destruct Hfs as [->|Hfs]; [by left|]. change (iMaxLogNum (set_count _ p)) with (iMaxLogNum p) in Hfs.
  change (sBaseFileName (set_count _ p)) with base in Hfs. subst fs'.
  destruct (shift_newest base rename_fails f (Z.to_nat (iMaxLogNum p - 1)) _ ltac:(lia) Hf) as [H|[Hk H]]; [by left|right; split; [lia|done]].
Qed.

(** No call makes or changes a file whose number is [iMaxLogNum] or higher. *)
Theorem Log_bounded (localtime : Z -> tm) (rename_fails open_fails : bytes -> bool) (now now' now'' usec lt : Z) (text : bytes)
    (p p' : LogFile) (fs fs' : directory) (r j : Z) :
  rotates p -> Log localtime rename_fails open_fails now now' now'' usec lt text p fs = Some (r, p', fs') ->
  Z.max 1 (iMaxLogNum p) <= j < 10 ^ 20 -> fs' !! numbered (sBaseFileName p) j = fs !! numbered (sBaseFileName p) j.
Proof.
  intros (Hn & Ht & Hm) E Hj. unfold Log in E. destruct (open_fails _); [by injection E as _ _ <- |]. rewrite Hn in E.
  set (base := sBaseFileName p) in *. set (f := mk_file _ now) in E.
  destruct (ShiftFiles_cases localtime rename_fails now' now'' (set_count (lLogCount p + 1) p) (<[numbered base 0 := f]> fs) Ht)
    as (r1 & n & t & fs1 & E1 & Hfs). rewrite E in E1. injection E1 as _ _ ->.
  assert (H0 : <[numbered base 0 := f]> fs !! numbered base j = fs !! numbered base j).
  { rewrite lookup_insert_ne; [done|]. apply other_number; lia. }
  destruct Hfs as [-> | ->]; [done|]. change (iMaxLogNum (set_count _ p)) with (iMaxLogNum p).
  change (sBaseFileName (set_count _ p)) with base. rewrite shift_files_outside; [done|]. intros i Hi. apply other_number; lia.
Qed.

(** ** Faults *)

(** The name of the log file keeps 70 bytes of the base name, the names it is rotated to 79: the file of a log with a longer base
    name is never due, and every message reports a failure. *)
Lemma long_name_not_shifted (localtime : Z -> tm) (rename_fails open_fails : bytes -> bool) (now now' now'' usec lt : Z) (text : bytes)
    (p : LogFile) (fs : directory) :
  iShiftType p <> 6 -> open_fails (sLogFileName p) = false -> sLogFileName p <> numbered (sBaseFileName p) 0 -> fs !! numbered (sBaseFileName p) 0 = None ->
  exists p' fs', Log localtime rename_fails open_fails now now' now'' usec lt text p fs = Some (-1, p', fs').
Proof.
  intros Ht Ho Hn Hf. unfold Log. rewrite Ho. unfold ShiftFiles. change (iShiftType (set_count _ p)) with (iShiftType p).
  rewrite (proj2 (Z.eqb_neq _ _)) by done. change (sBaseFileName (set_count _ p)) with (sBaseFileName p).
  rewrite lookup_insert_ne by done. rewrite Hf. eauto.
Qed.

(** Days are compared by the day of the month: a file written on the same day of the next month is not due. *)
Definition calendar (t : Z) : tm := mk_tm 124 (t / 100) (t mod 100) 0 0 0.
Example same_day_next_month :
  due calendar (mk_log (txt "a") (txt "a.log") 3 10 0 0 0 215) 1 315 = (false, mk_log (txt "a") (txt "a.log") 3 10 0 0 0 215).
Proof. reflexivity. Qed.

(** Three messages with two messages for a file: the first two are in the second newest file. *)
Definition counted : option (Z * LogFile * directory) :=
  let log := Log calendar (fun _ => false) (fun _ => false) 5 5 5 0 0 in
  '(_, p, fs) ← InitLogFile calendar (fun _ => false) 5 5 5 (txt "a") 1 3 2 ∅;
  '(_, p, fs) ← log (txt "x") (set_count 0 p) fs;
  '(_, p, fs) ← log (txt "y") p fs;
  log (txt "z") p fs.
Example counted_files :
  (fun r => (r.1.1, f_data <$> r.2 !! txt "a.log", f_data <$> r.2 !! txt "a1.log", f_data <$> r.2 !! txt "a2.log")) <$> counted =
    Some (0, Some [122; 10], Some [120; 10; 121; 10], None).
Proof. vm_compute. reflexivity. Qed.
