(* ===== verification/ShmAdapter.v ===== *)
(** * Shared memory of the tables (src/ht/shm_adapter.cc, shm_adapter.h)

    An adapter finds or makes a System V segment for a key and attaches it to the process.  The calls of the operating
    system are the class [ShmOS], with the documented effect on the segments that the process has attached as laws.
    Theorem [shm_adapter_no_leak]: whatever operations are called and whichever of them fail, the process has exactly one
    segment more attached while the adapter is valid, the one it points to, and none when it is destroyed. *)

From S2P Require Import Prelude.

(** ** The operating system *)

(** [W] is the state of the system.  A call gives its result and the state after it; [None] is an address of -1.
    [memset0] clears memory. *)
Class ShmOS (W : Type) := {
  shmget : Z -> Z -> Z -> W -> Z * W;
  shmat : Z -> Z -> W -> option Z * W;
  shmdt : Z -> W -> Z * W;
  shm_segsz : Z -> W -> option Z;
  mlock : Z -> Z -> W -> Z * W;
  memset0 : Z -> Z -> W -> W;
  attached : W -> gmap Z Z }.

(** [attached] has the segment at every address where one is attached.  Only [shmat] and [shmdt] change it; [shmat] uses a
    free address, and [shmdt] of an address where a segment is attached succeeds. *)
Class ShmOSLaws (W : Type) {OS : ShmOS W} := {
  shmget_law k s f w : attached (snd (shmget k s f w)) = attached w;
  shmat_some i f w a w' : shmat i f w = (Some a, w') -> attached w !! a = None /\ attached w' = <[a := i]> (attached w);
  shmat_none i f w w' : shmat i f w = (None, w') -> attached w' = attached w;
  shmdt_law a i w : attached w !! a = Some i -> fst (shmdt a w) = 0 /\ attached (snd (shmdt a w)) = delete a (attached w);
  mlock_law a s w : attached (snd (mlock a s w)) = attached w;
  memset0_law a s w : attached (memset0 a s w) = attached w }.

Definition IPC_CREAT : Z := 512.
Definition SHM_HUGETLB : Z := 2048.
Definition SHM_RDONLY : Z := 4096.

(** ** The adapter *)

(** The address is [None] for NULL; the error text is left out.  The number of the segment is not set before one is
    attached; 0 here. *)
(** Models [shm_adapter] (src/ht/shm_adapter.h:97-109). *)
Record shm_adapter := mk_shm {
  m_bIsNewShm : bool; m_ddwShmKey : Z; m_ddwShmSize : Z; m_nShmId : Z; m_bIsValid : bool; m_pShm : option Z }.

(** Models [shm_adapter::shm_adapter] (src/ht/shm_adapter.cc:15-23). *)
Definition shm_adapter0 : shm_adapter := mk_shm false 0 0 0 false None.

(** Models [shm_adapter::is_valid] (src/ht/shm_adapter.h:34-34). *)
Definition is_valid (a : shm_adapter) : bool := m_bIsValid a.
(** Models [shm_adapter::get_shm] (src/ht/shm_adapter.h:39-39). *)
Definition get_shm (a : shm_adapter) : option Z := m_pShm a.
(** Models [shm_adapter::get_size] (src/ht/shm_adapter.h:76-76). *)
Definition get_size (a : shm_adapter) : Z := m_ddwShmSize a.
(** Models [shm_adapter::get_key] (src/ht/shm_adapter.h:81-81). *)
Definition get_key (a : shm_adapter) : Z := m_ddwShmKey a.
(** Models [shm_adapter::is_new] (src/ht/shm_adapter.h:86-86). *)
Definition is_new (a : shm_adapter) : bool := m_bIsNewShm a.

Section shm.
Context {W : Type} {OS : ShmOS W}.

(** The flags of the constructor. *)
(** Models [shm_adapter::shm_adapter] (src/ht/shm_adapter.cc:36-51). *)
Definition flags (bCreate bReadOnly bHugePage : bool) : Z :=
  let nFlag := if bCreate then Z.lor 438 IPC_CREAT else if bReadOnly then Z.land 438 16776996 else 438 in
  if bHugePage then Z.lor nFlag SHM_HUGETLB else nFlag.

(** Locks the memory when that is asked for; without success the adapter gives it back. *)
(** Models [shm_adapter::shm_adapter] (src/ht/shm_adapter.cc:100-113). *)
Definition lock_memory (bLock : bool) (a : shm_adapter) (p : Z) (w : W) : shm_adapter * W :=
  let '(iRet, w) := if bLock then mlock p (m_ddwShmSize a) w else (0, w) in
  if negb (Z.eqb iRet 0) then
    let '(_, w) := shmdt p w in
    (mk_shm (m_bIsNewShm a) (m_ddwShmKey a) (m_ddwShmSize a) (m_nShmId a) false None, w)
  else (mk_shm (m_bIsNewShm a) (m_ddwShmKey a) (m_ddwShmSize a) (m_nShmId a) true (Some p), w).

(** The constructor with a key; [key_t] is an [int]. *)
(** Models [shm_adapter::shm_adapter] (src/ht/shm_adapter.cc:28-114). *)
Definition shm_adapter_new (ddwShmKey ddwShmSize : Z) (bCreate bReadOnly bLock bHugePage bInitClear : bool) (w : W) :
    shm_adapter * W :=
  let nFlag := flags bCreate bReadOnly bHugePage in
  let made (new : bool) (id : Z) := mk_shm new ddwShmKey ddwShmSize id false None in
  let '(iShmId, w) := shmget (s32 ddwShmKey) ddwShmSize (Z.land nFlag (Z.lnot IPC_CREAT)) w in
  if Z.ltb iShmId 0 then
    if Z.eqb (Z.land nFlag IPC_CREAT) 0 then (made false 0, w)
    else
      let '(iShmId, w) := shmget (s32 ddwShmKey) ddwShmSize nFlag w in
      if Z.ltb iShmId 0 then (made true 0, w)
      else
        match shmat iShmId 0 w with
        | (None, w) => (made true 0, w)
        | (Some p, w) =>
            let w := if bInitClear then memset0 p ddwShmSize w else w in
            lock_memory bLock (made true iShmId) p w
        end
  else
    match shmat iShmId 0 w with
    | (None, w) => (made false 0, w)
    | (Some p, w) => lock_memory bLock (made false iShmId) p w
    end.

(** Models [shm_adapter::~shm_adapter] (src/ht/shm_adapter.cc:119-125). *)
Definition destroy (a : shm_adapter) (w : W) : W := match m_pShm a with Some p => snd (shmdt p w) | None => w end.

(** A segment of the same size as before is taken for the one that is attached. *)
(** Models [shm_adapter::refresh] (src/ht/shm_adapter.cc:130-180). *)
Definition refresh (a : shm_adapter) (w : W) : bool * shm_adapter * W :=
  match m_pShm a with
  | None => (false, a, w)
  | Some old =>
      let '(nShmId, w) := shmget (s32 (m_ddwShmKey a)) 0 0 w in
      if Z.ltb nShmId 0 then (false, a, w)
      else if Z.eqb nShmId (m_nShmId a) then (true, a, w)
      else
        match shm_segsz nShmId w with
        | None => (false, a, w)
        | Some sz =>
            if Z.eqb (m_ddwShmSize a) sz then (true, a, w)
            else
              match shmat nShmId 0 w with
              | (None, w) => (false, a, w)
              | (Some p, w) =>
                  let '(_, w) := shmdt old w in
                  (true, mk_shm (m_bIsNewShm a) (m_ddwShmKey a) sz nShmId (m_bIsValid a) (Some p), w)
              end
        end
  end.

(** Models [shm_adapter::open] (src/ht/shm_adapter.cc:185-229). *)
Definition open (ddwShmKey : Z) (bReadOnly : bool) (a : shm_adapter) (w : W) : bool * shm_adapter * W :=
  match m_pShm a with
  | Some _ => (false, a, w)
  | None =>
      let '(nShmId, w) := shmget (s32 ddwShmKey) 0 0 w in
      if Z.ltb nShmId 0 then (false, a, w)
      else
        match shm_segsz nShmId w with
        | None => (false, a, w)
        | Some sz =>
            match shmat nShmId (if bReadOnly then SHM_RDONLY else 0) w with
            | (None, w) => (false, a, w)
            | (Some p, w) => (true, mk_shm (m_bIsNewShm a) ddwShmKey sz nShmId true (Some p), w)
            end
        end
  end.
(** Models [shm_adapter::open_readonly] (src/ht/shm_adapter.h:61-61). *)
Definition open_readonly (ddwShmKey : Z) : shm_adapter -> W -> bool * shm_adapter * W := open ddwShmKey true.

(** Models [shm_adapter::create] (src/ht/shm_adapter.cc:234-305). *)
Definition create (ddwShmKey ddwShmSize : Z) (bHugePage bInitClear : bool) (a : shm_adapter) (w : W) : bool * shm_adapter * W :=
  match m_pShm a with
  | Some _ => (false, a, w)
  | None =>
      let nFlag := flags true false bHugePage in
      let done (new : bool) (id p : Z) := mk_shm new ddwShmKey ddwShmSize id true (Some p) in
      let '(nShmId, w) := shmget (s32 ddwShmKey) 0 0 w in
      if Z.ltb nShmId 0 then
        let '(nShmId, w) := shmget (s32 ddwShmKey) ddwShmSize nFlag w in
        if Z.ltb nShmId 0 then (false, a, w)
        else
          match shmat nShmId 0 w with
          | (None, w) => (false, a, w)
          | (Some p, w) => (true, done true nShmId p, if bInitClear then memset0 p ddwShmSize w else w)
          end
      else
        match shm_segsz nShmId w with
        | None => (false, a, w)
        | Some sz =>
            if negb (Z.eqb sz ddwShmSize) then (false, a, w)
            else
              match shmat nShmId 0 w with
              | (None, w) => (false, a, w)
              | (Some p, w) => (true, done false nShmId p, w)
              end
        end
  end.
(** Models [shm_adapter::create_hugepage] (src/ht/shm_adapter.h:71-71). *)
Definition create_hugepage (ddwShmKey ddwShmSize : Z) (bInitClear : bool) : shm_adapter -> W -> bool * shm_adapter * W :=
  create ddwShmKey ddwShmSize true bInitClear.

(** Models [shm_adapter::close] (src/ht/shm_adapter.cc:310-325). *)
Definition close (a : shm_adapter) (w : W) : bool * shm_adapter * W :=
  let closed := mk_shm (m_bIsNewShm a) (m_ddwShmKey a) (m_ddwShmSize a) (m_nShmId a) false None in
  match m_pShm a with
  | None => (true, closed, w)
  | Some p =>
      let '(iRet, w) := shmdt p w in
      if Z.ltb iRet 0 then (false, a, w) else (true, closed, w)
  end.

(** *** The segments of the monitoring counters (src/comm/Attr_API.c) *)

(** Models [OI_GetShm] (src/comm/Attr_API.c:84-111). *)
Definition OI_GetShm (iKey iSize iFlag : Z) (w : W) : option Z * W :=
  if Z.eqb iKey 0 then (None, w)
  else
    let '(iShmID, w) := shmget iKey iSize iFlag w in
    if Z.ltb iShmID 0 then (None, w) else shmat iShmID 0 w.

(** 0 for a segment that was there, 1 for a new one, which is cleared; -1 otherwise. *)
(** Models [OI_GetShm2] (src/comm/Attr_API.c:113-140). *)
Definition OI_GetShm2 (iKey iSize iFlag : Z) (w : W) : Z * option Z * W :=
  if Z.eqb iKey 0 then (-1, None, w)
  else
    match OI_GetShm iKey iSize (Z.land iFlag (Z.lnot IPC_CREAT)) w with
    | (Some p, w) => (0, Some p, w)
    | (None, w) =>
        if Z.eqb (Z.land iFlag IPC_CREAT) 0 then (-1, None, w)
        else
          match OI_GetShm iKey iSize iFlag w with
          | (Some p, w) => (1, Some p, memset0 p iSize w)
          | (None, w) => (-1, None, w)
          end
    end.

End shm.

(** ** No segment is left attached *)

Section laws.
Context {W : Type} {OS : ShmOS W} {Laws : ShmOSLaws W}.

(** With [base] attached by others, the process has the adapter's segment attached as well, exactly while the adapter is valid. *)
Record owns (base : gmap Z Z) (a : shm_adapter) (w : W) : Prop := {
  ow_valid : m_bIsValid a = bool_decide (is_Some (m_pShm a));
  ow_free : forall p, m_pShm a = Some p -> base !! p = None;
  ow_attached : attached w = match m_pShm a with Some p => <[p := m_nShmId a]> base | None => base end }.

Lemma owns_none base a w : m_pShm a = None -> m_bIsValid a = false -> attached w = base -> owns base a w.
Proof. intros Hp Hv Ha. split; rewrite Hp; done. Qed.

Lemma owns_some base a w p :
  m_pShm a = Some p -> m_bIsValid a = true -> base !! p = None -> attached w = <[p := m_nShmId a]> base -> owns base a w.
Proof. intros Hp Hv Hf Ha. split; rewrite Hp; [done|by intros ? [= <-]|done]. Qed.

(** The same attachments. *)
Lemma owns_same base a w w' : owns base a w -> attached w' = attached w -> owns base a w'.
Proof. intros [V F A] E. split; [done|done|congruence]. Qed.

Lemma attach_run base w i f r w' : attached w = base -> shmat i f w = (r, w') ->
  match r with Some p => base !! p = None /\ attached w' = <[p := i]> base | None => attached w' = base end.
Proof.
  intros Hb E. destruct r as [p|].
  - apply shmat_some in E as [? ?]. by subst.
  - apply shmat_none in E. congruence.
Qed.

(** Giving the adapter's segment back leaves what others have. *)
Lemma detach_run base p i w : base !! p = None -> attached w = <[p := i]> base ->
  fst (shmdt p w) = 0 /\ attached (snd (shmdt p w)) = base.
Proof.
  intros Hf Ha. destruct (shmdt_law p i w) as [H1 H2]; [by rewrite Ha, lookup_insert_eq|]. split; [done|].
  by rewrite H2, Ha, delete_insert_id.
Qed.

(** [shmget] of the goal. *)
Ltac get id w' :=
  match goal with |- context [shmget ?k ?s ?f ?w] =>
    let L := fresh in pose proof (shmget_law k s f w) as L; destruct (shmget k s f w) as [id w']; cbn [snd] in L end.

Lemma lock_memory_owns base bLock a p w :
  base !! p = None -> attached w = <[p := m_nShmId a]> base -> owns base (lock_memory bLock a p w).1 (lock_memory bLock a p w).2.
Proof.
  intros Hf Ha. unfold lock_memory. destruct (if bLock then mlock p (m_ddwShmSize a) w else (0, w)) as [r w1] eqn:E.
  assert (Ha1 : attached w1 = <[p := m_nShmId a]> base).
  { destruct bLock; [|by injection E as <- <-]. pose proof (mlock_law p (m_ddwShmSize a) w) as L. rewrite E in L. cbn [snd] in L. congruence. }
  destruct (Z.eqb r 0); cbn [negb].
  - by apply (owns_some _ _ _ p).
  - destruct (detach_run base p (m_nShmId a) w1 Hf Ha1) as [_ Hd]. destruct (shmdt p w1) as [r2 w2]. by apply owns_none.
Qed.

Lemma new_owns key size bCreate bReadOnly bLock bHugePage bInitClear w :
  let r := shm_adapter_new key size bCreate bReadOnly bLock bHugePage bInitClear w in owns (attached w) r.1 r.2.
Proof.
  cbv zeta. unfold shm_adapter_new. get i1 w1. destruct (Z.ltb i1 0).
  - destruct (Z.eqb _ 0); [by apply owns_none|]. get i2 w2. destruct (Z.ltb i2 0); [apply owns_none; [done|done|cbn; congruence]|].
    assert (Hb : attached w2 = (attached w)) by congruence. destruct (shmat i2 0 w2) as [[p|] w3] eqn:E; pose proof (attach_run (attached w) w2 _ _ _ _ Hb E) as Hat.
    + apply lock_memory_owns; [apply Hat|]. destruct bInitClear; [rewrite memset0_law|]; apply Hat.
    + by apply owns_none.
  - assert (Hb : attached w1 = (attached w)) by congruence. destruct (shmat i1 0 w1) as [[p|] w3] eqn:E; pose proof (attach_run (attached w) w1 _ _ _ _ Hb E) as Hat.
    + apply lock_memory_owns; apply Hat.
    + by apply owns_none.
Qed.

Lemma refresh_owns base a w : owns base a w -> owns base (refresh a w).1.2 (refresh a w).2.
Proof.
  intros O. unfold refresh. destruct (m_pShm a) as [old|] eqn:Hp; [|done]. get i1 w1.
  assert (O1 : owns base a w1) by by eapply owns_same. destruct (Z.ltb i1 0); [done|]. destruct (Z.eqb i1 (m_nShmId a)); [done|].
  destruct (shm_segsz i1 w1) as [sz|]; [|done]. destruct (Z.eqb _ sz); [done|].
  pose proof O1 as [V F A]. rewrite Hp in A. specialize (F old Hp).
  destruct (shmat i1 0 w1) as [[p|] w2] eqn:E; pose proof (attach_run _ _ _ _ _ _ eq_refl E) as Hat.
  - destruct Hat as [Hf Ha]. rewrite A in Hf, Ha. apply lookup_insert_None in Hf as [Hf Hne].
    destruct (shmdt_law old (m_nShmId a) w2) as [_ Hd]; [by rewrite Ha, lookup_insert_ne, lookup_insert_eq by done|].
    destruct (shmdt old w2) as [r w3]. cbn [snd] in Hd. apply (owns_some _ _ _ p); [done| |done|].
    + cbn. rewrite V, Hp. done.
    + cbn. rewrite Hd, Ha, delete_insert_ne, delete_insert_id by done. done.
  - eapply owns_same; [exact O1|exact Hat].
Qed.

Lemma open_owns base key ro a w : owns base a w -> owns base (open key ro a w).1.2 (open key ro a w).2.
Proof.
  intros O. unfold open. destruct (m_pShm a) as [old|] eqn:Hp; [done|]. get i1 w1.
  assert (O1 : owns base a w1) by by eapply owns_same. destruct (Z.ltb i1 0); [done|].
  destruct (shm_segsz i1 w1) as [sz|]; [|done]. pose proof (ow_attached _ _ _ O1) as A. rewrite Hp in A. cbv beta iota in A.
  destruct (shmat _ _ w1) as [[p|] w2] eqn:E; pose proof (attach_run _ _ _ _ _ _ A E) as Hat.
  - apply (owns_some _ _ _ p); [done|done|apply Hat|apply Hat].
  - eapply owns_same; [exact O1|]. rewrite A. exact Hat.
Qed.

Lemma create_owns base key size huge clr a w : owns base a w -> owns base (create key size huge clr a w).1.2 (create key size huge clr a w).2.
Proof.
  intros O. unfold create. destruct (m_pShm a) as [old|] eqn:Hp; [done|]. get i1 w1.
  assert (O1 : owns base a w1) by by eapply owns_same. pose proof (ow_attached _ _ _ O1) as A. rewrite Hp in A. cbv beta iota in A. destruct (Z.ltb i1 0).
  - get i2 w2. assert (O2 : owns base a w2) by by eapply owns_same. destruct (Z.ltb i2 0); [done|].
    assert (Hb : attached w2 = base) by congruence. destruct (shmat _ _ w2) as [[p|] w3] eqn:E; pose proof (attach_run base w2 _ _ _ _ Hb E) as Hat.
    + apply (owns_some _ _ _ p); [done|done|apply Hat|]. cbn. destruct clr; [rewrite memset0_law|]; apply Hat.
    + eapply owns_same; [exact O2|]. rewrite Hb. exact Hat.
  - destruct (shm_segsz i1 w1) as [sz|]; [|done]. destruct (negb _); [done|].
    destruct (shmat _ _ w1) as [[p|] w2] eqn:E; pose proof (attach_run _ _ _ _ _ _ A E) as Hat.
    + apply (owns_some _ _ _ p); [done|done|apply Hat|apply Hat].
    + eapply owns_same; [exact O1|]. rewrite A. exact Hat.
Qed.

Lemma close_owns base a w : owns base a w -> owns base (close a w).1.2 (close a w).2.
Proof.
  intros [V F A]. unfold close. destruct (m_pShm a) as [p|] eqn:Hp; [|by apply owns_none].
  destruct (detach_run base p (m_nShmId a) w (F p eq_refl) A) as [H0 Hd]. destruct (shmdt p w) as [r w1]. cbn [fst snd] in *. subst r.
  by apply owns_none.
Qed.

(** *** Any use of an adapter *)

Inductive shm_op := Refresh | Open (key : Z) (read_only : bool) | Create (key size : Z) (huge clear : bool) | Close.

Definition shm_step (op : shm_op) (a : shm_adapter) (w : W) : bool * shm_adapter * W :=
  match op with
  | Refresh => refresh a w
  | Open key ro => open key ro a w
  | Create key size huge clr => create key size huge clr a w
  | Close => close a w
  end.

(** Between the operations other parts of the process do what they like, except to attach or detach segments. *)
Fixpoint shm_run (ops : list (shm_op * (W -> W))) (a : shm_adapter) (w : W) : shm_adapter * W :=
  match ops with
  | [] => (a, w)
  | (op, others) :: ops => let '(_, a, w) := shm_step op a w in shm_run ops a (others w)
  end.

Lemma shm_run_owns base ops : forall a w, (forall op f w, (op, f) ∈ ops -> attached (f w) = attached w) ->
  owns base a w -> owns base (shm_run ops a w).1 (shm_run ops a w).2.
Proof.
  induction ops as [|[op f] ops IH]; intros a w Hf O; [done|]. cbn [shm_run].
  assert (O1 : owns base (shm_step op a w).1.2 (shm_step op a w).2).
  { destruct op; [by apply refresh_owns|by apply open_owns|by apply create_owns|by apply close_owns]. }
  destruct (shm_step op a w) as [[r a1] w1]. cbn [fst snd] in O1. apply IH; [intros; eapply Hf; by right|].
  eapply owns_same; [exact O1|]. eapply Hf. by left.
Qed.

Lemma destroy_owns base a w : owns base a w -> attached (destroy a w) = base.
Proof.
  intros [V F A]. unfold destroy. destruct (m_pShm a) as [p|]; [|done]. by apply (detach_run base p (m_nShmId a)); [apply F|].
Qed.

(** An adapter made with a key or without one and used in any way, whichever calls of the system fail, is
    valid exactly when it points to a segment; the process then has this segment attached once and nothing else that it did not have
    before; and after the destructor it has attached what it had before. *)
Theorem shm_adapter_no_leak (key size : Z) (bCreate bReadOnly bLock bHugePage bInitClear : bool) (ops : list (shm_op * (W -> W))) (w : W) :
  (forall op f w, (op, f) ∈ ops -> attached (f w) = attached w) ->
  (forall a w0, (a, w0) = (shm_adapter0, w) \/ (a, w0) = shm_adapter_new key size bCreate bReadOnly bLock bHugePage bInitClear w ->
     let '(a, w1) := shm_run ops a w0 in
     is_valid a = bool_decide (is_Some (get_shm a)) /\
     attached w1 = match get_shm a with Some p => <[p := m_nShmId a]> (attached w) | None => attached w end /\
     attached (destroy a w1) = attached w).
Proof.
  intros Hf a w0 Hi. assert (O : owns (attached w) a w0).
  { destruct Hi as [[= -> ->]|Hi]; [by apply owns_none|].
    pose proof (new_owns key size bCreate bReadOnly bLock bHugePage bInitClear w) as O. cbv zeta in O. by rewrite <- Hi in O. }
  apply (shm_run_owns _ ops) in O; [|done]. destruct (shm_run ops a w0) as [a1 w1]. cbn [fst snd] in O.
  split; [apply O|]. split; [apply O|by apply destroy_owns].
Qed.

(** A call for a segment attaches one at most, and only when it does not fail. *)
Lemma OI_GetShm_attached key size flag w r w' : OI_GetShm key size flag w = (r, w') ->
  match r with Some p => attached w !! p = None /\ exists i, attached w' = <[p := i]> (attached w) | None => attached w' = attached w end.
Proof.
  unfold OI_GetShm. destruct (Z.eqb key 0); [by intros [= <- <-]|]. get i1 w1. destruct (Z.ltb i1 0); [by intros [= <- <-]|].
  intros E. apply (attach_run (attached w)) in E; [|done]. destruct r; [|done]. split; [apply E|]. exists i1. apply E.
Qed.

Lemma OI_GetShm2_attached key size flag w r q w' : OI_GetShm2 key size flag w = (r, q, w') ->
  (r < 0 <-> q = None) /\
  match q with Some p => attached w !! p = None /\ exists i, attached w' = <[p := i]> (attached w) | None => attached w' = attached w end.
Proof.
  unfold OI_GetShm2. destruct (Z.eqb key 0); [by intros [= <- <- <-]|].
  destruct (OI_GetShm key size _ w) as [[p|] w1] eqn:E1; apply OI_GetShm_attached in E1; [by intros [= <- <- <-]|].
  destruct (Z.eqb _ 0); [by intros [= <- <- <-]|].
  destruct (OI_GetShm key size flag w1) as [[p|] w2] eqn:E2; apply OI_GetShm_attached in E2; intros [= <- <- <-].
  - split; [done|]. by rewrite memset0_law, <- E1.
  - split; [done|]. congruence.
Qed.

(** A segment that was removed and made again with the same size: [refresh] says that all is well and keeps the old one. *)
Lemma refresh_stale (a : shm_adapter) (p id : Z) (w w1 : W) :
  m_pShm a = Some p -> shmget (s32 (m_ddwShmKey a)) 0 0 w = (id, w1) -> 0 <= id -> id <> m_nShmId a ->
  shm_segsz id w1 = Some (m_ddwShmSize a) -> refresh a w = (true, a, w1).
Proof.
  intros Hp Hg Hi Hne Hs. unfold refresh. rewrite Hp, Hg, (proj2 (Z.ltb_ge _ _)), (proj2 (Z.eqb_neq _ _)), Hs, Z.eqb_refl by done. done.
Qed.

End laws.

(** ** A small system *)

(** Segments by key, with their number and size; the numbers and addresses given out are never used again. *)
Record small_os := mk_small { so_segs : gmap Z (Z * Z); so_att : gmap Z Z; so_id : Z; so_addr : Z }.

Definition small_get (key size flag : Z) (w : small_os) : Z * small_os :=
  match so_segs w !! key with
  | Some (id, sz) => (if Z.leb size sz then id else -1, w)
  | None =>
      if Z.eqb (Z.land flag IPC_CREAT) 0 then (-1, w)
      else (so_id w, mk_small (<[key := (so_id w, size)]> (so_segs w)) (so_att w) (so_id w + 1) (so_addr w))
  end.
Definition small_size (id : Z) (w : small_os) : option Z :=
  snd <$> (snd <$> head (filter (fun e => e.2.1 = id) (map_to_list (so_segs w)))).
(** The address given out last is the highest one. *)
Definition small_at (id flag : Z) (w : small_os) : option Z * small_os :=
  if bool_decide (so_att w !! so_addr w = None) then
    (Some (so_addr w), mk_small (so_segs w) (<[so_addr w := id]> (so_att w)) (so_id w) (so_addr w + 1))
  else (None, w).
Definition small_dt (p : Z) (w : small_os) : Z * small_os :=
  match so_att w !! p with
  | Some _ => (0, mk_small (so_segs w) (delete p (so_att w)) (so_id w) (so_addr w))
  | None => (-1, w)
  end.
(** The segment of a key is removed. *)
Definition small_rm (key : Z) (w : small_os) : small_os := mk_small (delete key (so_segs w)) (so_att w) (so_id w) (so_addr w).

#[export] Instance small_shm : ShmOS small_os := {
  shmget := small_get; shmat := small_at; shmdt := small_dt; shm_segsz := small_size;
  mlock := fun _ size w => (if Z.ltb 1000 size then -1 else 0, w); memset0 := fun _ _ w => w; attached := so_att }.

#[export] Instance small_laws : ShmOSLaws small_os.
Proof.
  split; cbn.
  - intros k s f w. unfold small_get. destruct (so_segs w !! k) as [[i z]|]; [done|]. by destruct (Z.eqb _ 0).
  - intros i f w a w'. unfold small_at. case_bool_decide; [|done]. by intros [= <- <-].
  - intros i f w w'. unfold small_at. case_bool_decide; [done|]. by intros [= <-].
  - intros a i w Ha. unfold small_dt. by rewrite Ha.
  - done.
  - done.
Qed.

Definition no_segments : small_os := mk_small ∅ ∅ 1 4096.

(** Made, refreshed after the segment was replaced by one of the same size, and closed: the replaced segment is not seen. *)
Example replaced_segment_not_seen :
  let '(_, a, w) := create 7 64 false true shm_adapter0 no_segments in
  let '(_, w) := small_get 7 64 IPC_CREAT (small_rm 7 w) in
  let '(r, a, w) := refresh a w in
  (r, m_nShmId a, fst (small_get 7 0 0 w), size (so_att (destroy a w))) = (true, 1, 2, 0%nat).
Proof. vm_compute. reflexivity. Qed.

(** Memory that cannot be locked is given back. *)
Example lock_fails :
  let '(a, w) := shm_adapter_new 7 2000 true false true false true no_segments in (is_valid a, get_shm a, size (so_att w)) = (false, None, 0%nat).
Proof. vm_compute. reflexivity. Qed.

Lemma shm_adapter_no_leak_witness :
  let '(a, w) := shm_run [(Create 7 64 false true, small_rm 7); (Refresh, fun w => w); (Close, fun w => w); (Open 7 true, fun w => w)]
    shm_adapter0 no_segments in attached (destroy a w) = ∅.
Proof.
  pose proof (shm_adapter_no_leak 7 64 true false true false true
    [(Create 7 64 false true, small_rm 7); (Refresh, fun w => w); (Close, fun w => w); (Open 7 true, fun w => w)] no_segments) as H.
  specialize (H ltac:(intros op f w Hin; rewrite !elem_of_cons, elem_of_nil in Hin; destruct_or? Hin; try done; by injection Hin as -> ->)
    shm_adapter0 no_segments (or_introl eq_refl)).
  destruct (shm_run _ _ _) as [a w]. apply H.
Defined.
