(* ===== verification/ShmTables.v ===== *)
(** * The hash table on shared memory (src/ht/multi_hash_table.cc with src/ht/shm_adapter.cc)

    MultiHashTable.v takes the two calls of the adapter it makes as arguments.  Here they are those of ShmAdapter.v; [mem_at]
    and [raw_at] are what lies at an address, as a table and as new memory.  The table is set up only on a segment that is
    attached and has the size its header says. *)

From S2P Require Import Prelude LinkTable MultiHashTable ShmAdapter.

Section tables.
Context {W : Type} {OS : ShmOS W} (mem_at : Z -> MhtMem) (raw_at : Z -> RawBuffer) (w : W).

(** A new adapter, opened. *)
Definition adapter_open (key : Z) : bool * shm_adapter * W := open key false shm_adapter0 w.
(** A new adapter again, when the first one could not be opened. *)
Definition adapter_create (key size : Z) (huge : bool) : bool * shm_adapter * W :=
  create key size huge true shm_adapter0 (adapter_open key).2.

Definition adapter_calls : shm_calls := {|
  shm_open key := let '(r, a, _) := adapter_open key in if r : bool then Some (mem_at <$> get_shm a, get_size a) else None;
  shm_create key size huge := let '(r, a, _) := adapter_create key size huge in if r : bool then Some (raw_at <$> get_shm a) else None |}.

Lemma open_true key ro a w0 a' w' : open key ro a w0 = (true, a', w') -> is_valid a' = true /\ is_Some (get_shm a') /\ get_key a' = key.
Proof.
  unfold open. destruct (m_pShm a); [done|]. destruct (shmget _ _ _ _) as [i w1]. destruct (Z.ltb i 0); [done|].
  destruct (shm_segsz i w1); [|done]. destruct (shmat _ _ _) as [[p|] w2]; [|done]. intros [= <- <-]. by split_and!.
Qed.

Lemma create_true key size huge clr a w0 a' w' : create key size huge clr a w0 = (true, a', w') ->
  is_valid a' = true /\ is_Some (get_shm a') /\ get_key a' = key /\ get_size a' = size.
Proof.
  unfold create. destruct (m_pShm a); [done|]. destruct (shmget _ _ _ _) as [i w1]. destruct (Z.ltb i 0).
  - destruct (shmget _ _ _ w1) as [i2 w2]. destruct (Z.ltb i2 0); [done|]. destruct (shmat _ _ _) as [[p|] w3]; [|done].
    intros [= <- <-]. by split_and!.
  - destruct (shm_segsz i w1); [|done]. destruct (negb _); [done|]. destruct (shmat _ _ _) as [[p|] w3]; [|done].
    intros [= <- <-]. by split_and!.
Qed.

(** The pointer of an adapter that was opened or made is not NULL: the two tests for that never hold. *)
Lemma adapter_never_null key size huge s :
  shm_open adapter_calls key <> Some (None, s) /\ shm_create adapter_calls key size huge <> Some None.
Proof.
  split; cbn [adapter_calls shm_open shm_create].
  - destruct (adapter_open key) as [[r a] w1] eqn:E. destruct r; [|done]. apply open_true in E as (_ & [p Hp] & _). by rewrite Hp.
  - destruct (adapter_create key size huge) as [[r a] w1] eqn:E. destruct r; [|done]. apply create_true in E as (_ & [p Hp] & _). by rewrite Hp.
Qed.

(** A table that was found in shared memory lies in an attached segment of the key, whose size is the one in the table's header. *)
Theorem table_attached (m m' : MultiHashTable) (key : Z) (f : option (bytes -> Z)) :
  InitFromShm adapter_calls m key f = (0, m') ->
  exists a w1 p h, adapter_open key = (true, a, w1) /\ is_valid a = true /\ get_key a = key /\ get_shm a = Some p /\
    header m' = Some h /\ h = mm_head (mem_at p) /\ ddwTotalShmSize h = get_size a.
Proof.
  unfold InitFromShm. cbn [adapter_calls shm_open]. destruct (adapter_open key) as [[r a] w1] eqn:E. destruct r; [|done].
  destruct (open_true _ _ _ _ _ _ E) as (Hv & [p Hp] & Hk). rewrite Hp. cbn [fmap option_fmap option_map].
  destruct (Z.eqb_spec (ddwTotalShmSize (mm_head (mem_at p))) (get_size a)) as [Hs|]; cbn [negb]; [|done].
  destruct (InitExisting _ _ _ _ _) as [ret l]. destruct (negb _); [done|]. intros [= <-].
  exists a, w1, p, (mm_head (mem_at p)). by split_and!.
Qed.

End tables.
