(* ===== verification/Net.v ===== *)
(** * Network helpers (src/knv/net.h, net.cc)

    Addresses of both families in one type, socket options and a UDP socket.  What the operating system and the C
    library answer ([inet_pton], [inet_ntop], [fcntl], [socket], [bind], a shell command) are arguments; the calls made are kept as
    a list.  Theorems: a socket that could not be bound is closed ([CreateUdpListenSocket_spec]), a flag is changed and no
    other ([SetSocketNonblock_flags]), a time-out is kept to the microsecond ([SetSocketRecvTimeout_exact]); and an IPv6 address
    with a long text has none ([long_address_no_text]). *)

From S2P Require Import Prelude.

Definition AF_INET : Z := 2.
Definition AF_INET6 : Z := 10.
(** The sizes of the two structures; they tell the families apart. *)
Definition sizeof_sockaddr_in : Z := 16.
Definition sizeof_sockaddr_in6 : Z := 28.

(** ** Addresses *)

(** The union: family, port in network order, and the bytes of the address. *)
(** Models [UcSockAddr] (src/knv/net.h:27-50). *)
Record UcSockAddr := mk_addr { sa_family : Z; sa_port : Z; sa_addr : bytes; addr_len : Z }.

(** [htons], which is [ntohs] *)
Definition htons (z : Z) : Z := u16 z mod 256 * 256 + u16 z / 256.

Lemma htons_htons z : htons (htons z) = u16 z.
Proof.
  unfold htons. assert (H : 0 <= u16 z < 65536) by (unfold u16; apply Z.mod_pos_bound; lia). set (x := u16 z) in *. pose proof (Z.div_mod x 256 ltac:(lia)). pose proof (Z.mod_pos_bound x 256 ltac:(lia)).
  assert (0 <= x / 256 < 256) by (split; [apply Z.div_pos; lia|apply Z.div_lt_upper_bound; lia]).
  set (y := x mod 256 * 256 + x / 256).
  assert (u16 y = y) as -> by (unfold u16; apply Z.mod_small; unfold y; lia). unfold y.
  replace (x mod 256 * 256 + x / 256) with (x / 256 + x mod 256 * 256) by lia.
  rewrite Z.mod_add, (Z.mod_small (x / 256)), Z.div_add, (Z.div_small (x / 256)) by lia. lia.
Qed.

(** Models [UcNet::UcSockAddr::UcSockAddr] (src/knv/net.h:30-30). *)
Definition UcSockAddr_empty (use_ipv6 : bool) : UcSockAddr :=
  mk_addr 0 0 [] (if use_ipv6 then sizeof_sockaddr_in6 else sizeof_sockaddr_in).

(** The bytes of an address that [inet_pton] does not understand are not set; they are those of [old]. *)
(** Models [UcNet::UcSockAddr::UcSockAddr] (src/knv/net.cc:51-67). *)
Definition UcSockAddr_text (inet_pton : Z -> bytes -> option bytes) (old ipstr : bytes) (port : Z) : UcSockAddr :=
  let family := if bool_decide (58 ∈ ipstr) then AF_INET6 else AF_INET in
  mk_addr family (htons port) (default old (inet_pton family ipstr))
    (if Z.eqb family AF_INET6 then sizeof_sockaddr_in6 else sizeof_sockaddr_in).

(** Models [UcSockAddr::IsIpv4] (src/knv/net.h:39-39). *)
Definition IsIpv4 (a : UcSockAddr) : bool := Z.eqb (addr_len a) sizeof_sockaddr_in.
(** Models [UcSockAddr::IsIpv6] (src/knv/net.h:40-40). *)
Definition IsIpv6 (a : UcSockAddr) : bool := negb (IsIpv4 a).

(** [inet_ntop] of a text and the size of its buffer: [None] for NULL when the text and its final 0 do not fit.  The size
    given is that of the address. *)
(** Models [UcSockAddr::to_str] (src/knv/net.cc:69-76). *)
Definition to_str (text_of : Z -> bytes -> bytes) (a : UcSockAddr) : option bytes :=
  let family := if Z.eqb (addr_len a) sizeof_sockaddr_in6 then AF_INET6 else AF_INET in
  let t := text_of family (sa_addr a) in
  if Z.ltb (addr_len a) (len t + 1) then None else Some t.

(** [%s] prints "(null)" for NULL. *)
(** Models [UcSockAddr::to_str_with_port] (src/knv/net.cc:77-82). *)
Definition to_str_with_port (text_of : Z -> bytes -> bytes) (a : UcSockAddr) : bytes :=
  take 78 (default (txt "(null)") (to_str text_of a) ++
    (if Z.eqb (addr_len a) sizeof_sockaddr_in6 then txt "/" else txt ":") ++ dec (htons (sa_port a))).

(** An IPv4 address has a text. *)
Lemma short_address_text text_of a : addr_len a = sizeof_sockaddr_in -> len (text_of AF_INET (sa_addr a)) <= 15 ->
  to_str text_of a = Some (text_of AF_INET (sa_addr a)).
Proof. intros Ha Hl. unfold to_str. rewrite Ha. cbn [Z.eqb sizeof_sockaddr_in sizeof_sockaddr_in6 Pos.eqb]. by rewrite (proj2 (Z.ltb_ge _ _)) by (unfold sizeof_sockaddr_in; lia). Qed.

(** The size of an IPv6 address is given for that of the buffer: a text of 28 characters or more is not made. *)
Lemma long_address_no_text text_of a : addr_len a = sizeof_sockaddr_in6 -> 28 <= len (text_of AF_INET6 (sa_addr a)) -> to_str text_of a = None.
Proof. intros Ha Hl. unfold to_str. rewrite Ha. cbn [Z.eqb sizeof_sockaddr_in sizeof_sockaddr_in6 Pos.eqb]. by rewrite (proj2 (Z.ltb_lt _ _)) by (unfold sizeof_sockaddr_in6; lia). Qed.

Example long_address :
  to_str_with_port (fun _ _ => txt "2001:db8:1111:2222:3333:4444:5555:6666") (mk_addr AF_INET6 (htons 80) [] sizeof_sockaddr_in6) = txt "(null)/80".
Proof. reflexivity. Qed.

(** *** The address of an interface *)

(** [out] is what the shell command leaves in the file, [sIp] what was found before, whatever it was asked for. *)
(** Models [UcNet::GetLocalIp] (src/knv/net.cc:22-49). *)
Definition GetLocalIp (command : bytes -> bytes -> option bytes) (family ifname sIp : bytes) : bytes :=
  match sIp with
  | [] => match command family ifname with Some out => take 127 out | None => [] end
  | _ => sIp
  end.

(** The first address is given for every family and every interface. *)
Lemma first_address_stays command f i f' i' : GetLocalIp command f i [] <> [] ->
  GetLocalIp command f' i' (GetLocalIp command f i []) = GetLocalIp command f i [].
Proof. intros H. unfold GetLocalIp at 1. by destruct (GetLocalIp command f i []). Qed.

(** Models [UcNet::GetLocalIpv4Addr] (src/knv/net.h:23-23). *)
Definition GetLocalIpv4Addr (command : bytes -> bytes -> option bytes) : bytes -> bytes -> bytes := GetLocalIp command (txt "inet").
(** Models [UcNet::GetLocalIpv6Addr] (src/knv/net.h:24-24). *)
Definition GetLocalIpv6Addr (command : bytes -> bytes -> option bytes) : bytes -> bytes -> bytes := GetLocalIp command (txt "inet6").

(** ** Socket options *)

Definition O_NONBLOCK : Z := 2048.
Definition O_NDELAY : Z := 2048.

(** [iFlags] is what [F_GETFL] gives; the flags set. *)
(** Models [UcNet::SetSocketNonblock] (src/knv/net.cc:84-99). *)
Definition SetSocketNonblock (iFlags : Z) (nonblock : bool) : Z :=
  if nonblock then Z.lor (Z.lor iFlags O_NONBLOCK) O_NDELAY else Z.land (Z.land iFlags (Z.lnot O_NONBLOCK)) (Z.lnot O_NDELAY).

Lemma SetSocketNonblock_flags f nonblock i : 0 <= i ->
  Z.testbit (SetSocketNonblock f nonblock) i = if decide (i = 11) then nonblock else Z.testbit f i.
Proof.
  intros Hi. unfold SetSocketNonblock, O_NONBLOCK, O_NDELAY. change 2048 with (2 ^ 11).
  destruct nonblock; rewrite ?Z.lor_spec, ?Z.land_spec, ?Z.lnot_spec, !Z.pow2_bits_eqb by lia; case_decide as E; subst.
  - by rewrite Z.eqb_refl, !orb_true_r.
  - rewrite (proj2 (Z.eqb_neq 11 i)) by lia. by rewrite !orb_false_r.
  - rewrite Z.eqb_refl. by rewrite !andb_false_r.
  - rewrite (proj2 (Z.eqb_neq 11 i)) by lia. by rewrite !andb_true_r.
Qed.

(** Seconds and microseconds. *)
(** Models [UcNet::SetSocketRecvTimeout] (src/knv/net.cc:101-107). *)
Definition SetSocketRecvTimeout (iTimeoutMs : Z) : Z * Z := (u64 iTimeoutMs / 1000, u64 iTimeoutMs mod 1000 * 1000).

Lemma SetSocketRecvTimeout_exact ms : 0 <= ms < 2 ^ 64 ->
  let '(s, us) := SetSocketRecvTimeout ms in s * 1000000 + us = ms * 1000 /\ 0 <= us < 1000000.
Proof. intros H. unfold SetSocketRecvTimeout. rewrite u64_small by lia. pose proof (Z.div_mod ms 1000 ltac:(lia)). pose proof (Z.mod_pos_bound ms 1000 ltac:(lia)). lia. Qed.

(** ** A UDP socket *)

Inductive udp_op := UdpSocket (family fd : Z) | UdpReuse (fd : Z) | UdpFlags (fd flags : Z) | UdpBind (fd : Z) (a : UcSockAddr) | UdpClose (fd : Z).

(** [s] is what [socket] gives, [fl] the flags of the new socket, [bound] what [bind] gives. *)
(** Models [UcNet::CreateUdpListenSocket] (src/knv/net.cc:109-166). *)
Definition CreateUdpListenSocket (s fl bound port : Z) (reuse use_ipv6 nonblock : bool) : Z * list udp_op :=
  let family := if use_ipv6 then AF_INET6 else AF_INET in
  if Z.ltb s 0 then (-1, [])
  else
    let addr := mk_addr family (htons port) (replicate (if use_ipv6 then 16 else 4) 0)
                  (if use_ipv6 then sizeof_sockaddr_in6 else sizeof_sockaddr_in) in
    let ops := [UdpSocket family s] ++ (if reuse then [UdpReuse s] else []) ++
               (if nonblock then [UdpFlags s (Z.lor (Z.lor (if Z.ltb fl 0 then 0 else fl) O_NONBLOCK) O_NDELAY)] else []) ++ [UdpBind s addr] in
    if Z.ltb bound 0 then (-2, ops ++ [UdpClose s]) else (s, ops).

(** A socket is given back bound, to the port asked for and in the family asked for, or it is closed. *)
Theorem CreateUdpListenSocket_spec (s fl bound port : Z) (reuse use_ipv6 nonblock : bool) :
  let '(r, ops) := CreateUdpListenSocket s fl bound port reuse use_ipv6 nonblock in
  (0 <= r -> r = s /\ 0 <= bound /\ UdpClose s ∉ ops /\
     exists a, UdpBind s a ∈ ops /\ htons (sa_port a) = u16 port /\ IsIpv6 a = use_ipv6) /\
  (r < 0 -> forall family fd, UdpSocket family fd ∈ ops -> UdpClose fd ∈ ops).
Proof.
  unfold CreateUdpListenSocket. destruct (Z.ltb_spec s 0); [split; [lia|set_solver]|].
  set (a := mk_addr _ _ _ _). destruct (Z.ltb_spec bound 0).
  - split; [lia|]. intros _ family fd Hin. assert (fd = s) as -> by (destruct reuse, nonblock; set_solver). set_solver.
  - split; [|lia]. intros _. split; [done|]. split; [done|]. split; [destruct reuse, nonblock; set_solver|].
    exists a. split; [destruct reuse, nonblock; set_solver|]. split; [apply htons_htons|]. by destruct use_ipv6.
Qed.
