(* ===== verification/Fork.v ===== *)
(** * Supervision of the worker processes (src/comm/fork_children.c)

    [ForkChildren] starts the workers and then, in the parent, starts a worker again when it has died.
    The signal handler [DealSigChld] can run between any two statements of the parent, so the parent is a
    step relation: one step for each access to the arrays the handler also uses.  Processes are numbers;
    the kernel keeps those that run and those that died and were not waited for.  A new process number is
    never one that runs, that was not waited for or that is still in [pidArray]. *)

From S2P Require Import Prelude.
From stdpp Require Import relations.

(** ** Start *)

(** Models [MAXPIDNUM] (src/comm/fork_children.c:12-12). *)
Definition MAXPIDNUM : Z := 1024.
(** Models [MIN_INTERVAL] (src/comm/fork_children.c:13-13). *)
Definition MIN_INTERVAL : Z := 1.

(** Where [ForkChildren] is: in a child, with its number; returning an error, with the children killed; or in
    the parent, with the process numbers of the children. *)
Inductive started := Child (i : nat) | Failed (code : Z) (killed : list Z) | Parent (pids : list Z).

(** The loop, for the results of [fork]: 0 in a child, -1 when it fails.  The array ends with a 0 where
    [fork] failed. *)
(** Models [ForkChildren] (src/comm/fork_children.c:104-125). *)
Fixpoint fork_loop (i : nat) (forks pids : list Z) (ok : nat) : started + (list Z * nat) :=
  match forks with
  | [] => inr (pids, ok)
  | pid :: forks' =>
      if Z.eqb pid 0 then inl (Child i)
      else if Z.ltb 0 pid then fork_loop (S i) forks' (pids ++ [pid]) (S ok)
      else fork_loop (S i) forks' (pids ++ [0%Z]) ok
  end.

(** Models [ForkChildren] (src/comm/fork_children.c:64-135). *)
Definition ForkChildren (childNum : Z) (forks : list Z) : started :=
  if Z.ltb MAXPIDNUM childNum then Failed (-1) []
  else
    match fork_loop 0 (take (Z.to_nat childNum) forks) [] 0 with
    | inl r => r
    | inr (pids, ok) =>
        if Z.ltb (Z.of_nat ok) childNum then Failed (-2) (filter (fun pid => pid <> 0%Z) pids) else Parent pids
    end.

(** ** Supervision *)

(** Where the parent is: asleep, about to look at slot [i], or registering the child [pid] it just started
    for slot [i]: before the flag is cleared, and before the number is stored. *)
Inductive pc := Sleep | Look (i : nat) | Forked (i : nat) (pid : Z) | Cleared (i : nat) (pid : Z).

(** The arrays are those of the file; [alive] and [zombies] are the kernel's. *)
Record state := mk_state {
  pidArray : list Z; chldFlagArr : list bool; preTimeArr : list Z; curTime : Z; at_pc : pc;
  alive : gset Z; zombies : list Z }.

Definition set_pc (p : pc) (s : state) : state :=
  mk_state (pidArray s) (chldFlagArr s) (preTimeArr s) (curTime s) p (alive s) (zombies s).

(** [for(j=0; j<gChildNum; ++j) if(pidArray[j]==chidPid) { chldFlagArr[j] = 1; break; }] *)
(** Models [DealSigChld] (src/comm/fork_children.c:44-52). *)
Fixpoint set_flag (pids : list Z) (flags : list bool) (pid : Z) : list bool :=
  match pids, flags with
  | p :: pids', f :: flags' => if Z.eqb p pid then true :: flags' else f :: set_flag pids' flags' pid
  | _, _ => flags
  end.

(** Every child that died is waited for. *)
(** Models [DealSigChld] (src/comm/fork_children.c:33-62). *)
Definition DealSigChld (s : state) : state :=
  mk_state (pidArray s) (foldl (set_flag (pidArray s)) (chldFlagArr s) (zombies s)) (preTimeArr s) (curTime s) (at_pc s) (alive s) [].

(** Slot [i] has a dead child that may be started again. *)
(** Models [ForkChildren] (src/comm/fork_children.c:146-148). *)
Definition due (s : state) (i : nat) : bool :=
  default false (chldFlagArr s !! i) && Z.leb MIN_INTERVAL (curTime s - default 0%Z (preTimeArr s !! i)).

Definition registering (s : state) : bool := match at_pc s with Forked _ _ | Cleared _ _ => true | _ => false end.

(** What makes a step: the parent's program, the death of a child, or the handler. *)
Inductive event := Main | Dies | Handler.

(** Models [ForkChildren] (src/comm/fork_children.c:139-177). *)
Inductive step : event -> state -> state -> Prop :=
  | step_wake s now :
      at_pc s = Sleep ->
      step Main s (mk_state (pidArray s) (chldFlagArr s) (preTimeArr s) now (Look 0) (alive s) (zombies s))
  | step_sleep s i : at_pc s = Look i -> (length (pidArray s) <= i)%nat -> step Main s (set_pc Sleep s)
  | step_next s i :
      at_pc s = Look i -> (i < length (pidArray s))%nat -> due s i = false -> step Main s (set_pc (Look (S i)) s)
  | step_fork_fails s i :
      at_pc s = Look i -> (i < length (pidArray s))%nat -> due s i = true -> step Main s (set_pc (Look (S i)) s)
  | step_fork s i pid :
      at_pc s = Look i -> (i < length (pidArray s))%nat -> due s i = true ->
      pid ∉ alive s -> pid ∉ zombies s -> pid ∉ pidArray s ->
      step Main s (mk_state (pidArray s) (chldFlagArr s) (preTimeArr s) (curTime s) (Forked i pid) ({[pid]} ∪ alive s) (zombies s))
  | step_clear s i pid :
      at_pc s = Forked i pid ->
      step Main s (mk_state (pidArray s) (<[i := false]> (chldFlagArr s)) (preTimeArr s) (curTime s) (Cleared i pid) (alive s) (zombies s))
  | step_store s i pid :
      at_pc s = Cleared i pid ->
      step Main s (mk_state (<[i := pid]> (pidArray s)) (chldFlagArr s) (<[i := curTime s]> (preTimeArr s)) (curTime s) (Look (S i)) (alive s) (zombies s))
  | step_die s pid :
      pid ∈ alive s ->
      step Dies s (mk_state (pidArray s) (chldFlagArr s) (preTimeArr s) (curTime s) (at_pc s) (alive s ∖ {[pid]}) (zombies s ++ [pid]))
  | step_sigchld s : step Handler s (DealSigChld s).

Definition any_step (s s' : state) : Prop := exists e, step e s s'.

(** A step in which the handler does not interrupt the registration of a child. *)
Definition calm_step (s s' : state) : Prop := exists e, step e s s' /\ (e = Handler -> registering s = false).

(** The parent when its supervision begins, at the time [t], with the children [pids]; until then the signal is
    ignored, and a child that died meanwhile is gone. *)
(** Models [ForkChildren] (src/comm/fork_children.c:138-139). *)
Definition start (pids : list Z) (t : Z) (al : gset Z) : state :=
  mk_state pids (replicate (length pids) false) (replicate (length pids) t) t Sleep al [].

(** ** What is watched *)

Definition there (s : state) (pid : Z) : Prop := pid ∈ alive s \/ pid ∈ zombies s.

(** Slot [i] has a child that runs or whose death is still to be noticed, or its child will be started. *)
Definition watched (s : state) (i : nat) : Prop :=
  chldFlagArr s !! i = Some true \/ (exists pid, pidArray s !! i = Some pid /\ there s pid) \/
  (exists pid, at_pc s = Cleared i pid /\ there s pid).

Record supervised (s : state) : Prop := {
  sv_len : length (chldFlagArr s) = length (pidArray s);
  sv_nodup : NoDup (pidArray s);
  sv_watched : forall i, (i < length (pidArray s))%nat -> watched s i;
  sv_forked : forall i pid, at_pc s = Forked i pid \/ at_pc s = Cleared i pid ->
    (i < length (pidArray s))%nat /\ there s pid /\ pid ∉ pidArray s }.

Lemma NoDup_insert_fresh {A} (l : list A) : forall i x, NoDup l -> x ∉ l -> NoDup (<[i := x]> l).
Proof.
  induction l as [|a l IH]; intros [|i] x Hnd Hx; cbn; try done; apply NoDup_cons in Hnd as [Ha Hnd]; apply not_elem_of_cons in Hx as [Hxa Hx].
  - by apply NoDup_cons.
  - apply NoDup_cons. split; [|by apply IH]. intros (j & E)%list_elem_of_lookup.
    apply list_lookup_insert_Some in E as [(_ & <- & _)|(_ & E)]; [done|]. destruct Ha. by eapply list_elem_of_lookup_2.
Qed.

Lemma set_flag_length pids : forall flags pid, length (set_flag pids flags pid) = length flags.
Proof. induction pids as [|p pids IH]; intros [|f flags] pid; try done. cbn. destruct (Z.eqb p pid); [done|]. cbn. by rewrite IH. Qed.

Lemma set_flag_lookup pids : forall flags pid i b,
  flags !! i = Some b -> pids !! i = Some pid -> NoDup pids -> set_flag pids flags pid !! i = Some true.
Proof.
  induction pids as [|p pids IH]; intros [|f flags] pid [|i] b Hf Hp Hnd; try done; cbn [set_flag].
  - cbn in Hp. injection Hp as ->. by rewrite Z.eqb_refl.
  - cbn in Hf, Hp. apply NoDup_cons in Hnd as [Hn Hnd]. destruct (Z.eqb_spec p pid) as [->|].
    + destruct Hn. by eapply list_elem_of_lookup_2.
    + apply (IH flags pid i b Hf Hp Hnd).
Qed.

Lemma set_flag_other pids : forall flags pid i, pids !! i <> Some pid -> set_flag pids flags pid !! i = flags !! i.
Proof.
  induction pids as [|p pids IH]; intros [|f flags] pid [|i] Hp; try done; cbn [set_flag].
  - destruct (Z.eqb_spec p pid) as [->|]; [by destruct Hp|done].
  - destruct (Z.eqb p pid); [done|]. exact (IH flags pid i Hp).
Qed.

Lemma set_flag_true pids flags pid i : flags !! i = Some true -> set_flag pids flags pid !! i = Some true.
Proof.
  revert flags i. induction pids as [|p pids IH]; intros [|f flags] [|i] Hf; try done; cbn [set_flag]; destruct (Z.eqb p pid); try done.
  exact (IH flags i Hf).
Qed.

Lemma flags_length pids zs : forall flags, length (foldl (set_flag pids) flags zs) = length flags.
Proof. induction zs as [|z zs IH]; intros flags; [done|]. cbn. by rewrite IH, set_flag_length. Qed.

Lemma flags_true pids zs i : forall flags, flags !! i = Some true -> foldl (set_flag pids) flags zs !! i = Some true.
Proof. induction zs as [|z zs IH]; intros flags Hf; [done|]. cbn. apply IH. by apply set_flag_true. Qed.

Lemma flags_set pids zs i pid : forall flags,
  NoDup pids -> (i < length flags)%nat -> pids !! i = Some pid -> pid ∈ zs -> foldl (set_flag pids) flags zs !! i = Some true.
Proof.
  induction zs as [|z zs IH]; intros flags Hnd Hi Hp Hz; [by apply elem_of_nil in Hz|]. cbn.
  destruct (decide (z = pid)) as [->|Hne].
  - apply flags_true. apply lookup_lt_is_Some in Hi as [b Hb]. by eapply set_flag_lookup.
  - apply elem_of_cons in Hz as [->|Hz]; [done|]. apply IH; [done|by rewrite set_flag_length|done|done].
Qed.

Lemma flags_other pids zs i : forall flags,
  (forall pid, pids !! i = Some pid -> pid ∉ zs) -> foldl (set_flag pids) flags zs !! i = flags !! i.
Proof.
  induction zs as [|z zs IH]; intros flags Hp; [done|]. cbn. rewrite IH.
  - apply set_flag_other. intros E. apply (Hp z E). by left.
  - intros pid E Hz. apply (Hp pid E). by right.
Qed.

Lemma supervised_step s s' : calm_step s s' -> supervised s -> supervised s'.
Proof.
  intros (e & Hs & Hm) [Hl Hnd Hw Hf]. destruct Hs as [s now Hpc|s i Hpc Hi|s i Hpc Hi Hd|s i Hpc Hi Hd|s i pid Hpc Hi Hd Ha Hz Hp
    |s i pid Hpc|s i pid Hpc|s pid Ha|s].
  1-4: split; cbn; try done; [|by intros ? ? [?|?]]; intros j Hj; destruct (Hw j Hj) as [?|[?|(p & E & _)]];
       [by left|by right; left|congruence].
  - assert (Hmono : forall q, there s q -> there (mk_state (pidArray s) (chldFlagArr s) (preTimeArr s) (curTime s) (Forked i pid)
        ({[pid]} ∪ alive s) (zombies s)) q) by (intros q [?|?]; [left; cbn; set_solver|by right]).
    split; cbn; try done.
    + intros j Hj. destruct (Hw j Hj) as [?|[(q & E & Hq)|(q & E & _)]]; [by left|right; left; exists q; auto|congruence].
    + intros j q [E|E]; [|done]. injection E as <- <-. split; [done|]. split; [left; cbn; set_solver|done].
  - destruct (Hf i pid ltac:(by left)) as (Hi & Ht & Hp). split; cbn; try done.
    + by rewrite length_insert.
    + intros j Hj. destruct (decide (j = i)) as [->|Hne]; [right; right; by exists pid|].
      destruct (Hw j Hj) as [?|[?|(q & E & _)]]; [left; cbn; by rewrite list_lookup_insert_ne|by right; left|congruence].
    + intros j q [E|E]; [done|]. by injection E as <- <-.
  - destruct (Hf i pid ltac:(by right)) as (Hi & Ht & Hp). split; cbn.
    + by rewrite length_insert.
    + by apply NoDup_insert_fresh.
    + intros j Hj. rewrite length_insert in Hj. destruct (decide (j = i)) as [->|Hne].
      * right; left. exists pid. cbn. by rewrite list_lookup_insert_eq.
      * destruct (Hw j Hj) as [?|[(q & E & Hq)|(q & E & _)]]; [by left|right; left; exists q; cbn; by rewrite list_lookup_insert_ne|].
        congruence.
    + by intros j q [?|?].
  - assert (Hmono : forall q, there s q -> there (mk_state (pidArray s) (chldFlagArr s) (preTimeArr s) (curTime s) (at_pc s)
        (alive s ∖ {[pid]}) (zombies s ++ [pid])) q).
    { intros q [Hq|Hq]; [|right; cbn; set_solver]. destruct (decide (q = pid)) as [->|]; [right; cbn; set_solver|left; cbn; set_solver]. }
    split; cbn; try done.
    + intros j Hj. destruct (Hw j Hj) as [?|[(q & E & Hq)|(q & E & Hq)]]; [by left|right; left; exists q; auto|right; right; exists q; auto].
    + intros j q Hjq. destruct (Hf j q Hjq) as (? & ? & ?). auto.
  - specialize (Hm eq_refl). split; cbn.
    + by rewrite flags_length.
    + done.
    + intros j Hj. destruct (Hw j Hj) as [?|[(q & E & [Hq|Hq])|(q & E & _)]].
      * left. cbn. by apply flags_true.
      * right; left. exists q. split; [done|by left].
      * left. cbn. apply (flags_set _ _ _ q); [done|by rewrite Hl|done|done].
      * unfold registering in Hm. by rewrite E in Hm.
    + intros j q Hjq. exfalso. unfold registering in Hm. cbn in Hjq. by destruct Hjq as [E|E]; rewrite E in Hm.
Qed.

#[local] Open Scope Z_scope.

Lemma start_supervised pids t al : NoDup pids -> list_to_set pids ⊆ al -> supervised (start pids t al).
Proof.
  intros Hnd Hal. split; cbn; [by rewrite length_replicate|done| |by intros ? ? [?|?]].
  intros i Hi. right; left. destruct (lookup_lt_is_Some_2 pids i Hi) as [p Hp]. exists p. split; [done|]. left. cbn.
  apply Hal, elem_of_list_to_set. by eapply list_elem_of_lookup_2.
Qed.

Lemma length_step e s s' : step e s s' -> length (pidArray s') = length (pidArray s).
Proof. intros Hs. destruct Hs; cbn; by rewrite ?length_insert. Qed.

Lemma supervised_run s s' : rtc calm_step s s' -> supervised s -> supervised s' /\ length (pidArray s') = length (pidArray s).
Proof.
  induction 1 as [|s s1 s' Hs _ IH]; intros Hv; [done|]. destruct (IH (supervised_step _ _ Hs Hv)) as [Hv' ->].
  destruct Hs as (e & Hs & _). by rewrite (length_step _ _ _ Hs).
Qed.

(** C33: If every child runs when the supervision begins and the handler does not interrupt the registration of
    a child, then at every moment every slot has a child that runs, a child whose death the handler is still to
    see, or a flag that has the parent start it again: no worker is lost. *)
Theorem supervision pids t al s i :
  NoDup pids -> list_to_set pids ⊆ al -> rtc calm_step (start pids t al) s -> (i < length pids)%nat -> watched s i.
Proof.
  intros Hnd Hal Hr Hi. destruct (supervised_run _ _ Hr (start_supervised pids t al Hnd Hal)) as [Hv Hl].
  apply (sv_watched s Hv). by rewrite Hl.
Qed.

Lemma supervision_witness : exists s,
  rtc calm_step (start [100; 101] 7 {[100; 101]}) s /\ ¬ (100 ∈ alive s)%Z /\ watched s 0.
Proof.
  set (s0 := start [100; 101] 7 {[100; 101]}).
  exists (DealSigChld (mk_state (pidArray s0) (chldFlagArr s0) (preTimeArr s0) (curTime s0) (at_pc s0) (alive s0 ∖ {[100]}) (zombies s0 ++ [100]))).
  match goal with |- rtc _ _ ?s /\ _ => set (s1 := s) end.
  assert (Hr : rtc calm_step s0 s1).
  { eapply rtc_l; [|eapply rtc_l; [|apply rtc_refl]].
    - exists Dies. split; [apply (step_die s0 100); set_solver|done].
    - exists Handler. split; [apply step_sigchld|done]. }
  split; [exact Hr|]. split; [cbn; set_solver|].
  apply (supervision [100; 101] 7 {[100; 101]} s1 0); [apply NoDup_cons; split; [set_solver|apply NoDup_singleton]|set_solver|exact Hr|cbn; lia].
Defined.

(** ** A worker that is lost *)

Record lost (s : state) : Prop := {
  lo_pids : pidArray s = [101]; lo_flags : chldFlagArr s = [false]; lo_alive : alive s ≡ ∅; lo_zombies : zombies s = [];
  lo_pc : at_pc s = Sleep \/ exists i, at_pc s = Look i }.

Lemma lost_step s s' : any_step s s' -> lost s -> lost s'.
Proof.
  intros (e & Hs) [Hp Hfl Ha Hz Hpc]. destruct Hs as [s now Epc|s i Epc Hi|s i Epc Hi Hd|s i Epc Hi Hd|s i pid Epc Hi Hd Hna Hnz Hnp
    |s i pid Epc|s i pid Epc|s pid Hal|s]; try (by destruct Hpc as [E|[j E]]; rewrite E in Epc).
  - split; cbn; try done. right. by exists 0%nat.
  - split; cbn; try done. by left.
  - split; cbn; try done. right. by exists (S i).
  - split; cbn; try done. right. by exists (S i).
  - rewrite Hp in Hi. destruct i as [|i]; [|cbn in Hi; lia]. unfold due in Hd. by rewrite Hfl in Hd.
  - set_solver.
  - split; cbn; try done. by rewrite Hz, Hfl.
Qed.

Lemma lost_run s s' : rtc any_step s s' -> lost s -> lost s'.
Proof. induction 1 as [|s s1 s' Hs _ IH]; intros Hl; [done|]. apply IH. by eapply lost_step. Qed.

(** The handler may run between the moment a child is started again and the moment its number is stored.
    A worker that dies at once is then not found in the array, nothing is flagged, and the worker is never
    started again whatever happens later. *)
Theorem lost_child : exists s,
  rtc any_step (start [100] 0 {[100]}) s /\
  forall s', rtc any_step s s' -> pidArray s' = [101] /\ chldFlagArr s' = [false] /\ alive s' ≡ ∅.
Proof.
  exists (mk_state [101] [false] [5] 5 (Look 1) (({[101]} ∪ ({[100]} ∖ {[100]})) ∖ {[101]}) []). split.
  - eapply rtc_l; [exists Dies; apply (step_die _ 100); cbn; set_solver|].
    eapply rtc_l; [exists Handler; apply step_sigchld|].
    eapply rtc_l; [exists Main; by apply (step_wake _ 5)|].
    eapply rtc_l; [exists Main; apply (step_fork _ 0 101); cbn; [done|lia|done|set_solver..]|].
    eapply rtc_l; [exists Dies; apply (step_die _ 101); cbn; set_solver|].
    eapply rtc_l; [exists Handler; apply step_sigchld|].
    eapply rtc_l; [exists Main; by apply (step_clear _ 0 101)|].
    eapply rtc_l; [exists Main; by apply (step_store _ 0 101)|]. apply rtc_refl.
  - intros s' Hr. destruct (lost_run _ _ Hr) as []; [|done].
    split; cbn; first [done | set_solver | right; by exists 1%nat].
Qed.
