(* ===== verification/Startup.v ===== *)
(** * Start-up and the accept loop (src/mysql_proxy_server.cpp: ProxyInit, CreateListenSock, main)

    [ProxyInit] reads the configuration and the key file, makes the cache and the traffic counter, opens the
    listening socket, connects to the database and starts the workers.  What the operating system answers is an
    argument ([machine]); the socket calls made are kept as a list.  [main_turn] is one turn of the loop of [main]. *)

From S2P Require Import Prelude MultiHashTable Storage Traffic Crypt Keys Server Fork Cfg.

(** ** Settings *)

(** Models [MYSQL_PROXY_DEFAULT_SPORT] (src/mysql_proxy_server.cpp:25-25). *)
Definition MYSQL_PROXY_DEFAULT_SPORT : bytes := txt "34765".

(** The parameters of the configuration file, in the order of the call. *)
(** Models [ProxyInit] (src/mysql_proxy_server.cpp:519-548). *)
Definition proxy_params : list param :=
  [ mk_param (txt "LOGFILE") CFG_STRING (CStr (txt "/home/oicq/mysql_proxy/log/mysql_proxy_server")) 256;
    mk_param (txt "KEYFILE") CFG_STRING (CStr (txt "/home/oicq/mysql_proxy/conf/key_file.txt")) 256;
    mk_param (txt "LOG_LEVEL") CFG_INT (CNum 5) 4;
    mk_param (txt "SERVER_IP") CFG_STRING (CStr (txt "0.0.0.0")) 128;
    mk_param (txt "SERVER_PORT") CFG_STRING (CStr MYSQL_PROXY_DEFAULT_SPORT) 32;
    mk_param (txt "MYSQL_HOST") CFG_STRING (CStr (txt "localhost")) 30;
    mk_param (txt "MYSQL_USER") CFG_STRING (CStr (txt "root")) 30;
    mk_param (txt "MYSQL_PASSWD") CFG_STRING (CStr []) 20;
    mk_param (txt "MYSQL_DB") CFG_STRING (CStr (txt "mysql_test")) 20;
    mk_param (txt "MYSQL_CHARSET") CFG_STRING (CStr (txt "utf8")) 32;
    mk_param (txt "SEND_BYTES_LIMIT") CFG_INT (CNum 300000000) 4;
    mk_param (txt "MIN_INTERVAL") CFG_INT (CNum 10) 4;
    mk_param (txt "ENA_TRAFIC_CTRL") CFG_INT (CNum 1) 4;
    mk_param (txt "SHM_KEY") CFG_INT (CNum 4486997) 4;
    mk_param (txt "SHM_PERCENT") CFG_INT (CNum 20) 4;
    mk_param (txt "SHM_BLOCKSIZE") CFG_INT (CNum 4096) 4;
    mk_param (txt "SHM_MAX_KEYLEN") CFG_INT (CNum 128) 4;
    mk_param (txt "CHILD_NUM") CFG_INT (CNum 1) 4;
    mk_param (txt "CACHE_VALID_SECONDS") CFG_INT (CNum 60) 4 ].

(** The settings of [stConfig], with the local variables of [ProxyInit]. *)
(** Models [CONFIG] (src/mysql_proxy_server.cpp:38-62). *)
Record config := mk_settings {
  sLogFilePath : bytes; sKeyFile : bytes; iLogLevel : Z; sServerIP : bytes; sServerPort : bytes;
  sDBIP : bytes; sDBUser : bytes; sDbPwd : bytes; sDBName : bytes; s_Charset : bytes;
  iSendBytesLimit : Z; iMinInterval : Z; iEnaTraficCtrl : Z; iShmKey : Z; iShmPercentage : Z; iShmBlockSize : Z;
  s_ShmMaxKeyLen : Z; iChildNum : Z; s_CacheValidSeconds : Z }.

Definition to_settings (vs : list cfg_value) : option config :=
  match vs with
  | [CStr a; CStr b; CNum c; CStr d; CStr e; CStr f; CStr g; CStr h; CStr i; CStr j; CNum k; CNum l; CNum m; CNum n;
     CNum o; CNum p; CNum q; CNum r; CNum s] => Some (mk_settings a b c d e f g h i j k l m n o p q r s)
  | _ => None
  end.

(** Values that would hurt are replaced. *)
(** Models [ProxyInit] (src/mysql_proxy_server.cpp:557-570). *)
Definition clamp (s : config) : config :=
  let keylen := if Z.ltb (s_ShmMaxKeyLen s) 128 then 128 else s_ShmMaxKeyLen s in
  let limit := if Z.ltb (iSendBytesLimit s) 10000000 then 10000000 else iSendBytesLimit s in
  let limit := if Z.ltb 500000000 limit then 500000000 else limit in
  let interval := if Z.ltb 50 (iMinInterval s) then 50 else iMinInterval s in
  mk_settings (sLogFilePath s) (sKeyFile s) (iLogLevel s) (sServerIP s) (sServerPort s) (sDBIP s) (sDBUser s) (sDbPwd s)
    (sDBName s) (s_Charset s) limit interval (iEnaTraficCtrl s) (iShmKey s) (iShmPercentage s) (iShmBlockSize s) keylen
    (iChildNum s) (s_CacheValidSeconds s).

(** Models [ProxyInit] (src/mysql_proxy_server.cpp:527-548). *)
Definition read_settings (file : option bytes) : option config := to_settings (TLib_Cfg_GetConfig proxy_params file).

(** ** The listening socket *)

(** The calls on sockets. *)
Inductive net_op :=
  | Socket (fd : Z) | ReuseAddr (fd : Z) | Bind (fd addr port : Z) | Listen (fd backlog : Z) | KeepAlive (fd : Z)
  | NonBlock (fd : Z) | Accept (fd : Z) | Close (fd : Z) | StartWorker (fd : Z).

(** What [socket], [bind] and [setsockopt] return, and the address of a text. *)
Record net_calls := mk_net { r_socket : Z; r_bind : Z; r_keepalive : Z; inet_addr : bytes -> Z }.

(** [atoi] *)
Definition atoi (s : bytes) : Z :=
  let s := skip_spaces s in
  let '(neg, s) := match s with 45 :: s' => (true, s') | 43 :: s' => (false, s') | _ => (false, s) end in
  let n := digits 10 0 s in
  s32 (if neg : bool then Z.max (- 2 ^ 63) (- n) else Z.min (2 ^ 63 - 1) n).

(** [iPort] is computed and not used. *)
(** Models [CreateSockAddr] (src/mysql_proxy_server.cpp:361-402). *)
Definition CreateSockAddr (sys : net_calls) (sIP sPort : bytes) : Z * list net_op :=
  let fd := r_socket sys in
  if Z.ltb fd 0 then (-1, [])
  else
    let ops := [Socket fd; ReuseAddr fd; Bind fd (inet_addr sys sIP) (u16 (atoi sPort))] in
    if Z.ltb (r_bind sys) 0 then (-1, ops ++ [Close fd])
    else (fd, ops ++ [Listen fd 5]).

(** Models [CreateListenSock] (src/mysql_proxy_server.cpp:414-431). *)
Definition CreateListenSock (sys : net_calls) (s : config) : Z * list net_op :=
  let '(fd, ops) := CreateSockAddr sys (sServerIP s) (sServerPort s) in
  if Z.ltb fd 0 then (-1, ops)
  else
    let ops := ops ++ [KeepAlive fd] in
    if Z.eqb (r_keepalive sys) (-1) then (-1, ops ++ [Close fd])
    else (fd, ops ++ [NonBlock fd]).

(** ** Start-up *)

(** What [ProxyInit] is answered: the files, the shared memory, the segment of the byte counter that exists or is
    made, the socket calls, and the results of [fork]. *)
Record machine := mk_machine {
  files : bytes -> option bytes; shm : shm_calls; GetTotalMemory : Z; old_counter : option atomic_counter_t;
  fresh_counter : option atomic_counter_t; net : net_calls; forks : list Z }.

(** How [ProxyInit] ends: it returns, or it goes on as the parent of the workers. *)
Inductive init_end := Returns (ret : Z) | Supervises (pids : list Z).

Section startup.
Context `{D : Des} {K : Knv} {Q : MySQL} {C : Cache K Q}.

(** What the process has afterwards. *)
Record proxy := mk_proxy {
  x_settings : option config; x_keys : gmap bytes bytes; x_iShmFd : Z; x_tables : tables; x_net : list net_op; x_world : world }.

(** [stConfig] as the request handler uses it. *)
Definition to_config (s : config) (keys : gmap bytes bytes) : CONFIG :=
  mk_config (s_Charset s) (s_ShmMaxKeyLen s) (s_CacheValidSeconds s) keys.

Definition set_counter (c : atomic_counter_t) (w : world) : world :=
  mk_world (w_pool w) c (sMySQLError w) (w_db w) (w_cache w) (w_sent w) (w_queries w) (w_opened w) (w_closed w).

(** Models [ProxyInit] (src/mysql_proxy_server.cpp:504-518). *)
Definition conf_path (argv : list bytes) : option bytes :=
  match argv with
  | [_] => Some (txt "/home/oicq/mysql_proxy/conf/mysql_proxy_server.conf")
  | [_; path] => Some (strncpy 255 path)
  | _ => None
  end.

(** The cache and the byte counter. *)
(** Models [ProxyInit] (src/mysql_proxy_server.cpp:580-592). *)
Definition init_memory (m : machine) (s : config) (u : tables) (w : world) : option (Z * tables * option world) :=
  '(fd, u) ← InitWrite (shm m) (GetTotalMemory m) (u64 (iShmKey s)) (u8 (iShmPercentage s)) (u32 (s_ShmMaxKeyLen s)) 20 1
               (u32 (iShmBlockSize s)) false u;
  if Z.ltb fd 0 then Some (fd, u, None)
  else
    match atomic_counter_array_init (old_counter m) (fresh_counter m) 0 with
    | (0, Some c) => Some (fd, u, Some (set_counter (mk_counter (dwCounter c) 0) w))
    | _ => Some (fd, u, None)
    end.

(** With one worker the connection that was tried is kept for it. *)
(** Models [ProxyInit] (src/mysql_proxy_server.cpp:601-624). *)
Definition init_workers (m : machine) (s : config) (keys : gmap bytes bytes) (iListenFd : Z) (w : world) : init_end * world :=
  match InitMySQL (to_config s keys) w with
  | (None, w) => (Returns (-1), w)
  | (Some c, w) =>
      let w := if Z.ltb 1 (iChildNum s) then RealFreeMySQL c w else FreeMySQL c w in
      match ForkChildren (u32 (iChildNum s)) (forks m) with
      | Child _ => (Returns iListenFd, w)
      | Failed _ _ => (Returns (-1), w)
      | Parent pids => (Supervises pids, w)
      end
  end.

(** [None] is an access outside an array, or the model's loops running out of fuel. *)
(** Models [ProxyInit] (src/mysql_proxy_server.cpp:502-625). *)
Definition ProxyInit (m : machine) (argv : list bytes) (u : tables) (w : world) : option (init_end * proxy) :=
  match conf_path argv with
  | None => Some (Returns (-1), mk_proxy None ∅ 0 u [] w)
  | Some path =>
      s ← read_settings (files m path);
      '(n, keys) ← LoadKeyFile (files m (sKeyFile s)) ∅;
      if Z.ltb n 0 || Z.eqb (Z.of_nat (size keys)) 0 then Some (Returns (-1), mk_proxy (Some s) keys 0 u [] w)
      else
        let s := clamp s in
        '(fd, u, w') ← init_memory m s u w;
        match w' with
        | None => Some (Returns (-1), mk_proxy (Some s) keys fd u [] w)
        | Some w =>
            let '(iListenFd, ops) := CreateListenSock (net m) s in
            if Z.ltb iListenFd 0 then Some (Returns (-1), mk_proxy (Some s) keys fd u ops w)
            else
              let '(e, w) := init_workers m s keys iListenFd w in
              Some (e, mk_proxy (Some s) keys fd u ops w)
        end
  end.

End startup.

(** ** The loop of main *)

(** What one turn is answered.  [i_interrupted] and [i_accept_interrupted] stand for [errno==EINTR]. *)
Record turn_input := mk_turn {
  i_now : timeval; i_select : Z; i_interrupted : bool; i_isset : bool; i_accept : Z; i_accept_interrupted : bool;
  i_create : Z }.

(** Models [main] (src/mysql_proxy_server.cpp:1118-1123). *)
Definition traffic_turn (s : config) (i : turn_input) (tr : traffic) : option (bool * traffic) :=
  if Z.eqb (iEnaTraficCtrl s) 0 then Some (false, tr)
  else '(r, tr) ← TrafficCtl (iMinInterval s) (iSendBytesLimit s) (i_now i) tr; Some (negb (Z.eqb r 0), tr).

(** Models [main] (src/mysql_proxy_server.cpp:1116-1190). *)
Definition main_turn (s : config) (i : turn_input) (tr : traffic) : option (list net_op * traffic) :=
  '(iClose, tr) ← traffic_turn s i tr;
  if Z.eqb (i_select i) 0 then Some ([], tr)
  else if Z.ltb (i_select i) 0 && i_interrupted i then Some ([], tr)
  else if negb (i_isset i) then Some ([], tr)
  else
    let fd := i_accept i in
    if Z.ltb fd 0 then Some ([], tr)
    else if iClose : bool then Some ([Accept fd; Close fd], tr)
    else if Z.eqb (i_create i) 0 then Some ([Accept fd; StartWorker fd], tr)
    else if Z.ltb (i_create i) 0 then Some ([Accept fd; Close fd], tr)
    else Some ([Accept fd], tr).

(** ** Types of the settings *)

Definition text_fits (n : Z) (s : bytes) : Prop := len s < n /\ c_str s = s.
Definition is_int (z : Z) : Prop := - 2 ^ 31 <= z < 2 ^ 31.

Record settings_typed (s : config) : Prop := {
  st_log : text_fits 256 (sLogFilePath s); st_key : text_fits 256 (sKeyFile s); st_level : is_int (iLogLevel s);
  st_ip : text_fits 128 (sServerIP s); st_port : text_fits 32 (sServerPort s); st_host : text_fits 30 (sDBIP s);
  st_user : text_fits 30 (sDBUser s); st_pwd : text_fits 20 (sDbPwd s); st_db : text_fits 20 (sDBName s);
  st_charset : text_fits 32 (s_Charset s); st_limit : is_int (iSendBytesLimit s); st_interval : is_int (iMinInterval s);
  st_traffic : is_int (iEnaTraficCtrl s); st_shmkey : is_int (iShmKey s); st_percent : is_int (iShmPercentage s);
  st_block : is_int (iShmBlockSize s); st_keylen : is_int (s_ShmMaxKeyLen s); st_children : is_int (iChildNum s);
  st_valid : is_int (s_CacheValidSeconds s) }.

(** What the clamps add. *)
Record settings_ok (s : config) : Prop := {
  so_typed : settings_typed s;
  so_keylen : 128 <= s_ShmMaxKeyLen s;
  so_limit : 10000000 <= iSendBytesLimit s <= 500000000;
  so_interval : iMinInterval s <= 50 }.

Lemma proxy_params_ok : Forall param_ok proxy_params.
Proof.
  unfold proxy_params. repeat (apply Forall_cons; split; [split; [cbn; lia|]|]); [..|constructor];
    unfold typed; cbn [p_type InitDefault p_default]; first [lia | apply strncpy_fits; cbn; lia].
Qed.

Lemma read_settings_typed file : exists s, read_settings file = Some s /\ settings_typed s.
Proof.
  pose proof (config_typed proxy_params file proxy_params_ok) as H. unfold read_settings.
  revert H. generalize (TLib_Cfg_GetConfig proxy_params file). intros vs H. unfold proxy_params in H.
  repeat match goal with H : Forall2 _ (_ :: _) _ |- _ => apply Forall2_cons_inv_l in H as (? & ? & ? & H & ->) end.
  apply Forall2_nil_inv_l in H as ->. unfold typed in *. cbn [p_type p_size] in *.
  repeat match goal with H : match ?v with CStr _ => _ | _ => _ end |- _ => destruct v; [|contradiction H..] || (destruct v; [contradiction H|idtac|contradiction H]) end.
  eexists. split; [reflexivity|]. split; assumption.
Qed.

Lemma clamp_ok s : settings_typed s -> settings_ok (clamp s).
Proof.
  intros Hs. split; [|cbn; repeat zif; lia..].
  destruct Hs. split; cbn; try done; unfold is_int in *; repeat zif; lia.
Qed.

(** ** Start-up ends well *)

Lemma fork_loop_child forks : forall i pids ok j,
  fork_loop i forks pids ok = inl (Child j) -> (i <= j < i + length forks)%nat.
Proof.
  induction forks as [|pid forks IH]; intros i pids ok j H; [done|]. cbn [fork_loop length] in *.
  destruct (Z.eqb pid 0); [injection H as <-; lia|]. destruct (Z.ltb 0 pid); apply IH in H; lia.
Qed.

Lemma fork_loop_inl forks : forall i pids ok r, fork_loop i forks pids ok = inl r -> exists j, r = Child j.
Proof.
  induction forks as [|pid forks IH]; intros i pids ok r H; [done|]. cbn [fork_loop] in H.
  destruct (Z.eqb pid 0); [injection H as <-; eauto|]. destruct (Z.ltb 0 pid); eauto.
Qed.

Lemma ForkChildren_child n forks i : ForkChildren n forks = Child i -> Z.of_nat i < n <= 1024.
Proof.
  unfold ForkChildren, MAXPIDNUM. zif; [done|]. destruct (fork_loop _ _ _ _) as [r|[pids ok]] eqn:E; [|by zif].
  intros ->. apply fork_loop_child in E. rewrite length_take in E. lia.
Qed.

(** The calls that make the socket [fd] listen. *)
Definition listening (sys : net_calls) (s : config) (fd : Z) : list net_op :=
  [Socket fd; ReuseAddr fd; Bind fd (inet_addr sys (sServerIP s)) (u16 (atoi (sServerPort s))); Listen fd 5; KeepAlive fd; NonBlock fd].

(** Whatever fails, the socket does not stay open. *)
Lemma CreateListenSock_spec sys s :
  (exists fd, 0 <= fd /\ CreateListenSock sys s = (fd, listening sys s fd)) \/
  exists ops, CreateListenSock sys s = (-1, ops) /\ forall fd, Socket fd ∈ ops -> Close fd ∈ ops.
Proof.
  unfold CreateListenSock, CreateSockAddr. destruct (Z.ltb_spec (r_socket sys) 0) as [Hs|Hs].
  { right. exists []. split; [done|]. intros fd Hin. by apply elem_of_nil in Hin. }
  assert (Hc : forall l fd, Socket fd ∈ [Socket (r_socket sys); ReuseAddr (r_socket sys);
      Bind (r_socket sys) (inet_addr sys (sServerIP s)) (u16 (atoi (sServerPort s)))] ++ l ++ [Close (r_socket sys)] ->
      (forall x, x ∈ l -> x <> Socket fd) -> fd = r_socket sys).
  { intros l fd Hin Hl. cbn in Hin. repeat (apply elem_of_cons in Hin as [Hin|Hin]; [first [by injection Hin | discriminate Hin]|]).
    apply elem_of_app in Hin as [Hin|Hin]; [by destruct (Hl _ Hin)|]. by apply list_elem_of_singleton in Hin. }
  destruct (Z.ltb (r_bind sys) 0).
  - right. eexists. split; [done|]. intros fd Hin. apply (Hc []) in Hin as ->; [set_solver|set_solver].
  - rewrite (proj2 (Z.ltb_ge _ _) Hs). destruct (Z.eqb (r_keepalive sys) (-1)).
    + right. eexists. split; [done|]. intros fd Hin. rewrite <- !app_assoc in Hin.
      apply (Hc ([Listen (r_socket sys) 5] ++ [KeepAlive (r_socket sys)])) in Hin as ->; [set_solver|set_solver].
    + left. by exists (r_socket sys).
Qed.

Lemma InitWrite_bounds sys mem key pct len row blk size acc u fd u' :
  InitWrite sys mem key pct len row blk size acc u = Some (fd, u') -> 0 <= fd -> fd = create_idx u /\ fd < MAX_HT_SHM_NUM.
Proof.
  unfold InitWrite. destruct (Z.leb_spec MAX_HT_SHM_NUM (create_idx u)) as [Hx|Hx]; intros Hi Hfd; [simplify_eq; lia|]. cbn [mht] in Hi. destruct (mht u !! create_idx u) as [m|]; [|discriminate Hi]. cbn in Hi.
  destruct (CreateFromShm _ _ _) as [[ret m']|]; cbn in Hi; [|discriminate Hi]. destruct (Z.eqb ret 0); cbn in Hi; simplify_eq; lia.
Qed.

Section ready.
Context `{D : Des} {K : Knv} {Q : MySQL} {C : Cache K Q} `{QL : !MySQLLaws Q}.

(** The segment of the counter, when there is one, has the size of the structure. *)
Definition segment_ok (m : machine) : Prop := forall c, old_counter m = Some c -> length (dwCounter c) = 6%nat.

Lemma server_ok_counter c w : counter_ok c -> server_ok w -> server_ok (set_counter c w).
Proof. by intros ? [? ? ?]. Qed.

Lemma init_memory_spec m s u w fd u' w' :
  segment_ok m -> server_ok w -> init_memory m s u w = Some (fd, u', Some w') ->
  0 <= fd < MAX_HT_SHM_NUM /\ server_ok w' /\ cIdx (w_counter w') = 0.
Proof.
  intros Hm Hw Hi. unfold init_memory in Hi. destruct (InitWrite _ _ _ _ _ _ _ _ _ _) as [[fd0 u0]|] eqn:E; [|done].
  cbn in Hi. destruct (Z.ltb_spec fd0 0); [done|]. destruct (InitWrite_bounds _ _ _ _ _ _ _ _ _ _ _ _ E) as [_ Hb]; [done|].
  destruct (atomic_counter_array_init _ _ _) as [r [c|]] eqn:Ec; [|by destruct r]. destruct r; [|done..]. simplify_eq.
  split; [done|]. split; [|done]. apply server_ok_counter; [|done].
  assert (length (dwCounter c) = 6%nat) as Hl.
  { unfold atomic_counter_array_init, GetShm3 in Ec. destruct (old_counter m) as [c0|] eqn:Eo.
    - simplify_eq. by apply Hm.
    - destruct (fresh_counter m); cbn in Ec; by simplify_eq. }
  unfold counter_ok. cbn. apply lookup_lt_is_Some_2. lia.
Qed.

Lemma init_workers_spec m s keys fd w r w' :
  server_ok w -> 0 <= fd -> init_workers m s keys fd w = (Returns r, w') -> 0 <= r ->
  r = fd /\ server_ok w' /\ w_counter w' = w_counter w /\
  exists i, ForkChildren (u32 (iChildNum s)) (forks m) = Child i /\ Z.of_nat i < u32 (iChildNum s) <= 1024.
Proof.
  intros Hw Hfd Hi Hr. unfold init_workers in Hi. destruct (InitMySQL _ w) as [c w1] eqn:E.
  destruct (InitMySQL_spec _ w c w1 (so_conns w Hw) E) as [Hq Hc]. destruct c as [c|]; [|simplify_eq; lia].
  destruct Hw as [Hp Hct Hrd], Hq as (Hsent & Hcnt & Hqs).
  set (w2 := if Z.ltb 1 (iChildNum s) then RealFreeMySQL c w1 else FreeMySQL c w1) in Hi.
  assert (Hw2 : conns_ok w2 /\ quiet w1 w2) by (unfold w2; destruct (Z.ltb 1 (iChildNum s)); [by apply RealFreeMySQL_spec|by apply FreeMySQL_spec]).
  destruct Hw2 as (Hc2 & Hs2 & Hcnt2 & Hq2). destruct (ForkChildren _ _) as [i|? ?|?] eqn:Ef; simplify_eq; [|lia].
  split; [done|]. split; [split; [done|by rewrite Hcnt2, Hcnt|by rewrite Hq2, Hqs]|]. split; [by rewrite Hcnt2, Hcnt|].
  exists i. split; [done|]. by apply (ForkChildren_child _ (forks m)).
Qed.

(** What a worker process that returns from [ProxyInit] has. *)
Record ready (m : machine) (fd : Z) (p : proxy) (s : config) : Prop := {
  rd_settings : x_settings p = Some s;
  rd_ok : settings_ok s;
  rd_keys : x_keys p <> ∅;
  rd_loaded : exists n, LoadKeyFile (files m (sKeyFile s)) ∅ = Some (n, x_keys p);
  rd_cache : 0 <= x_iShmFd p < MAX_HT_SHM_NUM;
  rd_listens : x_net p = listening (net m) s fd;
  rd_server : server_ok (x_world p);
  rd_counter : cIdx (w_counter (x_world p)) = 0;
  rd_child : exists i, ForkChildren (u32 (iChildNum s)) (forks m) = Child i /\ Z.of_nat i < u32 (iChildNum s) <= 1024 }.

Lemma ProxyInit_run m argv u w fd p :
  segment_ok m -> server_ok w -> ProxyInit m argv u w = Some (Returns fd, p) -> 0 <= fd -> exists s, ready m fd p s.
Proof.
  intros Hm Hw Hi Hfd. unfold ProxyInit in Hi. destruct (conf_path argv) as [path|]; [|simplify_eq; lia].
  destruct (read_settings_typed (files m path)) as (s & Hs & Hst). rewrite Hs in Hi. cbn [mbind option_bind] in Hi.
  destruct (LoadKeyFile _ _) as [[n keys]|] eqn:Hk; [|discriminate Hi]. cbn [mbind option_bind] in Hi.
  destruct (Z.ltb n 0 || _) eqn:En; [simplify_eq; lia|].
  destruct (init_memory _ _ _ _) as [[[sfd u1] [w1|]]|] eqn:Em; [|cbn in Hi; simplify_eq; lia|discriminate Hi]. cbn [mbind option_bind] in Hi.
  destruct (init_memory_spec m (clamp s) u w sfd u1 w1 Hm Hw Em) as (Hsfd & Hw1 & Hidx).
  destruct (CreateListenSock_spec (net m) (clamp s)) as [(lfd & Hl & El)|(ops & El & _)]; rewrite El in Hi; cbn in Hi; [|simplify_eq; lia].
  rewrite (proj2 (Z.ltb_ge _ _) Hl) in Hi. destruct (init_workers _ _ _ _ _) as [e w2] eqn:Ew. simplify_eq.
  destruct (init_workers_spec m (clamp s) keys lfd w1 fd w2 Hw1 Hl Ew Hfd) as (-> & Hw2 & Hc2 & Hch).
  exists (clamp s). split; cbn; try done.
  - by apply clamp_ok.
  - intros ->. rewrite map_size_empty in En. by rewrite orb_true_r in En.
  - by exists n.
  - by rewrite Hc2.
Qed.

End ready.

(** ** A machine *)

Definition fresh_memory : RawBuffer :=
  mk_raw (fun _ _ => ∅) (fun _ _ _ => LinkTable.mk_buffer (LinkTable.mk_head 0 0 0 0 0 0 0 ∅ 0 []) ∅).
Definition no_table : MultiHashTable := mk_mht None ∅ None false DefaultHashFunc.
Definition no_tables : tables := mk_tables {[ 0 := no_table ]} 0 0 false false.

Definition conf_text : bytes :=
  txt "SERVER_PORT 3000" ++ nl ++ txt "SHM_MAX_KEYLEN 50" ++ nl ++ txt "MIN_INTERVAL 600" ++ nl ++ txt "KEYFILE k" ++ nl.

Definition sample_machine : machine :=
  mk_machine (fun path => if bool_decide (path = txt "c") then Some conf_text
                          else if bool_decide (path = txt "k") then Some (txt "app KEY") else None)
    (mk_shm (fun _ => None) (fun _ _ _ => Some (Some fresh_memory))) (64 * 1024 * 1024) None (Some zero_counter)
    (mk_net 7 0 0 (fun _ => 0)) [0].

Definition sample_settings : config :=
  Eval vm_compute in default (mk_settings [] [] 0 [] [] [] [] [] [] [] 0 0 0 0 0 0 0 0 0) (clamp <$> read_settings (Some conf_text)).

(** ** Properties *)

(** C8: whatever the configuration file holds, and when there is none, the settings the proxy runs with are well
    typed: every text fits into its array with the final 0, every number fits into its variable, and after the
    clamps the key length is at least 128, the limit between 10 and 500 million bytes and the interval at most 50. *)
Theorem settings_type (file : option bytes) : exists s, read_settings file = Some s /\ settings_ok (clamp s).
Proof. destruct (read_settings_typed file) as (s & Hs & Ht). exists s. split; [done|]. by apply clamp_ok. Qed.

(** C7: a process that returns a socket from [ProxyInit] is one of the workers, with the number of a configured
    child; its settings are well typed, its keys are those of the key file and there is at least one, it has a
    cache, the socket is bound to the configured address and listens, the byte counter starts in its first slot,
    and the worker's state is one that serving preserves: no database connection has been lost. *)
Theorem proxy_init_ready `{D : Des} {K : Knv} {Q : MySQL} {C : Cache K Q} `{!MySQLLaws Q}
    (m : machine) (argv : list bytes) (u : tables) (w : world) (fd : Z) (p : proxy) :
  segment_ok m -> server_ok w -> ProxyInit m argv u w = Some (Returns fd, p) -> 0 <= fd -> exists s, ready m fd p s.
Proof. apply ProxyInit_run. Qed.

Lemma proxy_init_ready_witness : exists p s,
  ProxyInit sample_machine [txt "proxy"; txt "c"] no_tables start_world = Some (Returns 7, p) /\ ready sample_machine 7 p s.
Proof.
  assert (H : match ProxyInit sample_machine [txt "proxy"; txt "c"] no_tables start_world with
              | Some (Returns r, _) => Z.eqb r 7 | _ => false end = true) by (vm_compute; reflexivity).
  destruct (ProxyInit sample_machine [txt "proxy"; txt "c"] no_tables start_world) as [[[r|] p]|] eqn:E; [|discriminate H..].
  apply Z.eqb_eq in H. subst r. exists p.
  assert (Hm : segment_ok sample_machine) by (intros c Hc; discriminate Hc).
  destruct (proxy_init_ready sample_machine _ no_tables start_world 7 p Hm start_world_ok E ltac:(lia)) as [s Hs].
  exists s. split; [reflexivity|exact Hs].
Defined.

(** A connection has arrived. *)
Definition arrived (i : turn_input) : bool :=
  negb (Z.eqb (i_select i) 0) && negb (Z.ltb (i_select i) 0 && i_interrupted i) && i_isset i && Z.leb 0 (i_accept i).

(** The control's answer and the window after it. *)
Definition turn_window (s : config) (i : turn_input) (w : window) : Z * window :=
  if Z.eqb (iEnaTraficCtrl s) 0 then (0, w) else spec_ctl (iMinInterval s) (iSendBytesLimit s) (i_now i) w.


