(* ===== verification/KnvShow.v ===== *)
(** * Hexadecimal input and .proto files of the tool knv_show (src/knv/knv_show.cpp)

    The tool reads a packet as hexadecimal digits, or a .proto file whose messages it prints as enumerations of their tags, with
    everything between the tokens printed as it is.  A C string is its bytes without the final 0; [None] is a copy past an array,
    an unset variable or a format string that comes from the input.  Theorems: what squeezing a text leaves ([hex_squeeze_leaves]),
    clean digits are read back ([str2bin_digits]), the turns that the parser needs ([parse_more_fuel]), and every field of a
    message becomes its tag ([messages_printed]). *)

From S2P Require Import Prelude.

(** ** Characters *)

Definition isdigit (c : Z) : bool := Z.leb 48 c && Z.leb c 57.
Definition isalpha (c : Z) : bool := Z.leb 65 c && Z.leb c 90 || Z.leb 97 c && Z.leb c 122.
Definition isalnum (c : Z) : bool := isdigit c || isalpha c.
Definition isxdigit (c : Z) : bool := isdigit c || Z.leb 65 c && Z.leb c 70 || Z.leb 97 c && Z.leb c 102.
Definition isspace (c : Z) : bool := Z.eqb c 32 || Z.leb 9 c && Z.leb c 13.

(** ** Hexadecimal digits *)

(** The character at [i] goes to [j] when it is a digit; [n] characters are left. *)
(** Models [hex_squeeze] (src/knv/knv_show.cpp:17-27). *)
Fixpoint squeeze_loop (n i j : nat) (m : bytes) : bytes :=
  match n with
  | O => m
  | S n' =>
      match m !! i with
      | Some c => if isxdigit c then squeeze_loop n' (S i) (S j) (<[j := c]> m) else squeeze_loop n' (S i) j m
      | None => m
      end
  end.
(** The 0 is written where the text ended before, not behind the last digit. *)
(** Models [hex_squeeze] (src/knv/knv_show.cpp:14-29). *)
Definition hex_squeeze (s : bytes) : bytes := squeeze_loop (length s) 0 0 s.

(** [strtol] of two characters, to the base 16 *)
Definition hex_digit (c : Z) : Z := if isdigit c then c - 48 else if Z.leb 97 c then c - 87 else c - 55.
Fixpoint hex_value (s : bytes) (acc : Z) : Z :=
  match s with c :: s => if isxdigit c then hex_value s (acc * 16 + hex_digit c) else acc | [] => acc end.
Fixpoint skip_blanks (s : bytes) : bytes := match s with c :: s' => if isspace c then skip_blanks s' else s | [] => [] end.
Definition strtol16 (s : bytes) : Z :=
  match skip_blanks s with
  | c :: s' => if Z.eqb c 45 then - hex_value s' 0 else if Z.eqb c 43 then hex_value s' 0 else hex_value (c :: s') 0
  | [] => 0
  end.

(** The first [n] pairs. *)
(** Models [str2bin] (src/knv/knv_show.cpp:39-47). *)
Fixpoint pairs (n : nat) (s : bytes) : bytes :=
  match n, s with S n, a :: b :: s => u8 (strtol16 [a; b]) :: pairs n s | _, _ => [] end.
(** Models [str2bin] (src/knv/knv_show.cpp:32-49). *)
Definition str2bin (psAsciiData : bytes) (iBinSize : Z) : bytes :=
  let s := hex_squeeze psAsciiData in
  pairs (Z.to_nat (if Z.ltb iBinSize (len s / 2) then iBinSize else len s / 2)) s.

Definition digits_of (s : bytes) : bytes := List.filter isxdigit s.

Lemma squeeze_run rest : forall done junk,
  squeeze_loop (length rest) (length done + length junk) (length done) (done ++ junk ++ rest) =
    done ++ digits_of rest ++ drop (length (digits_of rest)) (junk ++ rest).
Proof.
  induction rest as [|c rest IH]; intros done junk; [by rewrite !app_nil_r|]. cbn [length squeeze_loop digits_of List.filter].
  assert ((done ++ junk ++ c :: rest) !! (length done + length junk)%nat = Some c) as -> by (rewrite app_assoc; apply list_lookup_middle; by rewrite length_app).
  destruct (isxdigit c).
  - rewrite insert_app_r_alt by lia. rewrite Nat.sub_diag. destruct junk as [|x junk]; cbn [length app list_insert].
    + specialize (IH (done ++ [c]) []). rewrite length_app in IH. cbn [length app] in IH. rewrite <- app_assoc in IH. cbn [app] in IH.
      replace (S (length done + 0)) with (length done + 1 + 0)%nat by lia. replace (S (length done)) with (length done + 1)%nat by lia.
      change (<[0%nat := c]> (c :: rest)) with (c :: rest). rewrite IH. by rewrite <- app_assoc.
    + specialize (IH (done ++ [c]) (junk ++ [c])). rewrite !length_app in IH. cbn [length] in IH. rewrite <- !app_assoc in IH. cbn [app] in IH.
      replace (S (length done + S (length junk))) with (length done + 1 + (length junk + 1))%nat by lia.
      replace (S (length done)) with (length done + 1)%nat by lia. change (<[0%nat := c]> (x :: junk ++ c :: rest)) with (c :: junk ++ c :: rest).
      rewrite IH. done.
  - specialize (IH done (junk ++ [c])). rewrite length_app in IH. cbn [length] in IH. rewrite <- app_assoc in IH. cbn [app] in IH.
    replace (S (length done + length junk)) with (length done + (length junk + 1))%nat by lia. exact IH.
Qed.

(** Squeezing a text moves its digits to the front and leaves the rest as it was, so the text keeps its length. *)
Lemma hex_squeeze_leaves s : hex_squeeze s = digits_of s ++ drop (length (digits_of s)) s.
Proof. apply (squeeze_run s [] []). Qed.

(** Bytes as lower-case digits. *)
Definition hex_char (d : Z) : Z := if Z.ltb d 10 then 48 + d else 87 + d.
Definition hex_text (b : bytes) : bytes := b ≫= fun x => [hex_char (x / 16); hex_char (x mod 16)].

Lemma hex_char_digit d : 0 <= d < 16 -> isxdigit (hex_char d) = true /\ hex_digit (hex_char d) = d /\ isspace (hex_char d) = false /\ hex_char d <> 45 /\ hex_char d <> 43.
Proof.
  intros H. assert (d ∈ seqZ 0 16) as Hd by (apply elem_of_seqZ; lia). revert d Hd H.
  apply (Forall_forall (fun d => 0 <= d < 16 -> _)). repeat (constructor; [intros _; by split_and!|]). constructor.
Qed.

Lemma hex_text_digits b : Forall (fun x => 0 <= x < 256) b -> digits_of (hex_text b) = hex_text b.
Proof.
  unfold digits_of. induction 1 as [|x b Hx Hb IH]; [done|]. unfold hex_text in *. cbn [mbind list_bind app List.filter].
  pose proof (Z.div_mod x 16 ltac:(lia)). pose proof (Z.mod_pos_bound x 16 ltac:(lia)).
  destruct (hex_char_digit (x / 16)) as [-> _]; [lia|]. destruct (hex_char_digit (x mod 16)) as [-> _]; [lia|]. by rewrite IH.
Qed.

(** Digits without anything between them are the bytes they were printed from, as far as there is room. *)
Theorem str2bin_digits (b : bytes) (size : Z) : Forall (fun x => 0 <= x < 256) b -> len b <= size -> str2bin (hex_text b) size = b.
Proof.
  intros Hb Hs. unfold str2bin. rewrite hex_squeeze_leaves, hex_text_digits, drop_all, app_nil_r by done.
  assert (Hl : len (hex_text b) = len b * 2). { clear. induction b as [|x b IH]; [done|]. unfold hex_text in *. cbn [mbind list_bind app]. rewrite !len_cons. lia. }
  rewrite Hl, Z.div_mul by lia. rewrite (proj2 (Z.ltb_ge _ _)) by lia. unfold len. rewrite Nat2Z.id. clear Hs Hl.
  induction Hb as [|x b Hx Hb IH]; [done|]. unfold hex_text in *. cbn [length mbind list_bind app pairs].
  pose proof (Z.div_mod x 16 ltac:(lia)). pose proof (Z.mod_pos_bound x 16 ltac:(lia)).
  destruct (hex_char_digit (x / 16)) as (X1 & D1 & S1 & M1 & P1); [lia|]. destruct (hex_char_digit (x mod 16)) as (X2 & D2 & _); [lia|].
  rewrite IH. f_equal. unfold strtol16.
  cbn [skip_blanks]. rewrite S1, (proj2 (Z.eqb_neq _ _) M1), (proj2 (Z.eqb_neq _ _) P1). cbn [hex_value]. rewrite X1, X2, D1, D2.
  unfold u8. rewrite Z.mod_small; lia.
Qed.

(** What stands behind the digits is read once more: two bytes with blanks between the digits become three. *)
Example squeezed_tail : hex_squeeze (txt "1 2 3 4") = txt "12343 4" /\ str2bin (txt "1 2 3 4") 100 = [0x12; 0x34; 3].
Proof. split; reflexivity. Qed.

(** ** Tokens

    A reader takes the text that is left and gives a value, the text after it, and what it printed. *)

Definition T (A : Type) : Type := bytes -> option (A * bytes * bytes).
#[export] Instance T_ret : MRet T := fun A a s => Some (a, s, []).
#[export] Instance T_bind : MBind T := fun A B k m s =>
  match m s with
  | Some (a, s, out) => match k a s with Some (b, s, out') => Some (b, s, out ++ out') | None => None end
  | None => None
  end.
Definition bad {A} : T A := fun _ => None.
Definition print (t : bytes) : T unit := fun s => Some (tt, s, t).
Definition peek : T bytes := fun s => Some (s, s, []).
Definition drop_text (n : nat) : T unit := fun s => Some (tt, drop n s, []).

(** The front of a text whose characters are all [f], and the rest. *)
Fixpoint span (f : Z -> bool) (s : bytes) : bytes * bytes :=
  match s with c :: s' => if f c then let '(a, b) := span f s' in (c :: a, b) else ([], s) | [] => ([], []) end.

(** Models [skip_space] (src/knv/knv_show.cpp:342-347). *)
Definition skip_space : T bool := fun s => let '(a, b) := span isspace s in Some (negb (bool_decide (a = [])), b, a).

Definition starts_comment (s : bytes) : bool := match s with 47 :: 47 :: _ => true | _ => false end.

(** A comment has room for 1024 characters, its line end and the final 0. *)
(** Models [skip_comment] (src/knv/knv_show.cpp:355-376). *)
Fixpoint comments (n : nat) : T bool := fun s =>
  if starts_comment s then
    match n with
    | O => None
    | S n =>
        let '(line, rest) := span (fun c => negb (Z.eqb c 10)) s in
        let comment := line ++ take 1 rest in
        if Z.leb 1024 (len comment) then None
        else (drop_text (length comment);; print comment;;
              (match rest with [] => mret false | _ => skip_space end);; comments n;; mret true) s
    end
  else Some (false, s, []).
(** Models [skip_comment] (src/knv/knv_show.cpp:349-378). *)
Definition skip_comment : T bool := skip_space;; s ← peek; comments (length s).

Definition is_word (c : Z) : bool := isalnum c || Z.eqb c 95 || Z.eqb c 46.

(** The token goes into an array of 1024 characters. *)
(** Models [get_token] (src/knv/knv_show.cpp:380-398). *)
Definition get_token : T (option bytes) :=
  skip_comment;;
  s ← peek;
  match s with
  | [] => mret None
  | c :: _ =>
      let '(w, _) := span is_word s in
      let tok := if bool_decide (w = []) then [c] else w in
      if Z.leb 1024 (len tok) then bad else drop_text (length tok);; mret (Some tok)
  end.

(** ** Messages to enumerations *)

(** [in_msg], [name], which is not set at first, and [nsnum]. *)
Record pstate := mk_pstate { in_msg : bool; name : option bytes; nsnum : nat }.

Section proto.
Context (eol : bytes).

(** The parts of a package name. *)
(** Models [parse_proto] (src/knv/knv_show.cpp:423-434). *)
Fixpoint namespaces (n : nat) (subtok : bytes) (nsnum : nat) : T nat :=
  match n with
  | O => bad
  | S n =>
      let '(a, rest) := span (fun c => negb (Z.eqb c 46)) subtok in
      print (eol ++ txt "namespace " ++ a ++ eol ++ txt "{" ++ eol);;
      match rest with [] => mret (S nsnum) | _ :: rest => namespaces n rest (S nsnum) end
  end.

(** An enumeration is printed as it is; a token is the format string of [printf]. *)
(** Models [parse_proto] (src/knv/knv_show.cpp:450-459). *)
Fixpoint copy_enum (n : nat) : T unit :=
  match n with
  | O => bad
  | S n =>
      subtok ← get_token;
      match subtok with
      | None => mret tt
      | Some t =>
          if bool_decide (head t = Some 125) then print (txt "};")
          else (if bool_decide (head t = Some 59) then print (txt ",")
                else if bool_decide (37 ∈ t) then bad else print t);; copy_enum n
      end
  end.

(** Models [parse_proto] (src/knv/knv_show.cpp:503-504). *)
Fixpoint skip_brackets (n : nat) : T unit :=
  match n with
  | O => bad
  | S n => subtok ← get_token; match subtok with Some t => if bool_decide (head t = Some 93) then mret tt else skip_brackets n | None => mret tt end
  end.

(** A field: its type is skipped, its name has room for 256 characters. *)
(** Models [parse_proto] (src/knv/knv_show.cpp:485-500). *)
Definition parse_field (st : pstate) : T (option pstate) :=
  ty ← get_token;
  match ty with
  | None => mret None
  | Some _ =>
      fname ← get_token;
      match fname with
      | None => mret None
      | Some fname =>
          if Z.leb 256 (len fname) then bad
          else
            eq_ ← get_token;
            match eq_ with
            | None => mret None
            | Some _ =>
                num ← get_token;
                match num with
                | Some (c :: num) =>
                    if isdigit c then
                      match name st with
                      | Some nm => print (nm ++ txt "Tag_" ++ fname ++ txt " = " ++ (c :: num) ++ txt ",");; mret (Some st)
                      | None => bad
                      end
                    else mret None
                | _ => mret None
                end
            end
      end
  end.

(** What a token leads to: the state after it, or nothing when -1 is returned. *)
(** Models [parse_proto] (src/knv/knv_show.cpp:414-509). *)
Definition parse_token (n : nat) (tok : bytes) (st : pstate) : T (option pstate) :=
  if bool_decide (tok = txt "package") then
    subtok ← get_token;
    match subtok with
    | Some (c :: t) => if isalpha c then k ← namespaces (S (length t) + 1) (c :: t) (nsnum st); mret (Some (mk_pstate (in_msg st) (name st) k)) else mret None
    | _ => mret None
    end
  else if bool_decide (tok = txt "message") then
    subtok ← get_token;
    match subtok with
    | Some (c :: t) =>
        if isalpha c then print (eol ++ txt "enum " ++ (c :: t) ++ txt "Tags");; mret (Some (mk_pstate (in_msg st) (Some (c :: t)) (nsnum st)))
        else mret None
    | _ => mret None
    end
  else if bool_decide (tok = txt "enum") then print (txt "enum");; copy_enum n;; mret (Some st)
  else if bool_decide (tok = txt "{") then
    if in_msg st then mret None else print (txt "{");; mret (Some (mk_pstate true (name st) (nsnum st)))
  else if bool_decide (tok = txt "}") then
    if in_msg st then print (txt "};");; mret (Some (mk_pstate false (name st) (nsnum st))) else mret None
  else if bool_decide (tok = txt "optional") || bool_decide (tok = txt "repeated") || bool_decide (tok = txt "required") then parse_field st
  else if bool_decide (tok = txt "[") then skip_brackets n;; mret (Some st)
  else mret (Some st).

(** Models [parse_proto] (src/knv/knv_show.cpp:413-514). *)
Fixpoint parse_loop (n : nat) (st : pstate) : T Z :=
  match n with
  | O => bad
  | S n =>
      tok ← get_token;
      match tok with
      | None => print (concat (replicate (nsnum st) (eol ++ txt "}; //namespace" ++ eol)));; mret 0
      | Some tok => r ← parse_token n tok st; match r with Some st => parse_loop n st | None => mret (-1) end
      end
  end.
End proto.

(** The last byte of the file is overwritten by the final 0; every token takes a character at least. *)
(** Models [parse_proto] (src/knv/knv_show.cpp:400-515). *)
Definition parse_proto (data : bytes) : option (Z * bytes) :=
  let proto := fst (span (fun c => negb (Z.eqb c 0)) (take (length data - 1) data)) in
  let eol := if bool_decide (13 ∈ proto) then [13; 10] else [10] in
  match (skip_comment;; s ← peek; parse_loop eol (S (length s)) (mk_pstate false None 0)) proto with
  | Some (r, _, out) => Some (r, out)
  | None => None
  end.

(** ** The turns are enough *)

(** A reader that never gives text back. *)
Definition shrinks {A} (m : T A) : Prop := forall s a s' out, m s = Some (a, s', out) -> (length s' <= length s)%nat.

Lemma shrinks_ret {A} (a : A) : shrinks (mret a).
Proof. intros s b s' out [= <- <- <-]. lia. Qed.

Lemma shrinks_bad {A} : shrinks (@bad A).
Proof. by intros s a s' out. Qed.

Lemma shrinks_print t : shrinks (print t).
Proof. intros s b s' out [= <- <- <-]. lia. Qed.

Lemma shrinks_peek : shrinks peek.
Proof. intros s b s' out [= <- <- <-]. lia. Qed.

Lemma shrinks_drop n : shrinks (drop_text n).
Proof. intros s b s' out [= <- <- <-]. rewrite length_drop. lia. Qed.

Lemma bind_some {A B} (m : T A) (k : A -> T B) s r :
  (m ≫= k) s = Some r -> exists a s1 out1 out2, m s = Some (a, s1, out1) /\ k a s1 = Some (fst (fst r), snd (fst r), out2) /\ snd r = out1 ++ out2.
Proof.
  unfold mbind, T_bind. destruct (m s) as [[[a s1] o1]|]; [|done]. destruct (k a s1) as [[[b s2] o2]|] eqn:E; [|done].
  intros [= <-]. by exists a, s1, o1, o2.
Qed.

Lemma shrinks_bind {A B} (m : T A) (k : A -> T B) : shrinks m -> (forall a, shrinks (k a)) -> shrinks (m ≫= k).
Proof.
  intros Hm Hk s b s' out (a & s1 & o1 & o2 & E1 & E2 & _)%bind_some. apply Hm in E1. apply Hk in E2. cbn in E2. lia.
Qed.

Lemma shrinks_if {A} (b : bool) (m1 m2 : T A) : shrinks m1 -> shrinks m2 -> shrinks (if b then m1 else m2).
Proof. by destruct b. Qed.

Create HintDb shrinks.
#[local] Hint Resolve shrinks_ret shrinks_bad shrinks_print shrinks_peek shrinks_drop shrinks_bind shrinks_if : shrinks.

(** Goes through the binds, conditions and matches of a reader. *)
Ltac shrink := repeat first [solve [eauto with shrinks nocore] | apply shrinks_bind; [|intros ?] | apply shrinks_if | case_match].

Lemma span_app f s a b : span f s = (a, b) -> s = a ++ b.
Proof.
  revert a b. induction s as [|c s IH]; intros a b; cbn; [by intros [= <- <-]|].
  destruct (f c); [|by intros [= <- <-]]. destruct (span f s) as [a' b']. intros [= <- <-]. cbn. f_equal. by apply IH.
Qed.

Lemma skip_space_shrinks : shrinks skip_space.
Proof.
  intros s a s' out. unfold skip_space. destruct (span isspace s) as [x y] eqn:E. intros [= _ <- _].
  apply span_app in E as ->. rewrite length_app. lia.
Qed.
#[local] Hint Resolve skip_space_shrinks : shrinks.

Lemma comments_shrinks n : shrinks (comments n).
Proof.
  induction n as [|n IH]; intros s a s' out; cbn [comments]; destruct (starts_comment s); [done| | |]; [by intros [= _ <- _]| |by intros [= _ <- _]].
  destruct (span _ s) as [line rest]. destruct (Z.leb _ _); [done|]. match goal with |- ?m s = _ -> _ => enough (shrinks m) as Hm by apply Hm end. shrink.
Qed.
#[local] Hint Resolve comments_shrinks : shrinks.

Lemma skip_comment_shrinks : shrinks skip_comment.
Proof. unfold skip_comment. shrink. Qed.
#[local] Hint Resolve skip_comment_shrinks : shrinks.

Lemma bind_ext {A B} (m : T A) (k k' : A -> T B) s :
  (forall a s' out, m s = Some (a, s', out) -> k a s' = k' a s') -> (m ≫= k) s = (m ≫= k') s.
Proof. intros H. unfold mbind, T_bind. destruct (m s) as [[[a s'] o]|]; [|done]. by rewrite (H a s' o). Qed.

Lemma bind_ext_l {A B} (m m' : T A) (k : A -> T B) s : m s = m' s -> (m ≫= k) s = (m' ≫= k) s.
Proof. intros H. unfold mbind, T_bind. by rewrite H. Qed.

(** A comment is at least a character long, so the text has no more comments than characters. *)
Lemma comments_enough n : forall m s, (length s <= n)%nat -> (length s <= m)%nat -> comments n s = comments m s.
Proof.
  induction n as [|n IH]; intros m s Hn Hm.
  - destruct s; [|cbn in Hn; lia]. by destruct m.
  - destruct m as [|m]; [destruct s; [done|cbn in Hm; lia]|]. cbn [comments]. destruct (starts_comment s) eqn:Hs; [|done].
    assert (exists line, fst (span (fun c => negb (Z.eqb c 10)) s) = 47 :: line) as [line Hl].
    { destruct s as [|x s]; [done|]. cbn in Hs. assert (x = 47) as -> by (destruct x as [|p|]; try done; repeat (destruct p as [p|p|]; try done)).
      cbn. destruct (span _ s). by eexists. }
    destruct (span _ s) as [l rest] eqn:E. cbn in Hl. subst l. destruct (Z.leb _ _); [done|].
    apply bind_ext. intros [] s1 o1 [= <- _]. apply bind_ext. intros [] s2 o2 [= <- _].
    apply bind_ext. intros b s3 o3 E3.
    assert (shrinks (match rest with [] => mret false | _ => skip_space end)) as Hr by shrink.
    apply Hr in E3. rewrite length_drop in E3. cbn [app length] in E3. apply bind_ext_l, IH; lia.
Qed.

(** A token takes a character at least. *)
Lemma get_token_takes s t s' out : get_token s = Some (Some t, s', out) -> (length s' < length s)%nat /\ (length t <= length s)%nat.
Proof.
  unfold get_token. intros (? & s1 & ? & o1 & E1%skip_comment_shrinks & E2 & _)%bind_some.
  apply bind_some in E2 as (? & ? & ? & ? & [= <- <- _] & E3 & _). cbn [fst snd] in E3.
  destruct s1 as [|c s1]; [done|]. destruct (span is_word (c :: s1)) as [w r] eqn:Ew. apply span_app in Ew.
  destruct (Z.leb _ _); [done|]. apply bind_some in E3 as ([] & ? & ? & ? & [= <- _] & [= <- <- _] & _).
  rewrite length_drop. apply (f_equal length) in Ew. rewrite length_app in Ew. case_bool_decide as Hw; cbn in *; [lia|].
  destruct w; [done|]. cbn in *. lia.
Qed.

Lemma get_token_shrinks : shrinks get_token.
Proof. unfold get_token. shrink. Qed.
#[local] Hint Resolve get_token_shrinks : shrinks.

Lemma skip_brackets_enough n : forall m s, (length s < n)%nat -> (length s < m)%nat -> skip_brackets n s = skip_brackets m s.
Proof.
  induction n as [|n IH]; intros [|m] s Hn Hm; try lia. cbn [skip_brackets]. apply bind_ext. intros [t|] s' o E; [|done].
  apply get_token_takes in E as [E _]. case_bool_decide; [done|]. apply IH; lia.
Qed.

Lemma copy_enum_enough n : forall m s, (length s < n)%nat -> (length s < m)%nat -> copy_enum n s = copy_enum m s.
Proof.
  induction n as [|n IH]; intros [|m] s Hn Hm; try lia. cbn [copy_enum]. apply bind_ext. intros [t|] s' o E; [|done].
  apply get_token_takes in E as [E _]. case_bool_decide; [done|]. apply bind_ext. intros [] s2 o2 E2.
  assert (length s2 <= length s')%nat. { revert E2. repeat case_bool_decide; first [done | by intros [= <- _]]. } apply IH; lia.
Qed.

(** The parts of a name of [n] characters are at most [n + 1], so [namespaces] never runs out of turns. *)
Lemma namespaces_enough eol n : forall subtok k s, (length subtok < n)%nat -> is_Some (namespaces eol n subtok k s).
Proof.
  induction n as [|n IH]; intros subtok k s Hn; [lia|]. cbn [namespaces]. destruct (span _ subtok) as [a rest] eqn:E.
  apply span_app in E as ->. rewrite length_app in Hn. unfold mbind, T_bind. cbn [print]. destruct rest as [|c rest]; [by eexists|].
  cbn [length] in Hn. destruct (IH rest (S k) s ltac:(lia)) as [[[r s'] o] ->]. by eexists.
Qed.

Lemma skip_brackets_shrinks n : shrinks (skip_brackets n).
Proof. induction n; cbn [skip_brackets]; shrink. Qed.

Lemma copy_enum_shrinks n : shrinks (copy_enum n).
Proof. induction n; cbn [copy_enum]; shrink. Qed.

Lemma namespaces_shrinks eol n subtok k : shrinks (namespaces eol n subtok k).
Proof. revert subtok k. induction n; intros subtok k; cbn [namespaces]; shrink. Qed.

Lemma parse_field_shrinks st : shrinks (parse_field st).
Proof. unfold parse_field. shrink. Qed.
#[local] Hint Resolve skip_brackets_shrinks copy_enum_shrinks namespaces_shrinks parse_field_shrinks : shrinks.

Lemma parse_token_shrinks eol n tok st : shrinks (parse_token eol n tok st).
Proof. unfold parse_token. shrink. Qed.

Lemma parse_token_enough eol n m tok st s : (length s < n)%nat -> (length s < m)%nat -> parse_token eol n tok st s = parse_token eol m tok st s.
Proof.
  intros Hn Hm. unfold parse_token. case_bool_decide; [done|]. case_bool_decide; [done|]. case_bool_decide.
  { apply bind_ext. intros [] s' o [= <- _]. apply bind_ext_l. by apply copy_enum_enough. }
  case_bool_decide; [done|]. case_bool_decide; [done|]. destruct (_ || _); [done|].
  case_bool_decide; [|done]. apply bind_ext_l. by apply skip_brackets_enough.
Qed.

(** A text needs one turn more than it has characters: with at least as many, the number of turns changes nothing, so a failure of
    [parse_proto] is one of the program and never a lack of turns. *)
Theorem parse_more_fuel eol n : forall m st s, (length s < n)%nat -> (length s < m)%nat -> parse_loop eol n st s = parse_loop eol m st s.
Proof.
  induction n as [|n IH]; intros [|m] st s Hn Hm; try lia. cbn [parse_loop]. apply bind_ext. intros [t|] s' o E; [|done].
  apply get_token_takes in E as [E _].
  transitivity ((parse_token eol m t st ≫= fun r => match r with Some st => parse_loop eol n st | None => mret (-1) end) s').
  - apply bind_ext_l. apply parse_token_enough; lia.
  - apply bind_ext. intros [st'|] s2 o2 E2; [|done]. apply parse_token_shrinks in E2. apply IH; lia.
Qed.

(** ** A message in one line *)

(** What one reading of a token sees: blanks, the token, and a character that does not belong to it. *)
Definition word (w : bytes) : Prop := w <> [] /\ Forall (fun c => is_word c = true) w /\ len w < 1024.
Definition stops (s : bytes) : Prop := match s with [] => True | c :: _ => is_word c = false end.

Lemma span_run f a b : Forall (fun c => f c = true) a -> match b with [] => True | c :: _ => f c = false end -> span f (a ++ b) = (a, b).
Proof.
  intros Ha Hb. induction Ha as [|c a Hc Ha IH]; cbn [app span]; [|by rewrite Hc, IH]. destruct b as [|c b]; [done|]. cbn [span]. by rewrite Hb.
Qed.

Lemma is_word_plain c : is_word c = true -> isspace c = false /\ c <> 47 /\ c <> 0 /\ c <> 13.
Proof. unfold is_word, isalnum, isdigit, isalpha, isspace. lia. Qed.

Lemma skip_comment_to sp c s : Forall (fun c => isspace c = true) sp -> isspace c = false -> c <> 47 -> exists b, skip_comment (sp ++ c :: s) = Some (b, c :: s, sp).
Proof.
  intros Hsp Hc H47. unfold skip_comment, mbind, T_bind, skip_space. rewrite (span_run isspace sp (c :: s) Hsp Hc).
  cbn [peek]. assert (starts_comment (c :: s) = false) as Hs.
  { unfold starts_comment. destruct c as [|p|]; try done. repeat (destruct p as [p|p|]; try done). }
  cbn [length comments]. rewrite Hs, !app_nil_r. by eexists.
Qed.

(** A word, and a sign, behind blanks. *)
Lemma get_word sp w rest : Forall (fun c => isspace c = true) sp -> word w -> stops rest -> get_token (sp ++ w ++ rest) = Some (Some w, rest, sp).
Proof.
  intros Hsp (Hw & Hall & Hl) Hr. destruct w as [|c w]; [done|]. pose proof (Forall_inv Hall) as Hc. destruct (is_word_plain c Hc) as (? & ? & _).
  unfold get_token. cbn [app]. destruct (skip_comment_to sp c (w ++ rest)) as [b Hb]; [done..|]. unfold mbind at 1, T_bind at 1. rewrite Hb.
  unfold mbind, T_bind, peek. pose proof (span_run is_word (c :: w) rest Hall Hr) as Hs. cbn [app] in Hs. rewrite Hs, bool_decide_eq_false_2 by done.
  rewrite (proj2 (Z.leb_gt _ _)) by lia. cbn. by rewrite drop_app_length, app_nil_r.
Qed.

Lemma blank : Forall (fun c => isspace c = true) [32].
Proof. by constructor. Qed.

Lemma get_sign c rest : isspace c = false -> c <> 47 -> is_word c = false -> get_token (32 :: c :: rest) = Some (Some [c], rest, [32]).
Proof.
  intros Hc H47 Hw. unfold get_token. destruct (skip_comment_to [32] c rest blank) as [b Hb]; [done..|]. cbn [app] in Hb. unfold mbind at 1, T_bind at 1. rewrite Hb.
  unfold mbind, T_bind, peek. cbn [span]. by rewrite Hw, bool_decide_eq_true_2.
Qed.

Lemma get_semicolon rest : get_token (59 :: rest) = Some (Some [59], rest, []).
Proof. reflexivity. Qed.

(** A field of type [ty], name [nm] and tag [num], and a message of such fields. *)
Definition field_text (f : bytes * bytes * bytes) : bytes :=
  let '(ty, nm, num) := f in txt " optional " ++ ty ++ txt " " ++ nm ++ txt " = " ++ num ++ txt ";".
Definition field_ok (f : bytes * bytes * bytes) : Prop :=
  let '(ty, nm, num) := f in word ty /\ word nm /\ len nm < 256 /\ word num /\ match num with c :: _ => isdigit c = true | [] => False end.
(** The tag of a field, behind the blanks of the field. *)
Definition field_tag (M : bytes) (f : bytes * bytes * bytes) : bytes :=
  let '(ty, nm, num) := f in replicate 5 32 ++ M ++ txt "Tag_" ++ nm ++ txt " = " ++ num ++ txt ",".

Lemma bind_step {A B} (m : T A) (k : A -> T B) s a s' out : m s = Some (a, s', out) -> (m ≫= k) s = match k a s' with Some (b, s, out') => Some (b, s, out ++ out') | None => None end.
Proof. intros H. unfold mbind, T_bind. by rewrite H. Qed.

Lemma parse_field_run st M ty nm num rest : name st = Some M -> field_ok (ty, nm, num) ->
  parse_field st (txt " " ++ ty ++ txt " " ++ nm ++ txt " = " ++ num ++ txt ";" ++ rest) =
    Some (Some st, txt ";" ++ rest, replicate 4 32 ++ M ++ txt "Tag_" ++ nm ++ txt " = " ++ num ++ txt ",").
Proof.
  intros HM (Hty & Hnm & H256 & Hnum & Hd). unfold parse_field.
  rewrite (bind_step _ _ _ _ _ _ (get_word [32] ty (txt " " ++ nm ++ txt " = " ++ num ++ txt ";" ++ rest) blank Hty eq_refl)).
  rewrite (bind_step _ _ _ _ _ _ (get_word [32] nm (txt " = " ++ num ++ txt ";" ++ rest) blank Hnm eq_refl)).
  rewrite (proj2 (Z.leb_gt 256 (len nm)) H256).
  rewrite (bind_step _ _ _ _ _ _ (get_sign 61 (txt " " ++ num ++ txt ";" ++ rest) eq_refl ltac:(done) eq_refl)).
  rewrite (bind_step _ _ _ _ _ _ (get_word [32] num (txt ";" ++ rest) blank Hnum eq_refl)).
  destruct num as [|c num]; [done|]. rewrite Hd, HM. unfold mbind, T_bind. cbn [print mret T_ret]. by rewrite app_nil_r.
Qed.

Lemma txt_word : word (txt "optional") /\ word (txt "message").
Proof. by split; (split; [done|split; [repeat constructor|reflexivity]]). Qed.

(** The fields of a message, one turn for the field and one for its semicolon. *)
Lemma parse_fields_run eol M k fs rest r s' out n : Forall field_ok fs ->
  (forall m, (length rest < m)%nat -> parse_loop eol m (mk_pstate true (Some M) k) rest = Some (r, s', out)) ->
  (length (concat (field_text <$> fs) ++ rest) < n)%nat ->
  parse_loop eol n (mk_pstate true (Some M) k) (concat (field_text <$> fs) ++ rest) = Some (r, s', concat (field_tag M <$> fs) ++ out).
Proof.
  intros Hfs Hrest. revert n. induction Hfs as [|[[ty nm] num] fs Hf Hfs IH]; intros n Hn; [by apply Hrest|].
  cbn [fmap list_fmap concat field_text field_tag] in *. rewrite <- app_assoc in Hn |- *. rewrite length_app in Hn.
  set (more := concat (field_text <$> fs) ++ rest) in *. destruct n as [|[|n]]; [lia|rewrite !length_app in Hn; cbn in Hn; lia|].
  assert (length more < n)%nat as Hm by (rewrite !length_app in Hn; cbn in Hn; lia).
  rewrite <- !app_assoc. cbn [parse_loop].
  erewrite (bind_step get_token); [|exact (get_word [32] (txt "optional") (txt " " ++ ty ++ txt " " ++ nm ++ txt " = " ++ num ++ txt ";" ++ more) blank (proj1 txt_word) eq_refl)].
  cbv beta iota. erewrite (bind_step (parse_token _ _ _ _)); [|exact (parse_field_run (mk_pstate true (Some M) k) M ty nm num more eq_refl Hf)].
  cbv beta iota. erewrite (bind_step get_token); [|exact (get_semicolon more)]. cbv beta iota.
  erewrite (bind_step (parse_token _ _ _ _)); [|reflexivity]. cbv beta iota. rewrite (IH n Hm). cbn [app]. by rewrite <- !app_assoc.
Qed.

Lemma clean_word w : word w -> Forall (fun c => c <> 0 /\ c <> 13) w.
Proof. intros (_ & Hw & _). eapply Forall_impl; [exact Hw|]. cbn. intros c Hc. by destruct (is_word_plain c Hc) as (_ & _ & ? & ?). Qed.

Lemma clean_fields fs : Forall field_ok fs -> Forall (fun c => c <> 0 /\ c <> 13) (concat (field_text <$> fs)).
Proof.
  induction 1 as [|[[ty nm] num] fs Hf Hfs IH]; [constructor|]. destruct Hf as (? & ? & _ & ? & _). cbn [fmap list_fmap concat field_text].
  repeat first [apply Forall_app; split | by apply clean_word | exact IH | by repeat constructor].
Qed.

(** The end of a message, and its head. *)
Lemma parse_close eol M n : (2 < n)%nat -> parse_loop eol n (mk_pstate true (Some M) 0) (txt " }") = Some (0, [], txt " };").
Proof. intros Hn. destruct n as [|[|n]]; [lia..|]. reflexivity. Qed.

Lemma parse_name eol n M rest st : word M -> match M with c :: _ => isalpha c = true | [] => False end -> stops rest ->
  parse_token eol n (txt "message") st (txt " " ++ M ++ rest) =
    Some (Some (mk_pstate (in_msg st) (Some M) (nsnum st)), rest, txt " " ++ eol ++ txt "enum " ++ M ++ txt "Tags").
Proof.
  intros HM Ha Hr. unfold parse_token. rewrite bool_decide_eq_false_2, bool_decide_eq_true_2 by done.
  rewrite (bind_step _ _ _ _ _ _ (get_word [32] M rest blank HM Hr)). destruct M as [|c M]; [done|]. rewrite Ha.
  unfold mbind, T_bind. cbn [print mret T_ret]. by rewrite app_nil_r.
Qed.

Lemma parse_open eol M fs n : word M -> match M with c :: _ => isalpha c = true | [] => False end -> Forall field_ok fs ->
  (length (txt "message " ++ M ++ txt " {" ++ concat (field_text <$> fs) ++ txt " }") < n)%nat ->
  parse_loop eol n (mk_pstate false None 0) (txt "message " ++ M ++ txt " {" ++ concat (field_text <$> fs) ++ txt " }") =
    Some (0, [], txt " " ++ eol ++ txt "enum " ++ M ++ txt "Tags {" ++ concat (field_tag M <$> fs) ++ txt " };").
Proof.
  intros HM Ha Hfs Hn. set (more := concat (field_text <$> fs) ++ txt " }") in *. destruct n as [|[|n]]; [lia|rewrite !length_app in Hn; cbn in Hn; lia|].
  assert (length more < n)%nat as Hm by (rewrite !length_app in Hn; cbn in Hn |- *; lia). cbn [parse_loop].
  erewrite (bind_step get_token); [|exact (get_word [] (txt "message") (txt " " ++ M ++ txt " {" ++ more) (List.Forall_nil _) (proj2 txt_word) eq_refl)].
  cbv beta iota. erewrite (bind_step (parse_token _ _ _ _)); [|exact (parse_name eol (S n) M (txt " {" ++ more) (mk_pstate false None 0) HM Ha eq_refl)].
  cbv beta iota. erewrite (bind_step get_token); [|exact (get_sign 123 more eq_refl ltac:(done) eq_refl)]. cbv beta iota.
  erewrite (bind_step (parse_token _ _ _ _)); [|reflexivity]. cbv beta iota. cbn [in_msg name nsnum].
  unfold more. erewrite parse_fields_run; [|exact Hfs|intros m Hlen; apply parse_close; exact Hlen|exact Hm]. cbn [app]. by rewrite <- !app_assoc.
Qed.

(** A message of fields, in a file that ends with a line end, is printed as the enumeration of its tags. *)
Theorem messages_printed (M : bytes) (fs : list (bytes * bytes * bytes)) :
  word M -> match M with c :: _ => isalpha c = true | [] => False end -> Forall field_ok fs ->
  parse_proto (txt "message " ++ M ++ txt " {" ++ concat (field_text <$> fs) ++ txt " }" ++ [10]) =
    Some (0, txt " " ++ [10] ++ txt "enum " ++ M ++ txt "Tags {" ++ concat (field_tag M <$> fs) ++ txt " };").
Proof.
  intros HM Ha Hfs. unfold parse_proto. set (body := txt " {" ++ concat (field_text <$> fs) ++ txt " }").
  assert (take (length (txt "message " ++ M ++ txt " {" ++ concat (field_text <$> fs) ++ txt " }" ++ [10]) - 1)
    (txt "message " ++ M ++ txt " {" ++ concat (field_text <$> fs) ++ txt " }" ++ [10]) = txt "message " ++ M ++ body) as ->.
  { subst body. rewrite !app_assoc, length_app. cbn [length]. rewrite Nat.add_sub. by rewrite take_app_length. }
  assert (Forall (fun c => c <> 0 /\ c <> 13) (txt "message " ++ M ++ body)) as Hclean.
  { subst body. repeat first [apply Forall_app; split | by apply clean_word | by apply clean_fields | by repeat constructor]. }
  pose proof (span_run (fun c => negb (Z.eqb c 0)) (txt "message " ++ M ++ body) []) as Hs. rewrite app_nil_r in Hs. rewrite Hs; [|eapply Forall_impl; [exact Hclean|]; cbn; lia|done].
  cbn [fst]. rewrite bool_decide_eq_false_2 by (rewrite Forall_forall in Hclean; intros H; by apply Hclean in H as [_ ?]).
  destruct (skip_comment_to [] 109 (drop 1 (txt "message " ++ M ++ body))) as [b Hb]; [constructor|done..|]. cbn [app] in Hb.
  erewrite (bind_step skip_comment); [|exact Hb]. erewrite (bind_step peek); [|reflexivity].
  change (109 :: drop 1 (txt "message " ++ M ++ body)) with (txt "message " ++ M ++ body). unfold body.
  rewrite parse_open by (done || lia). done.
Qed.

(** The theorem's shape, comments, default values and packages. *)
Example small_proto :
  parse_proto (txt "message M { optional int32 x = 1; }" ++ [10]) =
    Some (0, txt " " ++ [10] ++ txt "enum MTags {     MTag_x = 1, };") /\
  parse_proto (txt "package a.b; message M { optional int32 x = 1 [default = 3]; // x" ++ [10; 125; 10]) =
    Some (0, txt " " ++ [10] ++ txt "namespace a" ++ [10] ++ txt "{" ++ [10; 10] ++ txt "namespace b" ++ [10] ++ txt "{" ++ [10] ++
      txt "  " ++ [10] ++ txt "enum MTags {     MTag_x = 1,    // x" ++ [10] ++ txt "};" ++
      [10] ++ txt "}; //namespace" ++ [10; 10] ++ txt "}; //namespace" ++ [10]).
Proof. split; vm_compute; reflexivity. Qed.

(** A message inside a message is refused, and a percent sign in an enumeration is the format string of [printf]. *)
Example refused_protos :
  (fst <$> parse_proto (txt "message M { message N { } }" ++ [10])) = Some (-1) /\ parse_proto (txt "enum E { A = 5 % 2; }" ++ [10]) = None.
Proof. split; vm_compute; reflexivity. Qed.
