(* ===== verification/KnvInput.v ===== *)
(** * The input of the tool knv_show (src/knv/knv_show.cpp)

    A packet is read as it is, as hexadecimal text, or from what tcpdump prints.  [None] is a write past an array or a read behind
    the end of a line.  Theorems: hexadecimal text gives the bytes it was printed from ([hex_input]), and a packet in the layout of
    tcpdump has the length that its header announces ([tcpdump_length]). *)

From S2P Require Import Prelude.
From S2P Require Import Startup.
From S2P Require Import KnvShow.

(** The text before the first 0. *)
Definition c_text (s : bytes) : bytes := fst (span (fun c => negb (Z.eqb c 0)) s).

(** [fgets] with room for [n] characters: the line with its line end, and the rest. *)
Fixpoint take_line (n : nat) (s : bytes) : bytes * bytes :=
  match n, s with
  | S n, c :: s => if Z.eqb c 10 then ([c], s) else let '(a, b) := take_line n s in (c :: a, b)
  | _, _ => ([], s)
  end.
Definition fgets (s : bytes) : option (bytes * bytes) :=
  match s with [] => None | _ => let '(a, b) := take_line 1022 s in Some (c_text a, b) end.

(** [strstr]: the text from the first place where [pat] stands. *)
Fixpoint is_prefix (pat s : bytes) : bool :=
  match pat, s with [], _ => true | a :: pat, b :: s => Z.eqb a b && is_prefix pat s | _, _ => false end.
Fixpoint strstr (s pat : bytes) : option bytes :=
  if is_prefix pat s then Some s else match s with _ :: s => strstr s pat | [] => None end.

(** [strncpy(dst, s, n)], which fills with 0. *)
Definition strncpy (n : nat) (s : bytes) : bytes := let t := take n s in t ++ replicate (n - length t) 0.

(** ** The output of tcpdump *)

Definition trailing (c : Z) : bool := Z.eqb c 10 || Z.eqb c 13 || Z.eqb c 9 || Z.eqb c 32.

(** The length at the end of the header line: the digits there with the character before them. *)
(** Models [read_data] (src/knv/knv_show.cpp:243-264). *)
Definition header_length (ln : bytes) : option Z :=
  match (ps ← strstr ln (txt " IP "); strstr ps (txt " > ")) with
  | None => None
  | Some _ =>
      let r := snd (span trailing (reverse ln)) in
      let '(num, r) := span isdigit r in
      if bool_decide (num = []) then None
      else
        let pkg_len := atoi (take 1 r ++ reverse num) in
        if Z.ltb pkg_len 4 || Z.ltb 65530 pkg_len then None else Some pkg_len
  end.

(** The first four bytes of the packet: the outer option is a read behind the line. *)
(** Models [read_data] (src/knv/knv_show.cpp:278-303). *)
Definition packet_start (ln : bytes) : option (option bytes) :=
  match strstr ln (txt " 9adb ") with
  | Some ps => Some (Some (txt "9adb" ++ strncpy 4 (drop 6 ps)))
  | None =>
      match strstr ln (txt " 28") with
      | None => Some None
      | Some ps =>
          match (ps ++ [0]) !! 5%nat with
          | None => None
          | Some c =>
              if Z.eqb c 32 then
                match (ps ++ [0]) !! 10%nat with
                | None => None
                | Some c => Some (if Z.eqb c 32 then Some (txt "28" ++ strncpy 2 (drop 3 ps) ++ strncpy 4 (drop 6 ps)) else None)
                end
              else Some None
          end
      end
  end.

(** The groups of four digits of a line; [ps] is unset when a group was shorter and [ps] stands behind the line. *)
(** Models [read_data] (src/knv/knv_show.cpp:321-327). *)
Fixpoint read_groups (n : nat) (ps : option bytes) (cnt plen : Z) : option (bytes * Z) :=
  if Z.leb cnt 0 then Some ([], plen)
  else
    match n, ps with
    | S n, Some ps =>
        let ps := snd (span (Z.eqb 32) ps) in
        '(more, plen) ← read_groups n (if Nat.ltb (length ps) 4 then None else Some (drop 4 ps)) (cnt - 2) (plen - 2);
        Some (strncpy 4 ps ++ more, plen)
    | _, _ => None
    end.

(** The lines of the packet: nothing inside when a line is missing or has another form. *)
(** Models [read_data] (src/knv/knv_show.cpp:307-328). *)
Fixpoint read_lines (i : nat) (plen : Z) (file : bytes) : option (option bytes) :=
  match i with
  | O => Some (Some [])
  | S i =>
      if Z.leb plen 0 then Some (Some [])
      else
        match fgets file with
        | None => Some None
        | Some (ln, file) =>
            match strstr ln (txt ": ") with
            | None => Some None
            | Some ps =>
                '(groups, plen) ← read_groups 8 (Some (drop 2 ps)) (if Z.ltb 16 plen then 16 else plen) plen;
                more ← read_lines i plen file;
                Some (match more with Some more => Some (groups ++ more) | None => None end)
            end
        end
  end.

(** The size of [bin_str], which is 0 before the input is read, and of the text arrays. *)
Definition bin_size : Z := 1024 * 1024 * 4.
Definition text_size : Z := 1024 * 1024.

(** After a packet has been read its length is the announced one, whatever the lines held. *)
(** Models [read_data] (src/knv/knv_show.cpp:232-339). *)
Definition read_tcpdump (file : bytes) : option (option bytes) :=
  match fgets file with
  | None => Some None
  | Some (ln, file) =>
      match header_length ln with
      | None => Some None
      | Some pkg_len =>
          match ('(_, file) ← fgets file; fgets file) with
          | None => Some None
          | Some (ln, file) =>
              start ← packet_start ln;
              match start with
              | None => Some None
              | Some start =>
                  more ← read_lines (Z.to_nat ((pkg_len + 28 + 15) / 16 - 2)) (pkg_len - 4) file;
                  match more with
                  | None => Some None
                  | Some more =>
                      let b := str2bin (c_text (start ++ more)) bin_size in
                      Some (if bool_decide (b = []) then None else Some (strncpy (Z.to_nat pkg_len) b))
                  end
              end
          end
      end
  end.

Inductive input_fmt := bin_fmt | hex_fmt | tcpdump.

(** The bytes of [bin_str], or nothing inside when -1 is returned. *)
(** Models [read_data] (src/knv/knv_show.cpp:202-340). *)
Definition read_data (fmt : input_fmt) (file : bytes) : option (option bytes) :=
  match fmt with
  | bin_fmt => let b := take (Z.to_nat bin_size) file in Some (if bool_decide (b = []) then None else Some b)
  | hex_fmt =>
      let hstr := take (Z.to_nat text_size) file in
      if bool_decide (hstr = []) then Some None
      else if Z.leb text_size (len hstr) then None
      else let b := str2bin (c_text hstr) bin_size in Some (if bool_decide (b = []) then None else Some b)
  | tcpdump => read_tcpdump file
  end.

(** A packet of eight bytes as tcpdump prints it, and one whose lines are shorter than announced: the last bytes are 0. *)
Definition dump (l : list (list Z)) : bytes := concat ((fun t => t ++ [10]) <$> l).
Example tcpdump_read :
  read_data tcpdump (dump [txt "12:00:00.0 IP 10.0.0.1.1 > 10.0.0.2.2: UDP, length 8"; txt "0x0000:  4500 0024"; txt "0x0010:  0a00 0002 9adb 0102 ..";
    txt "0x0020:  0304 0506  .."]) = Some (Some [0x9a; 0xdb; 1; 2; 3; 4; 5; 6]) /\
  read_data tcpdump (dump [txt "12:00:00.0 IP 10.0.0.1.1 > 10.0.0.2.2: UDP, length 6"; txt "0x0000:  4500 0024"; txt "0x0010:  0a00 0002 9adb 0102 ..";
    txt "0x0020:  03  .."]) = Some (Some [0x9a; 0xdb; 1; 2; 3; 0]).
Proof. split; vm_compute; reflexivity. Qed.

Lemma strncpy_length n s : length (strncpy n s) = n.
Proof. unfold strncpy. rewrite length_app, length_replicate, length_take. lia. Qed.

(** A packet from the output of tcpdump has between 4 and 65530 bytes. *)
Theorem tcpdump_length file b : read_data tcpdump file = Some (Some b) -> 4 <= len b <= 65530.
Proof.
  cbn. unfold read_tcpdump. destruct (fgets file) as [[ln file1]|]; [|done]. destruct (header_length ln) as [pkg_len|] eqn:Hl; [|done].
  destruct (_ ≫= _) as [[ln2 file2]|]; [|done]. destruct (packet_start ln2) as [[start|]|]; [|done..]. cbn [mbind option_bind].
  destruct (read_lines _ _ _) as [[more|]|]; [|done..]. cbn. case_bool_decide; [done|]. intros [= <-].
  assert (4 <= pkg_len <= 65530) as Hr.
  { revert Hl. unfold header_length. destruct (_ ≫= _); [|done]. destruct (span isdigit _) as [num r]. case_bool_decide; [done|].
    destruct (_ || _) eqn:E; [done|]. intros [= <-]. lia. }
  unfold len. rewrite strncpy_length. lia.
Qed.

(** Hexadecimal text without blanks gives the bytes it was printed from. *)
Theorem hex_input b : b <> [] -> Forall (fun x => 0 <= x < 256) b -> 2 * len b < text_size -> read_data hex_fmt (hex_text b) = Some (Some b).
Proof.
  intros Hb Hr Hl. assert (Hlen : len (hex_text b) = 2 * len b).
  { clear. induction b as [|x b IH]; [done|]. unfold hex_text in *. cbn [mbind list_bind app]. rewrite !len_cons. lia. }
  unfold read_data. rewrite take_ge by (unfold len in *; lia).
  rewrite bool_decide_eq_false_2 by (intros E; rewrite E, (@len_nil Z) in Hlen; destruct b; [done|rewrite len_cons in Hlen; pose proof (len_nonneg b); lia]).
  rewrite (proj2 (Z.leb_gt _ _)) by lia.
  assert (c_text (hex_text b) = hex_text b) as ->.
  { unfold c_text. pose proof (span_run (fun c => negb (Z.eqb c 0)) (hex_text b) []) as Hs. rewrite app_nil_r in Hs. rewrite Hs; [done| |done].
    clear - Hr. induction Hr as [|x b Hx Hb IH]; [constructor|]. unfold hex_text in *. cbn [mbind list_bind app].
    assert (forall d, 0 <= d < 16 -> negb (Z.eqb (hex_char d) 0) = true) as Hd by (intros d Hd; unfold hex_char; destruct (Z.ltb d 10) eqn:E; lia).
    pose proof (Z.div_mod x 16 ltac:(lia)). pose proof (Z.mod_pos_bound x 16 ltac:(lia)). constructor; [apply Hd; lia|]. constructor; [apply Hd; lia|done]. }
  rewrite str2bin_digits by (done || (unfold bin_size, text_size in *; lia)). by rewrite bool_decide_eq_false_2.
Qed.
