(* ===== verification/KnvPrint.v ===== *)
(** * Printing of trees and packets (src/knv/knv_node.cc, protocol.cc, commands.h, knv_show.cpp)

    The text a function writes is its result; the tree is changed, since a node is expanded before it is printed and folded before
    its value is read.  The texts of addresses ([inet_ntoa] and [inet_ntop]) and of the last error are arguments.  Theorems: a leaf
    is printed with its value and the size of its field and stays as it was ([PrintLeaf_shows]), a hexadecimal text is the number
    ([uint_to_hstr_value]), and lengths whose sum does not wrap around stay inside a packet ([oidb_fits_inside]). *)

From S2P Require Import Prelude Pb MemPool KnvHeap KnvHt KnvNode KnvSize KnvFields Net ResultSet Protocol.

(** ** Hexadecimal numbers *)

Definition hex_upper (d : Z) : Z := if Z.ltb d 10 then 48 + d else 55 + d.
Fixpoint hex_loop (n : nat) (v : Z) (acc : bytes) : bytes :=
  match n with
  | O => acc
  | S n => if Z.eqb v 0 then acc else hex_loop n (v / 16) (hex_upper (v mod 16) :: acc)
  end.
(** A number of 64 bits has at most 16 digits; also [0x%X] of [printf]. *)
(** Models [uint_to_hstr] (src/knv/commands.h:12-19). *)
Definition uint_to_hstr (ival : Z) : bytes := txt "0x" ++ (if Z.eqb ival 0 then txt "0" else hex_loop 16 ival []).
(** [%02X] of a byte *)
Definition hex2 (c : Z) : bytes := [hex_upper (c / 16); hex_upper (c mod 16)].

(** The number that digits stand for. *)
Definition unhex_digit (c : Z) : Z := if Z.ltb c 58 then c - 48 else c - 55.
Definition unhex (s : bytes) : Z := foldl (fun a c => a * 16 + unhex_digit c) 0 s.

Lemma hex_upper_back d : 0 <= d < 16 -> unhex_digit (hex_upper d) = d.
Proof. intros H. unfold unhex_digit, hex_upper. destruct (Z.ltb_spec d 10); case_match; lia. Qed.

Lemma unhex_loop n : forall v acc, 0 <= v < 16 ^ Z.of_nat n ->
  unhex (hex_loop n v acc) = foldl (fun a c => a * 16 + unhex_digit c) v acc.
Proof.
  unfold unhex. induction n as [|n IH]; intros v acc Hv; [cbn in Hv; by assert (v = 0) as -> by lia|].
  rewrite Nat2Z.inj_succ, Z.pow_succ_r in Hv by lia. cbn [hex_loop]. destruct (Z.eqb_spec v 0) as [->|]; [done|].
  rewrite IH by (split; [apply Z.div_pos; lia|apply Z.div_lt_upper_bound; lia]). cbn [foldl]. f_equal.
  pose proof (Z.div_mod v 16 ltac:(lia)). pose proof (Z.mod_pos_bound v 16 ltac:(lia)). rewrite hex_upper_back; lia.
Qed.

(** The digits stand for the number. *)
Theorem uint_to_hstr_value v : 0 <= v < 2 ^ 64 -> unhex (drop 2 (uint_to_hstr v)) = v.
Proof.
  intros Hv. unfold uint_to_hstr. destruct (Z.eqb_spec v 0) as [->|]; [done|]. change (drop 2 (txt "0x" ++ hex_loop 16 v [])) with (hex_loop 16 v []).
  by rewrite unhex_loop by (change (16 ^ Z.of_nat 16) with (2 ^ 64); lia).
Qed.

(** ** Names of commands and return codes *)

Definition named (names : list (Z * bytes)) (unknown : bytes) (c : Z) : bytes :=
  uint_to_hstr c ++ txt ":" ++ match list_find (fun p => Z.eqb p.1 c) names with Some (_, p) => snd p | None => unknown end.

(** Models [UcCommand] (src/knv/commands.h:23-45). *)
Definition UcCommand : list (Z * bytes) :=
  [(0x4001, txt "CacheReadCommand"); (0x4002, txt "CacheWriteCommand"); (0x4004, txt "CacheEraseCommand");
   (0x4003, txt "CacheSyncCommand"); (0x4005, txt "CacheFillbackCommand"); (0x4006, txt "CacheFastSyncCommand");
   (0x4007, txt "CacheReadAllCommand"); (0x4008, txt "CacheWriteAllCommand"); (0x4009, txt "CacheEraseAllCommand");
   (0x4101, txt "ScSyncNoData"); (0x4102, txt "ScSyncWithData"); (0x4201, txt "UsReadCommand")].
(** Models [UcErrorCode] (src/knv/commands.h:84-101). *)
Definition UcErrorCode : list (Z * bytes) :=
  [(0, txt "Successful"); (1, txt "UC_BadKey"); (2, txt "UC_BadRequest"); (3, txt "UC_SystemError"); (4, txt "UC_Timeout");
   (101, txt "CacheRead_FillbackError"); (102, txt "CacheRead_FilterFailed"); (201, txt "CacheWrite_RequestBodyEmpty");
   (301, txt "CacheWrite_WritToNonMaster")].

(** Models [GetCmdName] (src/knv/commands.h:54-82). *)
Definition GetCmdName (c : Z) : bytes := named UcCommand (txt "UnknownCommand") c.
(** Models [GetErrorCodeName] (src/knv/commands.h:103-124). *)
Definition GetErrorCodeName (c : Z) : bytes := named UcErrorCode (txt "UnknownRetCode") c.

Example names : GetCmdName 0x4007 = txt "0x4007:CacheReadAllCommand" /\ GetCmdName 0 = txt "0x0:UnknownCommand" /\ GetErrorCodeName 0 = txt "0x0:Successful" /\
  GetErrorCodeName 0xffffffff = txt "0xFFFFFFFF:UnknownRetCode".
Proof. by vm_compute. Qed.

(** ** Leaves *)

(** The metas are asked for their existence only. *)
(** Models [GetTypeName] (src/knv/knv_node.cc:2425-2442). *)
Definition GetTypeName (t child_num : Z) (metalist : bool) : bytes :=
  if Z.eqb t KNV_STRING then if Z.ltb child_num 0 || (Z.ltb child_num 1 && negb metalist) then txt "String" else txt "Node"
  else if Z.eqb t KNV_VARINT then txt "Int" else if Z.eqb t KNV_FIXED32 then txt "Int32" else if Z.eqb t KNV_FIXED64 then txt "Int64" else txt "Unknown".

(** [isprint] *)
(** Models [is_string] (src/knv/knv_node.cc:2444-2452). *)
Definition is_string (s : bytes) : bool := forallb (fun c => Z.leb 32 c && Z.leb c 126) s.

Definition eol : bytes := [10].

(** Models [PrintLeaf] (src/knv/knv_node.cc:2454-2488). *)
Definition PrintLeaf (prefix : bytes) (l : nid) : M bytes :=
  x ← getn l;
  let sz := eval_len (n_tag x) (n_type x) (n_val x) in
  let front := prefix ++ txt "tag=" ++ dec (n_tag x) ++ txt ", type=" ++ GetTypeName (n_type x) 0 false in
  if Z.eqb (n_type x) KNV_STRING then
    s ← read_str (kv_ptr (n_val x)) (kv_len (n_val x));
    mret (front ++ txt ", length=" ++ dec (kv_len (n_val x)) ++ txt ", val=" ++ (if is_string s then s else s ≫= hex2) ++ eol)
  else
    mret (front ++ txt ", size=" ++ dec sz ++ txt ", val=" ++ (if Z.eqb (n_type x) KNV_FIXED32 then dec (kv_i32 (n_val x)) else dec (kv_i64 (n_val x))) ++ eol).

(** What is to be printed for a value. *)
Definition shown (t : Z) (p : pb_value) : bytes :=
  match p with
  | VStr s => txt ", type=String, length=" ++ dec (len s) ++ txt ", val=" ++ (if is_string s then s else s ≫= hex2)
  | VInt i => txt ", type=Int, size=" ++ dec (len (enc_field (t, p))) ++ txt ", val=" ++ dec i
  | VFix32 i => txt ", type=Int32, size=" ++ dec (len (enc_field (t, p))) ++ txt ", val=" ++ dec i
  | VFix64 i => txt ", type=Int64, size=" ++ dec (len (enc_field (t, p))) ++ txt ", val=" ++ dec i
  end.

(** A leaf is printed with its value and the size of its field, and nothing changes. *)
Theorem PrintLeaf_shows prefix l h p :
  val_at h (n_type (nd h l)) (n_val (nd h l)) = Some p -> field_ok (n_tag (nd h l), p) ->
  PrintLeaf prefix l h = Ret (prefix ++ txt "tag=" ++ dec (n_tag (nd h l)) ++ shown (n_tag (nd h l)) p ++ eol) h.
Proof.
  intros Hv Hok. unfold PrintLeaf. hsimp. rewrite (val_at_eval _ _ _ _ _ Hv Hok). generalize Hv; intros Ht. apply val_at_type in Ht.
  destruct p; cbn [type_of] in Ht; rewrite <- Ht in *; cbn [shown].
  1-2,4: injection Hv as Hv; rewrite <- Hv; hsimp; rewrite <- !app_assoc; reflexivity.
  apply val_at_len in Hv as [Hl Hs]. rewrite Z.eqb_refl, M_bind_eq. unfold read_str. rewrite Hs, <- Hl. hsimp. by rewrite <- !app_assoc.
Qed.

(** ** Trees *)

Section print.
Context (fuel : nat).

(** What is written for the nodes of a list, from [c] on. *)
Fixpoint print_siblings (steps : nat) (print : nid -> M bytes) (c : option nid) : M bytes :=
  match c, steps with
  | None, _ => mret []
  | Some _, O => spin
  | Some c, S steps => t ← print c; c ← GetSibling c; more ← print_siblings steps print c; mret (t ++ more)
  end.

(** A value that cannot be folded is a NULL leaf. *)
(** Models [KnvNode::Print] (src/knv/knv_node.cc:2492-2526). *)
Fixpoint Print (depth : nat) (prefix : bytes) (n : nid) : M bytes :=
  match depth with
  | O => spin
  | S depth =>
      x ← getn n;
      if Z.eqb (n_tag x) 0 then mret (prefix ++ txt "(NULL)" ++ eol)
      else
        Expand fuel n;;
        x ← getn n;
        if Z.ltb 0 (n_child_num x) || (Z.leb 0 (n_child_num x) && bool_decide (n_metalist x <> [])) then
          up ← match n_parent x with Some p => y ← getn p; mret (s32 (n_tag y)) | None => mret (-1) end;
          let line := prefix ++ txt "[+] tag=" ++ dec (n_tag x) ++ txt ", msg_size=" ++ dec (n_eval_sz x) ++ txt ", parent=" ++ dec up ++ eol in
          metas ← print_siblings fuel (PrintLeaf (prefix ++ txt "    [m] ")) (head (n_metalist x));
          children ← (if Z.ltb 0 (n_child_num x) then c ← GetFirstChild fuel n; print_siblings fuel (Print depth (prefix ++ txt "    ")) c else mret []);
          mret (line ++ metas ++ children)
        else
          l ← GetValue fuel n;
          if l : bool then PrintLeaf prefix n else crash
  end.

(** ** Packets *)

Context (inet_ntoa : Z -> bytes) (text_of : Z -> bytes -> bytes) (errorstr : bytes).

(** The address in the bytes of its structure. *)
Definition addr_of (a : bytes) : UcSockAddr :=
  mk_addr (le_combine (take 2 a)) (le_combine (take 2 (drop 2 a)))
    (if Z.eqb (len a) sizeof_sockaddr_in6 then take 16 (drop 8 a) else take 4 (drop 4 a)) (len a).

(** Models [KnvProtocol::Print] (src/knv/protocol.cc:995-1014). *)
Definition KnvProtocol_Print (prefix : bytes) (p : KnvProtocol) : M (Z * bytes) :=
  v ← IsValid p;
  if negb v then mret (-1, prefix ++ txt "Invalid protocol tree." ++ eol)
  else
    m ← read_str (retmsg p) (retmsglen p);
    t ← deref (tree p);
    s ← Print fuel prefix t;
    mret (0, prefix ++ txt "[#] cmd=" ++ GetCmdName (cmd p) ++ txt ", subcmd=" ++ dec (subcmd p) ++ txt ", seq=" ++ dec (seq p) ++
      (if Z.ltb 0 (len (rspaddr p)) then txt ", rspaddr=" ++ to_str_with_port text_of (addr_of (rspaddr p)) else []) ++
      txt ", retcode=" ++ GetErrorCodeName (retcode p) ++ txt ", retmsg=" ++ [34] ++ m ++ [34] ++ eol ++ s).

(** Models [KnvProtocol::PrintToString] (src/knv/protocol.h:504-512). *)
Definition PrintToString (prefix : bytes) (p : KnvProtocol) : M bytes :=
  '(r, s) ← KnvProtocol_Print prefix p; mret (if Z.eqb r 0 then s else []).

(** ** The tool *)

(** The tags of an OIDB header. *)
(** Models [OidbHeadTag] (src/knv/knv_show.cpp:53-72). *)
Definition OidbHeadTag : list (bytes * Z) :=
  [(txt "Uin", 1); (txt "Command", 2); (txt "ServiceType", 3); (txt "Seq", 4); (txt "ClientAddr", 5); (txt "ClientAddrIpv6", 15);
   (txt "ServerAddr", 6); (txt "ServerAddrIpv6", 16); (txt "Result", 7); (txt "ErrorMsg", 8); (txt "LoginSig", 9); (txt "UserName", 10);
   (txt "Servicename", 11); (txt "Flag", 12); (txt "FromAddr", 13); (txt "LocalAddr", 14); (txt "ModuleId", 17)].
Definition oidb_tag (name : string) : Z := match list_find (fun p => bool_decide (p.1 = txt name)) OidbHeadTag with Some (_, p) => snd p | None => 0 end.

Definition field_line (label : bytes) (v : bytes) : bytes := txt "[OIDB]        " ++ label ++ txt ": " ++ v ++ eol.

(** A number that is always shown, and one or a text that is shown unless it is 0 or empty. *)
Definition int_line (head : nid) (label : bytes) (show : Z -> bytes) (t : Z) : M bytes := i ← GetFieldInt fuel head t; mret (field_line label (show i)).
Definition int_line_if (head : nid) (label : bytes) (show : Z -> bytes) (t : Z) : M bytes :=
  i ← GetFieldInt fuel head t; if Z.eqb i 0 then mret [] else int_line head label show t.
Definition str_line_if (head : nid) (label : bytes) (t : Z) : M bytes :=
  s ← GetFieldStr fuel head t; if bool_decide (s = []) then mret [] else s ← GetFieldStr fuel head t; mret (field_line label s).

(** An address is read from the four bytes of a number or from 16 bytes of a string, which ends with one more 0. *)
(** Models [show_oidb_bin] (src/knv/knv_show.cpp:113-132). *)
Definition addr_line (head : nid) (label : bytes) (t t6 : Z) : M bytes :=
  i ← GetFieldInt fuel head t;
  if negb (Z.eqb i 0) then int_line head label (fun i => inet_ntoa (u32 i)) t
  else
    s ← GetFieldStr fuel head t6;
    if bool_decide (s = []) then mret []
    else if Z.ltb (len s) 15 then crash else mret (field_line label (text_of AF_INET6 (take 16 (s ++ [0])))).

(** The children of the header whose tags are not known. *)
(** Models [show_oidb_bin] (src/knv/knv_show.cpp:158-162). *)
Definition unknown_children (head : nid) : M bytes :=
  c ← GetFirstChild fuel head;
  print_siblings fuel (fun n => x ← getn n; if Z.ltb 17 (n_tag x) then Print fuel (txt "[OIDB]        ") n else mret []) c.

(** Models [show_oidb_bin] (src/knv/knv_show.cpp:106-162). *)
Definition show_header (head : nid) : M bytes :=
  uin ← int_line head (txt "Uin") dec (oidb_tag "Uin");
  command ← int_line head (txt "Command") (fun i => uint_to_hstr (u32 i)) (oidb_tag "Command");
  service ← int_line head (txt "ServiceType") dec (oidb_tag "ServiceType");
  seq ← int_line head (txt "Sequence") dec (oidb_tag "Seq");
  client ← addr_line head (txt "ClientAddr") (oidb_tag "ClientAddr") (oidb_tag "ClientAddrIpv6");
  server ← addr_line head (txt "ServiceAddr") (oidb_tag "ServerAddr") (oidb_tag "ServerAddrIpv6");
  result ← int_line head (txt "Result") dec (oidb_tag "Result");
  error ← str_line_if head (txt "ErrorMsg") (oidb_tag "ErrorMsg");
  login ← str_line_if head (txt "LoginSig") (oidb_tag "LoginSig");
  user ← str_line_if head (txt "UserName") (oidb_tag "UserName");
  servicename ← str_line_if head (txt "Servicename") (oidb_tag "Servicename");
  flag ← int_line_if head (txt "Flag") dec (oidb_tag "Flag");
  from ← int_line_if head (txt "FromAddr") (fun i => inet_ntoa (u32 i)) (oidb_tag "FromAddr");
  local ← int_line_if head (txt "LocalAddr") (fun i => inet_ntoa (u32 i)) (oidb_tag "LocalAddr");
  module ← int_line_if head (txt "ModuleId") dec (oidb_tag "ModuleId");
  more ← unknown_children head;
  mret (txt "[OIDB]    +Header" ++ eol ++ concat [uin; command; service; seq; client; server; result; error; login; user; servicename;
    flag; from; local; module; more]).

(** The sum is one of 32 bits. *)
(** Models [show_oidb_bin] (src/knv/knv_show.cpp:77-82). *)
Definition oidb_fits (hlen blen len_ : Z) : bool := Z.leb (u32 (hlen + blen + 10)) (u32 len_).

(** Models [show_oidb_bin] (src/knv/knv_show.cpp:75-170). *)
Definition show_oidb_bin (bin_str : ptr) (len_ : Z) : M (Z * bytes) :=
  hlen ← ntohl_at (ptr_add bin_str 1);
  blen ← ntohl_at (ptr_add bin_str 5);
  if negb (oidb_fits hlen blen len_) then mret (-1, [])
  else
    head ← New fuel 1 KNV_NODE KNV_VARINT None (Some (kv_str hlen (ptr_add bin_str 9))) true;
    match head with
    | None => mret (-2, txt "Invalid OIDB header: " ++ errorstr ++ eol)
    | Some head =>
        body ← New fuel 1 KNV_NODE KNV_VARINT None (Some (kv_str blen (ptr_add bin_str (9 + hlen)))) true;
        match body with
        | None => KnvNode.Delete fuel head;; mret (-3, txt "Invalid OIDB body: " ++ errorstr ++ eol)
        | Some body =>
            h ← show_header head;
            b ← Print fuel (txt "[OIDB]    ") body;
            KnvNode.Delete fuel head;;
            KnvNode.Delete fuel body;;
            mret (0, h ++ txt "[OIDB]    +Body" ++ eol ++ b)
        end
    end.

(** Neither a packet of the protocol nor of OIDB: a tree. *)
(** Models [show_bin] (src/knv/knv_show.cpp:189-199). *)
Definition show_tree (s : ptr) (len_ : Z) : M (Z * bytes) :=
  n ← NewBin fuel s len_ false;
  match n with
  | Some n => t ← Print fuel (txt "[KNV]") n; KnvNode.Delete fuel n;; mret (0, t)
  | None => mret (-1, txt "Invalid knv package[len=" ++ dec len_ ++ txt "]" ++ eol)
  end.

(** [s] is the string made of the [len_] bytes at [bin_str]; the object is destroyed at every return. *)
(** Models [show_bin] (src/knv/knv_show.cpp:172-200). *)
Definition show_bin (bin_str s : ptr) (len_ : Z) : M (Z * bytes) :=
  p ← KnvProtocol_string fuel s len_ true;
  v ← IsValid p;
  r ← (if v : bool then KnvProtocol_Print (txt "[UC]") p
       else
         first ← char_at bin_str;
         '(shown, t) ← (if Z.ltb 10 len_ && Z.eqb first 0x28 then
                          last ← char_at (ptr_add bin_str (len_ - 1));
                          if Z.eqb last 0x29 then '(r, t) ← show_oidb_bin bin_str len_; mret (negb (Z.eqb r (-1)), t) else mret (false, [])
                        else mret (false, []));
         if shown : bool then mret (0, t) else show_tree s len_);
  Protocol.Delete fuel p;;
  mret r.

End print.

(** Lengths whose sum does not wrap around stay inside the packet. *)
Theorem oidb_fits_inside hlen blen len_ : 0 <= len_ < 2 ^ 31 -> 0 <= hlen -> 0 <= blen -> hlen + blen + 10 < 2 ^ 32 ->
  oidb_fits hlen blen len_ = true -> 9 + hlen + blen < len_.
Proof. unfold oidb_fits, u32. intros Hl Hh Hb Hs. rewrite !Z.mod_small by lia. lia. Qed.

(** ** Concrete output *)

Definition shown_by {A} (m : M A) : option A := match m empty_heap with Ret a _ => Some a | _ => None end.

(** [show_bin] of the bytes [s], with texts of addresses that are only marks. *)
Definition show_bytes (s : bytes) : M (Z * bytes) := fun h =>
  show_bin 50 (fun i => txt "ip" ++ dec i) (fun _ _ => txt "ip6") (txt "error") (Some (BExt 1, 0)) (Some (BExt 2, 0)) (len s)
    (set_buf (<[BExt 1 := s]> (<[BExt 2 := s ++ [0]]> (h_buf h))) h).

(** A tree of one number and one text that cannot be printed as it is. *)
Example tree_shown :
  shown_by (show_bytes (enc_field (9, VStr (enc_fields [(11, VInt 300); (12, VStr [1; 171])])))) =
    Some (0, txt "[KNV][+] tag=9, msg_size=9, parent=-1" ++ eol ++ txt "[KNV]    tag=11, type=Int, size=3, val=300" ++ eol ++
      txt "[KNV]    tag=12, type=String, length=2, val=01AB" ++ eol).
Proof. vm_compute. reflexivity. Qed.

(** A new packet, and an OIDB packet: its frame is read like one of the protocol first. *)
Definition lines (l : list bytes) : bytes := concat ((fun t => t ++ eol) <$> l).
Example packet_shown :
  shown_by (p ← KnvProtocol_new 50 0x4001 6 7; KnvProtocol_Print 50 (fun _ _ => txt "ip6") (txt "> ") p) =
    Some (0, lines [txt "> [#] cmd=0x4001:CacheReadCommand, subcmd=6, seq=7, retcode=0x0:Successful, retmsg=" ++ [34; 34];
      txt "> [+] tag=3507, msg_size=16, parent=-1"; txt ">     [+] tag=2989, msg_size=12, parent=3507";
      txt ">         [m] tag=2, type=Int, size=4, val=16385"; txt ">         [m] tag=3, type=Int, size=2, val=6";
      txt ">         [m] tag=4, type=Int, size=2, val=7"]).
Proof. vm_compute. reflexivity. Qed.

Definition oidb (h b : bytes) : bytes := [0x28] ++ be32 (len h) ++ be32 (len b) ++ h ++ b ++ [0x29].
Definition show_oidb (s : bytes) : M (Z * bytes) := fun h =>
  show_oidb_bin 50 (fun i => txt "ip" ++ dec i) (fun _ _ => txt "ip6") (txt "error") (Some (BExt 1, 0)) (len s) (set_buf (<[BExt 1 := s]> (h_buf h)) h).

Example oidb_shown :
  let s := oidb (enc_fields [(1, VInt 1000); (2, VInt 0x4007); (4, VInt 9); (5, VInt 77); (8, VStr (txt "no")); (16, VStr (replicate 16 1)); (20, VInt 5)])
                (enc_fields [(11, VStr (txt "ab"))]) in
  shown_by (show_oidb s) =
    Some (0, lines [txt "[OIDB]    +Header"; txt "[OIDB]        Uin: 1000"; txt "[OIDB]        Command: 0x4007"; txt "[OIDB]        ServiceType: 0";
      txt "[OIDB]        Sequence: 9"; txt "[OIDB]        ClientAddr: ip77"; txt "[OIDB]        ServiceAddr: ip6"; txt "[OIDB]        Result: 0";
      txt "[OIDB]        ErrorMsg: no"; txt "[OIDB]        tag=20, type=Int, size=3, val=5"; txt "[OIDB]    +Body";
      txt "[OIDB]    [+] tag=1, msg_size=6, parent=-1"; txt "[OIDB]        tag=11, type=String, length=2, val=ab"]) /\
  (fst <$> shown_by (show_bytes s)) = Some 0.
Proof. split; vm_compute; reflexivity. Qed.

(** A header length of 4294967286 passes the test in a packet of eleven bytes; an address of four bytes is read as one of sixteen. *)
Example oidb_wraps :
  oidb_fits 4294967286 0 11 = true /\ show_oidb (oidb (enc_fields [(1, VInt 1); (15, VStr [1; 2; 3; 4])]) (enc_fields [(11, VInt 1)])) empty_heap = Crash.
Proof. split; vm_compute; reflexivity. Qed.
